(* ===== verification/_CoqProject ===== *)
-Q . S2P
Prelude.v
Limine.v
Types.v
Machine.v
Memory.v
Sample.v
CString.v
Video.v
Printf.v
Log.v
Allocator.v
Pmm.v
PmmInit.v
Macros.v
PageTable.v
Vmm.v
VmmInit.v
Pointers.v
Gdt.v
AcpiTables.v
Interleave.v
Apic.v
Ps2.v
Idt.v
Acpi.v
Protocol.v
ApicInit.v
Smp.v
Trampoline.v
Cpus.v
Kern.v
Boot.v
Idle.v
Confined.v
Processors.v
ProcStart.v
Interrupts.v
Preempt.v
AcpiIrq.v
SmpIrq.v
BootIrq.v
