(* ===== verification/Prelude.v ===== *)
(** * neobird64: a verification development

    neobird64 is a hobby x86-64 kernel in C, started by the Limine bootloader
    (src/kern/).  [_start] sets up a terminal on the first framebuffer, the
    segment and interrupt tables, a bitmap allocator of physical memory, the
    interrupt controllers found through ACPI, four-level page tables, the other
    processors, and then idles; from there on everything happens in interrupt
    handlers (keyboard and timer).

    ** The model

    Machine.v holds the kernel state [kstate] (RAM, the trace of observable
    events, the hardware, the bootloader's answers, the link addresses and one
    record of globals per translation unit) and the monad [M] every C function
    is written in.  A run ends as [Done] (it returned), [Halted] (cli; hlt, or
    the final idle loop), [Fault] (what C leaves undefined or the processor
    traps: a page fault, NULL, an index out of an array, a bad shift, an argument
    list that does not fit) or [OutOfFuel].  Pointers are addresses: Memory.v
    resolves them in the address space the bootloader hands over (a direct map of
    RAM in the higher half and the identity map of the low 4 GiB without its
    first page).  Loading CR3 is an event of the trace and does not change that
    resolution; Pointers.v shows that it need not, as the kernel's own tables map
    every pointer that stays in use to the same byte.
    Devices (ports, MSRs, APIC registers) are an arbitrary function of the trace
    so far, so every theorem holds for any device unless it says otherwise; what
    a theorem says of them is said of the trace less its console output
    ([device]).  Loading a segment register or the task register reads the
    descriptor in the table, marks it accessed or busy, and faults with the
    selector as error code if it is not one of the kind ([load_selector] in Gdt.v); a
    far return or IRETQ to a segment that is not a 64-bit one is a fault too, but on
    that segment's limit, with error code 0 ([far_return]).
    Integers are Z with C's wrap-around written out ([u8] ... [u64], [s32] and
    the scope [c_scope]).

    ** Files, and the code they model (under src/kern/)

    - Prelude.v: integer types, tactics, hint databases, lemmas on bits and lists.
    - Limine.v: the boot protocol's answers, as values (include/limine.h).
      Protocol.v: the requests and the answers' structures as they lie in memory,
      and the kernel's expressions that read them, each as it stands where it is used.
    - Types.v: the C structures (sys/gdt.h, idt.h, acpi/apic.h) and the globals.
    - Machine.v, Memory.v: state, monad, weakest preconditions [wp], memory.
    - Sample.v: the small machine on which the witnesses run.
    - CString.v: include/string.c.  Macros.v: include/macros.h.
    - Video.v: include/video.c (numbers, characters, toupper).
    - Printf.v: include/printf.c.  Log.v: include/log.c and io.c.
    - Allocator.v: the class [BlockAllocator], what an allocator of 4 KiB blocks
      promises its client, over the set of blocks the client holds.
    - Pmm.v, PmmInit.v: mm/pmm.c and include/neobird64.c; [pmm_block_allocator]
      discharges the class.
    - PageTable.v: page tables as the processor walks them, on abstract entries.
    - Vmm.v: mm/vmm.c over any [BlockAllocator].  VmmInit.v: the address space
      [vmm_init] builds, as a list of regions.  Pointers.v: the pointers it keeps.
    - Gdt.v: sys/gdt.c, gdt.asm.  Idt.v: sys/idt.c, idt.asm.
    - AcpiTables.v: the packed structures of sys/acpi/acpi.h and their offsets.
    - Ps2.v: sys/ps2/ps2.c.  Apic.v: sys/acpi/apic.c up to the lookups;
      Acpi.v: sys/acpi/acpi.c and the initialisation half of apic.c; ApicInit.v:
      what that half leaves in the local APIC and the I/O APIC.
    - Smp.v: sys/smp/smp.c, each processor's run.
    - Interleave.v: programs cut into steps (a free monad [prog]) and schedules
      ([run]) of several on one state.  Cpus.v: the timer's handler on several
      processors at once, over one tick count.  Trampoline.v: the first half of
      [ap_trampoline] on several processors, C store by C store (the Makefile
      compiles with -O0), over the one descriptor table.
    - Processors.v: all of [ap_trampoline] on all processors, as a state machine
      ([sys_step]): each processor has devices and a trace of its own, and a stage;
      the memory and the globals are shared, the descriptor table among them.
      Confined.v: code that runs the same whatever the others change.  ProcStart.v: the
      machine's invariant and its end.
    - Kern.v: kern.c.  Boot.v: a boot from [_start] to the idle loop, phase by
      phase.  Idle.v: the interrupts of the idle processor, as a step relation over
      the stubs and handlers of Idt.v.
    - Interrupts.v: code that does not look at what the handlers change
      ([Insensitive]), and its runs with interrupts anywhere ([interrupted]), with
      the keyboard masked or not.  Preempt.v: code that does look, as programs of
      steps with interrupts between them ([irun]), with rules for all runs ([iwp])
      and for the existence of one ([ewp], [halts]).  AcpiIrq.v: the end of
      [init_acpi] that way, SmpIrq.v: [smp_init].  BootIrq.v: the boot from where
      [init_apic] lets the interrupts in.

    Operations keep their C names; [x ← m; k] is a C statement reading into x.
    A long function is cut at its phases ([pmm_init], [vmm_init], [init_acpi],
    [init_apic], [_start], [exception_handler]'s report), each phase a definition of
    its own.  A function whose steps interleave with others' is a program of steps,
    with [_p] after its name and a lemma [..._same] that running it alone is the
    function.

    ** What the theorems show

    - Virtual memory: under the invariant [vmm_inv] (the tables held form a tree,
      each its own block), [vmm_map_page] makes exactly the page of its address
      translate to the given entry and leaves every other translation and all
      memory outside the tables alone, or halts when blocks run out;
      [vmm_free_page] undoes it.  Both preserve the invariant.  [vmm_init], given
      enough blocks, leaves exactly the address space of its list of regions, in
      which the kernel's text and read-only data cannot be written and its data
      cannot be executed, and in which the pointers into the low 4 GiB and into the
      memory map's entries it keeps lead where they did ([vmm_init_keeps_pointers]).
    - Physical memory: [pmm_alloc_block] and [pmm_free_block] implement the
      abstract allocator on sets of blocks (module [Spec]); in any sequence of calls
      the free and the held blocks partition the initial ones; [pmm_init] leaves
      exactly the bits its memory map calls for and establishes the invariant.
    - Text: printf is its two-pass reference (parse, then render), is safe on a
      typed argument list, and numbers read back to what was printed.
    - Strings: the routines copy, fill, compare and count as specified,
      overlapping copies included.
    - Tables: the descriptors decode, as the processor reads them, to the
      segments and gates intended; an interrupt's frame restores the processor.
    - Devices: the MADT scan lists the table's records, a GSI lookup returns the
      first override, the keyboard is its state machine and its controller's
      start-up ends, sleeping and the PM timer delay return after enough ticks.
      With several processors [apic_timer] interleaves with itself: each interrupt
      is still acknowledged once, the count stays between bounds, and ticks may be
      lost ([interleaved_ticks], [ticks_lost]).
    - Starting processors: all of them fill in and load the same descriptor table.
      One at a time, as the sleeps of [smp_init] arrange, they all get through
      ([tables_one_by_one]).  However they interleave, the table keeps its bases,
      limits and privileges and only two faults are possible
      ([tables_interleaved]); both happen ([tables_race]), the busy TSS and the
      code segment without its flags, and the latter also hits a running processor
      that takes an interrupt at the wrong step ([interrupt_window]).
      The whole of the trampoline, calibrations included, in any order and with the
      interrupts of those that run, which load the code segment from the table that
      others may be writing: nothing but the table, the ticks and the keyboard's state
      changes, only those two faults stop a processor, and one that gets through has
      done exactly what it does alone ([processors_safe]).  Their steps never go on for
      ever or get stuck, and when a processor is let go, interrupted or returns from an
      interrupt only while none is in the table, none faults and all can come to idle
      ([processors_idle]).  Nothing in the code makes sure of such a schedule: the
      sleeps make it likely.
      [init_apic] leaves exactly the keyboard's pin routed and the timer running;
      [init_acpi] panics without the tables it needs; a processor sent to the
      trampoline ends up idle with the kernel's tables.
    - Boot: [boot_idles] composes all of it: from a machine that meets what the
      components ask for (the record [bootable]), [_start] reaches the idle loop,
      with the devices' trace and the address space given exactly.  Without ACPI's
      root pointer or a memory map it halts, with what is set up until then.
    - Boot protocol: the model starts from the bootloader's answers as values;
      [boot_answers_read] shows that each expression by which the kernel reads an
      answer gives that value, from a bootloader that finds a request by its identifier
      and lays the answers out as the protocol says.
    - Interrupted: whatever timer and keyboard interrupts cut the memory manager's
      functions, and wherever, they do what they do undisturbed
      ([memory_manager_interrupted]), [vmm_init] included
      ([vmm_init_interrupted]).  [smp_init], whose sleeps count the interrupts, still
      sends the processors off in order, each two ticks at least after the one before,
      by the clock of the timer's interrupts ([smp_init_interrupted]).
      From the sti in the middle of [init_apic] on, the boot reaches the idle loop, with
      the keyboard's controller given its commands in order ([boot_interrupted]).
      Before it, the interrupt flag is set from [idt_load] to the cli of [init_apic];
      the trace, and the hypothesis that no device raises an interrupt before the kernel
      has programmed one, show that nothing comes in that stretch.
    - One interrupt: the handler is given each register where the stub saved it and all
      come back ([interrupt_frame]); an exception's report is what its frame holds, line
      by line ([interrupt_dispatch]).
    - At work: [interrupts_served] lets timer and keyboard interrupts come in any
      order and number while the processor idles, with any scan codes, and gives the
      result: the text on the console is what the scan codes read type, the ticks are
      counted, each interrupt is acknowledged once, up to the first code past the
      keyboard's table, if there is one, where the handler faults.  [kernel_serves]
      composes it with the boot.
    - Where the code does something other than it means to, a theorem states what
      it does (bits cleared past the allocator's bitmap, block 0 released by
      freeing an unmapped page, reads past the key table, a MADT record of length
      0, error codes, the TSS descriptor).

    ** Fuel

    A [for] loop runs with the fuel its bounds give ([iterations]), which is
    exact, so it never runs out.  [strlen] runs for one byte more than RAM has:
    a longer walk leaves RAM and faults.  Loops that wait for a device take the number of polls as an
    argument ([polls]); theorems about them say how many are enough, given when
    the device answers.  The MADT scan's fuel is the table's length.

    ** Not modelled

    flanterm (a submodule: its calls are events), the bootloader and the features
    of limine.h the kernel never requests, the linker script and the Makefile, the
    commented-out font code of video.c.

    Of what happens at the same time: in the processors' machine an interrupt is one
    step from the load of its gate's segment to the end of its handler, and the return
    from it another; the handlers' updates of the tick count are single steps there
    (they are cut in Cpus.v).  The texts several processors print are kept apart by
    processor, since what flanterm makes of calls that overlap is not in the
    repository.  The keyboards of the machine of processors, and that of a boot with
    interrupts, send only codes the keyboard's table covers; what another code does is
    in [interrupts_served].  The keyboard is taken to be silent until its redirection
    entry has its vector.

    ** Plan

    Every function of the repository's sources is modelled.  What could be added is
    the boot processor's [smp_init] as one more processor of the machine, its sleeps
    counted by the ticks of all, which would show when the sleeps are too short. *)

From stdpp Require Export base gmap sets list strings list_numbers.
From Stdlib Require Export ZArith Lia.
From Stdlib Require Export Strings.Byte.
From coqutil Require Export Z.bitblast.

#[global] Open Scope Z_scope.
#[global] Set Default Proof Using "Type".

(** ** C integer types

    An unsigned w-bit object holds its value modulo 2^w; a conversion to [int]
    wraps into the signed range, which is what the compiler of the Makefile
    (gcc) documents for out-of-range conversions. *)

Definition u8 (z : Z) : Z := z mod 2 ^ 8.
Definition u16 (z : Z) : Z := z mod 2 ^ 16.
Definition u32 (z : Z) : Z := z mod 2 ^ 32.
Definition u64 (z : Z) : Z := z mod 2 ^ 64.

Definition s32 (z : Z) : Z :=
  let r := z mod 2 ^ 32 in if r <? 2 ^ 31 then r else r - 2 ^ 32.

(** Arithmetic on [uint64_t], modulo 2^64. *)
Declare Scope c_scope.
Delimit Scope c_scope with C.
Notation "a ⊕ b" := (u64 (a + b)) (at level 50, left associativity) : c_scope.
Notation "a ⊖ b" := (u64 (a - b)) (at level 50, left associativity) : c_scope.
Notation "a ⊗ b" := (u64 (a * b)) (at level 40, left associativity) : c_scope.
#[global] Open Scope c_scope.

(** Bytes of memory. *)
Definition byte_val (b : byte) : Z := Z.of_N (Byte.to_N b).

Definition to_byte (z : Z) : byte :=
  default x00 (Byte.of_N (Z.to_N (z mod 2 ^ 8))).

(** Characters of string literals as their codes. *)
Fixpoint codes (s : string) : list Z :=
  match s with
  | EmptyString => []
  | String a r => Z.of_N (Ascii.N_of_ascii a) :: codes r
  end.

(** The [n] consecutive integers from [lo]. *)
Fixpoint zrange (lo : Z) (n : nat) : list Z :=
  match n with
  | O => []
  | S n => lo :: zrange (lo + 1) n
  end.

(** ** Tactics *)

(** Case analysis on the boolean comparisons of a goal, closing the branches
    arithmetic decides. *)
Ltac zbool_step :=
  match goal with
  | |- context [?a <? ?b] => destruct (Z.ltb_spec a b)
  | |- context [?a <=? ?b] => destruct (Z.leb_spec a b)
  | |- context [?a =? ?b] => destruct (Z.eqb_spec a b)
  end; try (exfalso; lia).

Ltac zbool := repeat zbool_step; simpl.

(** [lia] with quotient and remainder. *)
Ltac zdivmod := Z.div_mod_to_equations; nia.
Ltac ldivmod := Z.div_mod_to_equations; lia.

(** ** Lemmas on C integers *)

Create HintDb cint.
Create Rewrite HintDb cint.
Create HintDb wp.
Create Rewrite HintDb run.

Lemma u8_small z : 0 <= z < 2 ^ 8 -> u8 z = z.
Proof. apply Z.mod_small. Qed.

Lemma u16_small z : 0 <= z < 2 ^ 16 -> u16 z = z.
Proof. apply Z.mod_small. Qed.

Lemma u32_small z : 0 <= z < 2 ^ 32 -> u32 z = z.
Proof. apply Z.mod_small. Qed.

Lemma u64_small z : 0 <= z < 2 ^ 64 -> u64 z = z.
Proof. apply Z.mod_small. Qed.

Lemma u8_range z : 0 <= u8 z < 2 ^ 8.
Proof. apply Z.mod_pos_bound. lia. Qed.

Lemma u16_range z : 0 <= u16 z < 2 ^ 16.
Proof. apply Z.mod_pos_bound. lia. Qed.

Lemma u32_range z : 0 <= u32 z < 2 ^ 32.
Proof. apply Z.mod_pos_bound. lia. Qed.

Lemma u64_range z : 0 <= u64 z < 2 ^ 64.
Proof. apply Z.mod_pos_bound. lia. Qed.

Lemma s32_small z : 0 <= z < 2 ^ 31 -> s32 z = z.
Proof. intros H. unfold s32. rewrite Z.mod_small by lia. zbool; lia. Qed.

Lemma s32_range z : - 2 ^ 31 <= s32 z < 2 ^ 31.
Proof.
  unfold s32. pose proof (Z.mod_pos_bound z (2 ^ 32) ltac:(lia)). zbool; lia.
Qed.

Lemma u64_s32 z : 0 <= z < 2 ^ 31 -> u64 (s32 z) = z.
Proof. intros H. rewrite s32_small by lia. apply u64_small. lia. Qed.

#[export] Hint Rewrite u8_small u16_small u32_small u64_small s32_small
  using lia : cint.
#[export] Hint Resolve u8_range u16_range u32_range u64_range s32_range : cint.

Ltac cint := autorewrite with cint in *.

(** ** Lemmas on bytes *)

Lemma byte_val_range b : 0 <= byte_val b < 2 ^ 8.
Proof. unfold byte_val. pose proof (Byte.to_N_bounded b). lia. Qed.

#[export] Hint Resolve byte_val_range : cint.

Lemma byte_val_to_byte z : byte_val (to_byte z) = z mod 2 ^ 8.
Proof.
  unfold byte_val, to_byte.
  pose proof (Z.mod_pos_bound z (2 ^ 8) ltac:(lia)) as Hz.
  destruct (Byte.of_N (Z.to_N (z mod 2 ^ 8))) as [b|] eqn:E; simpl default.
  - apply Byte.to_of_N in E. lia.
  - apply Byte.of_N_None_iff in E. lia.
Qed.

Lemma to_byte_val b : to_byte (byte_val b) = b.
Proof.
  unfold to_byte. rewrite Z.mod_small by apply byte_val_range.
  unfold byte_val. rewrite N2Z.id, Byte.of_to_N. done.
Qed.

Lemma byte_val_inj b1 b2 : byte_val b1 = byte_val b2 -> b1 = b2.
Proof. intros H. by rewrite <- (to_byte_val b1), H, to_byte_val. Qed.

Lemma to_byte_mod z : to_byte (z mod 2 ^ 8) = to_byte z.
Proof. unfold to_byte. by rewrite Zmod_mod. Qed.

#[global] Instance byte_eq_dec : EqDecision byte.
Proof. intros x y. apply Byte.byte_eq_dec. Defined.

(** ** Lemmas on integer ranges *)

Lemma length_zrange lo n : length (zrange lo n) = n.
Proof. revert lo. induction n; intros; simpl; auto. Qed.

Lemma elem_of_zrange x lo n : x ∈ zrange lo n <-> lo <= x < lo + Z.of_nat n.
Proof.
  revert lo. induction n as [|n IH]; intros lo; simpl.
  - rewrite elem_of_nil. lia.
  - rewrite elem_of_cons, IH. lia.
Qed.

Lemma lookup_zrange lo n i :
  (i < n)%nat -> zrange lo n !! i = Some (lo + Z.of_nat i).
Proof.
  revert lo i. induction n as [|n IH]; intros lo [|i] Hi; try lia; simpl.
  - f_equal. lia.
  - rewrite IH by lia. f_equal. lia.
Qed.

Lemma list_elem_of_split_zrange lo n x :
  lo <= x < lo + Z.of_nat n -> exists l1 l2, zrange lo n = l1 ++ x :: l2.
Proof. intros Hx. by apply list_elem_of_split, elem_of_zrange. Qed.

(** A decidable statement about every integer of a range, checked by running
    the range. *)
Lemma zrange_forallb (f : Z -> bool) lo n :
  forallb f (zrange lo n) = true ->
  forall x, lo <= x < lo + Z.of_nat n -> f x = true.
Proof.
  intros H x Hx. rewrite forallb_forall in H. apply H.
  apply list_elem_of_In, elem_of_zrange, Hx.
Qed.
