(* ===== verification/Limine.v ===== *)
(** Boot information: the structures of the Limine boot protocol (limine.h)
    that the kernel reads.  A pointer the bootloader may leave NULL is an
    option; an array of pointers is the list of the objects it points to. *)

From S2P Require Import Prelude.

Definition LIMINE_MEMMAP_USABLE : Z := 0.
Definition LIMINE_MEMMAP_RESERVED : Z := 1.
Definition LIMINE_MEMMAP_ACPI_RECLAIMABLE : Z := 2.
Definition LIMINE_MEMMAP_ACPI_NVS : Z := 3.
Definition LIMINE_MEMMAP_BAD_MEMORY : Z := 4.
Definition LIMINE_MEMMAP_BOOTLOADER_RECLAIMABLE : Z := 5.
Definition LIMINE_MEMMAP_KERNEL_AND_MODULES : Z := 6.
Definition LIMINE_MEMMAP_FRAMEBUFFER : Z := 7.

(** struct limine_memmap_entry *)
Record limine_memmap_entry := MemmapEntry {
  me_base : Z;
  me_length : Z;
  me_type : Z;
}.

(** struct limine_memmap_response *)
Record limine_memmap_response := MemmapResponse {
  mr_revision : Z;
  mr_entry_count : Z;
  mr_entries : list limine_memmap_entry;
}.

(** struct limine_hhdm_response *)
Record limine_hhdm_response := HhdmResponse {
  hr_revision : Z;
  hr_offset : Z;
}.

(** struct limine_kernel_address_response *)
Record limine_kernel_address_response := KernelAddressResponse {
  kr_revision : Z;
  kr_physical_base : Z;
  kr_virtual_base : Z;
}.

(** struct limine_rsdp_response *)
Record limine_rsdp_response := RsdpResponse {
  rr_revision : Z;
  rr_address : Z;
}.

(** struct limine_framebuffer, the fields the kernel reads *)
Record limine_framebuffer := Framebuffer {
  fb_address : Z;
  fb_width : Z;
  fb_height : Z;
  fb_pitch : Z;
}.

(** struct limine_framebuffer_response *)
Record limine_framebuffer_response := FramebufferResponse {
  fr_revision : Z;
  fr_framebuffer_count : Z;
  fr_framebuffers : list limine_framebuffer;
}.

(** struct limine_smp_info (x86-64) *)
Record limine_smp_info := SmpInfo {
  si_processor_id : Z;
  si_lapic_id : Z;
  si_extra_argument : Z;
}.

(** struct limine_smp_response (x86-64) *)
Record limine_smp_response := SmpResponse {
  sr_revision : Z;
  sr_flags : Z;
  sr_bsp_lapic_id : Z;
  sr_cpu_count : Z;
  sr_cpus : list limine_smp_info;
}.

(** The [response] fields of the kernel's requests, as the bootloader left
    them. *)
Record boot_info := BootInfo {
  memmap_request_response : option limine_memmap_response;
  hhdm_request_response : option limine_hhdm_response;
  kernel_addr_request_response : option limine_kernel_address_response;
  rsdp_request_response : option limine_rsdp_response;
  framebuffer_request_response : option limine_framebuffer_response;
  smp_request_response : option limine_smp_response;
}.
