(* ===== verification/Types.v ===== *)
(** The kernel's global variables: the C structures they are made of and one
    record per translation unit, gathered in the kernel state of Machine.v. *)

From S2P Require Import Prelude Limine.

(** *** gdt.h *)

Record gdtdesc := Gdtdesc {
  gd_limit_low : Z;
  gd_base_low : Z;
  gd_base_middle : Z;
  gd_access : Z;
  gd_granularity : Z;
  gd_base_high : Z;
}.

Record gdtptr := Gdtptr { gp_limit_low : Z; gp_base : Z }.

(** *** idt.h *)

Record idtentry := Idtentry {
  ie_isr_low : Z;
  ie_kernel_cs : Z;
  ie_ist : Z;
  ie_attributes : Z;
  ie_isr_mid : Z;
  ie_isr_high : Z;
  ie_reserved : Z;
}.

Record idtrr := Idtrr { ir_limit : Z; ir_base : Z }.

Record int_frame := IntFrame {
  f_r15 : Z; f_r14 : Z; f_r13 : Z; f_r12 : Z; f_r11 : Z; f_r10 : Z;
  f_r9 : Z; f_r8 : Z; f_rdi : Z; f_rsi : Z; f_rbp : Z; f_rdx : Z;
  f_rcx : Z; f_rbx : Z; f_rax : Z;
  f_int_no : Z; f_err : Z;
  f_rip : Z; f_cs : Z; f_ss : Z; f_rsp : Z; f_rflags : Z;
}.

(** *** apic.h *)

Record madt_ics_t := MadtIcs {
  ic_address : Z;
  ic_type : Z;
  ic_apic_id : Z;
  ic_present : bool;
}.

(** *** Globals, by translation unit *)

(** pmm.c *)
Record pmm_globals := PmmGlobals {
  memmap_entry_count : Z;
  pmm_usable_addr : Z;
  pmm_usable_top : Z;
  pmm_free_blocks : Z;
  pmm_block_count : Z;
  pmm_mem_size : Z;
  pmm_bitmap : Z;
  memmap : option limine_memmap_response;
}.

(** vmm.c *)
Record vmm_globals := VmmGlobals {
  kernel_page_map : Z;  (* its only field, pml4addr *)
  hhdmoffset : Z;
  kernel_pml4addr : Z;
}.

(** gdt.c *)
Record gdt_globals := GdtGlobals {
  gdt : list gdtdesc;
  gdtr : gdtptr;
  tss : list byte;
}.

(** idt.c *)
Record idt_globals := IdtGlobals {
  idt : list idtentry;
  idtpr : idtrr;
}.

(** acpi.c; the pointers are addresses, 0 for NULL *)
Record acpi_globals := AcpiGlobals {
  rsdt : Z;
  xsdt : Z;
  fadt : Z;
  madt : Z;
}.

(** apic.c *)
Record apic_globals := ApicGlobals {
  lapic_address : Z;
  lapic_addr : Z;
  ioapic_address : Z;
  apic_timer_ticks : Z;
  ics_array : list madt_ics_t;
}.

(** Addresses the linker assigns: the symbols of linker.ld and the objects and
    functions whose address the kernel takes. *)
Record link_map := LinkMap {
  text_start_addr : Z; text_end_addr : Z;
  rodata_start_addr : Z; rodata_end_addr : Z;
  data_start_addr : Z; data_end_addr : Z;
  gdt_addr : Z;
  tss_addr : Z;
  idt_addr : Z;
  s_isr : Z -> Z;
  ap_trampoline_addr : Z;
}.

(** Static storage starts out zeroed. *)
Definition gdtdesc_zero : gdtdesc := Gdtdesc 0 0 0 0 0 0.
Definition idtentry_zero : idtentry := Idtentry 0 0 0 0 0 0 0.
Definition madt_ics_zero : madt_ics_t := MadtIcs 0 0 0 false.

Definition pmm_globals_init : pmm_globals := PmmGlobals 0 0 0 0 0 0 0 None.
Definition vmm_globals_init : vmm_globals := VmmGlobals 0 0 0.
Definition gdt_globals_init : gdt_globals :=
  GdtGlobals (replicate 7 gdtdesc_zero) (Gdtptr 0 0) (replicate 104 x00).
Definition idt_globals_init : idt_globals :=
  IdtGlobals (replicate 256 idtentry_zero) (Idtrr 0 0).
Definition acpi_globals_init : acpi_globals := AcpiGlobals 0 0 0 0.
Definition apic_globals_init : apic_globals :=
  ApicGlobals 0 0 0 0 (replicate 64 madt_ics_zero).
