(* ===== verification/Machine.v ===== *)
(** The machine the kernel runs on and the monad its code is written in:
    physical memory behind the bootloader's direct map, the devices as an
    oracle over the trace of observable events, the kernel's globals, and
    results that tell a normal return from a halted processor, a fault
    (undefined behaviour or an access outside mapped memory) and a loop that
    used up its fuel.  Then the weakest preconditions the proofs are made
    with. *)

From S2P Require Import Prelude Limine Types.

(** ** Observable events *)

Inductive instr :=
  | Cli | Sti | Hlt | Nop
  | Lgdt (limit base : Z) | LoadSegs (ds cs : Z) | Ltr (sel : Z)
  | Lidt (limit base : Z)
  | MovCr3 (pml4 : Z) | ReloadCr3.

Inductive event :=
  | EvWrite (bs : list Z)                 (* bytes handed to flanterm_write *)
  | EvOutb (port val : Z)
  | EvInb (port val : Z)
  | EvInl (port val : Z)
  | EvMmioRead (addr val : Z)
  | EvMmioWrite (width addr val : Z)
  | EvMsrRead (msr val : Z)
  | EvMsrWrite (msr val : Z)
  | EvSmpGoto (cpu target : Z)
  | EvAsm (i : instr).

(** What the hardware is asked for. *)
Inductive devreq :=
  | RInb (port : Z)
  | RInl (port : Z)
  | RMmio (addr : Z)
  | RMsr (msr : Z).

(** The hardware and the bootloader's address space: the size of RAM, the
    offset of the higher-half direct map, the answers of the devices and the
    timer interrupts pending at a point of the trace. *)
Record hardware := Hardware {
  hw_ram_size : Z;
  hw_direct_map : Z;
  hw_dev : list event -> devreq -> Z;
  hw_irq : list event -> nat;
}.

Record kstate := KState {
  k_ram : gmap Z byte;
  k_trace : list event;
  k_hw : hardware;
  k_boot : boot_info;
  k_link : link_map;
  k_pmm : pmm_globals;
  k_vmm : vmm_globals;
  k_gdt : gdt_globals;
  k_idt : idt_globals;
  k_acpi : acpi_globals;
  k_apic : apic_globals;
  keyboard_state : Z;
  state_single_processor : bool;
}.

Definition set_ram (x : gmap Z byte) (s : kstate) : kstate :=
  KState x (k_trace s) (k_hw s) (k_boot s) (k_link s) (k_pmm s) (k_vmm s) (k_gdt s)
    (k_idt s) (k_acpi s) (k_apic s) (keyboard_state s) (state_single_processor s).
Definition set_trace (x : list event) (s : kstate) : kstate :=
  KState (k_ram s) x (k_hw s) (k_boot s) (k_link s) (k_pmm s) (k_vmm s) (k_gdt s)
    (k_idt s) (k_acpi s) (k_apic s) (keyboard_state s) (state_single_processor s).
Definition set_pmm (x : pmm_globals) (s : kstate) : kstate :=
  KState (k_ram s) (k_trace s) (k_hw s) (k_boot s) (k_link s) x (k_vmm s) (k_gdt s)
    (k_idt s) (k_acpi s) (k_apic s) (keyboard_state s) (state_single_processor s).
Definition set_vmm (x : vmm_globals) (s : kstate) : kstate :=
  KState (k_ram s) (k_trace s) (k_hw s) (k_boot s) (k_link s) (k_pmm s) x (k_gdt s)
    (k_idt s) (k_acpi s) (k_apic s) (keyboard_state s) (state_single_processor s).
Definition set_gdt (x : gdt_globals) (s : kstate) : kstate :=
  KState (k_ram s) (k_trace s) (k_hw s) (k_boot s) (k_link s) (k_pmm s) (k_vmm s) x
    (k_idt s) (k_acpi s) (k_apic s) (keyboard_state s) (state_single_processor s).
Definition set_idt (x : idt_globals) (s : kstate) : kstate :=
  KState (k_ram s) (k_trace s) (k_hw s) (k_boot s) (k_link s) (k_pmm s) (k_vmm s) (k_gdt s)
    x (k_acpi s) (k_apic s) (keyboard_state s) (state_single_processor s).
Definition set_acpi (x : acpi_globals) (s : kstate) : kstate :=
  KState (k_ram s) (k_trace s) (k_hw s) (k_boot s) (k_link s) (k_pmm s) (k_vmm s) (k_gdt s)
    (k_idt s) x (k_apic s) (keyboard_state s) (state_single_processor s).
Definition set_apic (x : apic_globals) (s : kstate) : kstate :=
  KState (k_ram s) (k_trace s) (k_hw s) (k_boot s) (k_link s) (k_pmm s) (k_vmm s) (k_gdt s)
    (k_idt s) (k_acpi s) x (keyboard_state s) (state_single_processor s).
Definition set_keyboard_state (x : Z) (s : kstate) : kstate :=
  KState (k_ram s) (k_trace s) (k_hw s) (k_boot s) (k_link s) (k_pmm s) (k_vmm s) (k_gdt s)
    (k_idt s) (k_acpi s) (k_apic s) x (state_single_processor s).
Definition set_state_single_processor (x : bool) (s : kstate) : kstate :=
  KState (k_ram s) (k_trace s) (k_hw s) (k_boot s) (k_link s) (k_pmm s) (k_vmm s) (k_gdt s)
    (k_idt s) (k_acpi s) (k_apic s) (keyboard_state s) x.

(** ** The monad *)

Inductive fault :=
  | PageFault (va : Z)
  | NullDeref
  | OutOfBounds (index : Z)
  | BadShift (count : Z)
  | Uninitialised (index : Z)
  | BadVarargs
  | GeneralProtection (code : Z).

Inductive outcome (A : Type) :=
  | Done (a : A) (s : kstate)
  | Halted (s : kstate)
  | Fault (f : fault) (s : kstate)
  | OutOfFuel.
Arguments Done {A} a s.
Arguments Halted {A} s.
Arguments Fault {A} f s.
Arguments OutOfFuel {A}.

Definition M (A : Type) : Type := kstate -> outcome A.

#[global] Instance M_ret : MRet M := fun A a s => Done a s.
#[global] Instance M_bind : MBind M := fun A B f m s =>
  match m s with
  | Done a s' => f a s'
  | Halted s' => Halted s'
  | Fault e s' => Fault e s'
  | OutOfFuel => OutOfFuel
  end.

Definition gets {A} (f : kstate -> A) : M A := fun s => Done (f s) s.
Definition modify (f : kstate -> kstate) : M unit := fun s => Done tt (f s).
Definition throw {A} (e : fault) : M A := fun s => Fault e s.
Definition halt {A} : M A := fun s => Halted s.
Definition out_of_fuel {A} : M A := fun s => OutOfFuel.

Definition emit (e : event) : M unit :=
  modify (fun s => set_trace (k_trace s ++ [e]) s).

Definition asm (i : instr) : M unit := emit (EvAsm i).

(** Ask the hardware, and record the answer. *)
Definition request (r : devreq) (ev : Z -> event) : M Z := fun s =>
  let v := hw_dev (k_hw s) (k_trace s) r in
  Done v (set_trace (k_trace s ++ [ev v]) s).

(** An object behind a pointer that may be NULL, and the element of an array of
    pointers. *)
Definition deref {A} (o : option A) : M A :=
  match o with Some a => mret a | None => throw NullDeref end.

Definition index {A} (l : list A) (i : Z) : M A :=
  match (if decide (0 <= i) then l !! Z.to_nat i else None) with
  | Some a => mret a
  | None => throw (OutOfBounds i)
  end.

(** [1 << n] on [int], for the counts C defines. *)
Definition shl_int (x n : Z) : M Z :=
  if (0 <=? n) && (n <? 32) then mret (s32 (Z.shiftl x n)) else throw (BadShift n).

(** [for (i = lo; i < hi; i += step) body], where [body] may return. *)
Fixpoint for_ret_fuel {R} (fuel : nat) (hi step i : Z) (body : Z -> M (option R))
  : M (option R) :=
  if i <? hi then
    match fuel with
    | O => out_of_fuel
    | S fuel =>
        r ← body i;
        match r with
        | Some v => mret (Some v)
        | None => for_ret_fuel fuel hi step (i ⊕ step) body
        end
    end
  else mret None.

(** The fuel is the number of iterations of a loop whose counter does not wrap;
    one that wraps does not terminate. *)
Definition iterations (lo hi step : Z) : nat := Z.to_nat ((hi - lo + step - 1) / step).

Definition for_ret {R} (lo hi step : Z) (body : Z -> M (option R)) : M (option R) :=
  for_ret_fuel (iterations lo hi step) hi step lo body.

Definition for_ (lo hi step : Z) (body : Z -> M unit) : M unit :=
  for_ret (R := unit) lo hi step (fun i => body i ;; mret None) ;; mret tt.

(** The same loop with a local variable the body updates. *)
Fixpoint for_acc_fuel {A} (fuel : nat) (hi step i : Z) (body : Z -> A -> M A) (a : A) : M A :=
  if i <? hi then
    match fuel with
    | O => out_of_fuel
    | S fuel => a ← body i a; for_acc_fuel fuel hi step (i ⊕ step) body a
    end
  else mret a.

Definition for_acc {A} (lo hi step : Z) (body : Z -> A -> M A) (a : A) : M A :=
  for_acc_fuel (iterations lo hi step) hi step lo body a.

(** for (i = n; i > 0; i--) *)
Fixpoint for_down (n : nat) (body : Z -> M unit) : M unit :=
  match n with
  | O => mret tt
  | S k => body (Z.of_nat n) ;; for_down k body
  end.

(** ** Weakest preconditions

    [wp m Q H s]: from [s], [m] returns normally into [Q] or halts the
    processor into [H]; it neither faults nor runs out of fuel. *)
Definition wp {A} (m : M A) (Q : A -> kstate -> Prop) (H : kstate -> Prop)
    (s : kstate) : Prop :=
  match m s with
  | Done a s' => Q a s'
  | Halted s' => H s'
  | Fault _ _ => False
  | OutOfFuel => False
  end.

Definition never : kstate -> Prop := fun _ => False.

(** ** Rules *)

Lemma bind_done {A B} (m : M A) (f : A -> M B) a s s' :
  m s = Done a s' -> (m ≫= f) s = f a s'.
Proof. intros E. unfold mbind, M_bind. by rewrite E. Qed.

Lemma bind_halted {A B} (m : M A) (f : A -> M B) s s' :
  m s = Halted s' -> (m ≫= f) s = Halted s'.
Proof. intros E. unfold mbind, M_bind. by rewrite E. Qed.

Lemma bind_fault {A B} (m : M A) (f : A -> M B) e s s' :
  m s = Fault e s' -> (m ≫= f) s = Fault e s'.
Proof. intros E. unfold mbind, M_bind. by rewrite E. Qed.

Lemma bind_assoc {A B C} (m : M A) (f : A -> M B) (g : B -> M C) s :
  ((m ≫= f) ≫= g) s = (m ≫= (fun a => f a ≫= g)) s.
Proof. unfold mbind, M_bind. by destruct (m s). Qed.

Section wp_rules.
Context {A B : Type}.
Implicit Types (m : M A) (Q : A -> kstate -> Prop) (H : kstate -> Prop).

Lemma wp_ret a Q H s : Q a s -> wp (mret a) Q H s.
Proof. done. Qed.

Lemma wp_bind m (f : A -> M B) (Q : B -> kstate -> Prop) H s :
  wp m (fun a s' => wp (f a) Q H s') H s -> wp (m ≫= f) Q H s.
Proof. unfold wp, mbind, M_bind. by destruct (m s). Qed.

Lemma wp_mono m Q Q' H H' s :
  wp m Q H s ->
  (forall a s', Q a s' -> Q' a s') -> (forall s', H s' -> H' s') ->
  wp m Q' H' s.
Proof. unfold wp. destruct (m s); naive_solver. Qed.

Lemma wp_gets (f : kstate -> A) Q H s : Q (f s) s -> wp (gets f) Q H s.
Proof. done. Qed.

Lemma wp_modify f (Q : unit -> kstate -> Prop) H s :
  Q tt (f s) -> wp (modify f) Q H s.
Proof. done. Qed.

Lemma wp_emit e (Q : unit -> kstate -> Prop) H s :
  Q tt (set_trace (k_trace s ++ [e]) s) -> wp (emit e) Q H s.
Proof. done. Qed.

Lemma wp_halt Q H s : H s -> wp (halt (A := A)) Q H s.
Proof. done. Qed.

Lemma wp_done m Q H a s s' : m s = Done a s' -> Q a s' -> wp m Q H s.
Proof. unfold wp. by intros ->. Qed.

Lemma wp_inv_done m Q s :
  wp m Q never s -> exists a s', m s = Done a s' /\ Q a s'.
Proof. unfold wp. destruct (m s); try done. eauto. Qed.

Lemma wp_deref (o : option A) a Q H s : o = Some a -> Q a s -> wp (deref o) Q H s.
Proof. by intros ->. Qed.

Lemma wp_index (l : list A) (i : Z) a Q H s :
  0 <= i -> l !! Z.to_nat i = Some a -> Q a s -> wp (index l i) Q H s.
Proof.
  intros Hi E HQ. unfold wp, index. rewrite decide_True by done. by rewrite E.
Qed.
End wp_rules.

Lemma wp_inv_halted {A} (m : M A) H s :
  wp m (fun _ _ => False) H s -> exists s', m s = Halted s' /\ H s'.
Proof. unfold wp. destruct (m s); try done. eauto. Qed.

Lemma wp_eq {A} (m : M A) a s s1 :
  wp m (fun a' s' => a' = a /\ s' = s1) never s -> m s = Done a s1.
Proof. unfold wp. by destruct (m s); [intros [-> ->]|..]. Qed.

Lemma wp_shl_int x n Q H s :
  0 <= n < 32 -> Q (s32 (Z.shiftl x n)) s -> wp (shl_int x n) Q H s.
Proof.
  intros Hn HQ. unfold shl_int.
  by rewrite (proj2 (Z.leb_le 0 n)), (proj2 (Z.ltb_lt n 32)) by lia.
Qed.

#[export] Hint Resolve wp_ret wp_bind wp_gets wp_modify wp_emit : wp.

(** One step of symbolic execution. *)
Ltac wp_step :=
  lazymatch goal with
  | |- wp (mret _) _ _ _ => apply wp_ret
  | |- wp (_ ≫= _) _ _ _ => apply wp_bind
  | |- wp (gets _) _ _ _ => apply wp_gets
  | |- wp (modify _) _ _ _ => apply wp_modify
  | |- wp (emit _) _ _ _ => apply wp_emit
  | |- wp (asm _) _ _ _ => apply wp_emit
  | |- wp halt _ _ _ => apply wp_halt
  end; cbn beta iota.

Ltac wp_steps := repeat wp_step.

(** Loops: an invariant on the counter. *)
Section wp_for.
Context {R : Type} (lo hi step : Z) (body : Z -> M (option R)).
Context (I : Z -> kstate -> Prop).
Context (Q : option R -> kstate -> Prop) (H : kstate -> Prop).
Context (Hstep : 0 < step) (Hlo : 0 <= lo) (Hhi : hi + step <= 2 ^ 64).
Context (Hbody : forall i s, lo <= i < hi -> (step | i - lo) -> I i s ->
  wp (body i) (fun r s' =>
    match r with Some v => Q (Some v) s' | None => I (i + step) s' end) H s).
Context (Hexit : forall i s, lo <= i -> hi <= i -> i < hi + step \/ i = lo ->
  (step | i - lo) -> I i s -> Q None s).

Lemma wp_for_ret_fuel fuel i s :
  lo <= i -> (step | i - lo) -> i < hi + step \/ i = lo ->
  hi - i <= Z.of_nat fuel * step -> I i s ->
  wp (for_ret_fuel fuel hi step i body) Q H s.
Proof using All.
  revert i s. induction fuel as [|fuel IH]; intros i s Hi Hd Hb Hf HI; cbn [for_ret_fuel].
  - destruct (Z.ltb_spec i hi); [lia|]. apply wp_ret. eapply Hexit; eauto.
  - destruct (Z.ltb_spec i hi); [|apply wp_ret; eapply Hexit; eauto].
    apply wp_bind. eapply wp_mono; [eapply Hbody; eauto| |done].
    intros [v|] s' Hr; cbn beta iota; [by apply wp_ret|].
    rewrite u64_small by lia. apply IH; try done; try lia.
    replace (i + step - lo) with ((i - lo) + step) by lia.
    apply Z.divide_add_r; [done|apply Z.divide_refl].
Qed.

Lemma wp_for_ret s : I lo s -> wp (for_ret lo hi step body) Q H s.
Proof using All.
  intros HI. unfold for_ret. apply wp_for_ret_fuel; auto; try lia.
  - rewrite Z.sub_diag. apply Z.divide_0_r.
  - unfold iterations.
    destruct (Z.le_gt_cases hi lo); [lia|].
    rewrite Z2Nat.id by (apply Z.div_pos; lia). zdivmod.
Qed.
End wp_for.

Lemma wp_for lo hi step (body : Z -> M unit) (I : Z -> kstate -> Prop) Q H s :
  0 < step -> 0 <= lo -> hi + step <= 2 ^ 64 ->
  (forall i s, lo <= i < hi -> (step | i - lo) -> I i s ->
    wp (body i) (fun _ s' => I (i + step) s') H s) ->
  (forall i s, lo <= i -> hi <= i -> i < hi + step \/ i = lo ->
    (step | i - lo) -> I i s -> Q tt s) ->
  I lo s -> wp (for_ lo hi step body) Q H s.
Proof.
  intros Hs Hl Hh Hbody Hexit HI. unfold for_. apply wp_bind.
  eapply (wp_for_ret lo hi step _ I); eauto.
  intros i s' Hi Hd HI'. apply wp_bind.
  eapply wp_mono; [by eapply Hbody| |done]. intros [] s'' HI''. by apply wp_ret.
Qed.

(** The common case: a counter that goes up by one, to a bound not below its
    start. *)
Lemma wp_for1 lo hi (body : Z -> M unit) (I : Z -> kstate -> Prop) Q H s :
  0 <= lo <= hi -> hi < 2 ^ 64 ->
  (forall i s, lo <= i < hi -> I i s -> wp (body i) (fun _ s' => I (i + 1) s') H s) ->
  (forall s, I hi s -> Q tt s) ->
  I lo s -> wp (for_ lo hi 1 body) Q H s.
Proof.
  intros Hl Hh Hbody Hexit HI. eapply (wp_for lo hi 1 body I); eauto; try lia.
  intros i s' H1 H2 H3 _ HI'. apply Hexit. by replace hi with i by lia.
Qed.

(** The loop with a local variable. *)
Lemma wp_for_acc {A} lo hi (body : Z -> A -> M A) (I : Z -> A -> kstate -> Prop) Q H a s :
  0 <= lo <= hi -> hi < 2 ^ 64 ->
  (forall i a s, lo <= i < hi -> I i a s -> wp (body i a) (fun a' s' => I (i + 1) a' s') H s) ->
  (forall a s, I hi a s -> Q a s) ->
  I lo a s -> wp (for_acc lo hi 1 body a) Q H s.
Proof.
  intros Hlo Hhi Hbody Hexit. unfold for_acc, iterations.
  replace (Z.to_nat _) with (Z.to_nat (hi - lo)) by (rewrite Z.div_1_r; lia).
  remember (Z.to_nat (hi - lo)) as fuel eqn:Hf. assert (lo + Z.of_nat fuel = hi) as Hlf by lia.
  clear Hf. revert lo a s Hlo Hlf Hbody.
  induction fuel as [|fuel IH]; intros lo a s Hlo Hlf Hbody HI; cbn [for_acc_fuel].
  - rewrite (proj2 (Z.ltb_ge lo hi)) by lia. apply wp_ret, Hexit.
    by replace hi with lo by lia.
  - rewrite (proj2 (Z.ltb_lt lo hi)) by lia. apply wp_bind.
    eapply wp_mono; [apply Hbody; [lia|done]| |done].
    intros a' s' HI'. cbn beta. rewrite u64_small by lia.
    apply IH; [lia|lia| |done]. intros i a'' s'' Hi. apply Hbody. lia.
Qed.

(** The loop that counts down to zero. *)
Lemma wp_for_down n (body : Z -> M unit) (I : Z -> kstate -> Prop) Q H s :
  (forall i s, 0 < i <= Z.of_nat n -> I i s -> wp (body i) (fun _ s' => I (i - 1) s') H s) ->
  (forall s, I 0 s -> Q tt s) ->
  I (Z.of_nat n) s -> wp (for_down n body) Q H s.
Proof.
  intros Hbody Hexit. revert s. induction n as [|n IH]; intros s HI; cbn [for_down].
  - apply wp_ret. auto.
  - wp_step. eapply wp_mono; [apply Hbody; [lia|done]| |done].
    intros [] s' HI'. apply IH.
    + intros i s'' Hi. apply Hbody. lia.
    + by replace (Z.of_nat n) with (Z.of_nat (S n) - 1) by lia.
Qed.

(** ** The console: the bytes handed to the terminal, in order *)

Definition event_bytes (e : event) : list Z :=
  match e with EvWrite bs => bs | _ => [] end.

Definition console (t : list event) : list Z := concat (event_bytes <$> t).

Definition emits (es : list event) (s : kstate) : kstate := set_trace (k_trace s ++ es) s.

Lemma emits_nil s : emits [] s = s.
Proof. unfold emits. rewrite app_nil_r. by destruct s. Qed.

Lemma emits_app es es' s : emits es' (emits es s) = emits (es ++ es') s.
Proof. unfold emits. cbn. by rewrite <- app_assoc. Qed.

Lemma emit_done e s : emit e s = Done tt (emits [e] s).
Proof. done. Qed.

Lemma console_app t t' : console (t ++ t') = console t ++ console t'.
Proof. unfold console. by rewrite fmap_app, concat_app. Qed.

Lemma bind_ret {A B} (a : A) (g : A -> M B) s : (mret a ≫= g) s = g a s.
Proof. done. Qed.

Lemma bind_gets {A B} (f : kstate -> A) (g : A -> M B) s : (gets f ≫= g) s = g (f s) s.
Proof. done. Qed.

Lemma bind_modify {B} f (g : unit -> M B) s : (modify f ≫= g) s = g tt (f s).
Proof. done. Qed.

Lemma bind_emit {B} e (f : unit -> M B) s : (emit e ≫= f) s = f tt (emits [e] s).
Proof. done. Qed.

Lemma bind_asm {B} i (f : unit -> M B) s : (asm i ≫= f) s = f tt (emits [EvAsm i] s).
Proof. done. Qed.

(** ** Initial states: the image as loaded, static storage zeroed *)
Definition start_state (r : gmap Z byte) (hw : hardware) (bi : boot_info) (lk : link_map)
  : kstate :=
  KState r [] hw bi lk pmm_globals_init vmm_globals_init gdt_globals_init
    idt_globals_init acpi_globals_init apic_globals_init 0 false.
