(* ===== verification/Memory.v ===== *)
(** Physical memory, and the loads and stores the kernel's pointer accesses
    are.  A range of virtual addresses is described by [mapped]; under it the
    accesses are reads and writes of RAM, and the frame lemmas say what a write
    leaves alone. *)

From S2P Require Import Prelude Limine Types Machine.

(** ** Memory *)

Definition ram_get (r : gmap Z byte) (p : Z) : byte := default x00 (r !! p).

Fixpoint ram_write (p : Z) (bs : list byte) (r : gmap Z byte) : gmap Z byte :=
  match bs with
  | [] => r
  | b :: bs => ram_write (p + 1) bs (<[p := b]> r)
  end.

Definition ram_read (r : gmap Z byte) (p : Z) (n : nat) : list byte :=
  ram_get r <$> zrange p n.

(** The value of bytes in memory order, and the bytes of a value. *)
Definition le_val (bs : list byte) : Z := little_endian_to_Z 8 (byte_val <$> bs).
Definition le_bytes (n : Z) (v : Z) : list byte := to_byte <$> Z_to_little_endian n 8 v.

(** The physical address behind a virtual one, in the address space the
    bootloader hands over: the direct map of RAM at [hw_direct_map], and the
    identity map of the low 4 GiB without the first page. *)
Definition resolve (s : kstate) (va : Z) : option Z :=
  let hw := k_hw s in
  let pa :=
    if (0x1000 <=? va) && (va <? 0x100000000) then Some va
    else if (hw_direct_map hw <=? va) && (va <? 2 ^ 64) then Some (va - hw_direct_map hw)
    else None in
  match pa with
  | Some p => if (0 <=? p) && (p <? hw_ram_size hw) then Some p else None
  | None => None
  end.

Definition load8 (va : Z) : M Z := fun s =>
  match resolve s va with
  | Some p => Done (byte_val (ram_get (k_ram s) p)) s
  | None => Fault (PageFault va) s
  end.

Definition store8 (va v : Z) : M unit := fun s =>
  match resolve s va with
  | Some p => Done tt (set_ram (<[p := to_byte v]> (k_ram s)) s)
  | None => Fault (PageFault va) s
  end.

Fixpoint load_bytes (va : Z) (n : nat) : M (list byte) :=
  match n with
  | O => mret []
  | S n => b ← load8 va; bs ← load_bytes (va + 1) n; mret (to_byte b :: bs)
  end.

Fixpoint store_bytes (va : Z) (bs : list byte) : M unit :=
  match bs with
  | [] => mret tt
  | b :: bs => store8 va (byte_val b) ;; store_bytes (va + 1) bs
  end.

Definition load16 (va : Z) : M Z := bs ← load_bytes va 2; mret (le_val bs).
Definition load32 (va : Z) : M Z := bs ← load_bytes va 4; mret (le_val bs).
Definition load64 (va : Z) : M Z := bs ← load_bytes va 8; mret (le_val bs).
Definition store64 (va v : Z) : M unit := store_bytes va (le_bytes 8 v).

(** [n] bytes at virtual address [va] are backed by RAM at [pa]. *)
Definition mapped (s : kstate) (va n pa : Z) : Prop :=
  forall i, 0 <= i < n -> resolve s (va + i) = Some (pa + i).


(** The 64-bit value RAM holds at a physical address. *)
Definition ram_u64 (r : gmap Z byte) (p : Z) : Z := le_val (ram_read r p 8).

(** ** RAM *)

Lemma ram_get_insert r p b a :
  ram_get (<[p := b]> r) a = if decide (p = a) then b else ram_get r a.
Proof. unfold ram_get. rewrite lookup_insert. by case_decide. Qed.

Lemma ram_get_write bs p r a :
  ram_get (ram_write p bs r) a =
    if decide (p <= a < p + Z.of_nat (length bs))
    then default x00 (bs !! Z.to_nat (a - p)) else ram_get r a.
Proof.
  revert p r. induction bs as [|b bs IH]; intros p r; simpl.
  - rewrite decide_False by lia. done.
  - rewrite IH, ram_get_insert.
    destruct (decide (p = a)) as [->|].
    + rewrite decide_False, decide_True by lia. by rewrite Z.sub_diag.
    + destruct (decide (p + 1 <= a < _)).
      * rewrite decide_True by lia.
        replace (Z.to_nat (a - p)) with (S (Z.to_nat (a - (p + 1)))) by lia. done.
      * rewrite decide_False by lia. done.
Qed.

Lemma ram_get_write_in bs p r a b :
  bs !! Z.to_nat (a - p) = Some b -> p <= a -> ram_get (ram_write p bs r) a = b.
Proof.
  intros E Hp. rewrite ram_get_write, E.
  apply lookup_lt_Some in E. rewrite decide_True by lia. done.
Qed.

Lemma ram_get_write_out bs p r a :
  a < p \/ p + Z.of_nat (length bs) <= a ->
  ram_get (ram_write p bs r) a = ram_get r a.
Proof. intros H. rewrite ram_get_write, decide_False by lia. done. Qed.

Lemma length_ram_read r p n : length (ram_read r p n) = n.
Proof. unfold ram_read. by rewrite length_fmap, length_zrange. Qed.

Lemma lookup_ram_read r p n i :
  (i < n)%nat -> ram_read r p n !! i = Some (ram_get r (p + Z.of_nat i)).
Proof.
  intros Hi. unfold ram_read. by rewrite list_lookup_fmap, lookup_zrange.
Qed.

Lemma ram_read_ext r r' p p' n :
  (forall i, 0 <= i < Z.of_nat n -> ram_get r (p + i) = ram_get r' (p' + i)) ->
  ram_read r p n = ram_read r' p' n.
Proof.
  intros H. apply list_eq_same_length with n; try apply length_ram_read.
  intros i x y Hi. rewrite !lookup_ram_read by done. intros [= <-] [= <-].
  apply H. lia.
Qed.

Lemma ram_read_write_same r p bs :
  ram_read (ram_write p bs r) p (length bs) = bs.
Proof.
  apply list_eq_same_length with (length bs); try done.
  - by rewrite length_ram_read.
  - intros i x y Hi. rewrite lookup_ram_read by done. intros [= <-] Hy.
    apply ram_get_write_in; [|lia]. rewrite <- Hy. f_equal. lia.
Qed.

Lemma ram_read_write_out r p bs q n :
  q + Z.of_nat n <= p \/ p + Z.of_nat (length bs) <= q ->
  ram_read (ram_write p bs r) q n = ram_read r q n.
Proof.
  intros H. apply ram_read_ext. intros i Hi. apply ram_get_write_out. lia.
Qed.

(** ** Little-endian values *)

Lemma length_le_bytes n v : 0 <= n -> Z.of_nat (length (le_bytes n v)) = n.
Proof.
  intros Hn. unfold le_bytes. rewrite length_fmap. by apply length_Z_to_little_endian.
Qed.

Lemma le_val_range bs : 0 <= le_val bs < 2 ^ (8 * Z.of_nat (length bs)).
Proof.
  unfold le_val.
  pose proof (little_endian_to_Z_bound 8 (byte_val <$> bs) ltac:(lia)) as H.
  rewrite length_fmap in H.
  rewrite (Z.mul_comm 8). apply H. apply Forall_fmap, Forall_true.
  intros b. apply byte_val_range.
Qed.

Lemma le_val_le_bytes n v : 0 <= n -> le_val (le_bytes n v) = v mod 2 ^ (8 * n).
Proof.
  intros Hn. unfold le_val, le_bytes. rewrite <- list_fmap_compose.
  rewrite (Z.mul_comm 8), <- (little_endian_to_Z_to_little_endian n 8 v) by lia.
  f_equal. rewrite <- (list_fmap_id (Z_to_little_endian n 8 v)) at 2.
  apply list_fmap_ext. intros i x Hx. simpl. rewrite byte_val_to_byte.
  apply Z.mod_small.
  pose proof (Z_to_little_endian_bound n 8 v ltac:(lia) ltac:(lia)) as HF.
  rewrite Forall_lookup in HF. exact (HF i x Hx).
Qed.

Lemma le_bytes_le_val bs : le_bytes (Z.of_nat (length bs)) (le_val bs) = bs.
Proof.
  unfold le_val, le_bytes.
  rewrite <- (length_fmap byte_val bs).
  rewrite Z_to_little_endian_to_Z; [|done|lia|].
  - rewrite <- list_fmap_compose. etrans; [|apply list_fmap_id].
    apply list_fmap_ext. intros i x _. apply to_byte_val.
  - apply Forall_fmap, Forall_true. intros b. apply byte_val_range.
Qed.

Lemma ram_u64_range r p : 0 <= ram_u64 r p < 2 ^ 64.
Proof.
  unfold ram_u64. pose proof (le_val_range (ram_read r p 8)) as H.
  by rewrite length_ram_read in H.
Qed.

Lemma ram_u64_ext r r' p :
  (forall i, 0 <= i < 8 -> ram_get r (p + i) = ram_get r' (p + i)) ->
  ram_u64 r p = ram_u64 r' p.
Proof. intros H. unfold ram_u64. f_equal. by apply ram_read_ext. Qed.

Lemma ram_u64_write_same r p v :
  0 <= v < 2 ^ 64 -> ram_u64 (ram_write p (le_bytes 8 v) r) p = v.
Proof.
  intros Hv. unfold ram_u64.
  replace 8%nat with (length (le_bytes 8 v)) by (pose proof (length_le_bytes 8 v); lia).
  rewrite ram_read_write_same, le_val_le_bytes by lia. by apply Z.mod_small.
Qed.

Lemma ram_u64_write_out r p v q :
  q + 8 <= p \/ p + 8 <= q ->
  ram_u64 (ram_write p (le_bytes 8 v) r) q = ram_u64 r q.
Proof.
  intros H. unfold ram_u64. f_equal. apply ram_read_write_out.
  pose proof (length_le_bytes 8 v). lia.
Qed.

Lemma ram_u64_zero r p :
  (forall i, 0 <= i < 8 -> ram_get r (p + i) = x00) -> ram_u64 r p = 0.
Proof.
  intros H. rewrite (ram_u64_ext r ∅).
  - reflexivity.
  - intros i Hi. by rewrite H.
Qed.

(** ** Address ranges *)

Lemma resolve_hw s s' va : k_hw s = k_hw s' -> resolve s va = resolve s' va.
Proof. unfold resolve. by intros ->. Qed.

Lemma mapped_hw s s' va n pa : k_hw s = k_hw s' -> mapped s va n pa -> mapped s' va n pa.
Proof. intros E Hm i Hi. rewrite <- (resolve_hw s); auto. Qed.

Lemma mapped_sub s va n pa off k :
  mapped s va n pa -> 0 <= off -> off + k <= n -> mapped s (va + off) k (pa + off).
Proof.
  intros Hm H1 H2 i Hi.
  replace (va + off + i) with (va + (off + i)) by lia.
  rewrite Hm by lia. f_equal. lia.
Qed.

Lemma mapped_at s va n pa i :
  mapped s va n pa -> 0 <= i < n -> resolve s (va + i) = Some (pa + i).
Proof. auto. Qed.

Lemma resolve_range s va p :
  resolve s va = Some p -> 0 < va < 2 ^ 64 \/ hw_direct_map (k_hw s) <= va < 2 ^ 64.
Proof.
  unfold resolve.
  destruct (Z.leb_spec 0x1000 va), (Z.ltb_spec va 0x100000000),
    (Z.leb_spec (hw_direct_map (k_hw s)) va), (Z.ltb_spec va (2 ^ 64)); simpl;
    try done; lia.
Qed.

Lemma resolve_ram s va p :
  resolve s va = Some p -> 0 <= p < hw_ram_size (k_hw s).
Proof.
  unfold resolve. intros H. repeat case_match; try done; simplify_eq; lia.
Qed.

(** The direct map reaches every physical address that fits in it. *)
Lemma resolve_direct s p :
  0x100000000 <= hw_direct_map (k_hw s) ->
  hw_direct_map (k_hw s) + hw_ram_size (k_hw s) <= 2 ^ 64 ->
  0 <= p < hw_ram_size (k_hw s) ->
  resolve s (p + hw_direct_map (k_hw s)) = Some p.
Proof.
  intros H1 H2 Hp. unfold resolve.
  rewrite (proj2 (Z.ltb_ge (p + hw_direct_map (k_hw s)) 0x100000000)) by lia.
  rewrite andb_false_r.
  rewrite (proj2 (Z.leb_le _ _)), (proj2 (Z.ltb_lt _ _)) by lia. simpl.
  replace (p + hw_direct_map (k_hw s) - hw_direct_map (k_hw s)) with p by lia.
  rewrite (proj2 (Z.leb_le 0 p)), (proj2 (Z.ltb_lt p _)) by lia. done.
Qed.

Lemma resolve_identity s p :
  0x1000 <= p < 0x100000000 -> p < hw_ram_size (k_hw s) -> resolve s p = Some p.
Proof.
  intros H1 H2. unfold resolve.
  rewrite (proj2 (Z.leb_le 0x1000 p)), (proj2 (Z.ltb_lt p 0x100000000)) by lia. simpl.
  rewrite (proj2 (Z.leb_le 0 p)), (proj2 (Z.ltb_lt p _)) by lia. done.
Qed.

Lemma mapped_direct s p n :
  0x100000000 <= hw_direct_map (k_hw s) ->
  hw_direct_map (k_hw s) + hw_ram_size (k_hw s) <= 2 ^ 64 ->
  0 <= p -> p + n <= hw_ram_size (k_hw s) ->
  mapped s (p + hw_direct_map (k_hw s)) n p.
Proof.
  intros H1 H2 Hp Hn i Hi.
  replace (p + hw_direct_map (k_hw s) + i) with (p + i + hw_direct_map (k_hw s)) by lia.
  apply resolve_direct; lia.
Qed.

Lemma mapped_identity s p n :
  0x1000 <= p -> p + n <= 0x100000000 -> p + n <= hw_ram_size (k_hw s) -> mapped s p n p.
Proof. intros H1 H2 H3 i Hi. apply resolve_identity; lia. Qed.

(** ** Loads and stores *)

Lemma load8_done s va p :
  resolve s va = Some p -> load8 va s = Done (byte_val (ram_get (k_ram s) p)) s.
Proof. intros E. unfold load8. by rewrite E. Qed.

Lemma store8_done s va v p :
  resolve s va = Some p ->
  store8 va v s = Done tt (set_ram (<[p := to_byte v]> (k_ram s)) s).
Proof. intros E. unfold store8. by rewrite E. Qed.

Lemma load_bytes_done s va n p :
  mapped s va (Z.of_nat n) p ->
  load_bytes va n s = Done (ram_read (k_ram s) p n) s.
Proof.
  revert va p. induction n as [|n IH]; intros va p Hm; [done|]. simpl.
  erewrite bind_done; cycle 1.
  { apply load8_done. rewrite <- (Z.add_0_r va). apply Hm. lia. }
  erewrite bind_done; cycle 1.
  { apply IH. apply mapped_sub with (Z.of_nat (S n)); [done|lia|lia]. }
  rewrite to_byte_val, Z.add_0_r. done.
Qed.

Lemma store_bytes_done s va bs p :
  mapped s va (Z.of_nat (length bs)) p ->
  store_bytes va bs s = Done tt (set_ram (ram_write p bs (k_ram s)) s).
Proof.
  revert s va p. induction bs as [|b bs IH]; intros s va p Hm; simpl.
  - by destruct s.
  - erewrite bind_done; cycle 1.
    { apply store8_done. rewrite <- (Z.add_0_r va). apply Hm. simpl. lia. }
    rewrite (IH _ _ (p + 1)).
    + simpl. by rewrite to_byte_val, Z.add_0_r.
    + apply (mapped_hw s); [done|].
      apply mapped_sub with (Z.of_nat (S (length bs))); [done|lia|lia].
Qed.

Lemma load64_done s va p :
  mapped s va 8 p -> load64 va s = Done (ram_u64 (k_ram s) p) s.
Proof.
  intros Hm. unfold load64.
  by erewrite bind_done by (apply load_bytes_done; done).
Qed.

Lemma load32_done s va p :
  mapped s va 4 p -> load32 va s = Done (le_val (ram_read (k_ram s) p 4)) s.
Proof.
  intros Hm. unfold load32.
  by erewrite bind_done by (apply load_bytes_done; done).
Qed.

Lemma store64_done s va v p :
  mapped s va 8 p ->
  store64 va v s = Done tt (set_ram (ram_write p (le_bytes 8 v) (k_ram s)) s).
Proof.
  intros Hm. apply store_bytes_done. by rewrite length_le_bytes by lia.
Qed.

Lemma wp_load8 s va p Q H :
  resolve s va = Some p -> Q (byte_val (ram_get (k_ram s) p)) s -> wp (load8 va) Q H s.
Proof. intros E. eapply wp_done. by apply load8_done. Qed.

Lemma wp_store8 s va v p Q H :
  resolve s va = Some p ->
  Q tt (set_ram (<[p := to_byte v]> (k_ram s)) s) -> wp (store8 va v) Q H s.
Proof. intros E. eapply wp_done. by apply store8_done. Qed.

Lemma wp_load64 s va p Q H :
  mapped s va 8 p -> Q (ram_u64 (k_ram s) p) s -> wp (load64 va) Q H s.
Proof. intros E. eapply wp_done. by apply load64_done. Qed.

Lemma wp_store64 s va v p Q H :
  mapped s va 8 p ->
  Q tt (set_ram (ram_write p (le_bytes 8 v) (k_ram s)) s) -> wp (store64 va v) Q H s.
Proof. intros E. eapply wp_done. by apply store64_done. Qed.

(** Setting the RAM of a state whose RAM was just set. *)
Lemma set_ram_set_ram r r' s : set_ram r (set_ram r' s) = set_ram r s.
Proof. done. Qed.

Lemma set_ram_id s : set_ram (k_ram s) s = s.
Proof. by destruct s. Qed.

Lemma ram_write_snoc bs b p r :
  ram_write p (bs ++ [b]) r = <[p + Z.of_nat (length bs) := b]> (ram_write p bs r).
Proof.
  revert p r. induction bs as [|c bs IH]; intros p r; simpl.
  - by rewrite Z.add_0_r.
  - rewrite IH. f_equal. lia.
Qed.

Lemma ram_read_S r p n :
  ram_read r p (S n) = ram_read r p n ++ [ram_get r (p + Z.of_nat n)].
Proof.
  apply list_eq_same_length with (S n).
  - rewrite length_app, length_ram_read. simpl. lia.
  - apply length_ram_read.
  - intros i x y Hi. rewrite lookup_ram_read by done. intros [= <-].
    destruct (decide (i = n)) as [->|].
    + rewrite lookup_app_r by (rewrite length_ram_read; lia).
      rewrite length_ram_read, Nat.sub_diag. by intros [= <-].
    + rewrite lookup_app_l by (rewrite length_ram_read; lia).
      rewrite lookup_ram_read by lia. by intros [= <-].
Qed.

(** ** RAM up to its contents

    RAM is compared by what it holds: a byte never written reads as zero, so
    two finite maps may describe the same RAM. *)
Definition ram_eq (r r' : gmap Z byte) : Prop := forall a, ram_get r a = ram_get r' a.

Infix "≡ᵣ" := ram_eq (at level 70, no associativity) : c_scope.

#[export] Instance ram_eq_equivalence : Equivalence ram_eq.
Proof.
  split; [done|intros r r' H a; by rewrite H|intros r1 r2 r3 H1 H2 a; by rewrite H1, H2].
Qed.

#[export] Instance ram_get_proper : Proper (ram_eq ==> eq ==> eq) ram_get.
Proof. intros r r' H a ? <-. apply H. Qed.

#[export] Instance ram_write_proper : Proper (eq ==> eq ==> ram_eq ==> ram_eq) ram_write.
Proof. intros p ? <- bs ? <- r r' H a. rewrite !ram_get_write. by rewrite H. Qed.

#[export] Instance ram_read_proper : Proper (ram_eq ==> eq ==> eq ==> eq) ram_read.
Proof. intros r r' H p ? <- n ? <-. apply ram_read_ext. intros. apply H. Qed.

#[export] Instance ram_u64_proper : Proper (ram_eq ==> eq ==> eq) ram_u64.
Proof. intros r r' H p ? <-. unfold ram_u64. by rewrite H. Qed.

Lemma ram_write_read_same r p n : ram_write p (ram_read r p n) r ≡ᵣ r.
Proof.
  intros a. rewrite ram_get_write, length_ram_read. case_decide; [|done].
  rewrite lookup_ram_read by lia. simpl. f_equal. lia.
Qed.
