(* ===== verification/Sample.v ===== *)
(** A small machine on which the properties' hypotheses are shown to hold:
    64 KiB of RAM, a direct map in the higher half, devices that answer 0. *)

From S2P Require Import Prelude Limine Types Machine Memory.

Definition sample_hw : hardware :=
  Hardware 0x10000 0xffff800000000000 (fun _ _ => 0) (fun _ => 0%nat).

(** Usable memory from 0x2000 to the end of RAM. *)
Definition sample_usable : limine_memmap_entry := MemmapEntry 0x2000 0xE000 0.
Definition sample_memmap : limine_memmap_response :=
  MemmapResponse 0 2 [MemmapEntry 0 0x2000 1; sample_usable].

Definition sample_boot : boot_info :=
  BootInfo (Some sample_memmap) (Some (HhdmResponse 0 0xffff800000000000))
    (Some (KernelAddressResponse 0 0x8000 0xffffffff80000000)) None None None.

Definition sample_link : link_map :=
  LinkMap 0xffffffff80000000 0xffffffff80001000 0xffffffff80001000 0xffffffff80002000
    0xffffffff80002000 0xffffffff80003000 0xffffffff80002000 0xffffffff80002100
    0xffffffff80002200 (fun i => 0xffffffff80000000 + 16 * (i mod 256)) 0xffffffff80000800.

(** At boot, and with the memory manager's bitmap of 16 blocks at 0x1000, of
    which blocks 0 and 1 are in use. *)
Definition sample_start : kstate := start_state ∅ sample_hw sample_boot sample_link.

Definition sample_pmm : kstate :=
  set_pmm (PmmGlobals 2 0x2000 0x10000 128 16 0x10000 0xffff800000001000 (Some sample_memmap))
    (set_ram {[ 0x1000 := to_byte 3 ]} sample_start).

Lemma sample_direct s p n :
  k_hw s = sample_hw -> 0 <= p -> p + n <= 0x10000 -> mapped s (p + 0xffff800000000000) n p.
Proof.
  intros Hhw Hp Hn. change 0xffff800000000000 with (hw_direct_map sample_hw). rewrite <- Hhw.
  apply mapped_direct; rewrite ?Hhw; cbn; lia.
Qed.

Lemma sample_identity s p n :
  k_hw s = sample_hw -> 0x1000 <= p -> p + n <= 0x10000 -> mapped s p n p.
Proof. intros Hhw Hp Hn. apply mapped_identity; rewrite ?Hhw; cbn; lia. Qed.
