(* ===== verification/CString.v ===== *)
(** kern/include/string.c: memcpy, memset, memmove, memcmp and strlen over the
    kernel's memory, and the length of a string literal. *)

From S2P Require Import Prelude Limine Types Machine Memory Sample.

(** ** Code *)

Definition memcpy (dest src n : Z) : M Z :=
  for_ 0 n 1 (fun i =>
    b ← load8 (src ⊕ i);
    store8 (dest ⊕ i) b) ;;
  mret dest.

Definition memset (s c n : Z) : M Z :=
  for_ 0 n 1 (fun i => store8 (s ⊕ i) (u8 c)) ;;
  mret s.

Definition memmove (dest src n : Z) : M Z :=
  (if dest <? src then
    for_ 0 n 1 (fun i =>
      b ← load8 (src ⊕ i);
      store8 (dest ⊕ i) b)
  else if src <? dest then
    for_down (Z.to_nat n) (fun i =>
      b ← load8 (src ⊕ (i - 1));
      store8 (dest ⊕ (i - 1)) b)
  else mret tt) ;;
  mret dest.

Definition memcmp (s1 s2 n : Z) : M Z :=
  r ← for_ret 0 n 1 (fun i =>
    b1 ← load8 (s1 ⊕ i);
    b2 ← load8 (s2 ⊕ i);
    if b1 =? b2 then mret None
    else mret (Some (if b1 <? b2 then -1 else 1)));
  mret (default 0 r).

(** while (str[len]) len++ *)
Fixpoint strlen_from (fuel : nat) (str len : Z) : M Z :=
  match fuel with
  | O => out_of_fuel
  | S fuel =>
      b ← load8 (str ⊕ len);
      if b =? 0 then mret len else strlen_from fuel str (len ⊕ 1)
  end.

(** A string cannot be longer than RAM: the walk would leave it and fault. *)
Definition strlen (str : Z) : M Z :=
  size ← gets (fun s => hw_ram_size (k_hw s));
  strlen_from (S (Z.to_nat size)) str 0.

(** strlen of a string literal, whose terminator follows its characters. *)
Fixpoint strlen_lit (l : list Z) : Z :=
  match l with
  | [] => 0
  | c :: l => if c =? 0 then 0 else 1 + strlen_lit l
  end.

(** ** Reference: the order of byte strings *)

Fixpoint lex_cmp (l1 l2 : list Z) : Z :=
  match l1, l2 with
  | x :: l1, y :: l2 => if x =? y then lex_cmp l1 l2 else if x <? y then -1 else 1
  | _, _ => 0
  end.

(** The bytes of memory as numbers. *)
Definition byte_vals (r : gmap Z byte) (p : Z) (n : nat) : list Z :=
  byte_val <$> ram_read r p n.

(** ** Lemmas *)

(** The address of element [i] of a mapped range. *)
Lemma resolve_elem s va n pa i :
  mapped s va n pa -> 0 <= va -> 0 <= i < n -> resolve s (va ⊕ i) = Some (pa + i).
Proof.
  intros Hm Hva Hi. rewrite u64_small; [by apply Hm|].
  pose proof (resolve_range _ _ _ (Hm i Hi)). lia.
Qed.

Lemma memset_done s p c n pa :
  mapped s p n pa -> 0 <= p -> 0 <= n < 2 ^ 64 ->
  memset p c n s =
    Done p (set_ram (ram_write pa (replicate (Z.to_nat n) (to_byte c)) (k_ram s)) s).
Proof.
  intros Hm Hp Hn. apply wp_eq. unfold memset. wp_step.
  apply wp_for1 with (I := fun i s' =>
    s' = set_ram (ram_write pa (replicate (Z.to_nat i) (to_byte c)) (k_ram s)) s);
    [lia|lia| |by intros ? ->|by destruct s].
  intros i ? Hi ->. eapply wp_store8; [by apply (resolve_elem s _ n)|].
  rewrite set_ram_set_ram. f_equal. simpl.
  replace (Z.to_nat (i + 1)) with (S (Z.to_nat i)) by lia.
  rewrite replicate_S_end, ram_write_snoc, length_replicate. unfold u8.
  rewrite to_byte_mod. do 2 f_equal. lia.
Qed.

Lemma memcpy_done s d src n pd ps :
  mapped s d n pd -> mapped s src n ps -> 0 <= d -> 0 <= src -> 0 <= n < 2 ^ 64 ->
  pd + n <= ps \/ ps + n <= pd ->
  memcpy d src n s =
    Done d (set_ram (ram_write pd (ram_read (k_ram s) ps (Z.to_nat n)) (k_ram s)) s).
Proof.
  intros Hd Hs H1 H2 Hn Hdis. apply wp_eq. unfold memcpy. wp_step.
  apply wp_for1 with (I := fun i s' =>
    s' = set_ram (ram_write pd (ram_read (k_ram s) ps (Z.to_nat i)) (k_ram s)) s);
    [lia|lia| |by intros ? ->|by destruct s].
  intros i ? Hi ->. wp_step.
  eapply wp_load8; [by apply (resolve_elem s _ n)|].
  eapply wp_store8; [by apply (resolve_elem s _ n)|].
  rewrite set_ram_set_ram. f_equal. simpl.
  replace (Z.to_nat (i + 1)) with (S (Z.to_nat i)) by lia.
  rewrite ram_read_S, ram_write_snoc, length_ram_read, to_byte_val.
  rewrite ram_get_write_out by (rewrite length_ram_read; lia).
  rewrite Z2Nat.id by lia. done.
Qed.

Lemma ram_read_cons r p n :
  ram_read r p (S n) = ram_get r p :: ram_read r (p + 1) n.
Proof. done. Qed.

(** A write of one byte before a written range extends the range downwards. *)
Lemma ram_write_cons_comm p b bs r :
  <[p := b]> (ram_write (p + 1) bs r) ≡ᵣ ram_write p (b :: bs) r.
Proof.
  intros a. simpl. rewrite ram_get_insert, !ram_get_write, ram_get_insert.
  repeat case_decide; try done; lia.
Qed.

Lemma memmove_done s d src n pd ps :
  mapped s d n pd -> mapped s src n ps -> 0 <= d -> 0 <= src -> 0 <= n < 2 ^ 64 ->
  pd - ps = d - src ->
  exists r', memmove d src n s = Done d (set_ram r' s) /\
    r' ≡ᵣ ram_write pd (ram_read (k_ram s) ps (Z.to_nat n)) (k_ram s).
Proof.
  intros Hd Hs H1 H2 Hn Hwin.
  enough (wp (memmove d src n) (fun a s' => a = d /\ exists r', s' = set_ram r' s /\
    r' ≡ᵣ ram_write pd (ram_read (k_ram s) ps (Z.to_nat n)) (k_ram s)) never s) as Hw.
  { apply wp_inv_done in Hw as (a & s' & E & -> & r' & -> & Hr). eauto. }
  unfold memmove. wp_step. destruct (Z.ltb_spec d src).
  - apply wp_for1 with (I := fun i s' =>
      s' = set_ram (ram_write pd (ram_read (k_ram s) ps (Z.to_nat i)) (k_ram s)) s);
      [lia|lia| |intros ? ->; apply wp_ret; split; [done|by eexists]|by destruct s].
    intros i ? Hi ->. wp_step.
    eapply wp_load8; [by apply (resolve_elem s _ n)|].
    eapply wp_store8; [by apply (resolve_elem s _ n)|].
    rewrite set_ram_set_ram. f_equal. simpl.
    replace (Z.to_nat (i + 1)) with (S (Z.to_nat i)) by lia.
    rewrite ram_read_S, ram_write_snoc, length_ram_read, to_byte_val.
    rewrite ram_get_write_out by (rewrite length_ram_read; lia).
    rewrite Z2Nat.id by lia. done.
  - destruct (Z.ltb_spec src d).
    + apply wp_for_down with (I := fun i s' => exists r', s' = set_ram r' s /\
        r' ≡ᵣ ram_write (pd + i) (ram_read (k_ram s) (ps + i) (Z.to_nat (n - i))) (k_ram s)).
      * intros i ? Hi (r' & -> & Hr). wp_step.
        eapply wp_load8; [apply (resolve_elem s _ n); [done|lia|lia]|].
        eapply wp_store8; [apply (resolve_elem s _ n); [done|lia|lia]|].
        eexists. split; [by rewrite set_ram_set_ram|]. simpl.
        rewrite to_byte_val. replace (Z.to_nat (n - (i - 1))) with (S (Z.to_nat (n - i))) by lia.
        rewrite ram_read_cons, <- ram_write_cons_comm.
        replace (pd + (i - 1) + 1) with (pd + i) by lia.
        replace (ps + (i - 1) + 1) with (ps + i) by lia.
        intros a. rewrite !ram_get_insert, Hr. case_decide; [|done].
        apply ram_get_write_out. lia.
      * intros ? (r' & -> & Hr). split; [done|]. exists r'. split; [done|].
        by rewrite !Z.add_0_r, Z.sub_0_r in Hr.
      * exists (k_ram s). split; [by destruct s|].
        rewrite Z2Nat.id, Z.sub_diag by lia. done.
    + apply wp_ret. split; [done|]. exists (k_ram s). split; [by destruct s|].
      replace pd with ps by lia. by rewrite ram_write_read_same.
Qed.

Lemma memcmp_loop s s1 s2 n p1 p2 fuel i :
  mapped s s1 n p1 -> mapped s s2 n p2 -> 0 <= s1 -> 0 <= s2 -> n < 2 ^ 64 -> 0 <= i ->
  i + Z.of_nat fuel = n ->
  exists r, for_ret_fuel fuel n 1 i (fun i =>
    b1 ← load8 (s1 ⊕ i);
    b2 ← load8 (s2 ⊕ i);
    if b1 =? b2 then mret None
    else mret (Some (if b1 <? b2 then -1 else 1))) s = Done r s /\
    default 0 r = lex_cmp (byte_vals (k_ram s) (p1 + i) fuel) (byte_vals (k_ram s) (p2 + i) fuel).
Proof.
  intros Hm1 Hm2 H1 H2 Hn. revert i. induction fuel as [|fuel IH]; intros i Hi Hf.
  - exists None. simpl. by rewrite (proj2 (Z.ltb_ge i n)) by lia.
  - cbn [for_ret_fuel]. rewrite (proj2 (Z.ltb_lt i n)) by lia.
    set (b1 := byte_val (ram_get (k_ram s) (p1 + i))).
    set (b2 := byte_val (ram_get (k_ram s) (p2 + i))).
    unfold byte_vals. rewrite !ram_read_cons. cbn [fmap list_fmap lex_cmp]. fold b1 b2.
    erewrite bind_done; cycle 1.
    { erewrite bind_done by (apply load8_done, (resolve_elem s _ n); [done|lia|lia]).
      erewrite bind_done by (apply load8_done, (resolve_elem s _ n); [done|lia|lia]).
      fold b1 b2. instantiate (2 := if b1 =? b2 then None else Some (if b1 <? b2 then -1 else 1)).
      by destruct (b1 =? b2). }
    destruct (b1 =? b2); [|eexists; split; [done|done]].
    rewrite u64_small by lia.
    destruct (IH (i + 1) ltac:(lia) ltac:(lia)) as (r & E & Hr).
    exists r. split; [done|]. by rewrite Hr, !Z.add_assoc.
Qed.

Lemma memcmp_done s s1 s2 n p1 p2 :
  mapped s s1 n p1 -> mapped s s2 n p2 -> 0 <= s1 -> 0 <= s2 -> 0 <= n < 2 ^ 64 ->
  memcmp s1 s2 n s =
    Done (lex_cmp (byte_vals (k_ram s) p1 (Z.to_nat n)) (byte_vals (k_ram s) p2 (Z.to_nat n))) s.
Proof.
  intros Hm1 Hm2 H1 H2 Hn. unfold memcmp, for_ret.
  replace (iterations 0 n 1) with (Z.to_nat n)
    by (unfold iterations; rewrite Z.div_1_r; lia).
  destruct (memcmp_loop s s1 s2 n p1 p2 (Z.to_nat n) 0) as (r & E & Hr); try done; [lia..|].
  rewrite (bind_done _ _ _ _ _ E). rewrite Hr, !Z.add_0_r. done.
Qed.

Lemma strlen_from_string s str pa n :
  mapped s str (n + 1) pa -> 0 <= str -> 0 <= n < 2 ^ 64 - 1 ->
  (forall i, 0 <= i < n -> byte_val (ram_get (k_ram s) (pa + i)) <> 0) ->
  ram_get (k_ram s) (pa + n) = x00 ->
  forall fuel len, 0 <= len <= n -> n - len < Z.of_nat fuel ->
  strlen_from fuel str len s = Done n s.
Proof.
  intros Hm Hstr Hn Hnz Hz. induction fuel as [|fuel IH]; intros len Hl Hf; [lia|].
  cbn [strlen_from].
  erewrite bind_done by (apply load8_done, (resolve_elem s _ (n + 1)); [done|lia|lia]).
  destruct (decide (len = n)) as [->|].
  - rewrite Hz. done.
  - rewrite (proj2 (Z.eqb_neq _ _)) by (apply Hnz; lia).
    rewrite u64_small by lia. apply IH; lia.
Qed.

(** Adjacent addresses that are both mapped are adjacent in RAM. *)
Lemma resolve_succ s va p q :
  0x100000000 < hw_direct_map (k_hw s) -> 0 <= va < 2 ^ 64 ->
  resolve s va = Some p -> resolve s (va ⊕ 1) = Some q -> q = p + 1.
Proof.
  intros Hd Hva. unfold u64, resolve.
  destruct (decide (va = 2 ^ 64 - 1)) as [->|].
  - intros _. replace ((2 ^ 64 - 1 + 1) mod 2 ^ 64) with 0 by done.
    rewrite (proj2 (Z.leb_gt 0x1000 0)), (proj2 (Z.leb_gt _ 0)) by lia. done.
  - rewrite (Z.mod_small (va + 1)) by lia. intros H1 H2.
    repeat case_match; simplify_eq; lia.
Qed.

Lemma strlen_from_out_of_fuel s str fuel len :
  strlen_from fuel str len s = OutOfFuel ->
  forall i, 0 <= i < Z.of_nat fuel -> is_Some (resolve s (u64 (str + (len + i)))).
Proof.
  revert len. induction fuel as [|fuel IH]; intros len; [lia|]. cbn [strlen_from].
  unfold mbind, M_bind, load8. destruct (resolve s (str ⊕ len)) as [p|] eqn:E; [|done].
  destruct (_ =? 0); [done|]. intros H i Hi.
  destruct (decide (i = 0)) as [->|]; [rewrite Z.add_0_r; eauto|].
  specialize (IH _ H (i - 1) ltac:(lia)). unfold u64 in IH |- *.
  rewrite <- Zplus_mod_idemp_r, Zplus_mod_idemp_l, Zplus_mod_idemp_r in IH.
  by replace (len + i) with (len + 1 + (i - 1)) by lia.
Qed.

Lemma strlen_from_window s str fuel p :
  0x100000000 < hw_direct_map (k_hw s) ->
  strlen_from fuel str 0 s = OutOfFuel -> resolve s (u64 str) = Some p ->
  forall i : nat, (i < fuel)%nat -> resolve s (u64 (str + Z.of_nat i)) = Some (p + Z.of_nat i).
Proof.
  intros Hd E Hp. pose proof (strlen_from_out_of_fuel _ _ _ _ E) as Hres.
  induction i as [|i IH]; intros Hi; [by rewrite !Z.add_0_r|].
  destruct (Hres (Z.of_nat (S i)) ltac:(lia)) as [q Hq]. rewrite Z.add_0_l in Hq.
  rewrite Hq. f_equal.
  replace (u64 (str + Z.of_nat (S i))) with (u64 (str + Z.of_nat i) ⊕ 1) in Hq.
  - rewrite (resolve_succ s _ _ _ Hd (u64_range _) (IH ltac:(lia)) Hq). lia.
  - unfold u64. rewrite Zplus_mod_idemp_l. f_equal. lia.
Qed.

Lemma strlen_fuel s str :
  0x100000000 < hw_direct_map (k_hw s) -> strlen str s <> OutOfFuel.
Proof.
  intros Hd. unfold strlen, mbind at 1, M_bind at 1, gets. intros E.
  destruct (resolve s (u64 str)) as [p|] eqn:Hp.
  - pose proof (strlen_from_window _ _ _ _ Hd E Hp (Z.to_nat (hw_ram_size (k_hw s)))
      ltac:(lia)) as H.
    apply resolve_ram in H, Hp. lia.
  - cbn [strlen_from] in E. unfold mbind, M_bind, load8 in E.
    by rewrite Z.add_0_r, Hp in E.
Qed.

Lemma lex_cmp_eq l1 l2 : length l1 = length l2 -> lex_cmp l1 l2 = 0 <-> l1 = l2.
Proof.
  revert l2. induction l1 as [|x l1 IH]; intros [|y l2] Hlen; try done. simpl.
  destruct (Z.eqb_spec x y) as [->|Hne].
  - rewrite IH by (simpl in Hlen; lia). split; [by intros ->|by intros [= ->]].
  - split; [by destruct (x <? y)|by intros [= -> ->]].
Qed.

Lemma lex_cmp_antisym l1 l2 : lex_cmp l2 l1 = - lex_cmp l1 l2.
Proof.
  revert l2. induction l1 as [|x l1 IH]; intros [|y l2]; try done. simpl.
  rewrite (Z.eqb_sym y x). destruct (Z.eqb_spec x y); [apply IH|].
  zbool; lia.
Qed.

Lemma length_byte_vals r p n : length (byte_vals r p n) = n.
Proof. unfold byte_vals. by rewrite length_fmap, length_ram_read. Qed.

Lemma byte_vals_inj r p p' n : byte_vals r p n = byte_vals r p' n <-> ram_read r p n = ram_read r p' n.
Proof.
  unfold byte_vals. split; [|by intros ->]. apply list_fmap_eq_inj. exact byte_val_inj.
Qed.

Lemma strlen_from_ends s str fuel len :
  strlen_from fuel str len s <> OutOfFuel ->
  (exists n, strlen_from fuel str len s = Done n s) \/
  exists va, strlen_from fuel str len s = Fault (PageFault va) s.
Proof.
  revert len. induction fuel as [|n IH]; intros len; cbn [strlen_from]; [done|].
  unfold mbind, M_bind, load8. destruct (resolve s (str ⊕ len)); [|eauto].
  destruct (_ =? 0); [|apply IH]. intros _. left. eauto.
Qed.

(** ** Properties *)

(** [memset] over mapped memory returns its first argument with every byte of
    the range equal to the low byte of [c], and no other byte changed. *)
Theorem memset_fills (s : kstate) (p c n pa : Z)
    (Hm : mapped s p n pa) (Hp : 0 <= p) (Hn : 0 <= n < 2 ^ 64) :
  exists r', memset p c n s = Done p (set_ram r' s) /\
    (forall a, pa <= a < pa + n -> byte_val (ram_get r' a) = c mod 2 ^ 8) /\
    (forall a, a < pa \/ pa + n <= a -> ram_get r' a = ram_get (k_ram s) a).
Proof.
  eexists. split; [by apply memset_done|]. split; intros a Ha.
  - rewrite ram_get_write, length_replicate, Z2Nat.id, decide_True by lia.
    rewrite lookup_replicate_2 by lia. apply byte_val_to_byte.
  - apply ram_get_write_out. rewrite length_replicate. lia.
Qed.

Lemma memset_fills_witness :
  exists r', memset 0xffff800000001000 0x1ff 3 sample_start =
      Done 0xffff800000001000 (set_ram r' sample_start) /\
    (forall a, 0x1000 <= a < 0x1000 + 3 -> byte_val (ram_get r' a) = 0x1ff mod 2 ^ 8) /\
    (forall a, a < 0x1000 \/ 0x1000 + 3 <= a -> ram_get r' a = ram_get ∅ a).
Proof.
  apply (memset_fills sample_start); [|done|done].
  by apply (sample_direct sample_start 0x1000).
Defined.

(** [memmove] copies [n] bytes as if through a buffer, whatever the overlap
    of the two ranges: the destination then holds the bytes the source had, and
    no other byte changed. *)
Theorem memmove_copies (s : kstate) (d src n pd ps : Z)
    (Hd : mapped s d n pd) (Hs : mapped s src n ps) (Hd0 : 0 <= d) (Hs0 : 0 <= src)
    (Hn : 0 <= n < 2 ^ 64) (Hwin : pd - ps = d - src) :
  exists r', memmove d src n s = Done d (set_ram r' s) /\
    ram_read r' pd (Z.to_nat n) = ram_read (k_ram s) ps (Z.to_nat n) /\
    (forall a, a < pd \/ pd + n <= a -> ram_get r' a = ram_get (k_ram s) a).
Proof.
  destruct (memmove_done s d src n pd ps) as (r' & E & Hr); try done.
  exists r'. split; [done|]. split.
  - rewrite Hr. pose proof (ram_read_write_same (k_ram s) pd
      (ram_read (k_ram s) ps (Z.to_nat n))) as H. by rewrite length_ram_read in H.
  - intros a Ha. rewrite Hr. apply ram_get_write_out. rewrite length_ram_read. lia.
Qed.

Lemma memmove_copies_witness :
  exists r', memmove 0xffff800000001002 0xffff800000001000 4 sample_pmm =
      Done 0xffff800000001002 (set_ram r' sample_pmm) /\
    ram_read r' 0x1002 4 = [to_byte 3; x00; x00; x00] /\
    (forall a, a < 0x1002 \/ 0x1002 + 4 <= a -> ram_get r' a = ram_get (k_ram sample_pmm) a).
Proof.
  apply (memmove_copies sample_pmm 0xffff800000001002 0xffff800000001000 4 0x1002 0x1000);
    try done; [by apply (sample_direct sample_pmm 0x1002)|by apply (sample_direct sample_pmm 0x1000)].
Defined.

(** [memcpy] between ranges that do not overlap copies the source's bytes to
    the destination and changes no other byte. *)
Theorem memcpy_copies (s : kstate) (d src n pd ps : Z)
    (Hd : mapped s d n pd) (Hs : mapped s src n ps) (Hd0 : 0 <= d) (Hs0 : 0 <= src)
    (Hn : 0 <= n < 2 ^ 64) (Hdis : pd + n <= ps \/ ps + n <= pd) :
  exists r', memcpy d src n s = Done d (set_ram r' s) /\
    ram_read r' pd (Z.to_nat n) = ram_read (k_ram s) ps (Z.to_nat n) /\
    (forall a, a < pd \/ pd + n <= a -> ram_get r' a = ram_get (k_ram s) a).
Proof.
  eexists. split; [by apply memcpy_done|]. split.
  - pose proof (ram_read_write_same (k_ram s) pd (ram_read (k_ram s) ps (Z.to_nat n))) as H.
    by rewrite length_ram_read in H.
  - intros a Ha. apply ram_get_write_out. rewrite length_ram_read. lia.
Qed.

Lemma memcpy_copies_witness :
  exists r', memcpy 0x2000 0xffff800000001000 4 sample_pmm =
      Done 0x2000 (set_ram r' sample_pmm) /\
    ram_read r' 0x2000 4 = [to_byte 3; x00; x00; x00] /\
    (forall a, a < 0x2000 \/ 0x2000 + 4 <= a -> ram_get r' a = ram_get (k_ram sample_pmm) a).
Proof.
  apply (memcpy_copies sample_pmm 0x2000 0xffff800000001000 4 0x2000 0x1000);
    try done; [by apply sample_identity|by apply (sample_direct sample_pmm 0x1000)|lia].
Defined.

(** [memcmp] answers 0 exactly when the two ranges hold the same bytes, else
    -1 or 1 by the first byte that differs, and swapping its arguments negates
    its answer. *)
Theorem memcmp_orders (s : kstate) (s1 s2 n p1 p2 : Z)
    (Hm1 : mapped s s1 n p1) (Hm2 : mapped s s2 n p2) (H1 : 0 <= s1) (H2 : 0 <= s2)
    (Hn : 0 <= n < 2 ^ 64) :
  exists r, memcmp s1 s2 n s = Done r s /\ memcmp s2 s1 n s = Done (- r) s /\
    r = lex_cmp (byte_vals (k_ram s) p1 (Z.to_nat n)) (byte_vals (k_ram s) p2 (Z.to_nat n)) /\
    (r = 0 <-> ram_read (k_ram s) p1 (Z.to_nat n) = ram_read (k_ram s) p2 (Z.to_nat n)).
Proof.
  eexists. split; [by apply (memcmp_done s s1 s2 n p1 p2)|].
  split; [rewrite <- lex_cmp_antisym; by apply (memcmp_done s s2 s1 n p2 p1)|].
  split; [done|]. rewrite lex_cmp_eq by by rewrite !length_byte_vals. apply byte_vals_inj.
Qed.

Lemma memcmp_orders_witness :
  exists r, memcmp 0x1000 0x2000 4 sample_pmm = Done r sample_pmm /\
    memcmp 0x2000 0x1000 4 sample_pmm = Done (- r) sample_pmm /\ r = 1 /\
    (r = 0 <-> ram_read (k_ram sample_pmm) 0x1000 4 = ram_read (k_ram sample_pmm) 0x2000 4).
Proof.
  apply (memcmp_orders sample_pmm 0x1000 0x2000 4 0x1000 0x2000); try done;
    by apply sample_identity.
Defined.

(** [strlen] of any address terminates: it returns a length, or faults when
    the bytes run into unmapped memory before a zero byte; of a string in memory,
    [n] bytes that are not zero and then a zero byte, it returns [n]. *)
Theorem strlen_counts (s : kstate) (str : Z) (Hd : 0x100000000 < hw_direct_map (k_hw s)) :
  ((exists n, strlen str s = Done n s) \/ exists va, strlen str s = Fault (PageFault va) s) /\
  forall pa n, mapped s str (n + 1) pa -> 0 <= str -> 0 <= n < 2 ^ 64 - 1 ->
    (forall i, 0 <= i < n -> byte_val (ram_get (k_ram s) (pa + i)) <> 0) ->
    ram_get (k_ram s) (pa + n) = x00 -> strlen str s = Done n s.
Proof.
  split; [apply strlen_from_ends, (strlen_fuel s str Hd)|].
  intros pa n Hm H0 Hn Hnz Hz. unfold strlen, mbind, M_bind, gets.
  apply (strlen_from_string s str pa n); try done; try lia.
  pose proof (resolve_ram _ _ _ (Hm 0 ltac:(lia))). pose proof (resolve_ram _ _ _ (Hm n ltac:(lia))).
  lia.
Qed.

Lemma strlen_counts_witness :
  ((exists n, strlen 0x10000 sample_pmm = Done n sample_pmm) \/
   exists va, strlen 0x10000 sample_pmm = Fault (PageFault va) sample_pmm) /\
  strlen 0x1000 sample_pmm = Done 1 sample_pmm.
Proof.
  split.
  - exact (proj1 (strlen_counts sample_pmm 0x10000 eq_refl)).
  - apply (proj2 (strlen_counts sample_pmm 0x1000 eq_refl) 0x1000 1); try done;
      [by apply sample_identity|].
    intros i Hi. replace i with 0 by lia. done.
Defined.
