(* ===== verification/Video.v ===== *)
(** kern/include/video.c: writing characters, strings and numbers to the
    terminal, and [toupper].  flanterm itself is not part of the repository: a
    call of [flanterm_write] is the event that hands it some bytes. *)

From S2P Require Import Prelude Limine Types Machine Memory CString.

Definition MAX_INTERGER_SIZE : Z := 128.

Definition flanterm_write (bs : list Z) : M unit := emit (EvWrite bs).

Definition print_char (c : Z) : M unit := flanterm_write [u8 c].

(** [str] is a string literal of the kernel image: its characters before the
    terminator. *)
Definition print_str (str : string) : M unit :=
  flanterm_write (take (Z.to_nat (strlen_lit (codes str))) (codes str)).

(** Elements of the local array [int arr[128]], [None] before they are set. *)
Definition arr_set (arr : list (option Z)) (j v : Z) : M (list (option Z)) :=
  if (0 <=? j) && (j <? Z.of_nat (length arr))
  then mret (<[Z.to_nat j := Some v]> arr) else throw (OutOfBounds j).

Definition arr_get (arr : list (option Z)) (i : Z) : M Z :=
  o ← index arr i;
  match o with Some v => mret v | None => throw (Uninitialised i) end.

(** The loop [while (num != 0)] of print_int (base 10, limit 128) and print_hex
    (base 16, limit 64).  [None] is the early [return]. *)
Fixpoint collect_digits (base limit : Z) (fuel : nat) (num : Z)
    (arr : list (option Z)) (j digitscount : Z) : M (option (list (option Z) * Z)) :=
  if num =? 0 then mret (Some (arr, digitscount))
  else match fuel with
  | O => out_of_fuel
  | S fuel =>
      let md := num mod base in
      arr ← arr_set arr j md;
      let num := num / base in
      let j := j + 1 in
      if j =? limit then mret None
      else
        let digitscount := j in
        arr ← (if num =? 0 then arr_set arr j md else mret arr);
        collect_digits base limit fuel num arr j digitscount
  end.

(** The switch on a digit in print_int. *)
Definition print_int_digit (d : Z) : M unit :=
  match d with
  | 1 => print_char 49 | 2 => print_char 50 | 3 => print_char 51
  | 4 => print_char 52 | 5 => print_char 53 | 6 => print_char 54
  | 7 => print_char 55 | 8 => print_char 56 | 9 => print_char 57
  | 0 => print_char 48
  | _ => mret tt
  end.

Definition print_int (num : Z) : M unit :=
  r ← collect_digits 10 MAX_INTERGER_SIZE 128 (u64 num)
        (replicate 128 None) 0 0;
  match r with
  | None => mret tt
  | Some (arr, digitscount) =>
      for_down (Z.to_nat digitscount) (fun k =>
        d ← arr_get arr (k - 1); print_int_digit d) ;;
      if digitscount =? 0 then print_char 48 else mret tt
  end.

(** The switch on a digit in print_hex. *)
Definition print_hex_digit (d : Z) : M unit :=
  match d with
  | 1 => print_char 49 | 2 => print_char 50 | 3 => print_char 51
  | 4 => print_char 52 | 5 => print_char 53 | 6 => print_char 54
  | 7 => print_char 55 | 8 => print_char 56 | 9 => print_char 57
  | 10 => print_char 65 | 11 => print_char 66 | 12 => print_char 67
  | 13 => print_char 68 | 14 => print_char 69 | 15 => print_char 70
  | 0 => print_char 48
  | _ => mret tt
  end.

Definition print_hex (num : Z) : M unit :=
  r ← collect_digits 16 64 128 (u64 num) (replicate 128 None) 0 0;
  match r with
  | None => mret tt
  | Some (arr, digitscount) =>
      for_down (Z.to_nat digitscount) (fun k =>
        d ← arr_get arr (k - 1); print_hex_digit d) ;;
      if digitscount =? 0 then print_char 48 else mret tt
  end.

#[global] Arguments print_int : simpl never.
#[global] Arguments print_hex : simpl never.
#[global] Arguments print_char : simpl never.
#[global] Arguments print_str : simpl never.

(** The switch of toupper, on character codes. *)
Definition toupper (c : Z) : Z :=
  match c with
  | 97 (* a *) => 65
  | 98 (* b *) => 66
  | 99 (* c *) => 67
  | 100 (* d *) => 68
  | 101 (* e *) => 69
  | 102 (* f *) => 70
  | 103 (* g *) => 71
  | 104 (* h *) => 72
  | 105 (* i *) => 73
  | 106 (* j *) => 74
  | 107 (* k *) => 75
  | 108 (* l *) => 76
  | 109 (* m *) => 77
  | 110 (* n *) => 78
  | 111 (* o *) => 79
  | 112 (* p *) => 80
  | 116 (* t *) => 84
  | 114 (* r *) => 82
  | 115 (* s *) => 83
  | 117 (* u *) => 85
  | 118 (* v *) => 86
  | 119 (* w *) => 87
  | 120 (* x *) => 88
  | 121 (* y *) => 89
  | 122 (* z *) => 90
  | _ => c
  end.

(** ** Reference: numerals *)

(** The digits of [n] in a base, least significant first. *)
Fixpoint lsb_digits (base : Z) (fuel : nat) (n : Z) : list Z :=
  match fuel with
  | O => []
  | S fuel => if n =? 0 then [] else n mod base :: lsb_digits base fuel (n / base)
  end.

Definition hex_code (d : Z) : Z := if d <? 10 then 48 + d else 55 + d.

Definition numeral (base n : Z) : list Z :=
  if n =? 0 then [48] else hex_code <$> rev (lsb_digits base 64 n).

(** Reading a numeral back. *)
Definition code_digit (c : Z) : option Z :=
  if (48 <=? c) && (c <=? 57) then Some (c - 48)
  else if (65 <=? c) && (c <=? 70) then Some (c - 55) else None.

Definition read_numeral (base : Z) (cs : list Z) : option Z :=
  foldl (fun acc c =>
    match acc, code_digit c with
    | Some v, Some d => if d <? base then Some (v * base + d) else None
    | _, _ => None
    end) (Some 0) cs.

Definition writes (cs : list Z) : list event := (fun c => EvWrite [c]) <$> cs.

(** ** Lemmas *)

Lemma console_writes cs : console (writes cs) = cs.
Proof.
  unfold console, writes. induction cs as [|c cs IH]; [done|].
  exact (f_equal (cons c) IH).
Qed.

Section digits.
Context (base : Z) (Hbase : 2 <= base <= 16).

Lemma lsb_digits_range fuel n : 0 <= n -> Forall (fun d => 0 <= d < base) (lsb_digits base fuel n).
Proof using Hbase.
  revert n. induction fuel as [|fuel IH]; intros n Hn; simpl; [constructor|].
  case_match; constructor.
  - apply Z.mod_pos_bound. lia.
  - apply IH. apply Z.div_pos; lia.
Qed.

Lemma lsb_digits_length fuel n k :
  0 <= n < base ^ Z.of_nat k -> (length (lsb_digits base fuel n) <= k)%nat.
Proof using Hbase.
  revert n k. induction fuel as [|fuel IH]; intros n k Hn; simpl; [lia|].
  destruct (Z.eqb_spec n 0); simpl; [lia|].
  destruct k as [|k]; [simpl in Hn; lia|].
  apply le_n_S, IH. rewrite Nat2Z.inj_succ, Z.pow_succ_r in Hn by lia.
  split; [apply Z.div_pos; lia|]. apply Z.div_lt_upper_bound; lia.
Qed.

Lemma lsb_digits_last fuel n d :
  0 <= n < base ^ Z.of_nat fuel -> last (lsb_digits base fuel n) = Some d -> d <> 0.
Proof using Hbase.
  revert n. induction fuel as [|fuel IH]; intros n Hn; simpl; [done|].
  destruct (Z.eqb_spec n 0); simpl; [done|].
  rewrite Nat2Z.inj_succ, Z.pow_succ_r in Hn by lia.
  assert (0 <= n / base < base ^ Z.of_nat fuel) as Hq.
  { split; [apply Z.div_pos; lia|]. apply Z.div_lt_upper_bound; lia. }
  destruct (lsb_digits base fuel (n / base)) as [|e l] eqn:E.
  - intros [= <-] H0.
    assert (n / base = 0) as Hz.
    { destruct fuel as [|fuel]; simpl in *; [lia|].
      destruct (Z.eqb_spec (n / base) 0); [done|done]. }
    pose proof (Z.div_mod n base ltac:(lia)). nia.
  - intros H. apply (IH _ Hq). by rewrite E.
Qed.

Lemma lsb_digits_value fuel n :
  0 <= n < base ^ Z.of_nat fuel ->
  foldr (fun d acc => acc * base + d) 0 (lsb_digits base fuel n) = n.
Proof using Hbase.
  revert n. induction fuel as [|fuel IH]; intros n Hn; simpl; [simpl in Hn; lia|].
  destruct (Z.eqb_spec n 0); simpl; [done|].
  rewrite Nat2Z.inj_succ, Z.pow_succ_r in Hn by lia.
  rewrite IH.
  - pose proof (Z.div_mod n base ltac:(lia)). lia.
  - split; [apply Z.div_pos; lia|]. apply Z.div_lt_upper_bound; lia.
Qed.

Lemma code_digit_hex_code d : 0 <= d < 16 -> code_digit (hex_code d) = Some d.
Proof.
  intros Hd. unfold hex_code, code_digit. zbool; try done; simplify_eq/=; try (f_equal; lia); lia.
Qed.

Lemma read_numeral_rev ds :
  Forall (fun d => 0 <= d < base) ds ->
  read_numeral base (hex_code <$> rev ds) = Some (foldr (fun d acc => acc * base + d) 0 ds).
Proof using Hbase.
  intros HF. unfold read_numeral. induction HF as [|d ds Hd HF IH]; [done|].
  simpl. rewrite fmap_app, foldl_app, IH. simpl.
  rewrite code_digit_hex_code by lia. by rewrite (proj2 (Z.ltb_lt d base)) by lia.
Qed.

Lemma read_numeral_numeral n :
  0 <= n < base ^ 64 -> read_numeral base (numeral base n) = Some n.
Proof using Hbase.
  intros Hn. unfold numeral. destruct (Z.eqb_spec n 0) as [->|].
  - unfold read_numeral. cbn [foldl]. change (code_digit 48) with (Some 0).
    cbn beta iota. by rewrite (proj2 (Z.ltb_lt 0 base)) by lia.
  - rewrite read_numeral_rev by (apply lsb_digits_range; lia).
    f_equal. by apply lsb_digits_value.
Qed.
End digits.

(** ** The code *)

Lemma arr_set_done arr j v s :
  0 <= j < Z.of_nat (length arr) -> arr_set arr j v s = Done (<[Z.to_nat j := Some v]> arr) s.
Proof.
  intros Hj. unfold arr_set. by rewrite (proj2 (Z.leb_le 0 j)), (proj2 (Z.ltb_lt j _)) by lia.
Qed.

Lemma arr_get_done arr i v s :
  0 <= i -> arr !! Z.to_nat i = Some (Some v) -> arr_get arr i s = Done v s.
Proof.
  intros Hi E. unfold arr_get, index. rewrite decide_True by done. by rewrite E.
Qed.

Lemma collect_digits_done base limit fuel s : 2 <= base <= 16 ->
  forall num arr j dc,
  0 <= num < base ^ Z.of_nat fuel -> 0 <= j ->
  j + Z.of_nat (length (lsb_digits base fuel num)) < limit ->
  limit <= Z.of_nat (length arr) ->
  exists arr', collect_digits base limit fuel num arr j dc s =
    Done (Some (arr', if num =? 0 then dc
                      else j + Z.of_nat (length (lsb_digits base fuel num)))) s /\
    (forall k, (k < Z.to_nat j)%nat -> arr' !! k = arr !! k) /\
    (forall k d, lsb_digits base fuel num !! k = Some d ->
      arr' !! (Z.to_nat j + k)%nat = Some (Some d)).
Proof.
  intros Hb. induction fuel as [|fuel IH]; intros num arr j dc Hn Hj Hlim Hlen;
    cbn [collect_digits lsb_digits] in *.
  - simpl in Hn. replace num with 0 by lia. exists arr. done.
  - destruct (Z.eqb_spec num 0) as [->|Hnz]; [exists arr; done|].
    rewrite Nat2Z.inj_succ, Z.pow_succ_r in Hn by lia.
    assert (0 <= num / base < base ^ Z.of_nat fuel) as Hq.
    { split; [apply Z.div_pos; lia|]. apply Z.div_lt_upper_bound; lia. }
    cbn [length] in Hlim. erewrite bind_done by (apply arr_set_done; lia).
    rewrite (proj2 (Z.eqb_neq (j + 1) limit)) by lia.
    set (arr2 := if num / base =? 0 then _ else _).
    assert (exists arr3, arr2 s = Done arr3 s /\ length arr3 = length arr /\
      (forall k, (k <= Z.to_nat j)%nat -> arr3 !! k = <[Z.to_nat j := Some (num mod base)]> arr !! k))
      as (arr3 & E3 & Hl3 & H3).
    { unfold arr2. destruct (num / base =? 0).
      - eexists. split; [apply arr_set_done; rewrite length_insert; lia|].
        split; [by rewrite !length_insert|]. intros k Hk.
        by rewrite list_lookup_insert_ne by lia.
      - eexists. split; [done|]. split; [by rewrite length_insert|done]. }
    rewrite (bind_done _ _ _ _ _ E3).
    destruct (IH (num / base) arr3 (j + 1) (j + 1)) as (arr' & E & Hlow & Hdig);
      try lia; try done.
    exists arr'. rewrite E. split; [|split].
    + do 3 f_equal. destruct (Z.eqb_spec (num / base) 0) as [Hz|]; cbn [length]; [|lia].
      rewrite Hz. by destruct fuel.
    + intros k Hk. rewrite Hlow by lia. rewrite H3 by lia.
      by rewrite list_lookup_insert_ne by lia.
    + intros [|k] d; simpl.
      * intros [= <-]. rewrite Nat.add_0_r, Hlow by lia. rewrite H3 by lia.
        apply list_lookup_insert_eq. lia.
      * intros Hd. replace (Z.to_nat j + S k)%nat with (Z.to_nat (j + 1) + k)%nat by lia.
        by apply Hdig.
Qed.

Lemma print_char_done c s : 0 <= c < 256 -> print_char c s = Done tt (emits (writes [c]) s).
Proof. intros Hc. unfold print_char. rewrite u8_small by lia. done. Qed.

Lemma print_int_digit_done d s :
  0 <= d < 10 -> print_int_digit d s = Done tt (emits (writes [hex_code d]) s).
Proof.
  intros Hd. assert (d ∈ zrange 0 10) as H by (apply elem_of_zrange; lia).
  revert H. simpl. rewrite !elem_of_cons, elem_of_nil.
  intros H. repeat destruct H as [->|H]; done.
Qed.

Lemma print_hex_digit_done d s :
  0 <= d < 16 -> print_hex_digit d s = Done tt (emits (writes [hex_code d]) s).
Proof.
  intros Hd. assert (d ∈ zrange 0 16) as H by (apply elem_of_zrange; lia).
  revert H. simpl. rewrite !elem_of_cons, elem_of_nil.
  intros H. repeat destruct H as [->|H]; done.
Qed.

Lemma writes_app cs cs' : writes (cs ++ cs') = writes cs ++ writes cs'.
Proof. apply fmap_app. Qed.

(** The loop that prints the collected digits, most significant first. *)
Lemma print_digits_done (pr : Z -> M unit) base ds arr s :
  (forall d s, 0 <= d < base -> pr d s = Done tt (emits (writes [hex_code d]) s)) ->
  Forall (fun d => 0 <= d < base) ds ->
  (forall k d, ds !! k = Some d -> arr !! k = Some (Some d)) ->
  for_down (length ds) (fun k => d ← arr_get arr (k - 1); pr d) s =
    Done tt (emits (writes (hex_code <$> rev ds)) s).
Proof.
  intros Hpr HF. revert s. induction ds as [|d ds IH] using rev_ind; intros s Harr.
  - by rewrite emits_nil.
  - apply Forall_app in HF as [HF Hd].
    apply (Forall_singleton (fun d => 0 <= d < base)) in Hd.
    rewrite length_app, Nat.add_1_r. cbn [for_down].
    assert (arr !! length ds = Some (Some d)) as Ed
      by (apply Harr; by rewrite lookup_app_r, Nat.sub_diag by lia).
    erewrite bind_done; cycle 1.
    { erewrite bind_done; cycle 1.
      - apply arr_get_done; [lia|]. rewrite <- Ed. f_equal. lia.
      - by apply Hpr. }
    rewrite IH; [|done|].
    + rewrite emits_app, rev_app_distr. done.
    + intros k e Hk. apply Harr. by apply lookup_app_l_Some.
Qed.

Lemma lsb_digits_fuel base f1 f2 n : 2 <= base ->
  0 <= n < base ^ Z.of_nat f1 -> n < base ^ Z.of_nat f2 ->
  lsb_digits base f1 n = lsb_digits base f2 n.
Proof.
  intros Hb. revert f2 n. induction f1 as [|f1 IH]; intros f2 n H1 H2; simpl.
  - simpl in H1. replace n with 0 by lia. by destruct f2.
  - destruct (Z.eqb_spec n 0) as [->|]; [by destruct f2|].
    destruct f2 as [|f2]; simpl; [simpl in H2; lia|].
    rewrite (proj2 (Z.eqb_neq n 0)) by done. f_equal.
    rewrite Nat2Z.inj_succ, Z.pow_succ_r in H1, H2 by lia.
    apply IH; [split; [apply Z.div_pos; lia|]|]; apply Z.div_lt_upper_bound; lia.
Qed.

(** Both print routines emit the numeral of their base. *)
Lemma print_base_done base limit (pr : Z -> M unit) num s :
  (base = 10 \/ base = 16) -> 20 < limit <= 128 ->
  (forall d s, 0 <= d < base -> pr d s = Done tt (emits (writes [hex_code d]) s)) ->
  (r ← collect_digits base limit 128 (u64 num) (replicate 128 None) 0 0;
   match r with
   | None => mret tt
   | Some (arr, digitscount) =>
      for_down (Z.to_nat digitscount) (fun k => d ← arr_get arr (k - 1); pr d) ;;
      if digitscount =? 0 then print_char 48 else mret tt
   end) s = Done tt (emits (writes (numeral base (u64 num))) s).
Proof.
  intros Hb Hlim Hpr. pose proof (u64_range num) as Hr. set (n := u64 num) in *.
  assert (2 <= base <= 16) as Hb2 by lia.
  assert (0 <= n < base ^ Z.of_nat 20) as H20 by (destruct Hb as [-> | ->]; lia).
  assert (forall k, (20 <= k)%nat -> 0 <= n < base ^ Z.of_nat k) as Hk.
  { intros k Hk. pose proof (Z.pow_le_mono_r base (Z.of_nat 20) (Z.of_nat k)). lia. }
  pose proof (Hk 64%nat ltac:(lia)) as H64. pose proof (Hk 128%nat ltac:(lia)) as H128.
  pose proof (lsb_digits_length base Hb2 128 n 20 H20) as Hlen.
  assert (limit <= Z.of_nat (length (replicate 128 (@None Z)))) as Hl
    by (rewrite length_replicate; lia).
  assert (0 + Z.of_nat (length (lsb_digits base 128 n)) < limit) as Hj by lia.
  destruct (collect_digits_done base limit 128 s Hb2 n _ 0 0 H128 (Z.le_refl 0) Hj Hl)
    as (arr & E & _ & Harr).
  rewrite (bind_done _ _ _ _ _ E). unfold numeral.
  destruct (Z.eqb_spec n 0) as [Hz|Hz]; [done|].
  rewrite Z.add_0_l, Nat2Z.id.
  rewrite (bind_done _ _ _ _ _ (print_digits_done pr base _ arr s Hpr
    (lsb_digits_range base Hb2 128 n (proj1 H128)) Harr)).
  rewrite (lsb_digits_fuel base 128 64 n (proj1 Hb2) H128 (proj2 H64)).
  destruct (lsb_digits base 64 n) as [|d ds] eqn:Ed; [|done].
  pose proof (lsb_digits_value base Hb2 64 n H64) as Hv.
  rewrite Ed in Hv. simpl in Hv. lia.
Qed.

Lemma print_int_done num s :
  print_int num s = Done tt (emits (writes (numeral 10 (u64 num))) s).
Proof. apply print_base_done; [auto|done|]. intros. by apply print_int_digit_done. Qed.

Lemma print_hex_done num s :
  print_hex num s = Done tt (emits (writes (numeral 16 (u64 num))) s).
Proof. apply print_base_done; [auto|done|]. intros. by apply print_hex_digit_done. Qed.

(** A numeral has no leading zero. *)
Lemma numeral_head base n :
  2 <= base <= 16 -> 0 <= n < base ^ 64 -> head (numeral base n) = Some 48 -> n = 0.
Proof.
  intros Hb Hn. unfold numeral. destruct (Z.eqb_spec n 0) as [->|]; [done|].
  pose proof (lsb_digits_range base Hb 64 n ltac:(lia)) as HF.
  pose proof (lsb_digits_last base Hb 64 n) as HL.
  induction (lsb_digits base 64 n) as [|d ds _] using rev_ind; [done|].
  rewrite rev_app_distr. simpl. intros [= H].
  rewrite last_snoc in HL. specialize (HL d Hn eq_refl).
  apply Forall_app in HF as [_ Hd]. apply (Forall_singleton (fun d => 0 <= d < base)) in Hd.
  unfold hex_code in H. revert H. zbool; lia.
Qed.

Lemma length_numeral base n k :
  2 <= base <= 16 -> 0 <= n < base ^ Z.of_nat (S k) -> (length (numeral base n) <= S k)%nat.
Proof.
  intros Hb Hn. unfold numeral. destruct (n =? 0); [simpl; lia|].
  rewrite length_fmap, length_rev. by apply lsb_digits_length.
Qed.

(** ** Properties *)

(** [pr num] writes a numeral of [u64 num] to the console: at most [k] digits,
    which read back give the number, with no leading zero. *)
Definition prints_numeral (base : Z) (k : nat) (pr : Z -> M unit) (num : Z) (s : kstate) : Prop :=
  exists cs, pr num s = Done tt (emits (writes cs) s) /\
    read_numeral base (console (writes cs)) = Some (u64 num) /\
    (length cs <= k)%nat /\ (head cs = Some 48 -> u64 num = 0).

Lemma numeral_printed base k pr num s :
  2 <= base <= 16 -> u64 num < base ^ Z.of_nat (S k) -> base ^ Z.of_nat (S k) <= base ^ 64 ->
  pr num s = Done tt (emits (writes (numeral base (u64 num))) s) ->
  prints_numeral base (S k) pr num s.
Proof.
  intros Hb Hk H64 E. pose proof (u64_range num). exists (numeral base (u64 num)).
  rewrite console_writes. split; [done|]. split; [|split].
  - apply read_numeral_numeral; lia.
  - apply length_numeral; lia.
  - apply numeral_head; lia.
Qed.

(** [print_int] and [print_hex] write their argument, taken as an unsigned
    64-bit number, in base 10 and 16: reading the console bytes back gives the
    number, there are at most twenty and sixteen of them, and no leading zero.
    The array guards of the C code are never hit. *)
Theorem print_numbers_roundtrip (num : Z) (s : kstate) :
  prints_numeral 10 20 print_int num s /\ prints_numeral 16 16 print_hex num s.
Proof.
  pose proof (u64_range num).
  split; apply numeral_printed; [lia|simpl; lia|lia|apply print_int_done|lia|simpl; lia|lia|].
  apply print_hex_done.
Qed.

(** [toupper] maps every lower-case letter to its capital and leaves every
    other character alone, except that ['q'] (113) has no case of its own and
    is returned unchanged. *)
Theorem toupper_letters (c : Z) :
  toupper c = if (97 <=? c) && (c <=? 122) && negb (c =? 113) then c - 32 else c.
Proof.
  destruct (decide (97 <= c <= 122)) as [Hc|Hc].
  - assert (c ∈ zrange 97 26) as H by (apply elem_of_zrange; lia).
    revert H. simpl. rewrite !elem_of_cons, elem_of_nil.
    intros H. repeat destruct H as [->|H]; done.
  - replace ((97 <=? c) && (c <=? 122)) with false by (symmetry; zbool; lia). simpl.
    unfold toupper. destruct c as [|p|p]; try done.
    do 7 (destruct p as [p|p|]; try done); lia.
Qed.
