(* ===== verification/Printf.v ===== *)
(** kern/include/printf.c: the format state machine, and its agreement with a
    reference that first parses the format into pieces and then renders them. *)

From S2P Require Import Prelude Limine Types Machine Memory CString Video.

(** ** Code *)

Definition NORMAL : Z := 0.
Definition FORMAT_SPECIFIER : Z := 1.

(** A variadic argument: an integer register or a string. *)
Inductive varg :=
  | VInt (z : Z)
  | VStr (s : string).

(** va_arg at the types printf asks for; asking past the last argument, or for
    the wrong kind, is undefined. *)
Definition va_arg_str (args : list varg) : M (string * list varg) :=
  match args with VStr s :: r => mret (s, r) | _ => throw BadVarargs end.

Definition va_arg_int (args : list varg) : M (Z * list varg) :=
  match args with VInt z :: r => mret (z, r) | _ => throw BadVarargs end.

(** "\n" *)
Definition newline : string := String (Ascii.ascii_of_N 10) EmptyString.

(** One iteration of the loop: the switch on [state] and [current]. *)
Definition printf_step (current state : Z) (args : list varg) : M (Z * list varg) :=
  if state =? NORMAL then
    match current with
    | 123 (* { *) => mret (FORMAT_SPECIFIER, args)
    | _ => print_char current ;; mret (state, args)
    end
  else if state =? FORMAT_SPECIFIER then
    match current with
    | 110 (* n *) => print_str newline ;; mret (state, args)
    | 107 (* k *) => '(s, args) ← va_arg_str args; print_str s ;; mret (state, args)
    | 100 (* d *) | 105 (* i *) =>
        '(z, args) ← va_arg_int args; print_int (u64 z) ;; mret (state, args)
    | 115 (* s *) => '(s, args) ← va_arg_str args; print_str s ;; mret (state, args)
    | 99 (* c *) => '(z, args) ← va_arg_int args; print_char (s32 z) ;; mret (state, args)
    | 120 (* x *) => '(z, args) ← va_arg_int args; print_hex (u64 z) ;; mret (state, args)
    | 108 (* l *) =>
        let current := current + 1 in
        if current =? 100
        then '(z, args) ← va_arg_int args; print_int (u64 z) ;; mret (state, args)
        else mret (state, args)
    | 125 (* } *) => mret (NORMAL, args)
    | _ => mret (state, args)
    end
  else mret (state, args).

Fixpoint printf_loop (cs : list Z) (state : Z) (args : list varg) : M (Z * list varg) :=
  match cs with
  | [] => mret (state, args)
  | current :: cs =>
      '(state, args) ← printf_step current state args;
      printf_loop cs state args
  end.

Definition printf (format_string : string) (args : list varg) : M Z :=
  printf_loop (take (Z.to_nat (strlen_lit (codes format_string))) (codes format_string))
    NORMAL args ;;
  mret 0.

(** ** Reference: parse, then render *)

Inductive piece :=
  | Text (c : Z)
  | Directive (c : Z).

(** Characters outside braces are text; inside, every character is a directive
    of its own. *)
Fixpoint parse (inside : bool) (cs : list Z) : list piece :=
  match cs with
  | [] => []
  | c :: cs =>
      if inside then
        if c =? 125 then parse false cs else Directive c :: parse true cs
      else if c =? 123 then parse true cs else Text c :: parse false cs
  end.

(** What a directive prints for an argument; [None] for a directive that takes
    no argument of that kind. *)
Definition str_codes (s : string) : list Z :=
  take (Z.to_nat (strlen_lit (codes s))) (codes s).

Definition render_arg (c : Z) (a : varg) : option (list event) :=
  match a with
  | VStr s => if (c =? 107) || (c =? 115) then Some [EvWrite (str_codes s)] else None
  | VInt z =>
      if (c =? 100) || (c =? 105) then Some (writes (numeral 10 (u64 z)))
      else if c =? 120 then Some (writes (numeral 16 (u64 z)))
      else if c =? 99 then Some [EvWrite [u8 z]]
      else None
  end.

Definition takes_arg (c : Z) : bool :=
  existsb (Z.eqb c) [107; 115; 100; 105; 120; 99].

Fixpoint render (ps : list piece) (args : list varg) : option (list event) :=
  match ps with
  | [] => Some []
  | Text c :: ps => app [EvWrite [u8 c]] <$> render ps args
  | Directive c :: ps =>
      if takes_arg c then
        match args with
        | a :: args => e ← render_arg c a; app e <$> render ps args
        | [] => None
        end
      else if c =? 110 then app [EvWrite [10]] <$> render ps args
      else render ps args
  end.

Definition format_events (fmt : string) (args : list varg) : option (list event) :=
  render (parse false (str_codes fmt)) args.

(** The kinds of arguments a format consumes. *)
Inductive argkind := KInt | KStr.

Definition directive_kind (c : Z) : option argkind :=
  if (c =? 107) || (c =? 115) then Some KStr
  else if takes_arg c then Some KInt else None.

Definition signature (fmt : string) : list argkind :=
  omap (fun p => match p with Directive c => directive_kind c | Text _ => None end)
    (parse false (str_codes fmt)).

Definition arg_kind (a : varg) : argkind :=
  match a with VInt _ => KInt | VStr _ => KStr end.

(** ** Lemmas *)

Lemma print_str_done str s : print_str str s = Done tt (emits [EvWrite (str_codes str)] s).
Proof. done. Qed.

Lemma s32_u8 z : u8 (s32 z) = u8 z.
Proof.
  unfold u8, s32.
  assert ((z mod 2 ^ 32) mod 2 ^ 8 = z mod 2 ^ 8) as E by ldivmod.
  destruct (z mod 2 ^ 32 <? 2 ^ 31); [done|].
  rewrite <- E. rewrite <- (Z_mod_plus_full _ (2 ^ 24)). f_equal. lia.
Qed.

Lemma u64_idem z : u64 (u64 z) = u64 z.
Proof. unfold u64. by rewrite Zmod_mod. Qed.

(** One directive that takes an argument. *)
Lemma printf_step_arg c a args s es :
  render_arg c a = Some es ->
  printf_step c FORMAT_SPECIFIER (a :: args) s = Done (FORMAT_SPECIFIER, args) (emits es s).
Proof.
  unfold render_arg. intros H.
  destruct a as [z|str].
  - destruct (Z.eqb_spec c 100) as [->|]; [|destruct (Z.eqb_spec c 105) as [->|];
      [|destruct (Z.eqb_spec c 120) as [->|];
        [|destruct (Z.eqb_spec c 99) as [->|]; [|done]]]]; simplify_eq/=.
    + unfold printf_step, mbind, M_bind; simpl. by rewrite print_int_done, u64_idem.
    + unfold printf_step, mbind, M_bind; simpl. by rewrite print_int_done, u64_idem.
    + unfold printf_step, mbind, M_bind; simpl. by rewrite print_hex_done, u64_idem.
    + unfold printf_step, mbind, M_bind; simpl. unfold print_char. by rewrite s32_u8.
  - destruct (Z.eqb_spec c 107) as [->|]; [|destruct (Z.eqb_spec c 115) as [->|]; [|done]];
      simplify_eq/=; done.
Qed.

(** Case analysis on a character code against the codes printf knows. *)
Ltac known_code c :=
  let go k := (destruct (decide (c = k)) as [->|?]) in
  go 110; [|go 107; [|go 100; [|go 105; [|go 115; [|go 99; [|go 120; [|go 108; [|go 125; [|]]]]]]]]].

Lemma printf_step_other c args s :
  takes_arg c = false -> c <> 110 -> c <> 125 ->
  printf_step c FORMAT_SPECIFIER args s = Done (FORMAT_SPECIFIER, args) s.
Proof.
  intros Ht H1 H2. unfold printf_step. simpl (_ =? _).
  known_code c; try done.
  simpl in Ht.
  destruct c as [|p|p]; try done.
  do 7 (destruct p as [p|p|]; try done).
Qed.

Lemma printf_step_text c args s :
  c <> 123 -> printf_step c NORMAL args s = Done (NORMAL, args) (emits [EvWrite [u8 c]] s).
Proof.
  intros H. unfold printf_step. simpl (_ =? _).
  destruct c as [|p|p]; try done.
  do 7 (destruct p as [p|p|]; try done).
Qed.

(** A directive whose argument is missing or of the other kind. *)
Lemma printf_step_bad c args s :
  takes_arg c = true ->
  match args with [] => None | a :: _ => render_arg c a end = None ->
  printf_step c FORMAT_SPECIFIER args s = Fault BadVarargs s.
Proof.
  unfold takes_arg. intros Ht Hr.
  apply existsb_exists in Ht as (k & Hin & Hk). apply Z.eqb_eq in Hk as ->.
  simpl in Hin. repeat destruct Hin as [<-|Hin]; try done;
    destruct args as [|[z|str] args]; done.
Qed.

Definition state_of (inside : bool) : Z := if inside then FORMAT_SPECIFIER else NORMAL.

Lemma printf_loop_render cs : forall inside args s,
  match render (parse inside cs) args with
  | Some es => exists r, printf_loop cs (state_of inside) args s = Done r (emits es s)
  | None => exists s', printf_loop cs (state_of inside) args s = Fault BadVarargs s'
  end.
Proof.
  induction cs as [|c cs IH]; intros inside args s.
  - destruct inside; simpl; eexists; by rewrite emits_nil.
  - (* the rest of the loop after a step that emits [es] and leaves [args] *)
    assert (forall es inside' args',
      printf_step c (state_of inside) args s = Done (state_of inside', args') (emits es s) ->
      match app es <$> render (parse inside' cs) args' with
      | Some es => exists r, printf_loop (c :: cs) (state_of inside) args s = Done r (emits es s)
      | None => exists s', printf_loop (c :: cs) (state_of inside) args s = Fault BadVarargs s'
      end) as Hgo.
    { intros es inside' args' E. specialize (IH inside' args' (emits es s)).
      cbn [printf_loop]. rewrite (bind_done _ _ _ _ _ E).
      destruct (render (parse inside' cs) args'); simpl; [|done].
      by rewrite emits_app in IH. }
    assert (forall inside' args',
      printf_step c (state_of inside) args s = Done (state_of inside', args') s ->
      match render (parse inside' cs) args' with
      | Some es => exists r, printf_loop (c :: cs) (state_of inside) args s = Done r (emits es s)
      | None => exists s', printf_loop (c :: cs) (state_of inside) args s = Fault BadVarargs s'
      end) as Hsilent.
    { intros inside' args' E. specialize (Hgo [] inside' args').
      rewrite emits_nil in Hgo. specialize (Hgo E).
      by destruct (render (parse inside' cs) args'). }
    destruct inside; cbn [parse].
    + destruct (Z.eqb_spec c 125) as [->|H125].
      { by apply (Hsilent false). }
      cbn [render]. destruct (takes_arg c) eqn:Ht.
      * pose proof (printf_step_bad c args s Ht) as Hbad.
        destruct args as [|a args];
          [exists s; cbn [printf_loop]; by rewrite (bind_fault _ _ _ _ _ (Hbad eq_refl))|].
        destruct (render_arg c a) as [es|] eqn:Ea; simpl.
        -- apply (Hgo es true). by apply printf_step_arg.
        -- exists s. by rewrite (bind_fault _ _ _ _ _ (Hbad eq_refl)).
      * destruct (Z.eqb_spec c 110) as [->|H110].
        -- by apply (Hgo [EvWrite [10]] true).
        -- apply (Hsilent true). by apply printf_step_other.
    + destruct (Z.eqb_spec c 123) as [->|H123].
      * by apply (Hsilent true).
      * apply (Hgo _ false). by apply printf_step_text.
Qed.

Lemma printf_done fmt args es s :
  format_events fmt args = Some es -> printf fmt args s = Done 0 (emits es s).
Proof.
  unfold format_events, printf, str_codes. intros E.
  pose proof (printf_loop_render (take (Z.to_nat (strlen_lit (codes fmt))) (codes fmt))
    false args s) as H.
  rewrite E in H. destruct H as [r H]. by rewrite (bind_done _ _ _ _ _ H).
Qed.

Lemma wp_printf fmt args es Q H s :
  format_events fmt args = Some es -> Q 0 (emits es s) -> wp (printf fmt args) Q H s.
Proof. intros E. eapply wp_done. by apply printf_done. Qed.

(** A format whose arguments are of the kinds it asks for has a rendering. *)
Lemma render_arg_kind c a k :
  directive_kind c = Some k -> arg_kind a = k -> is_Some (render_arg c a).
Proof.
  unfold directive_kind, takes_arg, render_arg, arg_kind. simpl. intros H1 H2.
  destruct a; subst k; repeat case_match; first [done|by eexists|lia].
Qed.

Lemma directive_kind_takes_arg c :
  directive_kind c = None <-> takes_arg c = false.
Proof.
  unfold directive_kind, takes_arg. simpl.
  destruct (Z.eqb_spec c 107); [done|].
  destruct (Z.eqb_spec c 115); [done|]. simpl. by case_match.
Qed.

Lemma render_typed ps args extra :
  omap (fun p => match p with Directive c => directive_kind c | Text _ => None end) ps =
    arg_kind <$> args ->
  exists es, render ps (args ++ extra) = Some es /\
    Forall (fun e => match e with EvWrite _ => True | _ => False end) es.
Proof.
  revert args. induction ps as [|[c|c] ps IH]; intros args Hk; simpl in *.
  - destruct args; [|done]. eexists; split; [done|constructor].
  - destruct (IH args Hk) as (es & -> & HF). eexists; split; [done|by constructor].
  - destruct (directive_kind c) as [k|] eqn:Ek.
    + destruct (takes_arg c) eqn:Et; [|by apply directive_kind_takes_arg in Et; congruence].
      destruct args as [|a args]; [done|]. injection Hk as -> Hk. simpl.
      destruct (render_arg_kind c a _ Ek eq_refl) as [ea Ea].
      destruct (IH args Hk) as (es & -> & HF). rewrite Ea. simpl.
      eexists; split; [done|]. apply Forall_app; split; [|done].
      unfold render_arg in Ea. destruct a; repeat case_match; simplify_eq/=;
        repeat constructor; unfold writes; apply Forall_fmap, Forall_true; done.
    + apply directive_kind_takes_arg in Ek as ->.
      destruct (IH args Hk) as (es & -> & HF).
      destruct (c =? 110); eexists; split; try done. by constructor.
Qed.

(** Events that only write to the console. *)
Definition console_event (e : event) : Prop :=
  match e with EvWrite _ => True | _ => False end.

Definition console_only (es : list event) : Prop := Forall console_event es.

Lemma console_only_app es es' : console_only es -> console_only es' -> console_only (es ++ es').
Proof. intros. by apply Forall_app. Qed.

(** The other events of a trace: what the processor and the devices see. *)
Definition device (t : list event) : list event :=
  omap (fun e => match e with EvWrite _ => None | _ => Some e end) t.

Lemma device_app t t' : device (t ++ t') = device t ++ device t'.
Proof. apply omap_app. Qed.

Lemma device_id es : Forall (fun e => ~ console_event e) es -> device es = es.
Proof.
  induction 1 as [|e es He _ IH]; [done|]. unfold device in *.
  destruct e; cbn in *; try done; by rewrite IH.
Qed.

Lemma device_console es : console_only es -> device es = [].
Proof. induction 1 as [|e es He _ IH]; [done|]. unfold device in *. by destruct e. Qed.

(** The privileged instructions of a trace. *)
Definition instrs (t : list event) : list instr :=
  omap (fun e => match e with EvAsm i => Some i | _ => None end) t.

Lemma instrs_app t t' : instrs (t ++ t') = instrs t ++ instrs t'.
Proof. apply omap_app. Qed.

Lemma instrs_console es : console_only es -> instrs es = [].
Proof. induction 1 as [|e es He _ IH]; [done|]. unfold instrs in *. cbn. by destruct e. Qed.

(** A trace of instructions only. *)
Lemma instrs_asm l : instrs (EvAsm <$> l) = l.
Proof. induction l as [|i l IH]; [done|]. unfold instrs in *. cbn. by rewrite IH. Qed.

Lemma instrs_device t : instrs t = instrs (device t).
Proof.
  induction t as [|e t IH]; [done|]. unfold instrs, device in *.
  by destruct e; cbn; rewrite ?IH.
Qed.

(** A call of printf whose arguments are of the kinds the format takes prints,
    the same whatever the state. *)
Lemma printf_typed_done fmt args :
  signature fmt = arg_kind <$> args ->
  exists es, console_only es /\ forall s, printf fmt args s = Done 0 (emits es s).
Proof.
  intros Hsig. destruct (render_typed _ args [] Hsig) as (es & E & HF).
  rewrite app_nil_r in E. exists es. split; [done|]. intros s. by apply printf_done.
Qed.

(** *** The text alone *)

Definition arg_text (c : Z) (a : varg) : list Z :=
  match a with
  | VStr s => str_codes s
  | VInt z =>
      if (c =? 100) || (c =? 105) then numeral 10 (u64 z)
      else if c =? 120 then numeral 16 (u64 z) else [u8 z]
  end.

Fixpoint render_text (ps : list piece) (args : list varg) : option (list Z) :=
  match ps with
  | [] => Some []
  | Text c :: ps => cons (u8 c) <$> render_text ps args
  | Directive c :: ps =>
      if takes_arg c then
        match args with
        | a :: args => app (arg_text c a) <$> render_text ps args
        | [] => None
        end
      else if c =? 110 then cons 10 <$> render_text ps args
      else render_text ps args
  end.

Definition format_text (fmt : string) (args : list varg) : option (list Z) :=
  render_text (parse false (str_codes fmt)) args.

Lemma console_render_arg c a es : render_arg c a = Some es -> console es = arg_text c a.
Proof.
  unfold render_arg, arg_text. destruct a; repeat case_match; intros [= <-];
    rewrite ?console_writes; try done; unfold console; cbn; by rewrite app_nil_r.
Qed.

Lemma console_render ps : forall args es,
  render ps args = Some es -> render_text ps args = Some (console es).
Proof.
  induction ps as [|[c|c] ps IH]; intros args es E; cbn [render render_text] in E |- *;
    [by injection E as <-|..].
  - apply fmap_Some in E as (es' & E & ->). by rewrite (IH _ _ E).
  - destruct (takes_arg c); [|destruct (c =? 110); [|by apply IH]].
    + destruct args as [|a args]; [done|]. apply bind_Some in E as (e & Ea & E).
      apply fmap_Some in E as (es' & E & ->).
      by rewrite (IH _ _ E), console_app, (console_render_arg _ _ _ Ea).
    + apply fmap_Some in E as (es' & E & ->). by rewrite (IH _ _ E).
Qed.

(** What a call of printf prints, by its text. *)
Lemma printf_text_done fmt args txt :
  signature fmt = arg_kind <$> args -> format_text fmt args = Some txt ->
  exists es, console_only es /\ console es = txt /\ forall s, printf fmt args s = Done 0 (emits es s).
Proof.
  intros Hsig Htxt. destruct (render_typed _ args [] Hsig) as (es & E & HF).
  rewrite app_nil_r in E. exists es. split; [done|]. split; [|intros s; by apply printf_done].
  apply console_render in E. unfold format_text in Htxt. rewrite Htxt in E. by injection E.
Qed.

(** Evaluates the text of a format, but not the numerals. *)
Ltac print_text :=
  match goal with |- format_text ?f ?a = _ =>
    let ps := eval vm_compute in (parse false (str_codes f)) in
    let txt := eval cbv -[numeral u64 app str_codes] in (render_text ps a) in
    transitivity txt; [unfold format_text; change (parse false (str_codes f)) with ps; lazy -[numeral u64 app str_codes]; reflexivity|reflexivity]
  end.

(** A call of printf with integer arguments in a format that takes integers. *)
Lemma wp_printf_typed fmt args (Q : Z -> kstate -> Prop) H s :
  signature fmt = arg_kind <$> args ->
  (forall es, console_only es -> Q 0 (emits es s)) -> wp (printf fmt args) Q H s.
Proof.
  intros Hsig HQ. destruct (render_typed _ args [] Hsig) as (es & E & HF).
  rewrite app_nil_r in E. eapply wp_printf; [exact E|auto].
Qed.

(** ** Properties *)

(** C18: [printf] is its reference: parsing the format into text and directives
    and rendering them with the arguments in order gives exactly the bytes
    printf writes, and printf goes wrong exactly when the reference finds an
    argument missing or of the wrong kind. *)
Theorem printf_refines_format (fmt : string) (args : list varg) (s : kstate) :
  match format_events fmt args with
  | Some es => printf fmt args s = Done 0 (emits es s)
  | None => exists s', printf fmt args s = Fault BadVarargs s'
  end.
Proof.
  destruct (format_events fmt args) as [es|] eqn:E; [by apply printf_done|].
  unfold format_events, str_codes in E. unfold printf.
  pose proof (printf_loop_render (take (Z.to_nat (strlen_lit (codes fmt))) (codes fmt))
    false args s) as H.
  rewrite E in H. destruct H as [s' H]. exists s'. by rewrite (bind_fault _ _ _ _ _ H).
Qed.

(** C19: a call of [printf] with arguments of the kinds the format's signature
    lists, in order, possibly followed by more, returns 0, and all it does is
    write to the console. *)
Theorem printf_type_safe (fmt : string) (args extra : list varg) (s : kstate)
    (Hsig : signature fmt = arg_kind <$> args) :
  exists es, printf fmt (args ++ extra) s = Done 0 (emits es s) /\
    Forall (fun e => match e with EvWrite _ => True | _ => False end) es.
Proof.
  destruct (render_typed _ args extra Hsig) as (es & E & HF).
  exists es. split; [|done]. by apply printf_done.
Qed.

Lemma printf_type_safe_witness :
  exists s : kstate, exists es,
    printf "irq {d} at 0x{xn}" ([VInt 3; VInt 255] ++ [VStr "spare"]) s = Done 0 (emits es s) /\
    Forall (fun e => match e with EvWrite _ => True | _ => False end) es.
Proof.
  exists (start_state ∅ (Hardware 0 0 (fun _ _ => 0) (fun _ => 0%nat))
    (BootInfo None None None None None None) (LinkMap 0 0 0 0 0 0 0 0 0 (fun _ => 0) 0)).
  apply (printf_type_safe "irq {d} at 0x{xn}" [VInt 3; VInt 255] [VStr "spare"]).
  vm_compute. reflexivity.
Defined.
