(* ===== verification/Log.v ===== *)
(** kern/include/log.c (with the colours of video.h) and the port and register
    accesses of kern/include/io.c. *)

From S2P Require Import Prelude Limine Types Machine Memory Sample CString Video Printf.

(** ** log.c *)

(** An ANSI escape: ESC followed by [code]. *)
Definition ansi (code : string) : string := String (Ascii.ascii_of_N 27) code.

Definition ANSI_COLOR_RED : string := ansi "[31m".
Definition ANSI_COLOR_GREEN : string := ansi "[32m".
Definition ANSI_COLOR_YELLOW : string := ansi "[33m".
Definition ANSI_COLOR_CYAN : string := ansi "[36m".
Definition ANSI_COLOR_RESET : string := ansi "[0m".

(** cli; hlt *)
Definition hang {A} : M A := asm Cli ;; asm Hlt ;; halt.

Definition log_panic {A} (msg : string) : M A :=
  printf "{k}kern_panic: {ksn}" [VStr ANSI_COLOR_RED; VStr ANSI_COLOR_RESET; VStr msg] ;;
  hang.

Definition log_err (msg : string) : M unit :=
  printf "{k}kern_err: {ksn}" [VStr ANSI_COLOR_RED; VStr ANSI_COLOR_RESET; VStr msg] ;;
  mret tt.

Definition log_warn (msg : string) : M unit :=
  printf "{k}kern_warn: {ksn}" [VStr ANSI_COLOR_YELLOW; VStr ANSI_COLOR_RESET; VStr msg] ;;
  mret tt.

Definition log_info (msg : string) : M unit :=
  printf "{k}kern_info: {ksn}" [VStr ANSI_COLOR_CYAN; VStr ANSI_COLOR_RESET; VStr msg] ;;
  mret tt.

Definition log_success (msg : string) : M unit :=
  printf "{k}kern_success: {ksn}" [VStr ANSI_COLOR_GREEN; VStr ANSI_COLOR_RESET; VStr msg] ;;
  mret tt.

(** ** io.c *)

Definition rdmsr (msr : Z) : M Z :=
  v ← request (RMsr (u32 msr)) (fun v => EvMsrRead (u32 msr) v);
  let low := u32 v in
  let high := u32 (Z.shiftr v 32) in
  mret (Z.lor (u64 (Z.shiftl high 32)) low).

Definition wrmsr (msr value : Z) : M unit :=
  let low := u32 (Z.land value 0xFFFFFFFF) in
  let high := u32 (Z.shiftr value 32) in
  emit (EvMsrWrite (u32 msr) (Z.lor (Z.shiftl high 32) low)).

Definition write_reg (addr val : Z) : M unit := emit (EvMmioWrite 32 addr (u32 val)).

Definition outb (port val : Z) : M unit := emit (EvOutb (u16 port) (u8 val)).

Definition inb (port : Z) : M Z :=
  v ← request (RInb (u16 port)) (fun v => EvInb (u16 port) (u8 v));
  mret (u8 v).

Definition inl (port : Z) : M Z :=
  v ← request (RInl (u16 port)) (fun v => EvInl (u16 port) (u32 v));
  mret (u32 v).

(** ** Reference: a log line *)

Definition log_line (color prefix msg : string) : list event :=
  EvWrite (str_codes color) :: writes (codes prefix) ++
    [EvWrite (str_codes ANSI_COLOR_RESET); EvWrite (str_codes msg); EvWrite [10]].

(** ** Lemmas *)

Lemma log_err_done msg s :
  log_err msg s = Done tt (emits (log_line ANSI_COLOR_RED "kern_err: " msg) s).
Proof. unfold log_err. by erewrite bind_done by (apply printf_done; reflexivity). Qed.

Lemma log_warn_done msg s :
  log_warn msg s = Done tt (emits (log_line ANSI_COLOR_YELLOW "kern_warn: " msg) s).
Proof. unfold log_warn. by erewrite bind_done by (apply printf_done; reflexivity). Qed.

Lemma log_info_done msg s :
  log_info msg s = Done tt (emits (log_line ANSI_COLOR_CYAN "kern_info: " msg) s).
Proof. unfold log_info. by erewrite bind_done by (apply printf_done; reflexivity). Qed.

Lemma log_success_done msg s :
  log_success msg s = Done tt (emits (log_line ANSI_COLOR_GREEN "kern_success: " msg) s).
Proof. unfold log_success. by erewrite bind_done by (apply printf_done; reflexivity). Qed.

Lemma hang_halts {A} s : hang (A := A) s = Halted (emits [EvAsm Cli; EvAsm Hlt] s).
Proof. unfold hang. rewrite bind_asm. cbn beta. by rewrite bind_asm, emits_app. Qed.

Lemma log_panic_halts {A} msg s :
  log_panic (A := A) msg s =
    Halted (emits (log_line ANSI_COLOR_RED "kern_panic: " msg ++
                   [EvAsm Cli; EvAsm Hlt]) s).
Proof.
  unfold log_panic.
  rewrite (bind_done _ _ 0 s (emits (log_line ANSI_COLOR_RED "kern_panic: " msg) s))
    by (apply printf_done; reflexivity).
  by rewrite hang_halts, emits_app.
Qed.

Lemma log_line_console c p m : console_only (log_line c p m).
Proof.
  unfold log_line. constructor; [done|]. apply console_only_app; [|by repeat constructor].
  by apply Forall_fmap, Forall_true.
Qed.

Lemma wp_log_info msg (Q : unit -> kstate -> Prop) H s :
  Q tt (emits (log_line ANSI_COLOR_CYAN "kern_info: " msg) s) -> wp (log_info msg) Q H s.
Proof. apply wp_done, log_info_done. Qed.

Lemma wp_log_success msg (Q : unit -> kstate -> Prop) H s :
  Q tt (emits (log_line ANSI_COLOR_GREEN "kern_success: " msg) s) -> wp (log_success msg) Q H s.
Proof. apply wp_done, log_success_done. Qed.

Lemma wp_log_panic {A} msg (Q : A -> kstate -> Prop) (H : kstate -> Prop) s :
  H (emits (log_line ANSI_COLOR_RED "kern_panic: " msg ++ [EvAsm Cli; EvAsm Hlt]) s) ->
  wp (log_panic msg) Q H s.
Proof. unfold wp. by rewrite log_panic_halts. Qed.

#[global] Arguments log_panic : simpl never.
#[global] Arguments printf : simpl never.

(** ** Properties *)

(** each log function writes its colour, its prefix, the reset code, the
    message and a newline, and returns, except [log_panic], which after its line
    disables interrupts, halts the processor and never returns. *)
Theorem log_lines (msg : string) (s : kstate) :
  log_err msg s = Done tt (emits (log_line ANSI_COLOR_RED "kern_err: " msg) s) /\
  log_warn msg s = Done tt (emits (log_line ANSI_COLOR_YELLOW "kern_warn: " msg) s) /\
  log_info msg s = Done tt (emits (log_line ANSI_COLOR_CYAN "kern_info: " msg) s) /\
  log_success msg s = Done tt (emits (log_line ANSI_COLOR_GREEN "kern_success: " msg) s) /\
  log_panic (A := unit) msg s =
    Halted (emits (log_line ANSI_COLOR_RED "kern_panic: " msg ++ [EvAsm Cli; EvAsm Hlt]) s).
Proof.
  split_and!; [apply log_err_done|apply log_warn_done|apply log_info_done|
    apply log_success_done|apply log_panic_halts].
Qed.

(** the value [wrmsr] puts in EDX:EAX is the 64-bit value it was given, and
    [rdmsr] returns the 64 bits the register holds: what is written is what a
    register that remembers its last write reads back. *)
Theorem msr_roundtrip (msr v : Z) (s : kstate) (Hv : 0 <= v < 2 ^ 64)
    (Hdev : forall t, hw_dev (k_hw s) (t ++ [EvMsrWrite (u32 msr) v]) (RMsr (u32 msr)) = v) :
  (wrmsr msr v ;; rdmsr msr) s =
    Done v (emits [EvMsrWrite (u32 msr) v; EvMsrRead (u32 msr) v] s).
Proof.
  unfold wrmsr.
  assert (forall x, 0 <= x < 2 ^ 64 ->
    Z.lor (u64 (Z.shiftl (u32 (Z.shiftr x 32)) 32)) (u32 x) = x) as Hsplit.
  { intros x Hx. rewrite (u64_small (Z.shiftl _ _)).
    - unfold u32. rewrite <- (Z.mod_small x (2 ^ 64)) at 3 by done. Z.bitblast.
    - rewrite Z.shiftl_mul_pow2 by lia. pose proof (u32_range (Z.shiftr x 32)). lia. }
  replace (Z.lor (Z.shiftl (u32 (Z.shiftr v 32)) 32) (u32 (Z.land v 0xFFFFFFFF))) with v.
  - rewrite bind_emit. unfold rdmsr, request, mbind, M_bind. cbn.
    rewrite Hdev. rewrite Hsplit by done.
    unfold emits. cbn. by rewrite <- app_assoc.
  - rewrite <- (Hsplit v Hv) at 1. f_equal.
    + apply u64_small. rewrite Z.shiftl_mul_pow2 by lia.
      pose proof (u32_range (Z.shiftr v 32)). lia.
    + unfold u32. change 0xFFFFFFFF with (Z.ones 32). rewrite Z.land_ones by lia.
      by rewrite Zmod_mod.
Qed.

Lemma msr_roundtrip_witness :
  let s := start_state ∅ (Hardware 0 0 (fun _ _ => 0x1fee00900) (fun _ => 0%nat))
             sample_boot sample_link in
  (wrmsr 0x1b 0x1fee00900 ;; rdmsr 0x1b) s =
    Done 0x1fee00900 (emits [EvMsrWrite 0x1b 0x1fee00900; EvMsrRead 0x1b 0x1fee00900] s).
Proof. apply msr_roundtrip; [by vm_compute|reflexivity]. Defined.
