(* ===== verification/Allocator.v ===== *)
(** The interface between a block allocator and its clients: what
    [pmm_alloc_block] and [pmm_free_block] promise, stated for any pair of
    operations, over the set of blocks the clients hold.  Pmm.v discharges it
    and Vmm.v is verified against it. *)

From S2P Require Import Prelude Limine Types Machine Memory.

(** The bytes of the block at physical address [q]. *)
Definition in_block (q a : Z) : Prop := q <= a < q + 4096.

(** A physical block a client may hold. *)
Definition block_wf (s : kstate) (q : Z) : Prop :=
  (4096 | q) /\ 0 < q /\ q + 4096 <= hw_ram_size (k_hw s) /\ q < 2 ^ 43.

(** RAM unchanged inside, or outside, the blocks of a set. *)
Definition same_inside (U : gset Z) (r r' : gmap Z byte) : Prop :=
  forall q a, q ∈ U -> in_block q a -> ram_get r' a = ram_get r a.

Definition same_outside (U : gset Z) (r r' : gmap Z byte) : Prop :=
  forall a, (forall q, q ∈ U -> ~ in_block q a) -> ram_get r' a = ram_get r a.

Class BlockAllocator (alloc : M Z) (free : Z -> M unit) := {
  (** The allocator works, the clients hold the blocks [U], and [n] more can be
      allocated. *)
  ba_inv : kstate -> gset Z -> nat -> Prop;

  ba_wf s U n q : ba_inv s U n -> q ∈ U -> block_wf s q;

  (** Clients may write the blocks they hold, and change what is not the
      allocator's. *)
  ba_frame s s' U n :
    ba_inv s U n -> k_hw s' = k_hw s -> k_pmm s' = k_pmm s ->
    same_outside U (k_ram s) (k_ram s') -> ba_inv s' U n;

  (** Allocation changes only RAM, and nothing the clients hold; it answers a
      block nobody holds as long as there is one, else 0. *)
  ba_alloc s U n : ba_inv s U n ->
    exists p r', alloc s = Done p (set_ram r' s) /\ same_inside U (k_ram s) r' /\
      match n with
      | O => p = 0 /\ ba_inv (set_ram r' s) U O
      | S n => p <> 0 /\ ~ (p ∈ U) /\ ba_inv (set_ram r' s) ({[p]} ∪ U) n
      end;

  ba_free s U n p : ba_inv s U n -> p ∈ U ->
    exists r', free p s = Done tt (set_ram r' s) /\ same_inside U (k_ram s) r' /\
      ba_inv (set_ram r' s) (U ∖ {[p]}) (S n);
}.

(** Blocks that are not the same block share no byte. *)
Lemma blocks_disjoint q q' a :
  (4096 | q) -> (4096 | q') -> in_block q a -> in_block q' a -> q = q'.
Proof. unfold in_block. intros [k ->] [k' ->] H1 H2. lia. Qed.
