(* ===== verification/Pmm.v ===== *)
(** kern/mm/pmm.c: the physical memory manager, a bitmap of 4 KiB blocks. *)

From S2P Require Import Prelude Limine Types Machine Memory Sample CString Video Printf Log Allocator.

(** ** Code *)

Definition BLOCK_SIZE : Z := 4096.

(** Assignments to the globals of the file. *)
Definition with_memmap x g := PmmGlobals (memmap_entry_count g) (pmm_usable_addr g)
  (pmm_usable_top g) (pmm_free_blocks g) (pmm_block_count g) (pmm_mem_size g)
  (pmm_bitmap g) x.
Definition with_entry_count x g := PmmGlobals x (pmm_usable_addr g)
  (pmm_usable_top g) (pmm_free_blocks g) (pmm_block_count g) (pmm_mem_size g)
  (pmm_bitmap g) (memmap g).
Definition with_mem_size x g := PmmGlobals (memmap_entry_count g) (pmm_usable_addr g)
  (pmm_usable_top g) (pmm_free_blocks g) (pmm_block_count g) x (pmm_bitmap g) (memmap g).
Definition with_usable lo hi g := PmmGlobals (memmap_entry_count g) lo hi
  (pmm_free_blocks g) (pmm_block_count g) (pmm_mem_size g) (pmm_bitmap g) (memmap g).
Definition with_blocks free count g := PmmGlobals (memmap_entry_count g)
  (pmm_usable_addr g) (pmm_usable_top g) free count (pmm_mem_size g) (pmm_bitmap g) (memmap g).
Definition with_bitmap x g := PmmGlobals (memmap_entry_count g) (pmm_usable_addr g)
  (pmm_usable_top g) (pmm_free_blocks g) (pmm_block_count g) (pmm_mem_size g) x (memmap g).

Definition pmm_get {A} (f : pmm_globals -> A) : M A := gets (fun s => f (k_pmm s)).
Definition pmm_set (f : pmm_globals -> pmm_globals) : M unit :=
  modify (fun s => set_pmm (f (k_pmm s)) s).

(** The address of pmm_bitmap[i], for an index that may be negative. *)
Definition bitmap_at (i : Z) : M Z := bm ← pmm_get pmm_bitmap; mret (bm ⊕ i).

(** mmap_set, mmap_test and mmap_unset take an [int]: C's division truncates and
    a negative shift count is undefined. *)
Definition mmap_set (bit : Z) : M unit :=
  p ← bitmap_at (Z.quot bit 8);
  b ← load8 p;
  m ← shl_int 1 (Z.rem bit 8);
  store8 p (u8 (Z.lor b m)).

Definition mmap_test (bit : Z) : M bool :=
  p ← bitmap_at (Z.quot bit 8);
  b ← load8 p;
  m ← shl_int 1 (Z.rem bit 8);
  mret (negb (Z.land b m =? 0)).

Definition mmap_unset (bit : Z) : M unit :=
  p ← bitmap_at (Z.quot bit 8);
  b ← load8 p;
  m ← shl_int 1 (Z.rem bit 8);
  store8 p (u8 (Z.land b (Z.lnot m))).

Definition addr2block (addr : Z) : Z := addr / BLOCK_SIZE.
Definition block2addr (block : Z) : Z := block ⊗ BLOCK_SIZE.

Definition find_free_block : M Z :=
  count ← pmm_get pmm_block_count;
  r ← for_ret 0 (count / 8) 1 (fun i =>
    p ← bitmap_at i;
    b ← load8 p;
    if b =? 0xff then mret None
    else for_ret 0 8 1 (fun j =>
      bit ← shl_int 1 j;
      p ← bitmap_at i;
      b ← load8 p;
      if Z.land b bit =? 0 then mret (Some (i ⊗ 8 ⊕ j)) else mret None));
  mret (default (u64 (-1)) r).

Definition pmm_alloc_block : M Z :=
  block ← find_free_block;
  if block =? u64 (-1) then mret 0
  else
    mmap_set (s32 block) ;;
    mret (block ⊗ BLOCK_SIZE).

Definition pmm_free_block (addr : Z) : M unit := mmap_unset (s32 (addr2block addr)).

(** for (i = 0; i < memmap_entry_count; i++): the memory size *)
Definition pmm_count_memory (entries : list limine_memmap_entry) : M unit :=
  count ← pmm_get memmap_entry_count;
  for_ 0 count 1 (fun i =>
    e ← index entries i;
    if me_type e =? LIMINE_MEMMAP_USABLE
    then pmm_set (fun g => with_mem_size (pmm_mem_size g ⊕ me_length e) g)
    else mret tt).

(** The loop that records the first usable entry and prints the map;
    [usable_found] is its local flag. *)
Definition pmm_parse_memmap (entries : list limine_memmap_entry) : M Z :=
  count ← pmm_get memmap_entry_count;
  for_acc 0 count 1 (fun i usable_found =>
    e ← index entries i;
    if me_type e =? LIMINE_MEMMAP_USABLE then
      usable_found ←
        (if usable_found =? 0 then
           pmm_set (fun g => with_usable (me_base e) (me_base e ⊕ me_length e) g) ;;
           mret 1
         else mret usable_found);
      printf "pmm: usable: 0x{x}, length: 0x{xn}" [VInt (me_base e); VInt (me_length e)] ;;
      mret usable_found
    else
      printf "pmm: type={d}, base=0x{x}, length=0x{xn}"
        [VInt (me_type e); VInt (me_base e); VInt (me_length e)] ;;
      mret usable_found) 0.

(** The loop that clears the bits of the usable blocks. *)
Definition pmm_mark_usable (entries : list limine_memmap_entry) : M unit :=
  count ← pmm_get memmap_entry_count;
  for_ 0 count 1 (fun i =>
    e ← index entries i;
    if me_type e =? LIMINE_MEMMAP_USABLE then
      for_ 0 (me_length e) BLOCK_SIZE (fun j =>
        mmap_unset (s32 (addr2block (me_base e ⊕ j))))
    else mret tt).

(** The loop meant to mark the bitmap's own space. *)
Definition pmm_mark_bitmap : M unit :=
  count ← pmm_get pmm_block_count;
  addr ← pmm_get pmm_usable_addr;
  for_ 0 (count / 8) 1 (fun i => mmap_set (s32 (addr2block addr ⊕ i))).

Definition pmm_init : M unit :=
  response ← gets (fun s => memmap_request_response (k_boot s));
  mm ← match response with
       | None => log_panic "Memory map not recieved, halting"
       | Some mm => mret mm
       end;
  printf "hey" [] ;;
  pmm_set (with_memmap (Some mm)) ;;
  let entries := mr_entries mm in
  pmm_set (with_entry_count (mr_entry_count mm)) ;;
  pmm_count_memory entries ;;
  pmm_parse_memmap entries ;;
  pmm_set (fun g => with_blocks ((pmm_usable_top g / BLOCK_SIZE) ⊗ 8)
                      (pmm_mem_size g / BLOCK_SIZE) g) ;;
  g ← gets k_pmm;
  printf "pmm: memsize: {d}MiB{n}" [VInt (pmm_mem_size g / 1048576)] ;;
  printf "pmm: block count: {d}{n}" [VInt (pmm_block_count g)] ;;
  printf "pmm: size of bitmap: {d}KiB{n}" [VInt (pmm_block_count g / 8 / 1024)] ;;
  printf "pmm: placing bitmap at 0x{xn}" [VInt (pmm_usable_addr g)] ;;
  off ← gets (fun s => hhdmoffset (k_vmm s));
  pmm_set (with_bitmap (pmm_usable_addr g ⊕ off)) ;;
  memset (pmm_usable_addr g ⊕ off) 0xFF (pmm_block_count g / 8) ;;
  pmm_mark_usable entries ;;
  pmm_mark_bitmap.

Definition pmm_fetch_mem : M Z := pmm_get pmm_mem_size.

(** neobird64.c *)
Definition get_memory_size : M Z := pmm_fetch_mem.

(** ** The bitmap as bits of RAM *)

(** Bit [b] of the bitmap whose bytes start at physical address [pa]: set when
    block [b] is in use. *)
Definition bit_at (r : gmap Z byte) (pa b : Z) : bool :=
  Z.testbit (byte_val (ram_get r (pa + b / 8))) (b mod 8).

Definition bit_write (r : gmap Z byte) (pa b : Z) (v : bool) : gmap Z byte :=
  let x := byte_val (ram_get r (pa + b / 8)) in
  let m := 2 ^ (b mod 8) in
  <[pa + b / 8 := to_byte (if v then Z.lor x m else Z.land x (Z.lnot m))]> r.

Lemma bit_at_write r pa b b' v :
  0 <= b -> 0 <= b' ->
  bit_at (bit_write r pa b v) pa b' = if decide (b = b') then v else bit_at r pa b'.
Proof.
  intros Hb Hb'. unfold bit_at, bit_write. rewrite ram_get_insert.
  destruct (decide (pa + b / 8 = pa + b' / 8)) as [E|E].
  - assert (b / 8 = b' / 8) as E8 by lia. rewrite byte_val_to_byte.
    rewrite Z.mod_pow2_bits_low by ldivmod.
    pose proof (Z.mod_pos_bound b 8 ltac:(lia)). pose proof (Z.mod_pos_bound b' 8 ltac:(lia)).
    assert (b = b' <-> b mod 8 = b' mod 8) as Hiff by ldivmod.
    destruct (decide (b = b')) as [->|Hne].
    + destruct v.
      * by rewrite Z.lor_spec, Z.pow2_bits_true, orb_true_r by lia.
      * by rewrite Z.land_spec, Z.lnot_spec, Z.pow2_bits_true, andb_false_r by lia.
    + rewrite E8. destruct v.
      * rewrite Z.lor_spec, Z.pow2_bits_false, orb_false_r by lia. done.
      * rewrite Z.land_spec, Z.lnot_spec, Z.pow2_bits_false, andb_true_r by lia. done.
  - by rewrite decide_False by (intros ->; done).
Qed.

Lemma ram_get_bit_write r pa b v a :
  a <> pa + b / 8 -> ram_get (bit_write r pa b v) a = ram_get r a.
Proof. intros H. unfold bit_write. rewrite ram_get_insert. by case_decide. Qed.

Lemma bit_at_ext r r' pa b :
  ram_get r (pa + b / 8) = ram_get r' (pa + b / 8) -> bit_at r pa b = bit_at r' pa b.
Proof. unfold bit_at. by intros ->. Qed.

Lemma shl_int_1 j s : 0 <= j < 8 -> shl_int 1 j s = Done (2 ^ j) s.
Proof.
  intros Hj. unfold shl_int.
  rewrite (proj2 (Z.leb_le 0 j)), (proj2 (Z.ltb_lt j 32)) by lia. simpl.
  rewrite Z.shiftl_1_l, s32_small; [done|].
  assert (2 ^ j < 2 ^ 8) by (apply Z.pow_lt_mono_r; lia). lia.
Qed.

Lemma land_pow2_eqb x j : 0 <= j -> (Z.land x (2 ^ j) =? 0) = negb (Z.testbit x j).
Proof.
  intros Hj. destruct (Z.testbit x j) eqn:E; simpl.
  - apply Z.eqb_neq. intros H.
    assert (Z.testbit (Z.land x (2 ^ j)) j = false) as H' by (by rewrite H, Z.testbit_0_l).
    by rewrite Z.land_spec, E, Z.pow2_bits_true in H' by lia.
  - apply Z.eqb_eq. apply Z.bits_inj'. intros k Hk.
    rewrite Z.land_spec, Z.pow2_bits_eqb, Z.testbit_0_l by lia.
    destruct (Z.eqb_spec j k) as [->|]; [by rewrite E|by rewrite andb_false_r].
Qed.

(** The bitmap's bytes are where the global pointer says. *)
Section bitmap.
Context (s : kstate) (pa n : Z).
Context (Hmap : mapped s (pmm_bitmap (k_pmm s)) n pa).
Context (Hbm : 0 <= pmm_bitmap (k_pmm s)).

Lemma bitmap_byte b :
  0 <= b < 8 * n ->
  resolve s (pmm_bitmap (k_pmm s) ⊕ Z.quot b 8) = Some (pa + b / 8).
Proof using Hmap Hbm.
  intros Hb. rewrite Z.quot_div_nonneg by lia.
  apply (resolve_elem s _ n); [done|done|ldivmod].
Qed.

Lemma mmap_set_done b :
  0 <= b < 8 * n ->
  mmap_set b s = Done tt (set_ram (bit_write (k_ram s) pa b true) s).
Proof using Hmap Hbm.
  intros Hb. apply wp_eq. unfold mmap_set, bitmap_at, pmm_get.
  wp_steps. eapply wp_load8; [by apply bitmap_byte|]. wp_steps.
  eapply wp_done; [rewrite Z.rem_mod_nonneg by lia; apply shl_int_1; ldivmod|].
  eapply wp_store8; [by apply bitmap_byte|]. split; [done|].
  unfold bit_write, u8. by rewrite to_byte_mod.
Qed.

Lemma mmap_unset_done b :
  0 <= b < 8 * n ->
  mmap_unset b s = Done tt (set_ram (bit_write (k_ram s) pa b false) s).
Proof using Hmap Hbm.
  intros Hb. apply wp_eq. unfold mmap_unset, bitmap_at, pmm_get.
  wp_steps. eapply wp_load8; [by apply bitmap_byte|]. wp_steps.
  eapply wp_done; [rewrite Z.rem_mod_nonneg by lia; apply shl_int_1; ldivmod|].
  eapply wp_store8; [by apply bitmap_byte|]. split; [done|].
  unfold bit_write, u8. by rewrite to_byte_mod.
Qed.

Lemma mmap_test_done b :
  0 <= b < 8 * n -> mmap_test b s = Done (bit_at (k_ram s) pa b) s.
Proof using Hmap Hbm.
  intros Hb. apply wp_eq. unfold mmap_test, bitmap_at, pmm_get.
  wp_steps. eapply wp_load8; [by apply bitmap_byte|]. wp_steps.
  eapply wp_done; [rewrite Z.rem_mod_nonneg by lia; apply shl_int_1; ldivmod|].
  apply wp_ret. split; [|done].
  rewrite land_pow2_eqb, negb_involutive by ldivmod. done.
Qed.
End bitmap.

(** The number of bytes find_free_block looks at. *)
Definition bitmap_bytes (s : kstate) : Z := pmm_block_count (k_pmm s) / 8.

(** [r] is what a search for the first clear bit among [k] answers. *)
Definition first_clear (f : Z -> bool) (k r : Z) : Prop :=
  (0 <= r < k /\ f r = false /\ forall b, 0 <= b < r -> f b = true) \/
  (r = u64 (-1) /\ forall b, 0 <= b < k -> f b = true).

Lemma byte_bit_ff b k : byte_val b = 0xff -> 0 <= k < 8 -> Z.testbit (byte_val b) k = true.
Proof.
  intros -> Hk. change 0xff with (Z.ones 8). apply Z.ones_spec_low. lia.
Qed.

Lemma find_free_block_done s pa :
  let n := bitmap_bytes s in
  mapped s (pmm_bitmap (k_pmm s)) n pa -> 0 <= pmm_bitmap (k_pmm s) ->
  0 <= n -> 8 * n < 2 ^ 64 - 1 ->
  exists r, find_free_block s = Done r s /\ first_clear (bit_at (k_ram s) pa) (8 * n) r.
Proof.
  intros n Hmap Hbm Hn0 Hn.
  assert (forall i, 0 <= i < n -> resolve s (pmm_bitmap (k_pmm s) ⊕ i) = Some (pa + i)) as Hres.
  { intros i Hi. by apply (resolve_elem s _ n). }
  enough (wp find_free_block (fun r s' => s' = s /\
    first_clear (bit_at (k_ram s) pa) (8 * n) r) never s) as Hw.
  { apply wp_inv_done in Hw as (r & ? & E & -> & Hr). eauto. }
  unfold find_free_block, bitmap_at, pmm_get. wp_steps. fold (bitmap_bytes s). fold n.
  eapply (wp_for_ret 0 n 1 _ (fun i s' => s' = s /\
    forall b, 0 <= b < 8 * i -> bit_at (k_ram s) pa b = true)); try lia; cycle 2.
  { split; [done|]. intros; lia. }
  - intros i ? Hi _ [-> Hlow]. wp_steps.
    eapply wp_load8; [by apply Hres|]. cbn beta.
    assert (forall k, 0 <= k < 8 -> bit_at (k_ram s) pa (8 * i + k) =
      Z.testbit (byte_val (ram_get (k_ram s) (pa + i))) k) as Hbit.
    { intros k Hk. unfold bit_at.
      replace ((8 * i + k) / 8) with i by ldivmod.
      by replace ((8 * i + k) mod 8) with k by ldivmod. }
    destruct (Z.eqb_spec (byte_val (ram_get (k_ram s) (pa + i))) 0xff) as [Hff|Hff].
    + apply wp_ret. split; [done|]. intros b Hb.
      destruct (decide (b < 8 * i)); [apply Hlow; lia|].
      replace b with (8 * i + (b - 8 * i)) by lia. rewrite Hbit by lia.
      by apply byte_bit_ff; [|lia].
    + eapply (wp_for_ret 0 8 1 _ (fun j s' => s' = s /\
        forall b, 0 <= b < 8 * i + j -> bit_at (k_ram s) pa b = true)); try lia; cycle 2.
      { split; [done|]. intros; apply Hlow; lia. }
      * intros j ? Hj _ [-> Hlow']. wp_steps.
        eapply wp_done; [by apply shl_int_1|]. wp_steps.
        eapply wp_load8; [by apply Hres|]. cbn beta.
        rewrite land_pow2_eqb by lia. rewrite <- Hbit by lia.
        destruct (bit_at (k_ram s) pa (8 * i + j)) eqn:E; simpl.
        -- apply wp_ret. split; [done|]. intros b Hb.
           destruct (decide (b = 8 * i + j)) as [->|]; [done|]. apply Hlow'. lia.
        -- apply wp_ret. split; [done|]. left.
           rewrite (u64_small (i * 8)), u64_small by lia.
           replace (i * 8 + j) with (8 * i + j) by lia. split_and!; auto; lia.
      * intros j ? _ Hj _ _ [-> Hlow']. split; [done|].
        intros b Hb. apply Hlow'. lia.
  - intros i ? _ Hi _ _ [-> Hlow]. apply wp_ret. split; [done|]. right. split; [done|].
    intros b Hb. apply Hlow. lia.
Qed.

(** ** The allocator's invariant *)

(** Block [b] is RAM and no part of the bitmap at [pa]. *)
Definition frame_ok (s : kstate) (pa b : Z) : Prop :=
  b * BLOCK_SIZE + BLOCK_SIZE <= hw_ram_size (k_hw s) /\
  (b * BLOCK_SIZE + BLOCK_SIZE <= pa \/ pa + bitmap_bytes s <= b * BLOCK_SIZE).

Record pmm_inv (s : kstate) (pa : Z) : Prop := {
  pi_map : mapped s (pmm_bitmap (k_pmm s)) (bitmap_bytes s) pa;
  pi_bitmap : 0 <= pmm_bitmap (k_pmm s);
  pi_bytes : 0 <= bitmap_bytes s;
  pi_int : 8 * bitmap_bytes s <= 2 ^ 31;
  pi_free : forall b, 0 <= b < 8 * bitmap_bytes s ->
    bit_at (k_ram s) pa b = false -> frame_ok s pa b;
}.

(** The free blocks, as a set. *)
Definition free_set (s : kstate) (pa : Z) : gset Z :=
  list_to_set (filter (fun b => bit_at (k_ram s) pa b = false)
    (zrange 0 (Z.to_nat (8 * bitmap_bytes s)))).

(** ** Abstract specification: a set of free blocks *)
Module Spec.
(** Allocation takes the least free block, and fails on an empty set. *)
Definition alloc (F : gset Z) (r : option Z) (F' : gset Z) : Prop :=
  match r with
  | Some b => b ∈ F /\ (forall b', b' ∈ F -> b <= b') /\ F' = F ∖ {[b]}
  | None => F = ∅ /\ F' = ∅
  end.

Definition free (F : gset Z) (b : Z) (F' : gset Z) : Prop := F' = {[b]} ∪ F.
End Spec.

(** The pointer pmm_alloc_block returns for an abstract answer. *)
Definition block_ptr (r : option Z) : Z :=
  match r with Some b => b * BLOCK_SIZE | None => 0 end.

(** ** Lemmas *)

Lemma elem_of_free_set s pa b :
  b ∈ free_set s pa <-> 0 <= b < 8 * bitmap_bytes s /\ bit_at (k_ram s) pa b = false.
Proof.
  unfold free_set. rewrite elem_of_list_to_set, list_elem_of_filter, elem_of_zrange.
  split; intros [H1 H2]; (split; [|]); try done; lia.
Qed.

Lemma pmm_inv_ext s s' pa :
  k_hw s' = k_hw s -> k_pmm s' = k_pmm s ->
  (forall b, 0 <= b < 8 * bitmap_bytes s ->
     bit_at (k_ram s') pa b = false -> bit_at (k_ram s) pa b = false \/ frame_ok s pa b) ->
  pmm_inv s pa -> pmm_inv s' pa.
Proof.
  intros Hhw Hpmm Hbits [Hm Hb Hn Hi Hf].
  assert (bitmap_bytes s' = bitmap_bytes s) as En by (unfold bitmap_bytes; by rewrite Hpmm).
  split; rewrite ?En, ?Hpmm; try done.
  - by apply (mapped_hw s).
  - intros b Hb' Hclr. assert (frame_ok s pa b) as Hok.
    { destruct (Hbits b Hb' Hclr); auto. }
    unfold frame_ok in *. by rewrite En, Hhw.
Qed.

Section allocator.
Context (s : kstate) (pa : Z) (Hinv : pmm_inv s pa).

Lemma pmm_inv_write b v :
  0 <= b -> (v = false -> frame_ok s pa b) ->
  pmm_inv (set_ram (bit_write (k_ram s) pa b v) s) pa.
Proof using Hinv.
  intros Hb Hv. apply (pmm_inv_ext s); try done.
  intros b' Hb'. cbn. rewrite bit_at_write by lia.
  case_decide; subst; auto.
Qed.

Lemma pmm_alloc_block_done :
  (exists b, pmm_alloc_block s =
      Done (b * BLOCK_SIZE) (set_ram (bit_write (k_ram s) pa b true) s) /\
    0 <= b < 8 * bitmap_bytes s /\ bit_at (k_ram s) pa b = false /\
    forall b', 0 <= b' < b -> bit_at (k_ram s) pa b' = true) \/
  (pmm_alloc_block s = Done 0 s /\
    forall b, 0 <= b < 8 * bitmap_bytes s -> bit_at (k_ram s) pa b = true).
Proof using Hinv.
  destruct Hinv as [Hm Hb Hn Hi Hf].
  destruct (find_free_block_done s pa Hm Hb Hn ltac:(lia)) as (r & E & Hr).
  unfold pmm_alloc_block. rewrite (bind_done _ _ _ _ _ E).
  destruct Hr as [(Hr & Hclr & Hlow)|[-> Hall]]; [left|by right].
  exists r. rewrite (proj2 (Z.eqb_neq r _)) by (change (u64 (-1)) with (2 ^ 64 - 1); lia).
  rewrite s32_small by lia.
  erewrite bind_done by (apply (mmap_set_done s pa (bitmap_bytes s)); [done|done|lia]).
  unfold BLOCK_SIZE in *. rewrite u64_small by lia. done.
Qed.

Lemma pmm_free_block_done addr :
  0 <= addr < 8 * bitmap_bytes s * BLOCK_SIZE ->
  pmm_free_block addr s =
    Done tt (set_ram (bit_write (k_ram s) pa (addr / BLOCK_SIZE) false) s).
Proof using Hinv.
  destruct Hinv as [Hm Hb Hn Hi Hf]. unfold BLOCK_SIZE. intros Ha.
  unfold pmm_free_block, addr2block, BLOCK_SIZE.
  assert (0 <= addr / 4096 < 8 * bitmap_bytes s) by ldivmod.
  rewrite s32_small by lia. by apply (mmap_unset_done s pa (bitmap_bytes s)).
Qed.
End allocator.

(** Writing a bit on the set of free blocks. *)
Lemma free_set_write s pa b v :
  0 <= b < 8 * bitmap_bytes s ->
  free_set (set_ram (bit_write (k_ram s) pa b v) s) pa =
    if v then free_set s pa ∖ {[b]} else {[b]} ∪ free_set s pa.
Proof.
  intros Hb. apply set_eq. intros x. rewrite elem_of_free_set. cbn.
  destruct v; [rewrite elem_of_difference|rewrite elem_of_union];
    rewrite elem_of_singleton, elem_of_free_set;
    change (bitmap_bytes (set_ram _ s)) with (bitmap_bytes s);
    (destruct (decide (0 <= x < 8 * bitmap_bytes s)); [|intuition lia]);
    rewrite bit_at_write by lia; case_decide; subst; intuition congruence.
Qed.

(** Blocks held by clients: marked in the bitmap, in RAM, off the bitmap. *)
Definition held_ok (s : kstate) (pa q : Z) : Prop :=
  (4096 | q) /\ 0 <= q /\ frame_ok s pa (q / BLOCK_SIZE) /\
  q / BLOCK_SIZE < 8 * bitmap_bytes s /\ bit_at (k_ram s) pa (q / BLOCK_SIZE) = true.

Lemma held_ok_mono s s' pa q :
  k_hw s' = k_hw s -> k_pmm s' = k_pmm s ->
  bit_at (k_ram s') pa (q / BLOCK_SIZE) = bit_at (k_ram s) pa (q / BLOCK_SIZE) ->
  held_ok s pa q -> held_ok s' pa q.
Proof.
  intros Hhw Hpmm Hbit. unfold held_ok, frame_ok, bitmap_bytes.
  by rewrite Hhw, Hpmm, Hbit.
Qed.

(** A byte of the bitmap is in no block the clients hold. *)
Lemma held_off_bitmap s pa q b :
  held_ok s pa q -> 0 <= b < 8 * bitmap_bytes s -> ~ in_block q (pa + b / 8).
Proof.
  intros ([k ->] & Hq & [_ Hoff] & _) Hb Hin. unfold in_block, BLOCK_SIZE in *.
  rewrite Z.div_mul in Hoff by lia.
  assert (0 <= b / 8 < bitmap_bytes s) by ldivmod. lia.
Qed.

(** ** Runs: a client that allocates, frees what it holds, and writes its
    blocks *)

Inductive pmm_step : kstate * gset Z -> kstate * gset Z -> Prop :=
  | step_alloc s s' U p :
      pmm_alloc_block s = Done p s' ->
      pmm_step (s, U) (s', if decide (p = 0) then U else {[p]} ∪ U)
  | step_free s s' U p :
      p ∈ U -> pmm_free_block p s = Done tt s' -> pmm_step (s, U) (s', U ∖ {[p]})
  | step_write s s' U :
      k_hw s' = k_hw s -> k_pmm s' = k_pmm s ->
      same_outside U (k_ram s) (k_ram s') -> pmm_step (s, U) (s', U).

Definition blocks (U : gset Z) : gset Z := set_map (fun q => q / BLOCK_SIZE) U.

(** What a run keeps: the free blocks and the held blocks are a partition of
    the blocks [F] that were free at the start. *)
Record run_inv (pa : Z) (F : gset Z) (x : kstate * gset Z) : Prop := {
  ri_inv : pmm_inv x.1 pa;
  ri_held : forall q, q ∈ x.2 -> held_ok x.1 pa q;
  ri_cover : free_set x.1 pa ∪ blocks x.2 = F;
}.

Lemma elem_of_blocks U b :
  b ∈ blocks U <-> exists q, b = q / BLOCK_SIZE /\ q ∈ U.
Proof. apply elem_of_map. Qed.

Lemma held_not_free s pa q : held_ok s pa q -> ~ (q / BLOCK_SIZE ∈ free_set s pa).
Proof. intros (_ & _ & _ & _ & Hset) [_ Hclr]%elem_of_free_set. congruence. Qed.

Lemma held_block_inj s pa q q' :
  held_ok s pa q -> held_ok s pa q' -> q / BLOCK_SIZE = q' / BLOCK_SIZE -> q = q'.
Proof.
  intros ([k ->] & _) ([j ->] & _). unfold BLOCK_SIZE. rewrite !Z.div_mul by lia. lia.
Qed.

(** Writing the bit of another block keeps a block held. *)
Lemma held_ok_write s pa q b v :
  0 <= b -> b <> q / BLOCK_SIZE -> held_ok s pa q ->
  held_ok (set_ram (bit_write (k_ram s) pa b v) s) pa q.
Proof.
  intros Hb Hne Hok. apply (held_ok_mono s); try done. cbn.
  assert (0 <= q / BLOCK_SIZE) by (destruct Hok as (_ & Hq & _); unfold BLOCK_SIZE; ldivmod).
  by rewrite bit_at_write, decide_False by done.
Qed.

Lemma free_set_ext s s' pa :
  k_pmm s' = k_pmm s ->
  (forall b, 0 <= b < 8 * bitmap_bytes s -> bit_at (k_ram s') pa b = bit_at (k_ram s) pa b) ->
  free_set s' pa = free_set s pa.
Proof.
  intros Hpmm Hbits. apply set_eq. intros b. rewrite !elem_of_free_set.
  unfold bitmap_bytes in *. rewrite Hpmm. split; intros [Hb H]; (split; [done|]);
    [rewrite <- Hbits|rewrite Hbits]; done.
Qed.

Section run.
Context (pa : Z) (F : gset Z) (H0 : 0 ∉ F).

Lemma run_inv_alloc s s' U p :
  run_inv pa F (s, U) -> pmm_alloc_block s = Done p s' ->
  run_inv pa F (s', if decide (p = 0) then U else {[p]} ∪ U).
Proof using H0.
  intros [Hinv Hheld HF] E. cbn in *.
  destruct (pmm_alloc_block_done s pa Hinv) as [(b & E' & Hb & Hclr & _)|[E' _]];
    rewrite E' in E; simplify_eq; [|by split].
  assert (b ∈ free_set s pa) as Hfree by by apply elem_of_free_set.
  assert (b <> 0) by (intros ->; set_solver +H0 Hfree).
  rewrite decide_False by (unfold BLOCK_SIZE; lia).
  split; cbn; [by apply pmm_inv_write; [|lia|]| |].
  - intros q [->%elem_of_singleton|Hq]%elem_of_union.
    + unfold held_ok. rewrite Z.div_mul by (unfold BLOCK_SIZE; lia). cbn.
      rewrite bit_at_write, decide_True by (done || lia).
      unfold BLOCK_SIZE.
      split_and!; [by exists b|lia|apply (pi_free s pa Hinv); done|apply Hb|done].
    + apply held_ok_write; [lia| |by apply Hheld]. intros ->.
      by apply (held_not_free s pa q (Hheld q Hq)).
  - rewrite free_set_write by done. unfold blocks. rewrite set_map_union_L, set_map_singleton_L.
    rewrite Z.div_mul by (unfold BLOCK_SIZE; lia).
    rewrite assoc_L by apply _. f_equal. apply set_eq. intros x.
    clear -Hfree. destruct (decide (x = b)); set_solver.
Qed.

Lemma run_inv_free s s' U p :
  run_inv pa F (s, U) -> p ∈ U -> pmm_free_block p s = Done tt s' ->
  run_inv pa F (s', U ∖ {[p]}).
Proof using Type.
  intros [Hinv Hheld HF] Hp E. cbn in *.
  pose proof (Hheld p Hp) as Hok. pose proof Hok as ([k Ek] & Hp0 & Hfr & Hlt & _).
  rewrite (pmm_free_block_done s pa Hinv) in E by (unfold BLOCK_SIZE in *; ldivmod).
  injection E as <-. assert (0 <= p / BLOCK_SIZE) by (unfold BLOCK_SIZE in *; ldivmod).
  split; cbn; [by apply pmm_inv_write| |].
  - intros q [Hq Hne%not_elem_of_singleton]%elem_of_difference.
    apply held_ok_write; [done| |by apply Hheld].
    intros Eq. apply Hne, (held_block_inj s pa); auto.
  - rewrite free_set_write by done. rewrite <- HF. apply set_eq. intros x.
    rewrite !elem_of_union, elem_of_singleton, !elem_of_blocks.
    setoid_rewrite elem_of_difference. setoid_rewrite not_elem_of_singleton.
    split.
    + intros [[->|Hx]|(q & -> & Hq & _)]; [right; eauto|by left|right; eauto].
    + intros [Hx|(q & -> & Hq)]; [by left; right|].
      destruct (decide (q = p)) as [->|]; [by left; left|right; exists q; auto].
Qed.

Lemma run_inv_write s s' U :
  run_inv pa F (s, U) -> k_hw s' = k_hw s -> k_pmm s' = k_pmm s ->
  same_outside U (k_ram s) (k_ram s') -> run_inv pa F (s', U).
Proof using Type.
  intros [Hinv Hheld HF] Hhw Hpmm Hout. cbn in *.
  assert (forall b, 0 <= b < 8 * bitmap_bytes s ->
    bit_at (k_ram s') pa b = bit_at (k_ram s) pa b) as Hbits.
  { intros b Hb. apply bit_at_ext, Hout. intros q Hq.
    by apply (held_off_bitmap s); [apply Hheld|]. }
  split; cbn.
  - apply (pmm_inv_ext s); try done. intros b Hb. rewrite Hbits by done. auto.
  - intros q Hq. pose proof (Hheld q Hq) as Hok. apply (held_ok_mono s); try done.
    apply Hbits. destruct Hok as (_ & Hq0 & _ & Hlt & _). unfold BLOCK_SIZE in *. ldivmod.
  - by rewrite (free_set_ext s) by done.
Qed.

Lemma run_inv_steps x y :
  rtc pmm_step x y -> run_inv pa F x -> run_inv pa F y.
Proof using H0.
  induction 1 as [|x y z Hstep _ IH]; [done|]. intros Hx. apply IH.
  destruct Hstep;
    [by eapply run_inv_alloc|by eapply run_inv_free|by eapply run_inv_write].
Qed.
End run.

(** ** The allocator's interface

    The same invariant, for clients that count the blocks left: block 0 is kept
    out of the free blocks, as its address is the error value. *)

Definition pmm_holds (s : kstate) (U : gset Z) (n : nat) : Prop :=
  exists pa F, run_inv pa F (s, U) /\ (0 ∉ F) /\ n = size (free_set s pa).

Lemma run_inv_nonzero pa F s U q : run_inv pa F (s, U) -> 0 ∉ F -> q ∈ U -> q <> 0.
Proof.
  intros [_ _ HF] H0 Hq ->. apply H0. rewrite <- HF. apply elem_of_union_r, elem_of_blocks.
  by exists 0.
Qed.

Lemma pmm_holds_wf s U n q : pmm_holds s U n -> q ∈ U -> block_wf s q.
Proof.
  intros (pa & F & Hr & H0 & _) Hq. pose proof (run_inv_nonzero _ _ _ _ _ Hr H0 Hq).
  destruct Hr as [Hinv HU _]. destruct (HU q Hq) as (Hal & Hq0 & [Hram _] & Hlt & _).
  pose proof (pi_int _ _ Hinv). cbn in *. unfold block_wf, BLOCK_SIZE in *.
  destruct Hal as [k ->]. rewrite Z.div_mul in * by lia.
  split_and!; [by exists k|lia..].
Qed.

(** What a write of a bit leaves alone. *)
Lemma bit_write_same_inside s pa U b v :
  (forall q, q ∈ U -> held_ok s pa q) -> 0 <= b < 8 * bitmap_bytes s ->
  same_inside U (k_ram s) (bit_write (k_ram s) pa b v).
Proof.
  intros HU Hb q a Hq Ha. apply ram_get_bit_write. intros ->.
  by apply (held_off_bitmap s pa q b); [apply HU| |].
Qed.

Lemma pmm_holds_alloc s U n : pmm_holds s U n ->
  exists p r', pmm_alloc_block s = Done p (set_ram r' s) /\ same_inside U (k_ram s) r' /\
    match n with
    | O => p = 0 /\ pmm_holds (set_ram r' s) U O
    | S n => p <> 0 /\ ~ (p ∈ U) /\ pmm_holds (set_ram r' s) ({[p]} ∪ U) n
    end.
Proof.
  intros (pa & F & Hr & H0 & ->). pose proof Hr as [Hinv HU HF]; cbn in *.
  destruct (pmm_alloc_block_done s pa Hinv) as [(b & E & Hb & Hclr & _)|[E Hall]].
  - assert (b ∈ free_set s pa) as Hfree by by apply elem_of_free_set.
    assert (b <> 0) by (intros ->; set_solver +H0 HF Hfree).
    exists (b * BLOCK_SIZE). eexists. split; [done|]. split; [by apply bit_write_same_inside|].
    pose proof (run_inv_alloc pa F H0 _ _ _ _ Hr E) as Hr'.
    rewrite decide_False in Hr' by (unfold BLOCK_SIZE; lia).
    destruct (size (free_set s pa)) as [|n] eqn:En.
    { apply size_empty_inv in En. set_solver +En Hfree. }
    split; [unfold BLOCK_SIZE; lia|]. split.
    + intros Hin. pose proof (held_not_free s pa _ (HU _ Hin)) as Hnf.
      unfold BLOCK_SIZE in Hnf. by rewrite Z.div_mul in Hnf.
    + exists pa, F. split; [done|]. split; [done|].
      rewrite free_set_write by done. rewrite size_difference by set_solver +Hfree.
      rewrite size_singleton, En. lia.
  - exists 0, (k_ram s). rewrite set_ram_id. split; [done|]. split; [done|].
    assert (free_set s pa = ∅) as Ee.
    { apply set_eq. intros b. rewrite elem_of_free_set, elem_of_empty. split; [|done].
      intros [Hb Hclr]. rewrite Hall in Hclr by done. done. }
    rewrite Ee, size_empty. split; [done|]. exists pa, F. by rewrite Ee, size_empty.
Qed.

Lemma pmm_holds_free s U n p : pmm_holds s U n -> p ∈ U ->
  exists r', pmm_free_block p s = Done tt (set_ram r' s) /\ same_inside U (k_ram s) r' /\
    pmm_holds (set_ram r' s) (U ∖ {[p]}) (S n).
Proof.
  intros (pa & F & Hr & H0 & ->) Hp. pose proof Hr as [Hinv HU _]; cbn in *.
  pose proof (HU p Hp) as Hok. pose proof Hok as ([k Ek] & Hp0 & _ & Hlt & _).
  assert (0 <= p / BLOCK_SIZE < 8 * bitmap_bytes s) as Hb by (unfold BLOCK_SIZE in *; ldivmod).
  assert (pmm_free_block p s = Done tt
    (set_ram (bit_write (k_ram s) pa (p / BLOCK_SIZE) false) s)) as E
    by (apply (pmm_free_block_done s pa Hinv); unfold BLOCK_SIZE in *; ldivmod).
  eexists. split; [exact E|]. split; [by apply bit_write_same_inside|].
  exists pa, F. split; [by apply (run_inv_free pa F s)|]. split; [done|].
  rewrite free_set_write by done. pose proof (held_not_free s pa p Hok) as Hn.
  rewrite size_union by set_solver +Hn. by rewrite size_singleton.
Qed.

(** Freeing address 0 while blocks are held: bit 0 is cleared, nobody's block
    changes, and the next allocation, whatever the clients write until then, takes
    block 0, whose address is the error value. *)
Lemma pmm_holds_free_zero s U n q : pmm_holds s U n -> q ∈ U ->
  exists r', pmm_free_block 0 s = Done tt (set_ram r' s) /\ same_inside U (k_ram s) r' /\
    forall s', k_hw s' = k_hw s -> k_pmm s' = k_pmm s -> same_outside U r' (k_ram s') ->
      exists r'', pmm_alloc_block s' = Done 0 (set_ram r'' s').
Proof.
  intros (pa & F & Hr & _ & _) Hq. pose proof Hr as [Hinv HU _]; cbn in *.
  destruct (HU q Hq) as (_ & Hq0 & _ & Hlt & _). pose proof Hinv as [Hm Hbm Hn Hi _].
  assert (0 <= 0 < 8 * bitmap_bytes s) as Hb by (unfold BLOCK_SIZE in *; ldivmod).
  exists (bit_write (k_ram s) pa 0 false).
  split; [apply (pmm_free_block_done s pa Hinv); unfold BLOCK_SIZE; lia|].
  split; [by apply bit_write_same_inside|]. intros s' Hhw Hpmm Hout.
  assert (bitmap_bytes s' = bitmap_bytes s) as En by (unfold bitmap_bytes; by rewrite Hpmm).
  assert (mapped s' (pmm_bitmap (k_pmm s')) (bitmap_bytes s) pa) as Hm'
    by (rewrite Hpmm; by apply (mapped_hw s)).
  rewrite <- Hpmm in Hbm.
  destruct (find_free_block_done s' pa) as (r & E & Hfc); rewrite ?En; [done|done|done|lia|].
  assert (bit_at (k_ram s') pa 0 = false) as H0.
  { rewrite (bit_at_ext _ (bit_write (k_ram s) pa 0 false)); [by rewrite bit_at_write|].
    apply Hout. intros q' Hq'. by apply (held_off_bitmap s); [apply HU|]. }
  assert (r = 0) as ->.
  { rewrite En in Hfc. destruct Hfc as [(Hr0 & _ & Hlow)|[_ Hall]].
    - destruct (decide (r = 0)); [done|]. by rewrite Hlow in H0 by lia.
    - by rewrite Hall in H0. }
  eexists. unfold pmm_alloc_block. rewrite (bind_done _ _ _ _ _ E).
  rewrite (proj2 (Z.eqb_neq 0 (u64 (-1)))) by done.
  by erewrite bind_done by (by apply (mmap_set_done s' pa (bitmap_bytes s))).
Qed.

#[export] Instance pmm_block_allocator : BlockAllocator pmm_alloc_block pmm_free_block.
Proof.
  refine {| ba_inv := pmm_holds; ba_wf := pmm_holds_wf; ba_alloc := pmm_holds_alloc;
            ba_free := pmm_holds_free |}.
  intros s s' U n (pa & F & Hr & H0 & ->) Hhw Hpmm Hout. exists pa, F.
  split; [by apply (run_inv_write pa F s)|]. split; [done|].
  f_equal. symmetry. apply free_set_ext; [done|]. intros b Hb.
  apply bit_at_ext, Hout. intros q Hq. by apply (held_off_bitmap s); [apply Hr|].
Defined.

(** ** The sample machine's allocator: blocks 2 to 15 are free *)

#[export] Instance frame_ok_dec s pa b : Decision (frame_ok s pa b).
Proof. unfold frame_ok. apply _. Defined.

Lemma sample_pmm_inv : pmm_inv sample_pmm 0x1000.
Proof.
  split; [by apply (sample_direct sample_pmm 0x1000)|done..|].
  change (8 * bitmap_bytes sample_pmm) with 16. intros b Hb Hclr.
  apply (bool_decide_eq_true_1 _).
  pose proof (zrange_forallb (fun b => bit_at (k_ram sample_pmm) 0x1000 b ||
    bool_decide (frame_ok sample_pmm 0x1000 b)) 0 16 eq_refl b Hb) as H.
  cbv beta in H. by rewrite Hclr in H.
Qed.

Lemma sample_free_set : free_set sample_pmm 0x1000 = list_to_set (zrange 2 14).
Proof. reflexivity. Qed.

(** ** Properties *)

(** C13: [pmm_alloc_block] implements the abstract allocator: with the invariant
    it always returns, takes the least free block (or returns NULL exactly when
    there is none), keeps the invariant, and changes nothing outside the
    bitmap's bytes. *)
Theorem pmm_alloc_refines (s : kstate) (pa : Z) (Hinv : pmm_inv s pa) :
  exists r r', pmm_alloc_block s = Done (block_ptr r) (set_ram r' s) /\
    pmm_inv (set_ram r' s) pa /\
    Spec.alloc (free_set s pa) r (free_set (set_ram r' s) pa) /\
    (forall a, a < pa \/ pa + bitmap_bytes s <= a -> ram_get r' a = ram_get (k_ram s) a).
Proof.
  destruct (pmm_alloc_block_done s pa Hinv) as [(b & E & Hb & Hclr & Hlow)|[E Hall]].
  - exists (Some b). eexists. split; [exact E|]. split; [by apply pmm_inv_write; [|lia|]|].
    rewrite free_set_write by done. split.
    + split; [by apply elem_of_free_set|]. split; [|done].
      intros b' [Hb' Hclr']%elem_of_free_set. destruct (Z.le_gt_cases b b'); [done|].
      rewrite Hlow in Hclr' by lia. done.
    + intros a Ha. apply ram_get_bit_write.
      assert (0 <= b / 8 < bitmap_bytes s) by ldivmod. lia.
  - exists None, (k_ram s). rewrite set_ram_id. split; [exact E|]. split; [done|].
    split; [|done].
    assert (free_set s pa = ∅) as ->; [|done]. apply set_eq. intros b.
    rewrite elem_of_free_set, elem_of_empty. split; [|done].
    intros [Hb Hclr]. rewrite Hall in Hclr by done. done.
Qed.

Lemma pmm_alloc_refines_witness :
  exists r r', pmm_alloc_block sample_pmm = Done (block_ptr r) (set_ram r' sample_pmm) /\
    pmm_inv (set_ram r' sample_pmm) 0x1000 /\
    Spec.alloc (free_set sample_pmm 0x1000) r (free_set (set_ram r' sample_pmm) 0x1000) /\
    (forall a, a < 0x1000 \/ 0x1000 + 2 <= a -> ram_get r' a = ram_get (k_ram sample_pmm) a).
Proof. apply (pmm_alloc_refines sample_pmm), sample_pmm_inv. Defined.

(** C14: [pmm_free_block] of an address inside a block of the bitmap, whose block
    is RAM off the bitmap, returns, keeps the invariant and adds exactly that
    block to the free blocks. *)
Theorem pmm_free_refines (s : kstate) (pa addr : Z) (Hinv : pmm_inv s pa)
    (Haddr : 0 <= addr < 8 * bitmap_bytes s * BLOCK_SIZE)
    (Hok : frame_ok s pa (addr / BLOCK_SIZE)) :
  exists r', pmm_free_block addr s = Done tt (set_ram r' s) /\
    pmm_inv (set_ram r' s) pa /\
    Spec.free (free_set s pa) (addr / BLOCK_SIZE) (free_set (set_ram r' s) pa).
Proof.
  assert (0 <= addr / BLOCK_SIZE < 8 * bitmap_bytes s) by (unfold BLOCK_SIZE in *; ldivmod).
  eexists. split; [by apply (pmm_free_block_done s pa Hinv)|].
  split; [by apply pmm_inv_write; [|lia|]|]. unfold Spec.free.
  by rewrite free_set_write by done.
Qed.

Lemma pmm_free_refines_witness :
  exists r', pmm_free_block 0x3000 sample_pmm = Done tt (set_ram r' sample_pmm) /\
    pmm_inv (set_ram r' sample_pmm) 0x1000 /\
    Spec.free (free_set sample_pmm 0x1000) 3 (free_set (set_ram r' sample_pmm) 0x1000).
Proof.
  apply (pmm_free_refines sample_pmm 0x1000 0x3000 sample_pmm_inv);
    [by vm_compute|split; [by vm_compute|right; by vm_compute]].
Defined.

(** freeing the block an allocation returned gives back the state's free
    blocks, and the next allocation returns the same block again. *)
Theorem pmm_alloc_free_roundtrip (s : kstate) (pa : Z) (Hinv : pmm_inv s pa)
    (Hsome : free_set s pa <> ∅) :
  exists p s1 s2 s3, pmm_alloc_block s = Done p s1 /\ free_set s1 pa <> free_set s pa /\
    pmm_free_block p s1 = Done tt s2 /\ free_set s2 pa = free_set s pa /\
    pmm_alloc_block s2 = Done p s3.
Proof.
  destruct (pmm_alloc_block_done s pa Hinv) as [(b & E & Hb & Hclr & Hlow)|[_ Hall]].
  2:{ destruct Hsome. apply set_eq. intros b. rewrite elem_of_free_set, elem_of_empty.
      split; [|done]. intros [Hb Hclr]. rewrite Hall in Hclr by done. done. }
  assert (b ∈ free_set s pa) as Hfree by by apply elem_of_free_set.
  set (s1 := set_ram (bit_write (k_ram s) pa b true) s) in *.
  assert (pmm_inv s1 pa) as Hinv1 by (by apply pmm_inv_write; [|lia|]).
  assert (free_set s1 pa = free_set s pa ∖ {[b]}) as E1 by by apply free_set_write.
  set (s2 := set_ram (bit_write (k_ram s1) pa b false) s1).
  assert (free_set s2 pa = free_set s pa) as E2.
  { unfold s2. rewrite (free_set_write s1) by done. rewrite E1.
    apply set_eq. intros x. clear -Hfree. destruct (decide (x = b)); set_solver. }
  assert (pmm_inv s2 pa) as Hinv2.
  { apply pmm_inv_write; [done|lia|]. intros _. by apply (pi_free s pa Hinv). }
  exists (b * BLOCK_SIZE), s1, s2.
  destruct (pmm_alloc_block_done s2 pa Hinv2) as [(b' & E3 & Hb' & Hclr' & Hlow')|[_ Hall]].
  - assert (b' ∈ free_set s2 pa) as Hfree' by by apply elem_of_free_set.
    assert (b = b') as ->.
    { rewrite E2 in Hfree'. apply elem_of_free_set in Hfree' as [_ Hclr2].
      rewrite <- E2 in Hfree. apply elem_of_free_set in Hfree as [_ Hclr1].
      destruct (Z.lt_total b b') as [?|[?|?]]; [|done|].
      - rewrite Hlow' in Hclr1 by lia. done.
      - rewrite Hlow in Hclr2 by lia. done. }
    eexists. split_and!; [done|rewrite E1; clear -Hfree; set_solver| |done|done].
    rewrite (pmm_free_block_done s1 pa Hinv1).
    + by rewrite Z.div_mul by (unfold BLOCK_SIZE; lia).
    + change (bitmap_bytes s1) with (bitmap_bytes s). unfold BLOCK_SIZE. lia.
  - rewrite <- E2 in Hfree. apply elem_of_free_set in Hfree as [Hb' Hclr'].
    rewrite Hall in Hclr' by done. done.
Qed.

Lemma pmm_alloc_free_roundtrip_witness :
  exists p s1 s2 s3, pmm_alloc_block sample_pmm = Done p s1 /\
    free_set s1 0x1000 <> free_set sample_pmm 0x1000 /\
    pmm_free_block p s1 = Done tt s2 /\ free_set s2 0x1000 = free_set sample_pmm 0x1000 /\
    pmm_alloc_block s2 = Done p s3.
Proof.
  apply pmm_alloc_free_roundtrip; [apply sample_pmm_inv|].
  rewrite sample_free_set. by vm_compute.
Defined.

(** C12: over any run of a client that allocates, frees blocks it holds and
    writes the blocks it holds, the free blocks and the held blocks stay a
    partition of the blocks free at the start: no block is handed out twice,
    none is lost, and the bitmap survives the client's writes.  (Block 0 must
    not be free at the start: its address is the error value.) *)
Theorem pmm_run_partition (s s' : kstate) (pa : Z) (U : gset Z) (Hinv : pmm_inv s pa)
    (H0 : 0 ∉ free_set s pa) (Hrun : rtc pmm_step (s, ∅) (s', U)) :
  pmm_inv s' pa /\ free_set s' pa ## blocks U /\
  free_set s' pa ∪ blocks U = free_set s pa /\
  (forall q q', q ∈ U -> q' ∈ U -> q / BLOCK_SIZE = q' / BLOCK_SIZE -> q = q').
Proof.
  destruct (run_inv_steps pa _ H0 _ _ Hrun) as [Hinv' Hheld HF]; cbn in *.
  - split; cbn; [done|set_solver|]. unfold blocks. rewrite set_map_empty.
    by rewrite (right_id_L ∅ _).
  - split_and!; [done| |done|].
    + intros b Hb (q & -> & Hq)%elem_of_blocks.
      by apply (held_not_free s' pa q (Hheld q Hq)).
    + intros q q' Hq Hq'. apply (held_block_inj s' pa); auto.
Qed.

Lemma pmm_run_partition_witness :
  let s1 := set_ram (bit_write (k_ram sample_pmm) 0x1000 2 true) sample_pmm in
  pmm_inv s1 0x1000 /\ free_set s1 0x1000 ## blocks {[0x2000]} /\
  free_set s1 0x1000 ∪ blocks {[0x2000]} = free_set sample_pmm 0x1000 /\
  (forall q q', q ∈ ({[0x2000]} : gset Z) -> q' ∈ ({[0x2000]} : gset Z) ->
    q / BLOCK_SIZE = q' / BLOCK_SIZE -> q = q').
Proof.
  intros s1. apply (pmm_run_partition sample_pmm s1 0x1000 {[0x2000]} sample_pmm_inv).
  - rewrite sample_free_set. by vm_compute.
  - apply rtc_once. pose proof (step_alloc sample_pmm s1 ∅ 0x2000 eq_refl) as H.
    rewrite (right_id_L ∅ _) in H. exact H.
Defined.
