(* ===== verification/PmmInit.v ===== *)
(** [pmm_init] of kern/mm/pmm.c: what the memory manager's state is after
    initialisation, from the bootloader's memory map. *)

From S2P Require Import Prelude Limine Types Machine Memory Sample CString Video Printf Log Allocator Pmm.

(** ** Reference: reading the memory map *)

Definition usable (e : limine_memmap_entry) : Prop := me_type e = LIMINE_MEMMAP_USABLE.

#[export] Instance usable_dec e : Decision (usable e).
Proof. unfold usable. apply _. Defined.

Definition usable_size (entries : list limine_memmap_entry) : Z :=
  foldr (fun e acc => me_length e + acc) 0 (filter usable entries).

Definition first_usable (entries : list limine_memmap_entry) : option limine_memmap_entry :=
  head (filter usable entries).

(** The number of blocks an entry reaches into. *)
Definition entry_blocks (e : limine_memmap_entry) : Z := (me_length e + 4095) / 4096.

(** Block [b] is one of the blocks of a usable entry. *)
Definition covers (b : Z) (e : limine_memmap_entry) : bool :=
  bool_decide (usable e) && (me_base e / 4096 <=? b) &&
  (b <? me_base e / 4096 + entry_blocks e).

Definition usable_block (entries : list limine_memmap_entry) (b : Z) : bool :=
  existsb (covers b) entries.

(** What the boot protocol guarantees of a memory map, and what keeps block
    numbers in the range of [int]. *)
Record memmap_ok (mm : limine_memmap_response) : Prop := {
  mo_count : mr_entry_count mm = Z.of_nat (length (mr_entries mm));
  mo_count_small : mr_entry_count mm < 2 ^ 64;
  mo_entries : forall e, e ∈ mr_entries mm -> usable e ->
    (4096 | me_base e) /\ 0 <= me_base e /\ 0 < me_length e /\
    me_base e + me_length e <= 2 ^ 43;
  mo_size : usable_size (mr_entries mm) < 2 ^ 64;
}.

(** The bitmap's bits become [f], and nothing outside its [n] bytes changes. *)
Definition bits_become (s : kstate) (pa n : Z) (f : Z -> bool) (s' : kstate) : Prop :=
  exists r', s' = set_ram r' s /\
    (forall b, 0 <= b < 8 * n -> bit_at r' pa b = f b) /\
    (forall a, a < pa \/ pa + n <= a -> ram_get r' a = ram_get (k_ram s) a).

(** ** Lemmas *)

Lemma bits_become_refl s pa n f :
  (forall b, 0 <= b < 8 * n -> bit_at (k_ram s) pa b = f b) -> bits_become s pa n f s.
Proof. intros Hf. exists (k_ram s). split; [by destruct s|]. auto. Qed.

Lemma bits_become_ext s pa n f f' s' :
  bits_become s pa n f s' -> (forall b, 0 <= b < 8 * n -> f b = f' b) ->
  bits_become s pa n f' s'.
Proof.
  intros (r' & -> & Hb & Ho) Hf. exists r'. split_and!; [done| |done].
  intros b Hlt. by rewrite Hb, Hf.
Qed.

Lemma bits_become_trans s pa n f f' s' s'' :
  bits_become s pa n f s' -> bits_become s' pa n f' s'' -> bits_become s pa n f' s''.
Proof.
  intros (r' & -> & Hb & Ho) (r'' & -> & Hb' & Ho'). exists r''. split_and!; [done|done|].
  intros a Ha. rewrite Ho' by done. by apply Ho.
Qed.

Lemma bits_become_write s pa n f s' b v :
  0 <= b < 8 * n -> bits_become s pa n f s' ->
  bits_become s pa n (fun x => if decide (b = x) then v else f x)
    (set_ram (bit_write (k_ram s') pa b v) s').
Proof.
  intros Hb (r' & -> & Hbits & Hout). eexists. split; [done|]. cbn. split.
  - intros x Hx. rewrite bit_at_write by lia. by rewrite Hbits.
  - intros a Ha. rewrite ram_get_bit_write; [by apply Hout|].
    assert (0 <= b / 8 < n) by ldivmod. lia.
Qed.

(** The globals and the address space survive. *)
Lemma bits_become_frame s pa n f s' :
  bits_become s pa n f s' ->
  k_hw s' = k_hw s /\ k_pmm s' = k_pmm s /\ k_trace s' = k_trace s.
Proof. by intros (r' & -> & _). Qed.

Section marks.
Context (s : kstate) (pa n : Z).
Context (Hmap : mapped s (pmm_bitmap (k_pmm s)) n pa).
Context (Hbm : 0 <= pmm_bitmap (k_pmm s)).

Lemma bits_become_mapped f s' :
  bits_become s pa n f s' ->
  mapped s' (pmm_bitmap (k_pmm s')) n pa /\ 0 <= pmm_bitmap (k_pmm s').
Proof using Hmap Hbm.
  intros H. apply bits_become_frame in H as (Hhw & Hpmm & _).
  rewrite Hpmm. split; [by apply (mapped_hw s)|done].
Qed.

Lemma wp_mmap_unset f s' b (Q : unit -> kstate -> Prop) H :
  bits_become s pa n f s' -> 0 <= b < 8 * n -> b < 2 ^ 31 ->
  (forall s'', bits_become s pa n (fun x => if decide (b = x) then false else f x) s'' ->
     Q tt s'') ->
  wp (mmap_unset (s32 b)) Q H s'.
Proof using Hmap Hbm.
  intros Hbb Hb Hb31 HQ. destruct (bits_become_mapped _ _ Hbb) as [Hm' Hb'].
  rewrite s32_small by lia.
  eapply wp_done; [by apply (mmap_unset_done s' pa n)|].
  apply HQ. by apply bits_become_write.
Qed.

Lemma wp_mmap_set f s' b (Q : unit -> kstate -> Prop) H :
  bits_become s pa n f s' -> 0 <= b < 8 * n -> b < 2 ^ 31 ->
  (forall s'', bits_become s pa n (fun x => if decide (b = x) then true else f x) s'' ->
     Q tt s'') ->
  wp (mmap_set (s32 b)) Q H s'.
Proof using Hmap Hbm.
  intros Hbb Hb Hb31 HQ. destruct (bits_become_mapped _ _ Hbb) as [Hm' Hb'].
  rewrite s32_small by lia.
  eapply wp_done; [by apply (mmap_set_done s' pa n)|].
  apply HQ. by apply bits_become_write.
Qed.

(** The inner loop: the blocks of one entry. *)
Lemma wp_mark_entry e f s' (Q : unit -> kstate -> Prop) H :
  usable e -> (4096 | me_base e) -> 0 <= me_base e -> 0 < me_length e ->
  me_base e + me_length e <= 2 ^ 43 ->
  me_base e / 4096 + entry_blocks e <= 8 * n ->
  bits_become s pa n f s' ->
  (forall s'', bits_become s pa n (fun x => if covers x e then false else f x) s'' ->
     Q tt s'') ->
  wp (for_ 0 (me_length e) BLOCK_SIZE (fun j =>
        mmap_unset (s32 (addr2block (me_base e ⊕ j))))) Q H s'.
Proof using Hmap Hbm.
  intros Hus [k Hk] Hb0 Hl0 Htop Hn Hbb HQ. unfold entry_blocks, BLOCK_SIZE in *.
  assert (me_base e / 4096 = k) as Ek by (rewrite Hk; apply Z.div_mul; lia).
  apply (wp_for 0 (me_length e) 4096 _ (fun j => bits_become s pa n (fun x =>
    if decide (k <= x < k + j / 4096) then false else f x))); try lia.
  - intros j s1 Hj [q Hq] Hb1. replace j with (q * 4096) in * by lia.
    rewrite Z.div_mul in Hb1 by lia. unfold addr2block, BLOCK_SIZE.
    rewrite u64_small by lia. rewrite Hk, <- Z.mul_add_distr_r, Z.div_mul by lia.
    apply (wp_mmap_unset _ _ (k + q) _ _ Hb1); [ldivmod|lia|].
    intros s2 Hb2. apply (bits_become_ext _ _ _ _ _ _ Hb2). intros b _.
    replace ((q * 4096 + 4096) / 4096) with (q + 1) by ldivmod.
    repeat case_decide; try done; lia.
  - intros j s1 _ Hj Hj' [q Hq] Hb1. apply HQ, (bits_become_ext _ _ _ _ _ _ Hb1).
    intros b _. unfold covers, entry_blocks. rewrite bool_decide_true by done. rewrite Ek.
    replace j with (q * 4096) in * by lia. rewrite Z.div_mul by lia.
    assert ((me_length e + 4095) / 4096 = q) as -> by ldivmod.
    case_decide; zbool; try done; lia.
  - apply (bits_become_ext _ _ _ _ _ _ Hbb). intros b _.
    rewrite decide_False by (rewrite Z.div_0_l by lia; lia). done.
Qed.
End marks.

(** A list element by the loop counter. *)
Lemma wp_index_nth {A} (l : list A) i (Q : A -> kstate -> Prop) H s :
  0 <= i < Z.of_nat (length l) ->
  (forall a, l !! Z.to_nat i = Some a -> a ∈ l ->
     take (Z.to_nat (i + 1)) l = take (Z.to_nat i) l ++ [a] -> Q a s) ->
  wp (index l i) Q H s.
Proof.
  intros Hi HQ. destruct (lookup_lt_is_Some_2 l (Z.to_nat i) ltac:(lia)) as [a Ha].
  apply (wp_index l i a); [lia|done|]. apply HQ; [done|by eapply list_elem_of_lookup_2|].
  replace (Z.to_nat (i + 1)) with (S (Z.to_nat i)) by lia. by apply take_S_r.
Qed.

Lemma take_all_Z {A} (l : list A) : take (Z.to_nat (Z.of_nat (length l))) l = l.
Proof. rewrite Nat2Z.id. by apply take_ge. Qed.

Lemma usable_block_app l1 l2 b :
  usable_block (l1 ++ l2) b = usable_block l1 b || usable_block l2 b.
Proof. apply existsb_app. Qed.

Lemma usable_size_app l1 l2 : usable_size (l1 ++ l2) = usable_size l1 + usable_size l2.
Proof.
  unfold usable_size. rewrite filter_app. induction (filter usable l1); simpl; lia.
Qed.

Lemma usable_size_nonneg l :
  (forall e, e ∈ l -> usable e -> 0 < me_length e) -> 0 <= usable_size l.
Proof.
  unfold usable_size. induction l as [|e l IH]; intros Hl; [done|].
  rewrite filter_cons. assert (0 <= foldr (fun e acc => me_length e + acc) 0 (filter usable l))
    by (apply IH; intros; apply Hl; [by right|done]).
  case_decide; simpl; [|done]. pose proof (Hl e ltac:(by left) ltac:(done)). lia.
Qed.

Lemma usable_size_take l i :
  (forall e, e ∈ l -> usable e -> 0 < me_length e) ->
  0 <= usable_size (take i l) <= usable_size l.
Proof.
  intros Hl. rewrite <- (take_drop i l) at 3. rewrite usable_size_app.
  assert (forall l', (forall x, x ∈ l' -> x ∈ l) -> 0 <= usable_size l') as Hpos.
  { intros l' Hl'. apply usable_size_nonneg. auto. }
  assert (0 <= usable_size (take i l)).
  { apply Hpos. intros x Hx. rewrite <- (take_drop i l). apply elem_of_app. by left. }
  assert (0 <= usable_size (drop i l)).
  { apply Hpos. intros x Hx. rewrite <- (take_drop i l). apply elem_of_app. by right. }
  lia.
Qed.

Lemma usable_size_one e : usable_size [e] = if decide (usable e) then me_length e else 0.
Proof. unfold usable_size. rewrite filter_cons. case_decide; simpl; lia. Qed.

Section mark_usable.
Context (s : kstate) (pa n : Z) (mm : limine_memmap_response).
Context (Hmap : mapped s (pmm_bitmap (k_pmm s)) n pa).
Context (Hbm : 0 <= pmm_bitmap (k_pmm s)).
Context (Hmm : memmap_ok mm).
Context (Hcount : memmap_entry_count (k_pmm s) = mr_entry_count mm).
Context (Hn : forall e, e ∈ mr_entries mm -> usable e ->
  me_base e / 4096 + entry_blocks e <= 8 * n).

Lemma wp_mark_usable f s' (Q : unit -> kstate -> Prop) H :
  bits_become s pa n f s' ->
  (forall s'', bits_become s pa n
     (fun x => if usable_block (mr_entries mm) x then false else f x) s'' -> Q tt s'') ->
  wp (pmm_mark_usable (mr_entries mm)) Q H s'.
Proof using All.
  intros Hbb HQ. unfold pmm_mark_usable, pmm_get. wp_steps.
  destruct (bits_become_frame _ _ _ _ _ Hbb) as (_ & -> & _).
  rewrite Hcount, (mo_count mm Hmm). pose proof (mo_count_small mm Hmm).
  pose proof (mo_count mm Hmm).
  apply wp_for1 with (I := fun i => bits_become s pa n (fun x =>
    if usable_block (take (Z.to_nat i) (mr_entries mm)) x then false else f x)); try lia.
  - intros i s1 Hi Hb1. wp_step. apply wp_index_nth; [done|].
    intros e _ Hin Htake. rewrite Htake. cbn beta.
    destruct (Z.eqb_spec (me_type e) LIMINE_MEMMAP_USABLE) as [Hus|Hus].
    + destruct (mo_entries mm Hmm e Hin Hus) as (Hal & Hb0 & Hl & Htop).
      eapply (wp_mark_entry s pa n Hmap Hbm e _ s1); try done; [by apply Hn|].
      intros s2 Hb2. apply (bits_become_ext _ _ _ _ _ _ Hb2). intros b _.
      rewrite usable_block_app. simpl. rewrite orb_false_r.
      by destruct (covers b e), (usable_block _ b).
    + apply wp_ret. apply (bits_become_ext _ _ _ _ _ _ Hb1). intros b _.
      rewrite usable_block_app. simpl. unfold covers.
      rewrite bool_decide_false by done. simpl. by rewrite orb_false_r.
  - intros s1. rewrite take_all_Z. apply HQ.
  - done.
Qed.

Lemma wp_mark_bitmap f s' (Q : unit -> kstate -> Prop) H :
  let u := pmm_usable_addr (k_pmm s) / 4096 in
  let c := bitmap_bytes s in
  0 <= u -> 0 <= c -> u + c <= 8 * n -> u + c <= 2 ^ 31 ->
  bits_become s pa n f s' ->
  (forall s'', bits_become s pa n
     (fun x => if decide (u <= x < u + c) then true else f x) s'' -> Q tt s'') ->
  wp pmm_mark_bitmap Q H s'.
Proof using All.
  intros u c Hu Hc Hn' H31 Hbb HQ. unfold pmm_mark_bitmap, pmm_get. wp_steps.
  destruct (bits_become_frame _ _ _ _ _ Hbb) as (_ & -> & _).
  unfold addr2block, BLOCK_SIZE. fold u. fold (bitmap_bytes s). fold c.
  apply wp_for1 with (I := fun i => bits_become s pa n (fun x =>
    if decide (u <= x < u + i) then true else f x)); try lia.
  - intros i s1 Hi Hb1. rewrite u64_small by lia.
    apply (wp_mmap_set s pa n Hmap Hbm _ s1 _ _ _ Hb1); [lia|lia|].
    intros s2 Hb2. apply (bits_become_ext _ _ _ _ _ _ Hb2). intros b _.
    repeat case_decide; try done; lia.
  - done.
  - apply (bits_become_ext _ _ _ _ _ _ Hbb). intros b _.
    by rewrite decide_False by lia.
Qed.
End mark_usable.

(** The loop over the entries that adds up the memory. *)
Lemma wp_count_memory mm s (Q : unit -> kstate -> Prop) H :
  memmap_ok mm -> memmap_entry_count (k_pmm s) = mr_entry_count mm ->
  pmm_mem_size (k_pmm s) = 0 ->
  Q tt (set_pmm (with_mem_size (usable_size (mr_entries mm)) (k_pmm s)) s) ->
  wp (pmm_count_memory (mr_entries mm)) Q H s.
Proof.
  intros Hmm Hcount H0 HQ. unfold pmm_count_memory, pmm_get. wp_steps.
  rewrite Hcount, (mo_count mm Hmm). pose proof (mo_count_small mm Hmm).
  pose proof (mo_count mm Hmm). pose proof (mo_size mm Hmm).
  assert (forall e, e ∈ mr_entries mm -> usable e -> 0 < me_length e) as Hpos
    by (intros e He Hu; by apply (mo_entries mm Hmm e He Hu)).
  apply wp_for1 with (I := fun i s' =>
    s' = set_pmm (with_mem_size (usable_size (take (Z.to_nat i) (mr_entries mm))) (k_pmm s)) s);
    try lia.
  - intros i ? Hi ->. wp_step. apply wp_index_nth; [done|].
    intros e _ Hin Htake. pose proof (usable_size_take _ (Z.to_nat (i + 1)) Hpos) as Hle.
    rewrite Htake, usable_size_app, usable_size_one in Hle |- *. cbn beta.
    pose proof (usable_size_take _ (Z.to_nat i) Hpos).
    destruct (Z.eqb_spec (me_type e) LIMINE_MEMMAP_USABLE) as [Hus|Hus].
    + apply wp_modify. cbn. unfold with_mem_size; cbn.
      rewrite decide_True in * by done. by rewrite u64_small by lia.
    + apply wp_ret. rewrite decide_False by done. by rewrite Z.add_0_r.
  - intros ? ->. by rewrite take_all_Z.
  - simpl. rewrite take_0. unfold with_mem_size.
    change (usable_size []) with 0. rewrite <- H0. by destruct s as [? ? ? ? ? [] ? ? ? ? ? ?].
Qed.

Definition parsed_globals (entries : list limine_memmap_entry) (g : pmm_globals) : pmm_globals :=
  match first_usable entries with
  | Some e => with_usable (me_base e) (me_base e ⊕ me_length e) g
  | None => g
  end.

Lemma wp_parse_memmap mm s (Q : Z -> kstate -> Prop) H :
  memmap_ok mm -> memmap_entry_count (k_pmm s) = mr_entry_count mm ->
  (forall r es, console_only es ->
     Q r (emits es (set_pmm (parsed_globals (mr_entries mm) (k_pmm s)) s))) ->
  wp (pmm_parse_memmap (mr_entries mm)) Q H s.
Proof.
  intros Hmm Hcount HQ. unfold pmm_parse_memmap, pmm_get. wp_steps.
  rewrite Hcount, (mo_count mm Hmm). pose proof (mo_count_small mm Hmm).
  pose proof (mo_count mm Hmm).
  apply wp_for_acc with (I := fun i found s' =>
    let l := take (Z.to_nat i) (mr_entries mm) in
    (found = match first_usable l with Some _ => 1 | None => 0 end) /\
    exists es, console_only es /\ s' = emits es (set_pmm (parsed_globals l (k_pmm s)) s));
    try lia.
  - intros i found ? Hi [-> (es & Hes & ->)]. wp_step. apply wp_index_nth; [done|].
    intros e _ Hin Htake. cbn zeta beta. rewrite Htake.
    set (l := take (Z.to_nat i) (mr_entries mm)) in *.
    unfold parsed_globals, first_usable. rewrite filter_app, filter_cons.
    fold (usable e). unfold usable in *.
    destruct (Z.eqb_spec (me_type e) LIMINE_MEMMAP_USABLE) as [Hus|Hus];
      [rewrite decide_True by done|rewrite decide_False by done]; wp_steps.
    + destruct (filter _ l) as [|e0 l0]; cbn [head app Z.eqb]; wp_steps.
      * unfold pmm_set. wp_steps. apply wp_printf_typed; [reflexivity|].
        intros es' Hes'. wp_steps. split; [done|].
        exists (es ++ es'). split; [by apply Forall_app|]. by rewrite <- emits_app.
      * apply wp_printf_typed; [reflexivity|].
        intros es' Hes'. wp_steps. split; [done|].
        exists (es ++ es'). split; [by apply Forall_app|]. by rewrite <- emits_app.
    + rewrite filter_nil, app_nil_r. apply wp_printf_typed; [reflexivity|].
      intros es' Hes'. wp_steps. split; [done|].
      exists (es ++ es'). split; [by apply Forall_app|]. by rewrite <- emits_app.
  - intros found ? [-> (es & Hes & ->)]. rewrite take_all_Z. by apply HQ.
  - simpl. rewrite take_0. split; [done|]. exists []. split; [constructor|].
    rewrite emits_nil. by destruct s.
Qed.

(** ** pmm_init as a whole *)

Section init.
Context (s : kstate) (mm : limine_memmap_response) (e0 : limine_memmap_entry).
Context (pa n : Z).

(** The first usable address, where the bitmap is placed, and its size. *)
Definition init_bitmap : Z := me_base e0 ⊕ hhdmoffset (k_vmm s).
Definition init_count : Z := usable_size (mr_entries mm) / BLOCK_SIZE.
Definition init_bytes : Z := init_count / 8.

Definition init_globals : pmm_globals :=
  PmmGlobals (mr_entry_count mm) (me_base e0) (me_base e0 ⊕ me_length e0)
    (((me_base e0 ⊕ me_length e0) / BLOCK_SIZE) ⊗ 8) init_count
    (usable_size (mr_entries mm)) init_bitmap (Some mm).

(** The bit of a block after initialisation: set for the [init_bytes] blocks
    from the bitmap's own on, else clear for a usable block, else set within
    the bitmap's size, else what RAM held. *)
Definition init_bit (b : Z) : bool :=
  if decide (me_base e0 / 4096 <= b < me_base e0 / 4096 + init_bytes) then true
  else if usable_block (mr_entries mm) b then false
  else if decide (b < 8 * init_bytes) then true
  else bit_at (k_ram s) pa b.

(** What initialisation runs on: the bootloader's map, globals not yet
    touched, and [n] bytes of RAM behind the place of the bitmap, enough for
    every bit the code writes. *)
Record init_pre : Prop := {
  ip_response : memmap_request_response (k_boot s) = Some mm;
  ip_map : memmap_ok mm;
  ip_fresh : pmm_mem_size (k_pmm s) = 0;
  ip_first : first_usable (mr_entries mm) = Some e0;
  ip_mapped : mapped s init_bitmap n pa;
  ip_bitmap : init_bytes <= n;
  ip_usable : forall e, e ∈ mr_entries mm -> usable e ->
    me_base e / 4096 + entry_blocks e <= 8 * n;
  ip_own : me_base e0 / 4096 + init_bytes <= 8 * n;
  ip_int : me_base e0 / 4096 + init_bytes <= 2 ^ 31;
}.

Context (Hpre : init_pre).

Lemma init_first_usable : e0 ∈ mr_entries mm /\ usable e0.
Proof using Hpre.
  pose proof (ip_first Hpre) as H. unfold first_usable in H.
  apply head_Some_elem_of, list_elem_of_filter in H. tauto.
Qed.

Lemma init_bytes_range : 0 <= init_bytes < 2 ^ 64.
Proof using Hpre.
  unfold init_bytes, init_count, BLOCK_SIZE.
  pose proof (mo_size mm (ip_map Hpre)).
  assert (0 <= usable_size (mr_entries mm)).
  { apply usable_size_nonneg. intros e He Hu.
    by apply (mo_entries mm (ip_map Hpre) e He Hu). }
  ldivmod.
Qed.

(** memset sets the bits of the first [init_bytes] bytes. *)
Lemma init_memset_bits s1 :
  k_hw s1 = k_hw s -> k_ram s1 = k_ram s ->
  wp (memset init_bitmap 0xFF init_bytes) (fun _ =>
    bits_become s1 pa n (fun b =>
      if decide (b < 8 * init_bytes) then true else bit_at (k_ram s) pa b)) never s1.
Proof using Hpre.
  intros Hhw Hram. pose proof init_bytes_range as Hr.
  eapply wp_done.
  { apply memset_done with (pa := pa); [|apply u64_range|done].
    apply (mapped_hw s); [done|].
    rewrite <- (Z.add_0_r init_bitmap), <- (Z.add_0_r pa).
    apply (mapped_sub s init_bitmap n); [apply Hpre|lia|]. pose proof (ip_bitmap Hpre). lia. }
  eexists. split; [done|]. rewrite Hram. split.
  - intros b Hb. unfold bit_at. rewrite ram_get_write, length_replicate, Z2Nat.id by lia.
    destruct (decide (b < 8 * init_bytes)).
    + assert (0 <= b / 8 < init_bytes) by ldivmod. rewrite decide_True by lia.
      rewrite lookup_replicate_2 by lia. simpl.
      apply byte_bit_ff; [done|]. apply Z.mod_pos_bound. lia.
    + assert (init_bytes <= b / 8) by ldivmod. by rewrite decide_False by lia.
  - intros a Ha. apply ram_get_write_out. rewrite length_replicate.
    pose proof (ip_bitmap Hpre). lia.
Qed.

Lemma pmm_init_done :
  exists es s', console_only es /\ pmm_init s = Done tt s' /\
    bits_become (emits es (set_pmm init_globals s)) pa n init_bit s'.
Proof using Hpre.
  enough (wp pmm_init (fun _ s' => exists es, console_only es /\
    bits_become (emits es (set_pmm init_globals s)) pa n init_bit s') never s) as Hw.
  { apply wp_inv_done in Hw as ([] & s' & E & es & Hes & Hb). eauto. }
  pose proof (ip_map Hpre) as Hmm. pose proof init_bytes_range as Hr.
  unfold pmm_init. wp_steps. rewrite (ip_response Hpre). wp_steps.
  apply wp_printf_typed; [done|]. intros es1 Hes1. unfold pmm_set, pmm_get. wp_steps.
  apply wp_count_memory; [done|done|apply Hpre|]. wp_steps.
  apply wp_parse_memmap; [done|done|]. intros r es2 Hes2. wp_steps. cbn.
  unfold parsed_globals. rewrite (ip_first Hpre). cbn.
  apply wp_printf_typed; [reflexivity|]; intros es3 Hes3; wp_steps.
  apply wp_printf_typed; [reflexivity|]; intros es4 Hes4; wp_steps.
  apply wp_printf_typed; [reflexivity|]; intros es5 Hes5; wp_steps.
  apply wp_printf_typed; [reflexivity|]; intros es6 Hes6; wp_steps.
  match goal with |- wp _ _ never ?x => replace x with
    (emits (es1 ++ es2 ++ es3 ++ es4 ++ es5 ++ es6) (set_pmm init_globals s))
    by (unfold emits; cbn; rewrite <- !app_assoc; reflexivity) end.
  assert (console_only (es1 ++ es2 ++ es3 ++ es4 ++ es5 ++ es6)) as Hes
    by (repeat (apply Forall_app; split); done).
  revert Hes. generalize (es1 ++ es2 ++ es3 ++ es4 ++ es5 ++ es6). intros es Hes.
  set (s1 := emits es (set_pmm init_globals s)).
  assert (mapped s1 (pmm_bitmap (k_pmm s1)) n pa) as Hmap
    by (apply (mapped_hw s); [done|apply Hpre]).
  destruct init_first_usable as [Hin Hus].
  destruct (mo_entries mm Hmm e0 Hin Hus) as (_ & Hb0 & _).
  eapply wp_mono; [exact (init_memset_bits s1 eq_refl eq_refl)| |done].
  intros ? s2 Hs2. cbn beta in Hs2. wp_steps.
  apply (wp_mark_usable s1 pa n mm Hmap (proj1 (u64_range _)) Hmm eq_refl (ip_usable Hpre)
    _ _ _ _ Hs2). intros s3 Hs3.
  apply (wp_mark_bitmap s1 pa n mm Hmap (proj1 (u64_range _)) Hmm eq_refl (ip_usable Hpre)
    _ _ _ _) with (5 := Hs3); [cbn; ldivmod|apply Hr|apply Hpre|apply Hpre|].
  intros s4 Hs4. exists es. split; [done|]. exact Hs4.
Qed.
End init.

(** The free blocks after initialisation. *)
Definition init_free (s : kstate) (mm : limine_memmap_response) (e0 : limine_memmap_entry)
  : gset Z :=
  list_to_set (filter (fun b => usable_block (mr_entries mm) b = true /\
      ~ (me_base e0 / 4096 <= b < me_base e0 / 4096 + init_bytes mm))
    (zrange 0 (Z.to_nat (8 * init_bytes mm)))).

(** A usable block lies inside RAM when the map's usable entries do. *)
Lemma usable_block_ram mm ram b :
  (forall e, e ∈ mr_entries mm -> usable e ->
    (4096 | me_base e) /\ (4096 | me_length e) /\ 0 <= me_length e /\
    me_base e + me_length e <= ram) ->
  usable_block (mr_entries mm) b = true -> b * 4096 + 4096 <= ram.
Proof.
  intros Hent Hu. unfold usable_block in Hu. apply existsb_exists in Hu as (e & Hin & Hc).
  unfold covers, entry_blocks in Hc.
  apply andb_prop in Hc as [[Hus%bool_decide_eq_true Hlo]%andb_prop Hhi].
  destruct (Hent e ltac:(by apply list_elem_of_In) Hus) as ([k Hk] & [l Hl] & Hl0 & Htop).
  rewrite Hk, Hl in *. rewrite Z.div_mul in * by lia.
  assert ((l * 4096 + 4095) / 4096 = l) as E by ldivmod. rewrite E in Hhi. lia.
Qed.

(** The free blocks are what the bits say. *)
Lemma init_free_set s mm e0 pa n es s' :
  init_bytes mm <= n -> 0 <= init_bytes mm ->
  bits_become (emits es (set_pmm (init_globals s mm e0) s)) pa n (init_bit s mm e0 pa) s' ->
  bitmap_bytes s' = init_bytes mm /\ free_set s' pa = init_free s mm e0.
Proof.
  intros Hn H0 (r' & -> & Hbits & _).
  assert (bitmap_bytes (set_ram r' (emits es (set_pmm (init_globals s mm e0) s)))
    = init_bytes mm) as En by reflexivity.
  split; [done|]. apply set_eq. intros b. rewrite elem_of_free_set, En. cbn.
  unfold init_free. rewrite elem_of_list_to_set, list_elem_of_filter, elem_of_zrange.
  rewrite Z2Nat.id, Z.add_0_l by lia.
  split; intros [H1 H2]; (split; [|done]) || (split; [done|]).
  - rewrite Hbits in H2 by lia. unfold init_bit in H2.
    case_decide; [done|]. destruct (usable_block _ b); [done|].
    rewrite decide_True in H2 by lia. done.
  - rewrite Hbits by lia. unfold init_bit. destruct H1 as [Hu Hne].
    by rewrite decide_False, Hu by done.
Qed.

(** The bits left by initialisation make the invariant of the allocator. *)
Lemma pmm_init_establishes (s : kstate) (mm : limine_memmap_response) (e0 : limine_memmap_entry)
    (n : Z) (Hpre : init_pre s mm e0 (me_base e0) n)
    (Hsize : usable_size (mr_entries mm) <= 2 ^ 43)
    (Hent : forall e, e ∈ mr_entries mm -> usable e ->
      (4096 | me_base e) /\ (4096 | me_length e) /\ 0 <= me_length e /\
      me_base e + me_length e <= hw_ram_size (k_hw s)) :
  exists es s', console_only es /\ pmm_init s = Done tt s' /\
    bits_become (emits es (set_pmm (init_globals s mm e0) s)) (me_base e0) n
      (init_bit s mm e0 (me_base e0)) s' /\
    pmm_inv s' (me_base e0) /\ free_set s' (me_base e0) = init_free s mm e0.
Proof.
  destruct (pmm_init_done s mm e0 _ n Hpre) as (es & s' & Hes & E & Hbb).
  pose proof (init_bytes_range s mm e0 _ n Hpre) as Hr.
  pose proof (ip_bitmap _ _ _ _ _ Hpre) as Hn.
  destruct (init_free_set s mm e0 _ n es s' Hn ltac:(lia) Hbb) as [En Ef].
  exists es, s'. do 3 (split; [done|]). split; [|done].
  destruct (init_first_usable s mm e0 _ n Hpre) as [Hin Hus].
  destruct (Hent e0 Hin Hus) as ([k Hk] & _).
  assert (k_hw s' = k_hw s /\ pmm_bitmap (k_pmm s') = init_bitmap s e0) as [Ehw Ebm]
    by (apply bits_become_frame in Hbb as (-> & -> & _); done).
  split; rewrite ?En, ?Ebm.
  - apply (mapped_hw s); [done|]. rewrite <- (Z.add_0_r (init_bitmap s e0)), <- (Z.add_0_r (me_base e0)).
    apply (mapped_sub s _ n); [apply Hpre|lia|lia].
  - apply u64_range.
  - lia.
  - unfold init_bytes, init_count, BLOCK_SIZE. clear -Hsize. ldivmod.
  - intros b Hb Hclr. assert (b ∈ free_set s' (me_base e0)) as Hf
      by (apply elem_of_free_set; by rewrite En).
    rewrite Ef in Hf. unfold init_free in Hf.
    rewrite elem_of_list_to_set, list_elem_of_filter in Hf. destruct Hf as [[Hu Hne] _].
    unfold frame_ok. rewrite En, Ehw. unfold BLOCK_SIZE. split.
    + by apply (usable_block_ram mm).
    + rewrite Hk in *. rewrite Z.div_mul in Hne by lia. lia.
Qed.

Lemma sample_entries (P : limine_memmap_entry -> Prop) :
  P sample_usable -> forall e, e ∈ mr_entries sample_memmap -> usable e -> P e.
Proof.
  intros HP e [->|[->|[]%elem_of_nil]%elem_of_cons]%elem_of_cons Hus; [|done].
  by compute in Hus.
Qed.

Lemma sample_init_pre : init_pre sample_start sample_memmap sample_usable 0x2000 2.
Proof.
  split; try done.
  - split; try done. apply sample_entries. split; [by exists 2|done].
  - by apply sample_identity.
  - by apply sample_entries.
Qed.

(** ** Properties *)

(** C16: [pmm_init] on a well-formed memory map returns after writing only to the
    console, sets its globals to the values computed from the map, and leaves
    the bit of every block [b] within the bitmap's memory as [init_bit]: set
    for the blocks it takes for the bitmap, clear for the other usable blocks,
    set for the rest of the bitmap; RAM outside is untouched. *)
Theorem pmm_init_bits (s : kstate) (mm : limine_memmap_response) (e0 : limine_memmap_entry)
    (pa n : Z) (Hpre : init_pre s mm e0 pa n) :
  exists es s', console_only es /\ pmm_init s = Done tt s' /\
    k_pmm s' = init_globals s mm e0 /\ k_trace s' = k_trace s ++ es /\
    (forall b, 0 <= b < 8 * n -> bit_at (k_ram s') pa b = init_bit s mm e0 pa b) /\
    (forall a, a < pa \/ pa + n <= a -> ram_get (k_ram s') a = ram_get (k_ram s) a).
Proof.
  destruct (pmm_init_done s mm e0 pa n Hpre) as (es & s' & Hes & E & r' & -> & Hb & Ho).
  by exists es; eexists.
Qed.

Lemma pmm_init_bits_witness :
  exists es s', console_only es /\ pmm_init sample_start = Done tt s' /\
    k_pmm s' = init_globals sample_start sample_memmap sample_usable /\
    k_trace s' = k_trace sample_start ++ es /\
    (forall b, 0 <= b < 8 * 2 -> bit_at (k_ram s') 0x2000 b =
       init_bit sample_start sample_memmap sample_usable 0x2000 b) /\
    (forall a, a < 0x2000 \/ 0x2000 + 2 <= a -> ram_get (k_ram s') a = ram_get ∅ a).
Proof. apply (pmm_init_bits sample_start), sample_init_pre. Defined.

(** C15: [pmm_init] establishes the allocator's invariant, when the usable entries
    are page aligned RAM and the bitmap's virtual address resolves to the start
    of the first usable entry; the free blocks are then exactly the usable ones
    among the bitmap's, less those kept for the bitmap. *)
Theorem pmm_init_inv (s : kstate) (mm : limine_memmap_response) (e0 : limine_memmap_entry)
    (n : Z) (Hpre : init_pre s mm e0 (me_base e0) n)
    (Hsize : usable_size (mr_entries mm) <= 2 ^ 43)
    (Hent : forall e, e ∈ mr_entries mm -> usable e ->
      (4096 | me_base e) /\ (4096 | me_length e) /\ 0 <= me_length e /\
      me_base e + me_length e <= hw_ram_size (k_hw s)) :
  exists s', pmm_init s = Done tt s' /\ pmm_inv s' (me_base e0) /\
    free_set s' (me_base e0) = init_free s mm e0.
Proof.
  destruct (pmm_init_establishes s mm e0 n Hpre Hsize Hent) as (es & s' & _ & E & _ & Hi & Hf).
  eauto.
Qed.

Lemma pmm_init_inv_witness :
  exists s', pmm_init sample_start = Done tt s' /\ pmm_inv s' 0x2000 /\
    free_set s' 0x2000 = {[3; 4; 5; 6; 7]}.
Proof.
  apply (pmm_init_inv sample_start sample_memmap sample_usable 2); [apply sample_init_pre|done|].
  apply sample_entries. split; [by exists 2|split; [by exists 14|done]].
Defined.

(** C39: a memory map with holes makes [pmm_init] write outside its bitmap: the
    bitmap is sized by the amount of usable memory, but bits are cleared by
    block number, so for a usable block past the bitmap's last bit the bit
    cleared belongs to memory at or after the bitmap's end. *)
Theorem pmm_init_writes_past_bitmap (s : kstate) (mm : limine_memmap_response)
    (e0 : limine_memmap_entry) (pa n b : Z) (Hpre : init_pre s mm e0 pa n)
    (Hus : usable_block (mr_entries mm) b = true) (Hb : 8 * init_bytes mm <= b < 8 * n)
    (Hown : me_base e0 / 4096 + init_bytes mm <= b) :
  exists s', pmm_init s = Done tt s' /\ pa + bitmap_bytes s' <= pa + b / 8 /\
    Z.testbit (byte_val (ram_get (k_ram s') (pa + b / 8))) (b mod 8) = false.
Proof.
  destruct (pmm_init_done s mm e0 pa n Hpre) as (es & s' & _ & E & r' & -> & Hbits & _).
  pose proof (init_bytes_range s mm e0 pa n Hpre) as Hr.
  eexists. split; [done|]. split.
  - change (bitmap_bytes _) with (init_bytes mm). ldivmod.
  - change (bit_at r' pa b = false). rewrite Hbits by lia. unfold init_bit.
    rewrite decide_False by lia. by rewrite Hus.
Qed.

Lemma pmm_init_writes_past_bitmap_witness :
  exists s', pmm_init sample_start = Done tt s' /\ 0x2000 + bitmap_bytes s' <= 0x2001 /\
    Z.testbit (byte_val (ram_get (k_ram s') 0x2001)) 4 = false.
Proof.
  apply (pmm_init_writes_past_bitmap sample_start sample_memmap sample_usable 0x2000 2 12);
    [apply sample_init_pre|done..].
Defined.
