(* ===== verification/Macros.v ===== *)
(** kern/include/macros.h: alignment, bit fields, rounded division, on
    [uint64_t] operands. *)

From S2P Require Import Prelude.

(** ** Code *)

Definition ALIGN_UP (x base : Z) : Z :=
  Z.land (x ⊕ base ⊖ 1) (u64 (Z.lnot (base - 1))).

Definition ALIGN_DOWN (x base : Z) : Z :=
  Z.land x (u64 (Z.lnot (base - 1))).

Definition EXTRACT_BITS (value start_index end_index : Z) : Z :=
  Z.shiftr (Z.land value
    (u64 (Z.shiftl (u64 (Z.shiftl 1 (end_index - start_index + 1)) ⊖ 1) start_index)))
    start_index.

Definition DIV_ROUNDUP (x y : Z) : Z := (x ⊕ y ⊖ 1) / y.
Definition DIV_ROUNDDOWN (x y : Z) : Z := x / y.
Definition MAX (x y : Z) : Z := if y <? x then x else y.
Definition MIN (x y : Z) : Z := if x <? y then x else y.

(** ** Lemmas *)

(** Masking the low [k] bits rounds down to a multiple of [2^k]. *)
Lemma land_mask x k :
  0 <= x < 2 ^ 64 -> 0 <= k < 64 ->
  Z.land x (u64 (Z.lnot (2 ^ k - 1))) = x / 2 ^ k * 2 ^ k.
Proof.
  intros Hx Hk. rewrite <- Z.shiftr_div_pow2, <- Z.shiftl_mul_pow2 by lia.
  replace (2 ^ k - 1) with (Z.ones k) by (rewrite Z.ones_equiv; lia).
  unfold u64. rewrite <- (Z.mod_small x (2 ^ 64)) by done.
  apply Z.bits_inj'. intros n Hn.
  rewrite Z.land_spec, Z.shiftl_spec by lia.
  destruct (Z.lt_ge_cases n 64); [|rewrite (Z.mod_pow2_bits_high x) by lia; simpl].
  - rewrite (Z.mod_pow2_bits_low _ 64 n), (Z.mod_pow2_bits_low (Z.lnot _)), Z.lnot_spec by lia.
    destruct (Z.lt_ge_cases n k).
    + rewrite Z.ones_spec_low, andb_false_r by lia. by rewrite Z.testbit_neg_r by lia.
    + rewrite Z.ones_spec_high, andb_true_r by lia. rewrite Z.shiftr_spec by lia.
      rewrite Z.mod_pow2_bits_low by lia. f_equal. lia.
  - destruct (Z.lt_ge_cases n k); [lia|]. rewrite Z.shiftr_spec by lia.
    by rewrite Z.mod_pow2_bits_high by lia.
Qed.

Lemma ALIGN_DOWN_4096 x : 0 <= x < 2 ^ 64 -> ALIGN_DOWN x 4096 = x / 4096 * 4096.
Proof. intros Hx. unfold ALIGN_DOWN. change 4096 with (2 ^ 12). by rewrite land_mask by lia. Qed.

Lemma ALIGN_UP_4096 x : 0 <= x -> x + 4095 < 2 ^ 64 ->
  ALIGN_UP x 4096 = (x + 4095) / 4096 * 4096.
Proof.
  intros Hx Ho. unfold ALIGN_UP.
  replace (u64 (u64 (x + 4096) - 1)) with (x + 4095)
    by (unfold u64; rewrite Zminus_mod_idemp_l, Z.mod_small; lia).
  change 4096 with (2 ^ 12). by rewrite land_mask by lia.
Qed.

(** ** Properties *)

(** for a power of two [2^k], [ALIGN_DOWN] is the greatest multiple not above
    its argument and, while [x + 2^k] stays in 64 bits, [ALIGN_UP] is the least
    multiple not below it; [EXTRACT_BITS] of bits [i] to [j] is the number those
    bits form. *)
Theorem macros_meaning (x k i j : Z) (Hx : 0 <= x) (Hk : 0 <= k < 64)
    (Ho : x + 2 ^ k < 2 ^ 64) (Hij : 0 <= i <= j) (Hj : j < 64) (Hw : j - i < 63) :
  ((2 ^ k | ALIGN_DOWN x (2 ^ k)) /\ ALIGN_DOWN x (2 ^ k) <= x < ALIGN_DOWN x (2 ^ k) + 2 ^ k) /\
  ((2 ^ k | ALIGN_UP x (2 ^ k)) /\ ALIGN_UP x (2 ^ k) - 2 ^ k < x <= ALIGN_UP x (2 ^ k)) /\
  EXTRACT_BITS x i j = (x / 2 ^ i) mod 2 ^ (j - i + 1).
Proof.
  pose proof (Z.pow_pos_nonneg 2 k ltac:(lia) ltac:(lia)) as Hp. split_and!.
  - unfold ALIGN_DOWN. rewrite land_mask by lia. by exists (x / 2 ^ k).
  - unfold ALIGN_DOWN. rewrite land_mask by lia. pose proof (Z.mul_div_le x (2 ^ k) Hp). lia.
  - unfold ALIGN_DOWN. rewrite land_mask by lia.
    pose proof (Z.mul_succ_div_gt x (2 ^ k) Hp). lia.
  - unfold ALIGN_UP. rewrite land_mask by (auto with cint || lia). by eexists.
  - unfold ALIGN_UP. rewrite (u64_small (x + _)), u64_small, land_mask by lia.
    pose proof (Z.mul_div_le (x + 2 ^ k - 1) (2 ^ k) Hp). lia.
  - unfold ALIGN_UP. rewrite (u64_small (x + _)), u64_small, land_mask by lia.
    pose proof (Z.mul_div_le (x + 2 ^ k - 1) (2 ^ k) Hp).
    pose proof (Z.mul_succ_div_gt (x + 2 ^ k - 1) (2 ^ k) Hp). lia.
  - unfold EXTRACT_BITS. set (w := j - i + 1).
    assert (0 < w < 64) by lia.
    assert (2 ^ w < 2 ^ 64) by (apply Z.pow_lt_mono_r; lia).
    pose proof (Z.pow_pos_nonneg 2 w ltac:(lia) ltac:(lia)).
    rewrite Z.shiftl_1_l, (u64_small (2 ^ w)), (u64_small (2 ^ w - 1)) by lia.
    replace (2 ^ w - 1) with (Z.ones w) by (rewrite Z.ones_equiv; lia).
    assert (x < 2 ^ 64) as Hx64 by lia. unfold u64.
    apply Z.bits_inj'. intros n Hn.
    rewrite Z.shiftr_spec, Z.land_spec by lia. rewrite <- Z.shiftr_div_pow2 by lia.
    destruct (Z.lt_ge_cases n w).
    + rewrite !Z.mod_pow2_bits_low, Z.shiftl_spec, Z.shiftr_spec by lia.
      replace (n + i - i) with n by lia. by rewrite Z.ones_spec_low, andb_true_r by lia.
    + rewrite (Z.mod_pow2_bits_high _ w) by lia.
      destruct (Z.lt_ge_cases (n + i) 64).
      * rewrite Z.mod_pow2_bits_low, Z.shiftl_spec by lia.
        rewrite Z.ones_spec_high by lia. apply andb_false_r.
      * rewrite (Z.mod_pow2_bits_high _ 64) by lia. apply andb_false_r.
Qed.

Lemma macros_meaning_witness :
  ((2 ^ 12 | ALIGN_DOWN 0x12345 (2 ^ 12)) /\ ALIGN_DOWN 0x12345 (2 ^ 12) <= 0x12345 < ALIGN_DOWN 0x12345 (2 ^ 12) + 2 ^ 12) /\
  ((2 ^ 12 | ALIGN_UP 0x12345 (2 ^ 12)) /\ ALIGN_UP 0x12345 (2 ^ 12) - 2 ^ 12 < 0x12345 <= ALIGN_UP 0x12345 (2 ^ 12)) /\
  EXTRACT_BITS 0x12345 8 15 = (0x12345 / 2 ^ 8) mod 2 ^ 8.
Proof. apply (macros_meaning 0x12345 12 8 15); by vm_compute. Defined.
