(* ===== verification/PageTable.v ===== *)
(** The x86-64 page tables vmm.c builds, as the hardware reads them: entries of
    512-entry tables, the walk from the root, and the invariant of a tree of
    tables under which an entry can be changed with a known effect on every
    address's translation.  Tables are functions from a table's address and an
    index to an entry; Vmm.v reads them from RAM. *)

From S2P Require Import Prelude.

(** ** Entries *)

Definition entries := Z -> Z -> Z.

Definition PTE_ADDR_MASK : Z := 0x000ffffffffff000.

Definition pte_present (e : Z) : bool := Z.testbit e 0.
Definition pte_large (e : Z) : bool := Z.testbit e 7.
Definition pte_addr (e : Z) : Z := Z.land e PTE_ADDR_MASK.

(** The index into the table of level [l] (4 is the root), and the number of
    the page, of a virtual address. *)
Definition pt_idx (l : nat) (va : Z) : Z := (va / 2 ^ (12 + 9 * (Z.of_nat l - 1))) mod 512.
Definition vpn (va : Z) : Z := (va / 4096) mod 2 ^ 36.

(** ** The walk *)

Inductive translation :=
  | NotPresent
  | Page (e : Z)
  | LargePage (level : nat) (e : Z).

(** What an entry of the last level translates to. *)
Definition leaf (e : Z) : translation := if pte_present e then Page e else NotPresent.

Fixpoint walk (E : entries) (l : nat) (q va : Z) : translation :=
  match l with
  | O => NotPresent
  | S l' =>
      let e := E q (pt_idx l va) in
      match l' with
      | O => leaf e
      | S _ =>
          if negb (pte_present e) then NotPresent
          else if pte_large e then LargePage l e
          else walk E l' (pte_addr e) va
      end
  end.

(** The table of the last level a walk comes to. *)
Fixpoint leaf_table (E : entries) (l : nat) (q va : Z) : option Z :=
  match l with
  | O => None
  | S O => Some q
  | S l' =>
      let e := E q (pt_idx l va) in
      if pte_present e && negb (pte_large e) then leaf_table E l' (pte_addr e) va else None
  end.

(** ** Trees of tables

    [T] gives the level of each table.  Entries above the last level lead to
    tables of the level below, each from one entry only. *)
Record page_tables (E : entries) (T : gmap Z nat) : Prop := {
  pt_child : forall q l i, T !! q = Some (S (S l)) -> 0 <= i < 512 ->
    pte_present (E q i) = true ->
    pte_large (E q i) = false /\ T !! pte_addr (E q i) = Some (S l);
  pt_unique : forall q q' l i i', T !! q = Some (S (S l)) -> T !! q' = Some (S (S l)) ->
    0 <= i < 512 -> 0 <= i' < 512 ->
    pte_present (E q i) = true -> pte_present (E q' i') = true ->
    pte_addr (E q i) = pte_addr (E q' i') -> q = q' /\ i = i';
}.

Definition set_entry (E : entries) (q i v : Z) : entries :=
  fun q' i' => if decide (q' = q /\ i' = i) then v else E q' i'.

(** ** Lemmas *)

Lemma pt_idx_range l va : 0 <= pt_idx l va < 512.
Proof. apply Z.mod_pos_bound. lia. Qed.

#[export] Hint Resolve pt_idx_range : core.

Lemma pt_idx_vpn l va : (1 <= l)%nat -> (l <= 4)%nat ->
  pt_idx l va = (vpn va / 512 ^ (Z.of_nat l - 1)) mod 512.
Proof.
  intros H1 H2. unfold pt_idx, vpn.
  assert (forall k, (k <= 3)%nat ->
    (va / 2 ^ (12 + 9 * Z.of_nat k)) mod 512 =
      ((va / 4096) mod 2 ^ 36 / 512 ^ Z.of_nat k) mod 512) as H.
  { intros k Hk. change 512 with (2 ^ 9). change 4096 with (2 ^ 12).
    rewrite <- Z.pow_mul_r, !Z.pow_add_r by lia. rewrite <- Z.div_div by lia.
    apply Z.bits_inj'. intros n Hn.
    destruct (Z.lt_ge_cases n 9).
    - rewrite !Z.mod_pow2_bits_low, !Z.div_pow2_bits by lia.
      rewrite Z.mod_pow2_bits_low by lia. by rewrite Z.div_pow2_bits by lia.
    - by rewrite !Z.mod_pow2_bits_high by lia. }
  replace (Z.of_nat l - 1) with (Z.of_nat (l - 1)) by lia. apply H. lia.
Qed.

Lemma vpn_ext va va' :
  (forall l, (1 <= l)%nat -> (l <= 4)%nat -> pt_idx l va = pt_idx l va') -> vpn va = vpn va'.
Proof.
  intros H.
  pose proof (H 1%nat ltac:(lia) ltac:(lia)) as H1. pose proof (H 2%nat ltac:(lia) ltac:(lia)) as H2.
  pose proof (H 3%nat ltac:(lia) ltac:(lia)) as H3. pose proof (H 4%nat ltac:(lia) ltac:(lia)) as H4.
  rewrite !pt_idx_vpn in H1, H2, H3, H4 by lia. cbn in H1, H2, H3, H4.
  assert (0 <= vpn va < 2 ^ 36) by (apply Z.mod_pos_bound; lia).
  assert (0 <= vpn va' < 2 ^ 36) by (apply Z.mod_pos_bound; lia).
  ldivmod.
Qed.

Lemma pt_idx_ext l va va' :
  (1 <= l)%nat -> (l <= 4)%nat -> vpn va = vpn va' -> pt_idx l va = pt_idx l va'.
Proof. intros H1 H2 E. by rewrite !pt_idx_vpn, E. Qed.

Lemma leaf_table_S E l q va :
  leaf_table E (S (S l)) q va =
    let e := E q (pt_idx (S (S l)) va) in
    if pte_present e && negb (pte_large e) then leaf_table E (S l) (pte_addr e) va else None.
Proof. done. Qed.

Lemma walk_S E l q va :
  walk E (S (S l)) q va =
    let e := E q (pt_idx (S (S l)) va) in
    if negb (pte_present e) then NotPresent
    else if pte_large e then LargePage (S (S l)) e
    else walk E (S l) (pte_addr e) va.
Proof. done. Qed.

Lemma leaf_table_ext E l q va va' :
  (l <= 4)%nat -> vpn va = vpn va' -> leaf_table E l q va = leaf_table E l q va'.
Proof.
  intros Hl Hv. revert q. induction l as [|[|l] IH]; intros q; [done..|].
  rewrite !leaf_table_S, (pt_idx_ext (S (S l)) va va') by (done || lia). cbn zeta.
  by rewrite IH by lia.
Qed.

(** Pages in the same 2 MiB share their last-level table. *)
Lemma leaf_table_near E l q va va' :
  (l <= 4)%nat -> vpn va / 512 = vpn va' / 512 -> leaf_table E l q va = leaf_table E l q va'.
Proof.
  intros Hl Hv. revert q. induction l as [|[|l] IH]; intros q; [done..|].
  assert (pt_idx (S (S l)) va = pt_idx (S (S l)) va') as E2.
  { rewrite !pt_idx_vpn by lia.
    replace (Z.of_nat (S (S l)) - 1) with (1 + Z.of_nat l) by lia.
    rewrite Z.pow_add_r, Z.pow_1_r, <- !Z.div_div by lia. by rewrite Hv. }
  rewrite !leaf_table_S, E2. cbn zeta. by rewrite IH by lia.
Qed.

Section tables.
Context (E : entries) (T : gmap Z nat) (HT : page_tables E T).

(** Where a walk that comes to a last-level table ends. *)
Lemma leaf_table_level l q va p :
  T !! q = Some l -> leaf_table E l q va = Some p -> T !! p = Some 1%nat.
Proof using HT.
  revert q. induction l as [|[|l] IH]; intros q Hq; [done|by intros [= <-]|].
  rewrite leaf_table_S. cbn zeta.
  destruct (pte_present _) eqn:Hp; [|done].
  destruct (pt_child E T HT _ _ _ Hq (pt_idx_range _ _) Hp) as [-> Hc]. by apply IH.
Qed.

Lemma walk_leaf_table l q va :
  T !! q = Some l ->
  walk E l q va = match leaf_table E l q va with
                  | Some p => leaf (E p (pt_idx 1 va))
                  | None => NotPresent
                  end.
Proof using HT.
  revert q. induction l as [|[|l] IH]; intros q Hq; [done..|].
  rewrite leaf_table_S, walk_S. cbn zeta.
  destruct (pte_present _) eqn:Hp; [|done].
  destruct (pt_child E T HT _ _ _ Hq (pt_idx_range _ _) Hp) as [-> Hc].
  by rewrite IH.
Qed.

(** Walks that come to the same last-level table are walks of the same
    path. *)
Lemma leaf_table_inj l q q' va va' p :
  T !! q = Some l -> T !! q' = Some l ->
  leaf_table E l q va = Some p -> leaf_table E l q' va' = Some p ->
  q = q' /\ forall k, (2 <= k)%nat -> (k <= l)%nat -> pt_idx k va = pt_idx k va'.
Proof using HT.
  revert q q'. induction l as [|[|l] IH]; intros q q' Hq Hq'; [done| |].
  - intros [= ->] [= ->]. split; [done|lia].
  - rewrite !leaf_table_S. cbn zeta.
    destruct (pte_present (E q _)) eqn:Hp; [|done].
    destruct (pte_present (E q' _)) eqn:Hp'; [|done].
    destruct (pt_child E T HT _ _ _ Hq (pt_idx_range _ _) Hp) as [-> Hc].
    destruct (pt_child E T HT _ _ _ Hq' (pt_idx_range _ _) Hp') as [-> Hc'].
    simpl. intros H1 H2. destruct (IH _ _ Hc Hc' H1 H2) as [Ec Hk].
    destruct (pt_unique E T HT _ _ _ _ _ Hq Hq' (pt_idx_range _ _) (pt_idx_range _ _) Hp Hp' Ec)
      as [-> Ei].
    split; [done|]. intros k H3 H4.
    destruct (decide (k = S (S l))) as [->|]; [done|]. apply Hk; lia.
Qed.

(** Changing an entry of a last-level table. *)
Lemma set_leaf_tables p i v : T !! p = Some 1%nat -> page_tables (set_entry E p i v) T.
Proof using HT.
  intros Hp. assert (forall q l j, T !! q = Some (S (S l)) -> set_entry E p i v q j = E q j) as Hs.
  { intros q l j Hq. unfold set_entry. rewrite decide_False; [done|]. intros [-> ->]. congruence. }
  split.
  - intros q l j Hq. rewrite (Hs _ _ j Hq). by apply (pt_child E T HT).
  - intros q q' l j j' Hq Hq'. rewrite (Hs _ _ j Hq), (Hs _ _ j' Hq'). by apply (pt_unique E T HT q q' l).
Qed.

(** It leads to the same last-level tables. *)
Lemma set_leaf_path p i v l q va :
  T !! p = Some 1%nat -> T !! q = Some l ->
  leaf_table (set_entry E p i v) l q va = leaf_table E l q va.
Proof using HT.
  intros Hp. revert q. induction l as [|[|l] IH]; intros q Hq; [done..|].
  rewrite !leaf_table_S. cbn zeta.
  assert (forall j, set_entry E p i v q j = E q j) as ->
    by (intros j; unfold set_entry; rewrite decide_False by (intros [-> _]; congruence); done).
  destruct (pte_present _) eqn:Hpr; [|done].
  destruct (pt_child E T HT _ _ _ Hq (pt_idx_range _ _) Hpr) as [-> Hc]. by apply IH.
Qed.

Lemma set_leaf_walk_eq p i v l q va :
  T !! p = Some 1%nat -> T !! q = Some l ->
  walk (set_entry E p i v) l q va =
    match leaf_table E l q va with
    | Some p' => leaf (set_entry E p i v p' (pt_idx 1 va))
    | None => NotPresent
    end.
Proof using HT.
  intros Hp. revert q. induction l as [|[|l] IH]; intros q Hq; [done..|].
  rewrite leaf_table_S, walk_S. cbn zeta.
  assert (forall j, set_entry E p i v q j = E q j) as ->
    by (intros j; unfold set_entry; rewrite decide_False by (intros [-> _]; congruence); done).
  destruct (pte_present _) eqn:Hpr; [|done].
  destruct (pt_child E T HT _ _ _ Hq (pt_idx_range _ _) Hpr) as [-> Hc]. by apply IH.
Qed.

Lemma set_leaf_walk p v root va va' :
  T !! root = Some 4%nat -> leaf_table E 4 root va = Some p ->
  walk (set_entry E p (pt_idx 1 va) v) 4 root va' =
    if decide (vpn va' = vpn va) then leaf v else walk E 4 root va'.
Proof using HT.
  intros Hr Hlt. pose proof (leaf_table_level _ _ _ _ Hr Hlt) as Hp.
  case_decide as Hv.
  - assert (leaf_table E 4 root va' = Some p) as Hlt'
      by (by rewrite (leaf_table_ext E 4 root va' va)).
    rewrite (set_leaf_walk_eq p (pt_idx 1 va) v 4 root va') by done.
    rewrite Hlt'. unfold set_entry. rewrite decide_True; [done|].
    split; [done|]. apply pt_idx_ext; [lia|lia|done].
  - rewrite (set_leaf_walk_eq p (pt_idx 1 va) v 4 root va'), walk_leaf_table by done.
    destruct (leaf_table E 4 root va') as [p'|] eqn:Hlt'; [|done].
    unfold set_entry. rewrite decide_False; [done|]. intros [-> Hi]. apply Hv.
    destruct (leaf_table_inj _ _ _ _ _ _ Hr Hr Hlt' Hlt) as [_ Hk].
    apply vpn_ext. intros k H1 H2. destruct (decide (k = 1%nat)) as [->|]; [done|].
    apply Hk; lia.
Qed.
End tables.

(** ** Growing a tree *)

(** New tables, with every translation as it was. *)
Record tables_grow (E : entries) (T : gmap Z nat) (E' : entries) (T' : gmap Z nat) : Prop := {
  tg_sub : T ⊆ T';
  tg_keep : forall q l j, T !! q = Some (S (S l)) -> 0 <= j < 512 ->
    pte_present (E q j) = true -> E' q j = E q j;
  tg_walk : forall q l va, T !! q = Some l -> walk E' l q va = walk E l q va;
}.

Lemma tables_grow_refl E T : tables_grow E T E T.
Proof. by split. Qed.

Lemma tables_grow_trans E T E' T' E'' T'' :
  tables_grow E T E' T' -> tables_grow E' T' E'' T'' -> tables_grow E T E'' T''.
Proof.
  intros [Hs Hk Hw] [Hs' Hk' Hw']. split.
  - by etrans.
  - intros q l j Hq Hj Hp. rewrite (Hk' q l j).
    + by apply (Hk q l j).
    + by eapply lookup_weaken.
    + done.
    + by rewrite (Hk q l j Hq Hj Hp).
  - intros q l va Hq. rewrite (Hw' q l va); [by apply Hw|by eapply lookup_weaken].
Qed.

Section link.
Context (E E' : entries) (T : gmap Z nat) (HT : page_tables E T).
Context (q i v new : Z) (l : nat).
Context (Hq : T !! q = Some (S (S l))) (Hi : 0 <= i < 512).
Context (Habs : pte_present (E q i) = false).
Context (Hnew : T !! new = None).
Context (Hv : pte_present v = true) (Hvl : pte_large v = false) (Hva : pte_addr v = new).
Context (Hz : forall j, 0 <= j < 512 -> E' new j = 0).
Context (Hset : E' q i = v).
Context (Hsame : forall q' j, is_Some (T !! q') -> 0 <= j < 512 -> (q' = q -> j <> i) ->
  E' q' j = E q' j).

Lemma link_entry q' j :
  is_Some (T !! q') -> 0 <= j < 512 ->
  E' q' j = if decide (q' = q /\ j = i) then v else E q' j.
Proof using All.
  intros Hq' Hj. case_decide as H; [destruct H; by subst|].
  apply Hsame; [done|done|]. intros -> ->. auto.
Qed.

(** A present entry of the new tree is the link or an old one. *)
Lemma link_present q' k j :
  <[new := S l]> T !! q' = Some (S (S k)) -> 0 <= j < 512 -> pte_present (E' q' j) = true ->
  T !! q' = Some (S (S k)) /\
  ((q' = q /\ j = i /\ k = l /\ E' q' j = v) \/
   (E' q' j = E q' j /\ pte_present (E q' j) = true)).
Proof using All.
  intros Hq' Hj Hp. destruct (decide (q' = new)) as [->|Hne].
  { by rewrite Hz in Hp. }
  rewrite lookup_insert_ne in Hq' by done. split; [done|].
  rewrite link_entry in Hp |- * by (done || by eexists). case_decide as H; [|by right].
  destruct H as [-> ->]. left. split_and!; try done. congruence.
Qed.

Lemma link_tables : page_tables E' (<[new := S l]> T).
Proof using All.
  split.
  - intros q' k j Hq' Hj Hp.
    destruct (link_present _ _ _ Hq' Hj Hp) as [Hq'' [(-> & -> & -> & ->)|[-> Hp']]].
    + rewrite Hva. by rewrite lookup_insert_eq.
    + destruct (pt_child E T HT _ _ _ Hq'' Hj Hp') as [? Hc]. split; [done|].
      rewrite lookup_insert_ne; [done|]. intros Ec. rewrite <- Ec in Hc. congruence.
  - intros q1 q2 k j1 j2 Hq1 Hq2 Hj1 Hj2 Hp1 Hp2.
    destruct (link_present _ _ _ Hq1 Hj1 Hp1) as [H1 [(-> & -> & -> & ->)|[-> Hp1']]];
    destruct (link_present _ _ _ Hq2 Hj2 Hp2) as [H2 [(-> & -> & Ek & ->)|[-> Hp2']]]; try done.
    + rewrite Hva. intros Ec. destruct (pt_child E T HT _ _ _ H2 Hj2 Hp2') as [_ Hc].
      rewrite <- Ec in Hc. congruence.
    + rewrite Hva. intros Ec. destruct (pt_child E T HT _ _ _ H1 Hj1 Hp1') as [_ Hc].
      rewrite Ec in Hc. congruence.
    + by apply (pt_unique E T HT _ _ _ _ _ H1 H2).
Qed.

Lemma walk_zeros k va : (1 <= k)%nat -> walk E' k new va = NotPresent.
Proof using Hz.
  intros Hk. destruct k as [|[|k]]; [lia| |].
  - simpl. by rewrite Hz.
  - rewrite walk_S. cbn zeta. by rewrite Hz.
Qed.

Lemma link_grow : tables_grow E T E' (<[new := S l]> T).
Proof using All.
  split.
  - by apply insert_subseteq.
  - intros q' k j Hq' Hj Hp. rewrite link_entry by (done || by eexists).
    case_decide as H; [destruct H as [-> ->]; congruence|done].
  - intros q' k va. revert q'. induction k as [|[|k] IH]; intros q' Hq'; [done| |].
    + simpl. rewrite link_entry by (auto || by eexists).
      case_decide as H; [destruct H as [-> _]; congruence|done].
    + rewrite !walk_S. cbn zeta. rewrite link_entry by (auto || by eexists).
      case_decide as H.
      * destruct H as [-> H]. rewrite H, Habs, Hv, Hvl, Hva. cbn [negb].
        apply walk_zeros. lia.
      * destruct (pte_present (E q' _)) eqn:Hp; [|reflexivity].
        destruct (pt_child E T HT _ _ _ Hq' (pt_idx_range _ _) Hp) as [-> Hc].
        simpl. by apply IH.
Qed.
End link.

(** Trees that agree on the entries of their tables. *)
Section ext.
Context (E E' : entries) (T : gmap Z nat) (HT : page_tables E T).
Context (Heq : forall q i, is_Some (T !! q) -> 0 <= i < 512 -> E' q i = E q i).

Lemma page_tables_ext : page_tables E' T.
Proof using All.
  split.
  - intros q l i Hq Hi. rewrite Heq by (done || by eexists). by apply (pt_child E T HT).
  - intros q q' l i i' Hq Hq' Hi Hi'. rewrite !Heq by (done || by eexists).
    by apply (pt_unique E T HT q q' l).
Qed.

Lemma walk_ext l q va : T !! q = Some l -> walk E' l q va = walk E l q va.
Proof using All.
  revert q. induction l as [|[|l] IH]; intros q Hq; [done| |].
  - simpl. by rewrite Heq by (auto || by eexists).
  - rewrite !walk_S. cbn zeta. rewrite Heq by (auto || by eexists).
    destruct (pte_present (E q _)) eqn:Hp; [|done].
    destruct (pt_child E T HT _ _ _ Hq (pt_idx_range _ _) Hp) as [-> Hc].
    simpl. by apply IH.
Qed.

Lemma leaf_table_ext_tables l q va :
  T !! q = Some l -> leaf_table E' l q va = leaf_table E l q va.
Proof using All.
  revert q. induction l as [|[|l] IH]; intros q Hq; [done..|].
  rewrite !leaf_table_S. cbn zeta. rewrite Heq by (auto || by eexists).
  destruct (pte_present (E q _)) eqn:Hp; [|done].
  destruct (pt_child E T HT _ _ _ Hq (pt_idx_range _ _) Hp) as [-> Hc].
  simpl. by apply IH.
Qed.
End ext.
