(* ===== verification/Vmm.v ===== *)
(** kern/mm/vmm.c: the virtual memory manager, four levels of page tables built
    in blocks of the physical memory manager.  The file is written against the
    interface of Allocator.v: the section's two operations are the allocator's,
    and Kern.v runs it with those of Pmm.v. *)

From S2P Require Import Prelude Limine Types Machine Memory Sample CString Video Printf Log.
From S2P Require Import Allocator Macros PageTable Pmm.

(** ** Code *)

Definition PAGE_SIZE : Z := 4096.

(** vmm.h *)
Definition PTE_BIT_PRESENT : Z := Z.shiftl 1 0.
Definition PTE_BIT_READ_WRITE : Z := Z.shiftl 1 1.
Definition PTE_BIT_ACCESS_ALL : Z := Z.shiftl 1 2.
Definition PTE_BIT_WRITE_THROUGH_CACHING : Z := Z.shiftl 1 3.
Definition PTE_BIT_DISABLE_CACHING : Z := Z.shiftl 1 4.
Definition PTE_BIT_PDE_OR_PTE_ACCESSED : Z := Z.shiftl 1 5.
Definition PTE_BIT_DIRTY : Z := Z.shiftl 1 6.
Definition PTE_BIT_PAT_SUPPORTED : Z := Z.shiftl 1 7.
Definition PTE_BIT_GLOBAL : Z := Z.shiftl 1 8.
Definition PTE_BIT_EXECUTE_DISABLE : Z := Z.shiftl 1 63.

Definition vmm_get {A} (f : vmm_globals -> A) : M A := gets (fun s => f (k_vmm s)).
Definition vmm_set (f : vmm_globals -> vmm_globals) : M unit :=
  modify (fun s => set_vmm (f (k_vmm s)) s).

(** A page map is the address of its root table. *)
Definition vmm_set_ctx (pml4addr : Z) : M unit :=
  off ← vmm_get hhdmoffset;
  asm (MovCr3 (pml4addr ⊖ off)).

Section code.
Context (pmm_alloc_block : M Z) (pmm_free_block : Z -> M unit).

Definition get_lower_table (page_map_ptr indx : Z) : M Z :=
  off ← vmm_get hhdmoffset;
  e ← load64 (page_map_ptr ⊕ 8 ⊗ indx);
  if negb (Z.land e PTE_BIT_PRESENT =? 0) then
    e ← load64 (page_map_ptr ⊕ 8 ⊗ indx);
    mret (Z.land e 0x000ffffffffff000 ⊕ off)
  else
    new_page ← pmm_alloc_block;
    (if new_page =? 0 then log_panic "PMM failed to allocate block for the vmm"
     else mret tt) ;;
    memset (new_page ⊕ off) 0 PAGE_SIZE ;;
    store64 (page_map_ptr ⊕ 8 ⊗ indx)
      (Z.lor (Z.lor (Z.lor new_page PTE_BIT_PRESENT) PTE_BIT_READ_WRITE) PTE_BIT_ACCESS_ALL) ;;
    mret (new_page ⊕ off).

Definition get_pt (page_map virtual_addr : Z) : M Z :=
  let pmd_index := Z.land (Z.shiftr virtual_addr 21) 0x1ff in
  let pud_index := Z.land (Z.shiftr virtual_addr 30) 0x1ff in
  let pgd_index := Z.land (Z.shiftr virtual_addr 39) 0x1ff in
  pgd ← get_lower_table page_map pgd_index;
  if pgd =? 0 then mret 0 else
  pud ← get_lower_table pgd pud_index;
  if pud =? 0 then mret 0 else
  pt ← get_lower_table pud pmd_index;
  if pt =? 0 then mret 0 else mret pt.

Definition vmm_map_page (pml4addr virtual_addr physical_addr flags : Z) : M unit :=
  let pt_index := Z.land (Z.shiftr virtual_addr 12) 0x1ff in
  pt ← get_pt pml4addr virtual_addr;
  (if pt =? 0 then log_panic "Page table not recieved" else mret tt) ;;
  store64 (pt ⊕ 8 ⊗ pt_index) (Z.lor physical_addr flags) ;;
  asm ReloadCr3.

Definition vmm_free_page (pml4addr virtual_addr : Z) : M unit :=
  let pt_index := u16 (Z.land (Z.shiftr virtual_addr 12) 0x1ff) in
  pt ← get_pt pml4addr virtual_addr;
  e ← load64 (pt ⊕ 8 ⊗ pt_index);
  pmm_free_block (Z.land e 0x000ffffffffff000) ;;
  store64 (pt ⊕ 8 ⊗ pt_index) 0 ;;
  asm ReloadCr3.

(** for (a = lo; a < hi; a += PAGE_SIZE)
    vmm_map_page(&kernel_page_map, va(a), pa(a), flags) *)
Definition map_loop (lo hi : Z) (va pa : Z -> Z) (flags : Z) : M unit :=
  for_ lo hi PAGE_SIZE (fun a =>
    pml4 ← vmm_get kernel_page_map;
    vmm_map_page pml4 (va a) (pa a) flags).

(** The kernel's own pages, at their link addresses. *)
Definition map_kernel (ka : limine_kernel_address_response) (start stop flags : Z) : M unit :=
  map_loop start stop (fun a => a)
    (fun a => a ⊖ kr_virtual_base ka ⊕ kr_physical_base ka) flags.

(** The pages of one entry of the memory map, in the direct map: one test per
    type, one after the other. *)
Definition map_entry (off : Z) (e : limine_memmap_entry) : M unit :=
  let map flags :=
    map_loop 0 (me_length e) (fun j => me_base e ⊕ j ⊕ off) (fun j => me_base e ⊕ j) flags in
  let on ty flags := if me_type e =? ty then map flags else mret tt in
  on LIMINE_MEMMAP_USABLE (Z.lor PTE_BIT_PRESENT PTE_BIT_READ_WRITE) ;;
  on LIMINE_MEMMAP_FRAMEBUFFER
    (Z.lor (Z.lor PTE_BIT_PRESENT PTE_BIT_READ_WRITE) PTE_BIT_EXECUTE_DISABLE) ;;
  on LIMINE_MEMMAP_BOOTLOADER_RECLAIMABLE (Z.lor PTE_BIT_PRESENT PTE_BIT_READ_WRITE) ;;
  on LIMINE_MEMMAP_ACPI_RECLAIMABLE (Z.lor PTE_BIT_PRESENT PTE_BIT_READ_WRITE).

(** The requests' answers and the root table. *)
Definition vmm_init_root : M limine_kernel_address_response :=
  hhdm ← gets (fun s => hhdm_request_response (k_boot s));
  hhdm ← deref hhdm;
  vmm_set (fun g => VmmGlobals (kernel_page_map g) (hr_offset hhdm) (kernel_pml4addr g)) ;;
  (if hr_offset hhdm =? 0 then log_panic "HHDM offset not recieved" else mret tt) ;;
  ka ← gets (fun s => kernel_addr_request_response (k_boot s));
  ka ← match ka with
       | None => log_panic "Kernel address not recieved"
       | Some ka => mret ka
       end;
  p ← pmm_alloc_block;
  vmm_set (fun g => VmmGlobals p (hhdmoffset g) (kernel_pml4addr g)) ;;
  (if p =? 0 then log_panic "Allocating block for page map failed" else mret tt) ;;
  vmm_set (fun g => VmmGlobals (kernel_page_map g ⊕ hhdmoffset g) (hhdmoffset g)
                      (kernel_pml4addr g)) ;;
  vmm_set (fun g => VmmGlobals (kernel_page_map g) (hhdmoffset g)
                      (kernel_page_map g ⊖ 8 ⊗ hhdmoffset g)) ;;
  g ← gets k_vmm;
  printf "vmm: address of page table: 0x{xn}" [VInt (kernel_page_map g ⊖ hhdmoffset g)] ;;
  memset (kernel_page_map g) 0 PAGE_SIZE ;;
  mret ka.

(** The mappings, one loop after the other. *)
Definition vmm_init_map (ka : limine_kernel_address_response) : M unit :=
  lk ← gets k_link;
  let text_start := ALIGN_DOWN (text_start_addr lk) PAGE_SIZE in
  let rodata_start := ALIGN_DOWN (rodata_start_addr lk) PAGE_SIZE in
  let data_start := ALIGN_DOWN (data_start_addr lk) PAGE_SIZE in
  let text_end := ALIGN_UP (text_end_addr lk) PAGE_SIZE in
  let rodata_end := ALIGN_UP (rodata_end_addr lk) PAGE_SIZE in
  let data_end := ALIGN_UP (data_end_addr lk) PAGE_SIZE in
  off ← vmm_get hhdmoffset;
  pmm ← gets k_pmm;
  map_loop 0 (pmm_block_count pmm / 8) (fun i => pmm_usable_addr pmm ⊕ off ⊕ i)
    (fun i => pmm_usable_addr pmm ⊕ i) (Z.lor PTE_BIT_PRESENT PTE_BIT_READ_WRITE) ;;
  mm ← deref (memmap pmm);
  for_ 0 (mr_entry_count mm) 1 (fun i =>
    e ← index (mr_entries mm) i;
    map_entry off e) ;;
  map_kernel ka text_start text_end PTE_BIT_PRESENT ;;
  map_kernel ka rodata_start rodata_end (Z.lor PTE_BIT_PRESENT PTE_BIT_EXECUTE_DISABLE) ;;
  map_kernel ka data_start data_end
    (Z.lor (Z.lor PTE_BIT_PRESENT PTE_BIT_READ_WRITE) PTE_BIT_EXECUTE_DISABLE) ;;
  map_loop 0x1000 0x100000000 (fun a => a) (fun a => a)
    (Z.lor (Z.lor PTE_BIT_PRESENT PTE_BIT_READ_WRITE) PTE_BIT_EXECUTE_DISABLE) ;;
  lapic ← gets (fun s => lapic_addr (k_apic s));
  pml4 ← vmm_get kernel_page_map;
  vmm_map_page pml4 (ALIGN_DOWN (lapic ⊕ off) PAGE_SIZE) (ALIGN_DOWN lapic PAGE_SIZE)
    (Z.lor PTE_BIT_PRESENT PTE_BIT_READ_WRITE).

Definition vmm_init : M unit :=
  ka ← vmm_init_root;
  vmm_init_map ka ;;
  pml4 ← vmm_get kernel_page_map;
  vmm_set_ctx pml4 ;;
  asm ReloadCr3.
End code.

(** ** Tables in RAM *)

Definition entry_of (r : gmap Z byte) : entries := fun q i => ram_u64 r (q + 8 * i).

(** The memory manager's invariant: [U] are the blocks it holds, [n] blocks are
    left to allocate, [T] are the tables of the tree under [root]. *)
Record vmm_inv `{BlockAllocator alloc free} (s : kstate) (U : gset Z) (n : nat)
    (T : gmap Z nat) (root : Z) : Prop := {
  vi_alloc : ba_inv s U n;
  vi_hhdm : hhdmoffset (k_vmm s) = hw_direct_map (k_hw s);
  vi_low : 0x100000000 <= hw_direct_map (k_hw s);
  vi_high : hw_direct_map (k_hw s) + hw_ram_size (k_hw s) <= 2 ^ 64;
  vi_tables : page_tables (entry_of (k_ram s)) T;
  vi_held : forall q, is_Some (T !! q) -> q ∈ U;
  vi_root : T !! root = Some 4%nat;
}.

(** The translation of an address under a root table in RAM. *)
Definition translate (s : kstate) (root va : Z) : translation :=
  walk (entry_of (k_ram s)) 4 root va.

(** ** Lemmas *)

Lemma pte_present_test e : negb (Z.land e PTE_BIT_PRESENT =? 0) = pte_present e.
Proof.
  change PTE_BIT_PRESENT with (2 ^ 0). rewrite land_pow2_eqb by lia. apply negb_involutive.
Qed.

(** An entry that links to a table: its address and the three low bits. *)
Definition link_entry_of (p : Z) : Z :=
  Z.lor (Z.lor (Z.lor p PTE_BIT_PRESENT) PTE_BIT_READ_WRITE) PTE_BIT_ACCESS_ALL.

Lemma link_entry_bits p : (4096 | p) -> 0 <= p < 2 ^ 43 ->
  0 <= link_entry_of p < 2 ^ 64 /\ pte_present (link_entry_of p) = true /\
  pte_large (link_entry_of p) = false /\ pte_addr (link_entry_of p) = p.
Proof.
  intros [k Hk] Hp.
  assert (forall n, 0 <= n < 12 -> Z.testbit p n = false) as Hlow.
  { intros n Hn. rewrite Hk. change 4096 with (2 ^ 12). rewrite Z.mul_pow2_bits by lia.
    apply Z.testbit_neg_r. lia. }
  assert (forall n, 43 <= n -> Z.testbit p n = false) as Hhigh.
  { intros n Hn. rewrite <- (Z.mod_small p (2 ^ 43)) by lia. by apply Z.mod_pow2_bits_high. }
  assert (link_entry_of p = Z.lor p 7) as ->.
  { unfold link_entry_of. by rewrite <- !Z.lor_assoc. }
  assert (Z.lor p 7 = p + 7) as E.
  { rewrite Z.add_nocarry_lxor, Z.lxor_lor; [done| |].
    all: apply Z.bits_inj'; intros n Hn; rewrite Z.land_spec, Z.bits_0;
      destruct (Z.lt_ge_cases n 12); [by rewrite Hlow by lia|];
      change 7 with (Z.ones 3); rewrite (Z.ones_spec_high 3) by lia; apply andb_false_r. }
  split; [lia|]. unfold pte_present, pte_large, pte_addr, PTE_ADDR_MASK.
  rewrite !Z.lor_spec, (Hlow 7) by lia. split; [apply orb_true_r|]. split; [done|].
  apply Z.bits_inj'. intros n Hn. rewrite Z.land_spec, Z.lor_spec.
  change 4503599627366400 with (Z.shiftl (Z.ones 40) 12). rewrite Z.shiftl_spec by lia.
  change 7 with (Z.ones 3).
  destruct (Z.lt_ge_cases n 12); [|destruct (Z.lt_ge_cases n 43)].
  - by rewrite (Z.testbit_neg_r _ (n - 12)), andb_false_r, Hlow by lia.
  - rewrite (Z.ones_spec_low 40), andb_true_r by lia.
    by rewrite (Z.ones_spec_high 3), orb_false_r by lia.
  - rewrite (Hhigh n), (Z.ones_spec_high 3) by lia. done.
Qed.

(** The code's table indices. *)
Lemma pt_index_land va k l :
  k = 12 + 9 * (Z.of_nat l - 1) -> (1 <= l)%nat -> Z.land (Z.shiftr va k) 0x1ff = pt_idx l va.
Proof.
  intros -> Hl. unfold pt_idx. rewrite Z.shiftr_div_pow2 by lia.
  change 0x1ff with (Z.ones 9). by rewrite Z.land_ones by lia.
Qed.

Section proofs.
Context {alloc : M Z} {free : Z -> M unit} {BA : BlockAllocator alloc free}.

Section state.
Context (s : kstate) (U : gset Z) (n : nat) (T : gmap Z nat) (root : Z).
Context (Hinv : vmm_inv s U n T root).

Lemma vmm_table_wf q : is_Some (T !! q) -> block_wf s q.
Proof using Hinv. intros Hq. eapply ba_wf; [apply Hinv|by apply Hinv]. Qed.

Lemma vmm_table_addr q :
  block_wf s q -> q ⊕ hhdmoffset (k_vmm s) = q + hw_direct_map (k_hw s) /\
    0 < q + hw_direct_map (k_hw s).
Proof using Hinv.
  intros (_ & H1 & H2 & _). rewrite (vi_hhdm s U n T root Hinv).
  pose proof (vi_low s U n T root Hinv). pose proof (vi_high s U n T root Hinv).
  rewrite u64_small; lia.
Qed.

(** A block is mapped at its address in the direct map. *)
Lemma vmm_block_mapped q s' :
  k_hw s' = k_hw s -> block_wf s q -> mapped s' (q ⊕ hhdmoffset (k_vmm s)) 4096 q.
Proof using Hinv.
  intros Hhw Hq. destruct (vmm_table_addr q Hq) as [-> _]. destruct Hq as (_ & H1 & H2 & _).
  apply (mapped_hw s); [done|].
  apply mapped_direct; [apply Hinv|apply Hinv|lia|lia].
Qed.

Lemma vmm_entry_mapped q i s' :
  k_hw s' = k_hw s -> block_wf s q -> 0 <= i < 512 ->
  mapped s' (q ⊕ hhdmoffset (k_vmm s) ⊕ 8 ⊗ i) 8 (q + 8 * i).
Proof using Hinv.
  intros Hhw Hq Hi. pose proof (vmm_block_mapped q s' Hhw Hq) as Hm.
  pose proof (resolve_range _ _ _ (Hm (8 * i) ltac:(lia))) as Hr.
  pose proof (vmm_table_addr q Hq) as [_ Hpos].
  pose proof (u64_range (q + hhdmoffset (k_vmm s))).
  rewrite (u64_small (8 * i)) by lia.
  rewrite (u64_small (_ + 8 * i)).
  - by apply (mapped_sub s' _ 4096); [|lia|lia].
  - destruct (vmm_table_addr q Hq) as [E _]. rewrite E in *.
    destruct Hq as (_ & H1 & H2 & _). pose proof (vi_high s U n T root Hinv). lia.
Qed.

Lemma wp_load_entry q i (Q : Z -> kstate -> Prop) H :
  block_wf s q -> 0 <= i < 512 -> Q (entry_of (k_ram s) q i) s ->
  wp (load64 (q ⊕ hhdmoffset (k_vmm s) ⊕ 8 ⊗ i)) Q H s.
Proof using Hinv. intros Hq Hi. by apply wp_load64, vmm_entry_mapped. Qed.

(** Tables share no bytes. *)
Lemma entry_disjoint q q' i j :
  block_wf s q -> block_wf s q' -> 0 <= i < 512 -> 0 <= j < 512 -> ~ (q' = q /\ j = i) ->
  q' + 8 * j + 8 <= q + 8 * i \/ q + 8 * i + 8 <= q' + 8 * j.
Proof using Type.
  intros ([k Hk] & _) ([k' Hk'] & _) Hi Hj Hne.
  destruct (decide (q' = q)); [|nia]. destruct (decide (j = i)); [tauto|lia].
Qed.

Lemma entry_of_write r q i v q' j :
  block_wf s q -> block_wf s q' -> 0 <= i < 512 -> 0 <= j < 512 -> 0 <= v < 2 ^ 64 ->
  entry_of (ram_write (q + 8 * i) (le_bytes 8 v) r) q' j =
    set_entry (entry_of r) q i v q' j.
Proof using Type.
  intros Hq Hq' Hi Hj Hv. unfold entry_of, set_entry. case_decide as H.
  - destruct H as [-> ->]. by apply ram_u64_write_same.
  - apply ram_u64_write_out. by apply entry_disjoint.
Qed.
End state.

(** RAM after a new table was zeroed, and after an entry was written. *)
Definition ram_fill (p n c : Z) (r : gmap Z byte) : gmap Z byte :=
  ram_write p (replicate (Z.to_nat n) (to_byte c)) r.

Definition write_entry (q i v : Z) (r : gmap Z byte) : gmap Z byte :=
  ram_write (q + 8 * i) (le_bytes 8 v) r.

Lemma ram_get_fill p n c r a : 0 <= n ->
  ram_get (ram_fill p n c r) a = if decide (p <= a < p + n) then to_byte c else ram_get r a.
Proof using Type.
  intros Hn. unfold ram_fill. rewrite ram_get_write, length_replicate, Z2Nat.id by lia.
  case_decide; [|done]. by rewrite lookup_replicate_2 by lia.
Qed.

Lemma wp_memset s va c n p (Q : Z -> kstate -> Prop) H :
  mapped s va n p -> 0 <= va -> 0 <= n < 2 ^ 64 ->
  Q va (set_ram (ram_fill p n c (k_ram s)) s) -> wp (memset va c n) Q H s.
Proof using Type. intros Hm Hva Hn. eapply wp_done. by apply memset_done. Qed.

(** Reading entries through a write of zeros, and through a change of RAM
    outside the tables. *)
Lemma entry_of_zeros r p j :
  0 <= j < 512 -> entry_of (ram_fill p PAGE_SIZE 0 r) p j = 0.
Proof using Type.
  intros Hj. apply ram_u64_zero. intros i Hi.
  by rewrite ram_get_fill, decide_True by (unfold PAGE_SIZE; lia).
Qed.

Lemma entry_of_ext r r' q j :
  (forall a, in_block q a -> ram_get r' a = ram_get r a) -> 0 <= j < 512 ->
  entry_of r' q j = entry_of r q j.
Proof using Type.
  intros H Hj. apply ram_u64_ext. intros i Hi. apply H. unfold in_block. lia.
Qed.

Lemma block_wf_disjoint s p q a :
  block_wf s p -> block_wf s q -> p <> q -> in_block q a -> a < p \/ p + 4096 <= a.
Proof using Type.
  intros [Hp _] [Hq _] Hne Ha. destruct (Z.lt_ge_cases a p); [by left|].
  destruct (Z.lt_ge_cases a (p + 4096)); [|by right].
  exfalso. apply Hne. by apply (blocks_disjoint p q a).
Qed.

(** The state after a new table was linked. *)
Section fresh.
Context (s : kstate) (U : gset Z) (n : nat) (T : gmap Z nat) (root : Z).
Context (Hinv : vmm_inv s U n T root).
Context (q i p : Z) (l n' : nat) (r' : gmap Z byte).
Context (Hq : T !! q = Some (S (S l))) (Hi : 0 <= i < 512).
Context (Habs : pte_present (entry_of (k_ram s) q i) = false).
Context (Hin : same_inside U (k_ram s) r') (Hp : ~ (p ∈ U)).
Context (Hba : ba_inv (set_ram r' s) ({[p]} ∪ U) n').

Abbreviation r0 := (ram_fill p PAGE_SIZE 0 r').
Abbreviation r2 := (write_entry q i (link_entry_of p) (ram_fill p PAGE_SIZE 0 r')).

Lemma fresh_wf : block_wf s p.
Proof using Hba. apply (ba_wf _ _ _ p Hba). set_solver +. Qed.

Lemma fresh_table_old q' : is_Some (T !! q') -> block_wf s q' /\ q' <> p.
Proof using Hinv Hp.
  intros Hq'. split; [by eapply vmm_table_wf|]. intros ->. by apply Hp, Hinv.
Qed.

Lemma fresh_entry q' j : is_Some (T !! q') -> 0 <= j < 512 ->
  entry_of r0 q' j = entry_of (k_ram s) q' j.
Proof using Hinv Hin Hp Hba.
  intros Hq' Hj. destruct (fresh_table_old q' Hq') as [Hwf Hne]. apply entry_of_ext; [|done].
  intros a Ha. unfold PAGE_SIZE. rewrite ram_get_fill, decide_False; [| |done].
  - apply (Hin q'); [by apply Hinv|done].
  - destruct (block_wf_disjoint s p q' a fresh_wf Hwf ltac:(congruence) Ha); lia.
Qed.

Lemma fresh_link : page_tables (entry_of r2) (<[p := S l]> T) /\
  tables_grow (entry_of (k_ram s)) T (entry_of r2) (<[p := S l]> T) /\
  entry_of r2 q i = link_entry_of p.
Proof using Hinv Hin Hp Hba Hq Hi Habs.
  pose proof fresh_wf as Hwf. pose proof Hwf as (Hal & Hp0 & Hpr & Hpb).
  destruct (fresh_table_old q ltac:(by eexists)) as [Hqw Hqp].
  destruct (link_entry_bits p Hal ltac:(lia)) as (Hlr & Hlp & Hll & Hla).
  assert (forall q' j, block_wf s q' -> 0 <= j < 512 ->
    entry_of r2 q' j = set_entry (entry_of r0) q i (link_entry_of p) q' j) as Hw
    by (intros; by apply (entry_of_write s)).
  assert (entry_of r2 q i = link_entry_of p) as Hset.
  { rewrite Hw by done. unfold set_entry. apply decide_True. done. }
  assert (forall j, 0 <= j < 512 -> entry_of r2 p j = 0) as Hz.
  { intros j Hj. rewrite Hw by done. unfold set_entry. rewrite decide_False by (intros [E _]; congruence).
    by apply entry_of_zeros. }
  assert (forall q' j, is_Some (T !! q') -> 0 <= j < 512 -> (q' = q -> j <> i) ->
    entry_of r2 q' j = entry_of (k_ram s) q' j) as Hsame.
  { intros q' j Hq' Hj Hne. rewrite (Hw _ _ (proj1 (fresh_table_old _ Hq')) Hj).
    unfold set_entry. rewrite decide_False by (intros [-> ->]; by apply Hne).
    by apply fresh_entry. }
  assert (T !! p = None) as Hnew.
  { apply eq_None_not_Some. intros Hs. by apply Hp, Hinv. }
  split; [|split; [|done]].
  - by apply (link_tables (entry_of (k_ram s)) _ T (vi_tables _ _ _ _ _ Hinv) q i
      (link_entry_of p)).
  - by apply (link_grow (entry_of (k_ram s)) _ T (vi_tables _ _ _ _ _ Hinv) q i
      (link_entry_of p)).
Qed.

Lemma fresh_inv : vmm_inv (set_ram r2 s) ({[p]} ∪ U) n' (<[p := S l]> T) root.
Proof using Hinv Hin Hp Hba Hq Hi Habs.
  destruct (fresh_table_old q ltac:(by eexists)) as [Hqw Hqp].
  split; try apply Hinv.
  - apply (ba_frame (set_ram r' s)); [done..|]. intros a Ha. cbn. unfold write_entry.
    assert (~ in_block q a) as Hnq.
    { apply Ha, elem_of_union_r, Hinv. by eexists. }
    assert (~ in_block p a) as Hnp by (apply Ha; set_solver +).
    unfold in_block in *. pose proof (length_le_bytes 8 (link_entry_of p)).
    rewrite ram_get_write_out by lia. unfold PAGE_SIZE.
    by rewrite ram_get_fill, decide_False by lia.
  - apply fresh_link.
  - intros q' [k Hq']. destruct (decide (q' = p)) as [->|]; [set_solver +|].
    rewrite lookup_insert_ne in Hq' by done. apply elem_of_union_r, Hinv. by eexists.
  - rewrite lookup_insert_ne; [apply Hinv|]. intros ->.
    apply Hp, Hinv. eexists. apply Hinv.
Qed.
End fresh.

Lemma wp_store_entry s va q i v (Q : unit -> kstate -> Prop) H :
  mapped s va 8 (q + 8 * i) -> Q tt (set_ram (write_entry q i v (k_ram s)) s) ->
  wp (store64 va v) Q H s.
Proof using Type. intros Hm HQ. by apply (wp_store64 s va v (q + 8 * i)). Qed.

(** The processor halted because no block was left, from a state that differs
    from [s] in RAM only. *)
Definition out_of_blocks (s s' : kstate) : Prop :=
  exists r', s' = emits (log_line ANSI_COLOR_RED "kern_panic: "
    "PMM failed to allocate block for the vmm" ++ [EvAsm Cli; EvAsm Hlt]) (set_ram r' s).

(** What a walk that may add tables does: RAM changes, at most [k] blocks are
    taken, the tree grows. *)
Record grows (k : nat) (s : kstate) (U : gset Z) (n : nat) (T : gmap Z nat) (root : Z)
    (s' : kstate) (U' : gset Z) (n' : nat) (T' : gmap Z nat) : Prop := {
  gr_ram : exists r', s' = set_ram r' s;
  gr_inv : vmm_inv s' U' n' T' root;
  gr_count : (n <= n' + k)%nat;
  gr_held : U ⊆ U';
  gr_new : forall q, q ∈ U -> T !! q = None -> T' !! q = None;
  gr_grow : tables_grow (entry_of (k_ram s)) T (entry_of (k_ram s')) T';
}.

Lemma grows_trans k k' s U n T root s' U' n' T' s'' U'' n'' T'' :
  grows k s U n T root s' U' n' T' -> grows k' s' U' n' T' root s'' U'' n'' T'' ->
  grows (k + k') s U n T root s'' U'' n'' T''.
Proof using Type.
  intros [[r1 ->] H1 H2 H3 H5 H4] [[r2 ->] H1' H2' H3' H5' H4']. split.
  - by exists r2.
  - done.
  - lia.
  - by etrans.
  - auto.
  - by eapply tables_grow_trans.
Qed.

Lemma wp_get_lower_table s U n T root q i l (Q : Z -> kstate -> Prop) H :
  vmm_inv s U n T root -> T !! q = Some (S (S l)) -> 0 <= i < 512 ->
  (forall s' U' n' T' c, grows 1 s U n T root s' U' n' T' ->
     T' !! c = Some (S l) -> pte_present (entry_of (k_ram s') q i) = true ->
     pte_addr (entry_of (k_ram s') q i) = c ->
     Q (c ⊕ hhdmoffset (k_vmm s)) s') ->
  (n = O -> forall s', out_of_blocks s s' -> H s') ->
  wp (get_lower_table alloc (q ⊕ hhdmoffset (k_vmm s)) i) Q H s.
Proof using Type.
  intros Hinv Hq Hi HQ HH. pose proof (vmm_table_wf s U n T root Hinv q ltac:(by eexists)) as Hqw.
  unfold get_lower_table, vmm_get. do 3 wp_step.
  eapply wp_load_entry; [done|done|done|]. rewrite pte_present_test.
  destruct (pte_present (entry_of (k_ram s) q i)) eqn:Hp; wp_steps.
  - eapply wp_load_entry; [done|done|done|]. wp_steps.
    destruct (pt_child _ T (vi_tables _ _ _ _ _ Hinv) _ _ _ Hq Hi Hp) as [_ Hc].
    apply (HQ s U n T _); try done.
    split; [exists (k_ram s); by rewrite set_ram_id|done|lia|done|done|apply tables_grow_refl].
  - destruct (ba_alloc s U n (vi_alloc _ _ _ _ _ Hinv)) as (p & r' & E & Hin & Hn).
    eapply wp_done; [exact E|]. wp_step. destruct n as [|n'].
    + destruct Hn as [-> _]. rewrite Z.eqb_refl. unfold wp. rewrite log_panic_halts.
      apply HH; [done|]. by exists r'.
    + destruct Hn as (Hp0 & Hp' & Hba). rewrite (proj2 (Z.eqb_neq p 0)) by done. wp_steps.
      pose proof (fresh_wf s U p n' r' Hba) as Hpw.
      apply (wp_memset _ _ _ _ p); [|apply u64_range|by unfold PAGE_SIZE|].
      { exact (vmm_block_mapped s U (S n') T root Hinv p _ eq_refl Hpw). }
      wp_steps. apply (wp_store_entry _ _ q i).
      { exact (vmm_entry_mapped s U (S n') T root Hinv q i _ eq_refl Hqw Hi). }
      apply wp_ret. rewrite !set_ram_set_ram. cbn [k_ram set_ram].
      fold (link_entry_of p).
      destruct (fresh_link s U (S n') T root Hinv q i p l n' r' Hq Hi Hp Hin Hp' Hba)
        as (_ & Hg & He).
      pose proof (fresh_inv s U (S n') T root Hinv q i p l n' r' Hq Hi Hp Hin Hp' Hba) as Hv.
      destruct Hpw as (Hal & Hpp & _ & Hpb).
      destruct (link_entry_bits p Hal ltac:(lia)) as (_ & Hlp & _ & Hla).
      rewrite <- He in Hlp, Hla. revert Hg Hv Hlp Hla.
      generalize (write_entry q i (link_entry_of p) (ram_fill p PAGE_SIZE 0 r')). intros r2 Hg Hv Hlp Hla.
      apply (HQ _ ({[p]} ∪ U) n' (<[p := S l]> T) p); [|by rewrite lookup_insert_eq|done|done].
      split; [by eexists|done|lia|apply union_subseteq_r| |done].
      intros q' Hq' HT. rewrite lookup_insert_ne; [exact HT|]. intros ->. exact (Hp' Hq').
Qed.

(** One step of a walk stays a step as the tree grows. *)
Lemma leaf_table_step s U n T root q l va :
  vmm_inv s U n T root -> T !! q = Some (S (S l)) ->
  pte_present (entry_of (k_ram s) q (pt_idx (S (S l)) va)) = true ->
  leaf_table (entry_of (k_ram s)) (S (S l)) q va =
    leaf_table (entry_of (k_ram s)) (S l)
      (pte_addr (entry_of (k_ram s) q (pt_idx (S (S l)) va))) va.
Proof using Type.
  intros Hinv Hq Hp. rewrite leaf_table_S. cbn zeta. rewrite Hp.
  by destruct (pt_child _ T (vi_tables _ _ _ _ _ Hinv) _ _ _ Hq (pt_idx_range _ _) Hp) as [-> _].
Qed.

Lemma out_of_blocks_ram r' s s' : out_of_blocks (set_ram r' s) s' -> out_of_blocks s s'.
Proof using Type. intros (r & ->). by exists r. Qed.

Lemma vmm_addr_nonzero s U n T root q :
  vmm_inv s U n T root -> is_Some (T !! q) -> (q ⊕ hhdmoffset (k_vmm s) =? 0) = false.
Proof using Type.
  intros Hinv Hq. apply Z.eqb_neq.
  destruct (vmm_table_addr s U n T root Hinv q (vmm_table_wf s U n T root Hinv q Hq)). lia.
Qed.

Lemma wp_get_pt s U n T root va (Q : Z -> kstate -> Prop) H :
  vmm_inv s U n T root ->
  (forall s' U' n' T' p, grows 3 s U n T root s' U' n' T' ->
     leaf_table (entry_of (k_ram s')) 4 root va = Some p -> T' !! p = Some 1%nat ->
     Q (p ⊕ hhdmoffset (k_vmm s)) s') ->
  ((n < 3)%nat -> forall s', out_of_blocks s s' -> H s') ->
  wp (get_pt alloc (root ⊕ hhdmoffset (k_vmm s)) va) Q H s.
Proof using Type.
  intros Hinv HQ HH. unfold get_pt.
  rewrite (pt_index_land va 39 4), (pt_index_land va 30 3), (pt_index_land va 21 2) by lia.
  wp_step. eapply (wp_get_lower_table s U n T root root _ 2 _ _ Hinv);
    [apply Hinv|auto| |intros; apply HH; [lia|done]].
  intros s1 U1 n1 T1 c1 G1 Hc1 Hp1 Ha1.
  pose proof (gr_inv _ _ _ _ _ _ _ _ _ _ G1) as I1. destruct (gr_ram _ _ _ _ _ _ _ _ _ _ G1) as [r1 E1].
  pose proof (gr_count _ _ _ _ _ _ _ _ _ _ G1) as N1.
  replace (hhdmoffset (k_vmm s)) with (hhdmoffset (k_vmm s1)) in * by by rewrite E1.
  rewrite (vmm_addr_nonzero s1 _ _ _ _ c1 I1) by by eexists. wp_step.
  eapply (wp_get_lower_table s1 U1 n1 T1 root c1 _ 1 _ _ I1);
    [done|auto| |intros; apply HH; [lia|by subst s1; eapply out_of_blocks_ram]].
  intros s2 U2 n2 T2 c2 G2 Hc2 Hp2 Ha2.
  pose proof (gr_inv _ _ _ _ _ _ _ _ _ _ G2) as I2. destruct (gr_ram _ _ _ _ _ _ _ _ _ _ G2) as [r2 E2].
  pose proof (gr_count _ _ _ _ _ _ _ _ _ _ G2) as N2.
  replace (hhdmoffset (k_vmm s1)) with (hhdmoffset (k_vmm s2)) in * by by rewrite E2.
  rewrite (vmm_addr_nonzero s2 _ _ _ _ c2 I2) by by eexists. wp_step.
  eapply (wp_get_lower_table s2 U2 n2 T2 root c2 _ 0 _ _ I2);
    [done|auto| |intros; apply HH; [lia|by subst s2 s1; do 2 eapply out_of_blocks_ram]].
  intros s3 U3 n3 T3 c3 G3 Hc3 Hp3 Ha3.
  pose proof (gr_inv _ _ _ _ _ _ _ _ _ _ G3) as I3. destruct (gr_ram _ _ _ _ _ _ _ _ _ _ G3) as [r3 E3].
  replace (hhdmoffset (k_vmm s2)) with (hhdmoffset (k_vmm s3)) in * by by rewrite E3.
  rewrite (vmm_addr_nonzero s3 _ _ _ _ c3 I3) by by eexists. apply wp_ret.
  pose proof (grows_trans _ _ _ _ _ _ _ _ _ _ _ _ _ _ _ G2 G3) as G23.
  pose proof (gr_grow _ _ _ _ _ _ _ _ _ _ G23) as W23. pose proof (gr_grow _ _ _ _ _ _ _ _ _ _ G3) as W3.
  pose proof (tg_keep _ _ _ _ W23 root 2 _ (vi_root _ _ _ _ _ I1) (pt_idx_range _ _) Hp1) as K1.
  pose proof (tg_keep _ _ _ _ W3 c1 1 _ (lookup_weaken _ _ _ _ Hc1
    (tg_sub _ _ _ _ (gr_grow _ _ _ _ _ _ _ _ _ _ G2))) (pt_idx_range _ _) Hp2) as K2.
  pose proof (lookup_weaken _ _ _ _ Hc1 (tg_sub _ _ _ _ W23)) as Hc1'.
  pose proof (lookup_weaken _ _ _ _ Hc2 (tg_sub _ _ _ _ W3)) as Hc2'.
  apply (HQ s3 U3 n3 T3 c3); [by eapply (grows_trans 1 2), (grows_trans 1 1)| |done].
  rewrite (leaf_table_step s3 U3 n3 T3 root root 2 va I3 (vi_root _ _ _ _ _ I3)), K1, Ha1
    by by rewrite K1.
  rewrite (leaf_table_step s3 U3 n3 T3 root c1 1 va I3 Hc1'), K2, Ha2 by by rewrite K2.
  rewrite (leaf_table_step s3 U3 n3 T3 root c2 0 va I3 Hc2' Hp3), Ha3. done.
Qed.

(** Writing an entry of a last-level table. *)
Section write_leaf.
Context (s : kstate) (U : gset Z) (n : nat) (T : gmap Z nat) (root p va v : Z).
Context (Hinv : vmm_inv s U n T root).
Context (Hlt : leaf_table (entry_of (k_ram s)) 4 root va = Some p).
Context (Hv : 0 <= v < 2 ^ 64).

Let s' := set_ram (write_entry p (pt_idx 1 va) v (k_ram s)) s.

Lemma write_leaf_level : T !! p = Some 1%nat.
Proof using Hinv Hlt.
  by apply (leaf_table_level _ T (vi_tables _ _ _ _ _ Hinv) 4 root va p (vi_root _ _ _ _ _ Hinv)).
Qed.

Lemma write_leaf_wf : block_wf s p.
Proof using Hinv Hlt. eapply vmm_table_wf; [done|]. eexists. apply write_leaf_level. Qed.

Lemma write_leaf_entry q j : is_Some (T !! q) -> 0 <= j < 512 ->
  entry_of (k_ram s') q j = set_entry (entry_of (k_ram s)) p (pt_idx 1 va) v q j.
Proof using Hinv Hlt Hv.
  intros Hq Hj. apply (entry_of_write s); auto using write_leaf_wf.
  by eapply vmm_table_wf.
Qed.

Lemma write_leaf_inv : vmm_inv s' U n T root.
Proof using Hinv Hlt Hv.
  split; try apply Hinv.
  - apply (ba_frame s); [apply Hinv|done..|]. intros a Ha. cbn. unfold write_entry.
    assert (~ in_block p a) as Hnp by (apply Ha, Hinv; eexists; apply write_leaf_level).
    pose proof (length_le_bytes 8 v). pose proof (pt_idx_range 1 va).
    unfold in_block in *. apply ram_get_write_out. lia.
  - apply (page_tables_ext (set_entry (entry_of (k_ram s)) p (pt_idx 1 va) v)).
    + apply set_leaf_tables; [apply Hinv|apply write_leaf_level].
    + apply write_leaf_entry.
Qed.

Lemma write_leaf_translate va' :
  translate s' root va' = if decide (vpn va' = vpn va) then leaf v else translate s root va'.
Proof using Hinv Hlt Hv.
  unfold translate.
  rewrite (walk_ext (set_entry (entry_of (k_ram s)) p (pt_idx 1 va) v) _ T); [|
    apply set_leaf_tables; [apply Hinv|apply write_leaf_level]|apply write_leaf_entry|apply Hinv].
  by apply (set_leaf_walk _ T (vi_tables _ _ _ _ _ Hinv)); [apply Hinv|].
Qed.

Lemma write_leaf_path : leaf_table (entry_of (k_ram s')) 4 root va = Some p.
Proof using Hinv Hlt Hv.
  rewrite (leaf_table_ext_tables (set_entry (entry_of (k_ram s)) p (pt_idx 1 va) v) _ T); [|
    apply set_leaf_tables; [apply Hinv|apply write_leaf_level]|apply write_leaf_entry|apply Hinv].
  rewrite (set_leaf_path _ T (vi_tables _ _ _ _ _ Hinv)); [done|apply write_leaf_level|apply Hinv].
Qed.
End write_leaf.

Lemma vmm_inv_trace t s U n T root :
  vmm_inv s U n T root -> vmm_inv (set_trace t s) U n T root.
Proof using Type.
  intros Hinv. split; try apply Hinv. by apply (ba_frame s); [apply Hinv|..].
Qed.

(** The tables an address may need: none when its path is there. *)
Definition path_there (s : kstate) (root va : Z) : Prop :=
  is_Some (leaf_table (entry_of (k_ram s)) 4 root va).

#[export] Instance path_there_dec s root va : Decision (path_there s root va).
Proof using Type. unfold path_there. apply _. Defined.

Definition path_cost (s : kstate) (root va : Z) : nat :=
  if decide (path_there s root va) then 0 else 3.

Lemma path_cost_le s root va : (path_cost s root va <= 3)%nat.
Proof using Type. unfold path_cost. case_decide; lia. Qed.

(** On a path that is there, [get_pt] changes nothing. *)
Lemma get_pt_present s U n T root va p :
  vmm_inv s U n T root -> leaf_table (entry_of (k_ram s)) 4 root va = Some p ->
  get_pt alloc (root ⊕ hhdmoffset (k_vmm s)) va s = Done (p ⊕ hhdmoffset (k_vmm s)) s.
Proof using Type.
  intros Hinv Hlt. apply wp_eq. unfold get_pt.
  rewrite (pt_index_land va 39 4), (pt_index_land va 30 3), (pt_index_land va 21 2) by lia.
  assert (forall l q, T !! q = Some (S (S l)) ->
    leaf_table (entry_of (k_ram s)) (S (S l)) q va = Some p ->
    exists c, T !! c = Some (S l) /\ leaf_table (entry_of (k_ram s)) (S l) c va = Some p /\
      get_lower_table alloc (q ⊕ hhdmoffset (k_vmm s)) (pt_idx (S (S l)) va) s =
        Done (c ⊕ hhdmoffset (k_vmm s)) s) as Hstep.
  { intros l q Hq. rewrite leaf_table_S. cbn zeta.
    set (e := entry_of (k_ram s) q (pt_idx (S (S l)) va)).
    destruct (pte_present e) eqn:Hp; [|done].
    destruct (pt_child _ T (vi_tables _ _ _ _ _ Hinv) _ _ _ Hq (pt_idx_range _ _) Hp) as [Hl Hc].
    fold e in Hl, Hc. rewrite Hl. intros Hlt'. exists (pte_addr e). split; [done|]. split; [done|].
    pose proof (vmm_table_wf s U n T root Hinv q ltac:(by eexists)) as Hqw.
    apply wp_eq. unfold get_lower_table, vmm_get. wp_steps.
    eapply wp_load_entry; [done|done|auto|]. rewrite pte_present_test. fold e. rewrite Hp.
    wp_steps. eapply wp_load_entry; [done|done|auto|]. by wp_steps. }
  destruct (Hstep 2%nat root (vi_root _ _ _ _ _ Hinv) Hlt) as (c1 & Hc1 & Hl1 & E1).
  destruct (Hstep 1%nat c1 Hc1 Hl1) as (c2 & Hc2 & Hl2 & E2).
  destruct (Hstep 0%nat c2 Hc2 Hl2) as (c3 & Hc3 & [= ->] & E3).
  wp_step. eapply wp_done; [exact E1|].
  rewrite (vmm_addr_nonzero s _ _ _ _ c1 Hinv) by by eexists. wp_step.
  eapply wp_done; [exact E2|].
  rewrite (vmm_addr_nonzero s _ _ _ _ c2 Hinv) by by eexists. wp_step.
  eapply wp_done; [exact E3|].
  by rewrite (vmm_addr_nonzero s _ _ _ _ p Hinv) by by eexists.
Qed.

(** The walk of [get_pt], at no cost when the path is there. *)
Lemma wp_get_path s U n T root va (Q : Z -> kstate -> Prop) H :
  vmm_inv s U n T root ->
  (forall s' U' n' T' p, grows (path_cost s root va) s U n T root s' U' n' T' ->
     leaf_table (entry_of (k_ram s')) 4 root va = Some p ->
     Q (p ⊕ hhdmoffset (k_vmm s)) s') ->
  ((n < path_cost s root va)%nat -> forall s', out_of_blocks s s' -> H s') ->
  wp (get_pt alloc (root ⊕ hhdmoffset (k_vmm s)) va) Q H s.
Proof using Type.
  unfold path_cost. intros Hinv HQ HH. case_decide as Hp.
  - destruct Hp as [p Hp]. eapply wp_done; [by eapply get_pt_present|].
    apply (HQ s U n T p); [|done].
    split; [exists (k_ram s); by rewrite set_ram_id|done|lia|done|done|apply tables_grow_refl].
  - eapply wp_get_pt; [done| |done]. intros. by eapply HQ.
Qed.

(** What mapping a page does. *)
Record maps (va v : Z) (s : kstate) (U : gset Z) (n : nat) (T : gmap Z nat) (root : Z)
    (s' : kstate) (U' : gset Z) (n' : nat) (T' : gmap Z nat) : Prop := {
  mp_state : exists r', s' = emits [EvAsm ReloadCr3] (set_ram r' s);
  mp_inv : vmm_inv s' U' n' T' root;
  mp_count : (n <= n' + path_cost s root va)%nat;
  mp_held : U ⊆ U';
  mp_new : forall q, q ∈ U -> T !! q = None -> T' !! q = None;
  mp_path : path_there s' root va;
  mp_translate : forall va', translate s' root va' =
    if decide (vpn va' = vpn va) then leaf v else translate s root va';
}.

Lemma wp_vmm_map_page s U n T root va pa flags (Q : unit -> kstate -> Prop) H :
  vmm_inv s U n T root -> 0 <= Z.lor pa flags < 2 ^ 64 ->
  (forall s' U' n' T', maps va (Z.lor pa flags) s U n T root s' U' n' T' -> Q tt s') ->
  ((n < path_cost s root va)%nat -> forall s', out_of_blocks s s' -> H s') ->
  wp (vmm_map_page alloc (root ⊕ hhdmoffset (k_vmm s)) va pa flags) Q H s.
Proof using Type.
  intros Hinv Hv HQ HH. unfold vmm_map_page. rewrite (pt_index_land va 12 1) by lia. wp_step.
  apply (wp_get_path s U n T root va _ _ Hinv); [|done].
  intros s1 U1 n1 T1 p G Hlt. destruct (gr_ram _ _ _ _ _ _ _ _ _ _ G) as [r1 E1].
  pose proof (gr_inv _ _ _ _ _ _ _ _ _ _ G) as I1.
  replace (hhdmoffset (k_vmm s)) with (hhdmoffset (k_vmm s1)) in * by by rewrite E1.
  rewrite (vmm_addr_nonzero s1 _ _ _ _ p I1) by (eexists; by eapply write_leaf_level). wp_steps.
  apply (wp_store_entry _ _ p (pt_idx 1 va)).
  { apply (vmm_entry_mapped s1 U1 n1 T1 root I1); [done|by eapply write_leaf_wf|auto]. }
  wp_steps. apply (HQ _ U1 n1 T1). split.
  - subst s1. by eexists.
  - by apply vmm_inv_trace, write_leaf_inv.
  - apply G.
  - apply G.
  - apply (gr_new _ _ _ _ _ _ _ _ _ _ G).
  - exists p. by apply (write_leaf_path s1 U1 n1 T1).
  - intros va'.
    change (translate (set_ram (write_entry p (pt_idx 1 va) (Z.lor pa flags) (k_ram s1)) s1)
      root va' = if decide (vpn va' = vpn va) then leaf (Z.lor pa flags) else translate s root va').
    rewrite (write_leaf_translate s1 U1 n1 T1) by done. case_decide; [done|].
    unfold translate. by apply (tg_walk _ _ _ _ (gr_grow _ _ _ _ _ _ _ _ _ _ G)), Hinv.
Qed.

(** Giving a held block that is no table back to the allocator. *)
Lemma vmm_free_block_inv s U n T root f :
  vmm_inv s U n T root -> f ∈ U -> T !! f = None ->
  exists r', free f s = Done tt (set_ram r' s) /\
    vmm_inv (set_ram r' s) (U ∖ {[f]}) (S n) T root /\
    forall q j, is_Some (T !! q) -> 0 <= j < 512 -> entry_of r' q j = entry_of (k_ram s) q j.
Proof using Type.
  intros Hinv Hf HTf. destruct (ba_free s U n f (vi_alloc _ _ _ _ _ Hinv) Hf) as (r' & E & Hin & Hba).
  assert (forall q j, is_Some (T !! q) -> 0 <= j < 512 ->
    entry_of r' q j = entry_of (k_ram s) q j) as Hent.
  { intros q j Hq Hj. apply entry_of_ext; [|done]. intros a Ha. apply (Hin q); [|done].
    by apply Hinv. }
  exists r'. split; [done|]. split; [|done]. split; try apply Hinv; [done| |].
  - by apply (page_tables_ext (entry_of (k_ram s))); [apply Hinv|].
  - intros q Hq. apply elem_of_difference. split; [by apply Hinv|].
    intros ->%elem_of_singleton. rewrite HTf in Hq. by destruct Hq.
Qed.

(** What freeing a page does. *)
Record frees (va f : Z) (s : kstate) (U : gset Z) (n : nat) (T : gmap Z nat) (root : Z)
    (s' : kstate) : Prop := {
  fr_state : exists r', s' = emits [EvAsm ReloadCr3] (set_ram r' s);
  fr_inv : vmm_inv s' (U ∖ {[f]}) (S n) T root;
  fr_translate : forall va', translate s' root va' =
    if decide (vpn va' = vpn va) then NotPresent else translate s root va';
}.

Lemma vmm_free_page_done s U n T root va e :
  vmm_inv s U n T root -> translate s root va = Page e ->
  pte_addr e ∈ U -> T !! pte_addr e = None ->
  exists s', vmm_free_page alloc free (root ⊕ hhdmoffset (k_vmm s)) va s = Done tt s' /\
    frees va (pte_addr e) s U n T root s'.
Proof using Type.
  intros Hinv Htr Hf HTf.
  enough (wp (vmm_free_page alloc free (root ⊕ hhdmoffset (k_vmm s)) va)
    (fun _ s' => frees va (pte_addr e) s U n T root s') never s) as Hw.
  { apply wp_inv_done in Hw as ([] & s' & E & H). eauto. }
  unfold translate in Htr.
  rewrite (walk_leaf_table _ T (vi_tables _ _ _ _ _ Hinv)) in Htr by apply Hinv.
  destruct (leaf_table _ 4 root va) as [p|] eqn:Hlt; [|done].
  assert (entry_of (k_ram s) p (pt_idx 1 va) = e) as He
    by (unfold leaf in Htr; destruct (pte_present _); [by injection Htr|done]).
  pose proof (write_leaf_wf s U n T root p va Hinv Hlt) as Hpw.
  pose proof (write_leaf_level s U n T root p va Hinv Hlt) as Hpl.
  unfold vmm_free_page. rewrite (pt_index_land va 12 1) by lia. wp_step.
  pose proof (pt_idx_range 1 va). rewrite (u16_small (pt_idx 1 va)) by lia.
  eapply wp_done; [by apply (get_pt_present s U n T root va p)|]. wp_step.
  eapply wp_load_entry; [done|done|done|]. rewrite He. wp_step.
  destruct (vmm_free_block_inv s U n T root _ Hinv Hf HTf) as (r1 & E & I1 & Hent).
  eapply wp_done; [exact E|]. wp_step. set (s1 := set_ram r1 s) in *.
  assert (forall l q va', T !! q = Some l ->
    leaf_table (entry_of r1) l q va' = leaf_table (entry_of (k_ram s)) l q va') as Hlts.
  { intros. by apply (leaf_table_ext_tables _ _ T (vi_tables _ _ _ _ _ Hinv)). }
  assert (leaf_table (entry_of (k_ram s1)) 4 root va = Some p) as Hlt1
    by (rewrite <- Hlt; apply Hlts, Hinv).
  apply (wp_store_entry _ _ p (pt_idx 1 va)).
  { apply (vmm_entry_mapped s1 _ _ T root I1); [done|done|done]. }
  apply wp_emit. split.
  - by eexists.
  - by apply vmm_inv_trace, write_leaf_inv.
  - intros va'.
    change (translate (set_ram (write_entry p (pt_idx 1 va) 0 (k_ram s1)) s1)
      root va' = if decide (vpn va' = vpn va) then NotPresent else translate s root va').
    rewrite (write_leaf_translate s1 _ _ T _ _ _ _ I1 Hlt1) by done.
    case_decide; [done|]. unfold translate.
    apply (walk_ext _ _ T (vi_tables _ _ _ _ _ Hinv)); [done|apply Hinv].
Qed.

(** A root table of zeros. *)
Lemma vmm_inv_root s U n root :
  ba_inv s U n -> hhdmoffset (k_vmm s) = hw_direct_map (k_hw s) ->
  0x100000000 <= hw_direct_map (k_hw s) ->
  hw_direct_map (k_hw s) + hw_ram_size (k_hw s) <= 2 ^ 64 -> root ∈ U ->
  (forall j, 0 <= j < 512 -> entry_of (k_ram s) root j = 0) ->
  vmm_inv s U n {[root := 4%nat]} root.
Proof using Type.
  intros Hba Ho Hlo Hhi Hr Hz.
  assert (forall q l, ({[root := 4%nat]} : gmap Z nat) !! q = Some l -> q = root) as Hq
    by (by intros q l [-> _]%lookup_singleton_Some).
  split; try done.
  - split.
    + intros q l i Hql Hi. rewrite (Hq _ _ Hql), Hz by done. done.
    + intros q q' l i i' Hql _ Hi _. rewrite (Hq _ _ Hql), Hz by done. done.
  - intros q [l Hql]. by rewrite (Hq _ _ Hql).
  - by rewrite lookup_singleton_eq.
Qed.
End proofs.

(** ** The sample machine, with a root table in block 2 and block 3 held *)

Definition sample_vmm : kstate :=
  set_vmm (VmmGlobals 0xffff800000002000 0xffff800000000000 0)
    (set_ram (bit_write (bit_write (k_ram sample_pmm) 0x1000 2 true) 0x1000 3 true) sample_pmm).

Lemma sample_vmm_zero j : 0 <= j < 512 -> entry_of (k_ram sample_vmm) 0x2000 j = 0.
Proof.
  intros Hj. apply ram_u64_zero. intros i Hi.
  change (k_ram sample_vmm) with
    (bit_write (bit_write (k_ram sample_pmm) 0x1000 2 true) 0x1000 3 true).
  change (k_ram sample_pmm) with (<[0x1000 := to_byte 3]> (∅ : gmap Z byte)).
  rewrite !ram_get_bit_write by ldivmod.
  rewrite ram_get_insert. by rewrite decide_False by lia.
Qed.

Lemma sample_vmm_inv : vmm_inv sample_vmm {[0x3000; 0x2000]} 12 {[0x2000 := 4%nat]} 0x2000.
Proof.
  apply vmm_inv_root; [|reflexivity|by vm_compute|by vm_compute|set_solver +|apply sample_vmm_zero].
  set (s1 := set_ram (bit_write (k_ram sample_pmm) 0x1000 2 true) sample_pmm).
  set (s2 := set_ram (bit_write (k_ram s1) 0x1000 3 true) s1).
  apply (ba_frame s2); [|done..].
  assert (0 ∉ free_set sample_pmm 0x1000) as H0 by (rewrite sample_free_set; by vm_compute).
  exists 0x1000, (free_set sample_pmm 0x1000). split; [|split; [done|reflexivity]].
  apply (run_inv_alloc _ _ H0 s1 s2 {[0x2000]} 0x3000); [|reflexivity].
  assert (run_inv 0x1000 (free_set sample_pmm 0x1000) (sample_pmm, ∅)) as Hr.
  { split; [apply sample_pmm_inv|set_solver +|]. unfold blocks. cbn [fst snd].
    by rewrite set_map_empty, (right_id_L ∅ _). }
  pose proof (run_inv_alloc _ _ H0 _ s1 ∅ 0x2000 Hr eq_refl) as H1.
  by rewrite (right_id_L ∅ _) in H1.
Qed.

(** The sample machine after one page is mapped: the state a call ends in. *)
Definition state_after {A} (r : outcome A) (d : kstate) : kstate :=
  match r with Done _ s => s | _ => d end.

Definition sample_mapped : kstate := state_after
  (vmm_map_page pmm_alloc_block 0xffff800000002000 0x12345000 0x3000 3 sample_vmm) sample_vmm.

Lemma sample_map_done :
  exists U n T, vmm_map_page pmm_alloc_block 0xffff800000002000 0x12345000 0x3000 3 sample_vmm =
      Done tt sample_mapped /\
    maps 0x12345000 0x3003 sample_vmm {[0x3000; 0x2000]} 12 {[0x2000 := 4%nat]} 0x2000
      sample_mapped U n T.
Proof.
  assert (wp (vmm_map_page pmm_alloc_block 0xffff800000002000 0x12345000 0x3000 3)
    (fun _ s' => exists U' n' T', maps 0x12345000 0x3003 sample_vmm {[0x3000; 0x2000]} 12
      {[0x2000 := 4%nat]} 0x2000 s' U' n' T') never sample_vmm) as Hw.
  { apply (wp_vmm_map_page sample_vmm _ 12 _ 0x2000 0x12345000 0x3000 3 _ _ sample_vmm_inv);
      [by vm_compute|by eauto|].
    pose proof (path_cost_le sample_vmm 0x2000 0x12345000). lia. }
  apply wp_inv_done in Hw as ([] & s' & E & U' & n' & T' & Hm).
  assert (sample_mapped = s') as -> by (unfold sample_mapped; rewrite E; reflexivity).
  exists U', n', T'. exact (conj E Hm).
Qed.

(** ** Properties *)

(** C8: [vmm_map_page], against any block allocator: it returns with the page of
    the virtual address translating to [physical_addr | flags] and every other
    page as before, keeping the tree of tables well formed and taking no block
    when the tables of the address are there and at most three else; or, only
    when fewer are left, it panics.  It never faults. *)
Theorem vmm_map_page_maps {alloc free} {BA : BlockAllocator alloc free} (s : kstate)
    (U : gset Z) (n : nat) (T : gmap Z nat) (root va pa flags : Z)
    (Hinv : vmm_inv s U n T root) (Hv : 0 <= Z.lor pa flags < 2 ^ 64) :
  wp (vmm_map_page alloc (root ⊕ hhdmoffset (k_vmm s)) va pa flags)
    (fun _ s' => exists U' n' T', maps va (Z.lor pa flags) s U n T root s' U' n' T')
    (fun s' => (n < path_cost s root va)%nat /\ out_of_blocks s s') s.
Proof. eapply wp_vmm_map_page; [done|done|intros; by eauto|done]. Qed.

Lemma vmm_map_page_maps_witness :
  wp (vmm_map_page pmm_alloc_block 0xffff800000002000 0x12345000 0x3000 3)
    (fun _ s' => exists U' n' T',
      maps 0x12345000 0x3003 sample_vmm {[0x3000; 0x2000]} 12 {[0x2000 := 4%nat]} 0x2000 s' U' n' T')
    (fun s' => (12 < path_cost sample_vmm 0x2000 0x12345000)%nat /\ out_of_blocks sample_vmm s') sample_vmm.
Proof.
  apply (vmm_map_page_maps sample_vmm _ 12 _ 0x2000 0x12345000 0x3000 3 sample_vmm_inv).
  by vm_compute.
Defined.

(** C9: [vmm_free_page] of a mapped page, whose frame the memory manager holds and
    is no table, unmaps that page and no other, and gives the frame back to the
    allocator. *)
Theorem vmm_free_page_unmaps {alloc free} {BA : BlockAllocator alloc free} (s : kstate)
    (U : gset Z) (n : nat) (T : gmap Z nat) (root va e : Z)
    (Hinv : vmm_inv s U n T root) (Htr : translate s root va = Page e)
    (Hf : pte_addr e ∈ U) (HT : T !! pte_addr e = None) :
  exists s', vmm_free_page alloc free (root ⊕ hhdmoffset (k_vmm s)) va s = Done tt s' /\
    frees va (pte_addr e) s U n T root s'.
Proof. by apply vmm_free_page_done. Qed.

Lemma vmm_free_page_unmaps_witness :
  exists U n T s'',
    vmm_map_page pmm_alloc_block 0xffff800000002000 0x12345000 0x3000 3 sample_vmm =
      Done tt sample_mapped /\
    vmm_free_page pmm_alloc_block pmm_free_block 0xffff800000002000 0x12345000 sample_mapped =
      Done tt s'' /\
    frees 0x12345000 0x3000 sample_mapped U n T 0x2000 s''.
Proof.
  destruct sample_map_done as (U & n & T & E & Hm).
  exists U, n, T. pose proof (mp_state _ _ _ _ _ _ _ _ _ _ _ Hm) as [r' Es].
  destruct (vmm_free_page_unmaps sample_mapped U n T 0x2000 0x12345000 0x3003) as (s'' & E' & Hfr).
  - apply Hm.
  - rewrite (mp_translate _ _ _ _ _ _ _ _ _ _ _ Hm). by rewrite decide_True.
  - apply (mp_held _ _ _ _ _ _ _ _ _ _ _ Hm). change (pte_addr 0x3003) with 0x3000. set_solver +.
  - apply (mp_new _ _ _ _ _ _ _ _ _ _ _ Hm); [|done].
    change (pte_addr 0x3003) with 0x3000. set_solver +.
  - exists s''. split; [exact E|].
    replace (hhdmoffset (k_vmm sample_mapped)) with 0xffff800000000000 in E' by (by rewrite Es).
    exact (conj E' Hfr).
Defined.

(** C10: mapping an unmapped page to a held frame and freeing it again gives back
    every address's translation, and the frame to the allocator. *)
Theorem vmm_map_free_roundtrip {alloc free} {BA : BlockAllocator alloc free} (s : kstate)
    (U : gset Z) (n : nat) (T : gmap Z nat) (root va f flags : Z)
    (Hinv : vmm_inv s U n T root) (Hn : (3 <= n)%nat) (Hun : translate s root va = NotPresent)
    (Hf : f ∈ U) (HT : T !! f = None) (Hv : 0 <= Z.lor f flags < 2 ^ 64)
    (Hp : pte_present (Z.lor f flags) = true) (Ha : pte_addr (Z.lor f flags) = f) :
  exists s1 s2 U' n' T', vmm_map_page alloc (root ⊕ hhdmoffset (k_vmm s)) va f flags s = Done tt s1 /\
    vmm_free_page alloc free (root ⊕ hhdmoffset (k_vmm s)) va s1 = Done tt s2 /\
    (forall va', translate s2 root va' = translate s root va') /\
    vmm_inv s2 (U' ∖ {[f]}) (S n') T' root /\ U ⊆ U' /\ (n <= n' + 3)%nat.
Proof.
  assert (wp (vmm_map_page alloc (root ⊕ hhdmoffset (k_vmm s)) va f flags) (fun _ s' =>
    exists U' n' T', maps va (Z.lor f flags) s U n T root s' U' n' T') never s) as Hw.
  { eapply wp_vmm_map_page; [done|done|by eauto|].
    pose proof (path_cost_le s root va). lia. }
  apply wp_inv_done in Hw as ([] & s1 & E & U' & n' & T' & [[r1 Es] Hi Hc Hh Hnew _ Htr]).
  destruct (vmm_free_page_done s1 U' n' T' root va (Z.lor f flags)) as (s2 & E' & Hfr).
  - done.
  - rewrite Htr, decide_True by done. unfold leaf. by rewrite Hp.
  - rewrite Ha. by apply Hh.
  - rewrite Ha. by apply Hnew.
  - rewrite Ha in Hfr. destruct Hfr as [_ Hi' Htr'].
    exists s1, s2, U', n', T'. split; [done|]. split; [by subst s1|].
    pose proof (path_cost_le s root va).
    split; [|split; [done|split; [done|lia]]]. intros va'. rewrite Htr', Htr.
    case_decide as Hd; [|done]. rewrite <- Hun. unfold translate.
    rewrite !(walk_leaf_table _ T (vi_tables _ _ _ _ _ Hinv)) by apply Hinv.
    rewrite (leaf_table_ext _ 4 root va' va), (pt_idx_ext 1 va' va) by (done || lia). done.
Qed.

Lemma vmm_map_free_roundtrip_witness :
  exists s1 s2 U' n' T',
    vmm_map_page pmm_alloc_block 0xffff800000002000 0x12345000 0x3000 3 sample_vmm = Done tt s1 /\
    vmm_free_page pmm_alloc_block pmm_free_block 0xffff800000002000 0x12345000 s1 = Done tt s2 /\
    (forall va', translate s2 0x2000 va' = translate sample_vmm 0x2000 va') /\
    vmm_inv s2 (U' ∖ {[0x3000]}) (S n') T' 0x2000 /\ {[0x3000; 0x2000]} ⊆ U' /\ (12 <= n' + 3)%nat.
Proof.
  apply (vmm_map_free_roundtrip sample_vmm {[0x3000; 0x2000]} 12 {[0x2000 := 4%nat]} 0x2000
    0x12345000 0x3000 3 sample_vmm_inv); try (by vm_compute).
  lia.
Defined.

(** C40: [vmm_free_page] of a page that was never mapped (its table is there and its
    entry is 0) does not notice: it frees physical address 0.  No translation
    changes, but the next allocation takes block 0, and its answer is the one that
    means out of memory, however many blocks are left. *)
Theorem vmm_free_page_unmapped (s : kstate) (U : gset Z) (n : nat) (T : gmap Z nat)
    (root va p : Z) (Hinv : vmm_inv s U n T root)
    (Hlt : leaf_table (entry_of (k_ram s)) 4 root va = Some p)
    (He : entry_of (k_ram s) p (pt_idx 1 va) = 0) :
  exists s' r, vmm_free_page pmm_alloc_block pmm_free_block (root ⊕ hhdmoffset (k_vmm s)) va s =
      Done tt s' /\
    (forall va', translate s' root va' = translate s root va') /\
    pmm_alloc_block s' = Done 0 (set_ram r s').
Proof.
  pose proof (write_leaf_wf s U n T root p va Hinv Hlt) as Hpw.
  pose proof (write_leaf_level s U n T root p va Hinv Hlt) as Hpl.
  pose proof (pt_idx_range 1 va) as Hi.
  destruct (pmm_holds_free_zero s U n root) as (r1 & E1 & Hin & Halloc);
    [apply Hinv|apply Hinv; eexists; apply Hinv|].
  pose proof (Halloc (emits [EvAsm ReloadCr3] (set_ram (write_entry p (pt_idx 1 va) 0 r1) s))
    eq_refl eq_refl) as [r2 E2].
  { intros a Ha. cbn. unfold write_entry. rewrite ram_get_write_out; [done|].
    assert (~ in_block p a) as Hnp by (apply Ha, Hinv; by eexists).
    pose proof (length_le_bytes 8 0). unfold in_block in *. lia. }
  do 2 eexists. split; [|split; [|exact E2]].
  - apply wp_eq. unfold vmm_free_page. rewrite (pt_index_land va 12 1) by lia. wp_step.
    rewrite (u16_small (pt_idx 1 va)) by lia.
    eapply wp_done; [by apply (get_pt_present s U n T root va p)|]. wp_step.
    eapply wp_load_entry; [done|done|done|]. rewrite He. wp_step.
    eapply wp_done; [exact E1|]. wp_step. apply (wp_store_entry _ _ p (pt_idx 1 va)).
    { by apply (vmm_entry_mapped s U n T root Hinv). }
    by apply wp_emit.
  - intros va'. unfold translate.
    apply (walk_ext _ _ T (vi_tables _ _ _ _ _ Hinv)); [|apply Hinv].
    intros q j Hq Hj.
    change (k_ram (emits _ _)) with (ram_write (p + 8 * pt_idx 1 va) (le_bytes 8 0) r1).
    assert (entry_of r1 q j = entry_of (k_ram s) q j) as Eq.
    { apply entry_of_ext; [|done]. intros a Ha. apply (Hin q); [by apply Hinv|done]. }
    rewrite (entry_of_write s) by (done || by eapply vmm_table_wf).
    unfold set_entry. case_decide as Hd; [|done]. by destruct Hd as [-> ->].
Qed.

Lemma vmm_free_page_unmapped_witness :
  exists s' r, vmm_free_page pmm_alloc_block pmm_free_block 0xffff800000002000 0x12346000
      sample_mapped = Done tt s' /\
    (forall va', translate s' 0x2000 va' = translate sample_mapped 0x2000 va') /\
    pmm_alloc_block s' = Done 0 (set_ram r s').
Proof.
  destruct sample_map_done as (U & n & T & _ & Hm).
  pose proof (mp_state _ _ _ _ _ _ _ _ _ _ _ Hm) as [r Es].
  pose proof (vmm_free_page_unmapped sample_mapped U n T 0x2000 0x12346000 0x6000) as H.
  replace (hhdmoffset (k_vmm sample_mapped)) with 0xffff800000000000 in H by by rewrite Es.
  apply H; [apply Hm|by vm_compute..].
Defined.
