(* ===== verification/VmmInit.v ===== *)
(** [vmm_init] of kern/mm/vmm.c: the address space it leaves, as the list of the
    regions it maps one after the other, and the blocks that takes. *)

From S2P Require Import Prelude Limine Types Machine Memory Sample CString Video Printf Log.
From S2P Require Import Allocator Macros PageTable Pmm Vmm.

(** ** Reference: an address space as a list of regions

    [rg_count] pages from the virtual address [rg_va] on, mapped in order to the
    pages from [rg_pa] on. *)
Record region := Region {
  rg_va : Z;
  rg_pa : Z;
  rg_count : Z;
  rg_flags : Z;
}.

(** Which page of a region an address is in, counting round the 2^36 pages of
    the address space. *)
Definition region_page (r : region) (va : Z) : Z := (va / 4096 - rg_va r / 4096) mod 2 ^ 36.

Definition region_entry (r : region) (va : Z) : option Z :=
  if region_page r va <? rg_count r
  then Some (Z.lor (u64 (rg_pa r + 4096 * region_page r va)) (rg_flags r))
  else None.

(** The last region that covers an address decides. *)
Definition address_space (rs : list region) (va : Z) : translation :=
  foldl (fun t r => match region_entry r va with Some e => leaf e | None => t end)
    NotPresent rs.

(** The number of 2 MiB stretches a region touches, each with a last-level table
    of its own; every one takes at most three blocks. *)
Definition touched (va count : Z) : Z :=
  if count <=? 0 then 0 else (va / 4096 + count - 1) / 512 - va / 4096 / 512 + 1.

Definition region_cost (r : region) : Z := 3 * touched (rg_va r) (rg_count r).
Definition cost (rs : list region) : Z := foldr (fun r c => region_cost r + c) 0 rs.

(** ** Reference: the regions of the kernel's address space *)

Definition RW : Z := Z.lor PTE_BIT_PRESENT PTE_BIT_READ_WRITE.
Definition RW_NX : Z := Z.lor RW PTE_BIT_EXECUTE_DISABLE.
Definition RO_NX : Z := Z.lor PTE_BIT_PRESENT PTE_BIT_EXECUTE_DISABLE.

Definition page_count (n : Z) : Z := (n + 4095) / 4096.

(** An entry of the memory map, in the direct map. *)
Definition entry_regions (off : Z) (e : limine_memmap_entry) : list region :=
  let r flags := [Region (me_base e + off) (me_base e) (page_count (me_length e)) flags] in
  if me_type e =? LIMINE_MEMMAP_USABLE then r RW
  else if me_type e =? LIMINE_MEMMAP_FRAMEBUFFER then r RW_NX
  else if (me_type e =? LIMINE_MEMMAP_BOOTLOADER_RECLAIMABLE)
       || (me_type e =? LIMINE_MEMMAP_ACPI_RECLAIMABLE) then r RW
  else [].

(** A part of the kernel's image, at its link address. *)
Definition kernel_region (ka : limine_kernel_address_response) (start stop flags : Z) : region :=
  let lo := ALIGN_DOWN start PAGE_SIZE in
  Region lo (lo - kr_virtual_base ka + kr_physical_base ka)
    (page_count (ALIGN_UP stop PAGE_SIZE - lo)) flags.

Definition image_regions (lk : link_map) (ka : limine_kernel_address_response) : list region :=
  [kernel_region ka (text_start_addr lk) (text_end_addr lk) PTE_BIT_PRESENT;
   kernel_region ka (rodata_start_addr lk) (rodata_end_addr lk) RO_NX;
   kernel_region ka (data_start_addr lk) (data_end_addr lk) RW_NX].

Definition low_region : region := Region 0x1000 0x1000 (2 ^ 20 - 1) RW_NX.

Definition lapic_region (off lapic : Z) : region :=
  Region (ALIGN_DOWN (lapic ⊕ off) PAGE_SIZE) (ALIGN_DOWN lapic PAGE_SIZE) 1 RW.

(** The direct map: the bitmap and the entries. *)
Definition vmm_regions_direct (s : kstate) (mm : limine_memmap_response) : list region :=
  let off := hw_direct_map (k_hw s) in
  let pmm := k_pmm s in
  [Region (pmm_usable_addr pmm + off) (pmm_usable_addr pmm)
     (page_count (pmm_block_count pmm / 8)) RW] ++
  concat (entry_regions off <$> mr_entries mm).

Definition vmm_regions (s : kstate) (ka : limine_kernel_address_response)
    (mm : limine_memmap_response) : list region :=
  vmm_regions_direct s mm ++ image_regions (k_link s) ka ++
  [low_region; lapic_region (hw_direct_map (k_hw s)) (lapic_addr (k_apic s))].

(** ** Lemmas *)

Lemma region_page_range r va : 0 <= region_page r va < 2 ^ 36.
Proof. apply Z.mod_pos_bound. lia. Qed.

Lemma address_space_snoc rs r va :
  address_space (rs ++ [r]) va =
    match region_entry r va with Some e => leaf e | None => address_space rs va end.
Proof. unfold address_space. by rewrite foldl_app. Qed.

Lemma cost_app rs rs' : cost (rs ++ rs') = cost rs + cost rs'.
Proof. unfold cost. induction rs as [|r rs IH]; [done|]. cbn. rewrite IH. lia. Qed.

Lemma cost_snoc rs va pa k f : cost (rs ++ [Region va pa k f]) = cost rs + 3 * touched va k.
Proof. rewrite cost_app. unfold cost at 2, region_cost. simpl. lia. Qed.

Lemma touched_nonneg va count : 0 <= touched va count.
Proof.
  unfold touched. destruct (Z.leb_spec count 0); [lia|].
  pose proof (Z.div_le_mono (va / 4096) (va / 4096 + count - 1) 512 ltac:(lia) ltac:(lia)). lia.
Qed.

Lemma cost_nonneg rs : 0 <= cost rs.
Proof.
  unfold cost. induction rs as [|r rs IH]; cbn; [lia|].
  assert (0 <= region_cost r); [|lia].
  unfold region_cost. pose proof (touched_nonneg (rg_va r) (rg_count r)). lia.
Qed.

(** The page after a page of the same 2 MiB needs no further table. *)
Lemma touched_S va k : 0 <= k ->
  touched va (k + 1) = touched va k +
    (if (0 <? k) && ((va / 4096 + k) / 512 =? (va / 4096 + (k - 1)) / 512) then 0 else 1).
Proof.
  intros Hk. unfold touched. rewrite (proj2 (Z.leb_gt (k + 1) 0)) by lia.
  destruct (Z.leb_spec k 0), (Z.ltb_spec 0 k); try lia; cbn [andb].
  - replace (va / 4096 + (k + 1) - 1) with (va / 4096) by lia. lia.
  - replace (va / 4096 + (k + 1) - 1) with (va / 4096 + k) by lia.
    replace (va / 4096 + k - 1) with (va / 4096 + (k - 1)) by lia.
    destruct (Z.eqb_spec ((va / 4096 + k) / 512) ((va / 4096 + (k - 1)) / 512)); ldivmod.
Qed.

Lemma vpn_page va k : vpn (u64 (va + 4096 * k)) = (va / 4096 + k) mod 2 ^ 36.
Proof. unfold vpn, u64. ldivmod. Qed.

Lemma vpn_region_page r va k : 0 <= k < 2 ^ 36 ->
  vpn va = vpn (u64 (rg_va r + 4096 * k)) <-> region_page r va = k.
Proof.
  intros Hk. rewrite vpn_page. unfold vpn, region_page.
  generalize (va / 4096) (rg_va r / 4096). intros a b. split; intros H; ldivmod.
Qed.

Lemma lor_range a b n : 0 <= n -> 0 <= a < 2 ^ n -> 0 <= b < 2 ^ n -> 0 <= Z.lor a b < 2 ^ n.
Proof.
  intros Hn Ha Hb. assert (Z.lor a b = Z.lor a b mod 2 ^ n) as ->
    by (apply Z.bits_inj'; intros m Hm; destruct (Z.lt_ge_cases m n);
        [by rewrite Z.mod_pow2_bits_low by lia|];
        rewrite Z.mod_pow2_bits_high, Z.lor_spec by lia;
        rewrite <- (Z.mod_small a (2 ^ n)), <- (Z.mod_small b (2 ^ n)) by done;
        by rewrite !Z.mod_pow2_bits_high by lia).
  apply Z.mod_pos_bound. lia.
Qed.

(** ** The loops *)

Section proofs.
Context {alloc : M Z} {free : Z -> M unit} {BA : BlockAllocator alloc free}.
Context (s0 : kstate) (N root : Z).
Context (Hpml4 : kernel_page_map (k_vmm s0) = root ⊕ hhdmoffset (k_vmm s0)).

(** From [s0], with a root table of zeros and [N] blocks left: the tables for
    the regions [rs] are built. *)
Definition built (rs : list region) (s : kstate) : Prop :=
  exists r es U n T, s = emits es (set_ram r s0) /\ Forall (eq (EvAsm ReloadCr3)) es /\
    vmm_inv s U n T root /\ N <= Z.of_nat n + cost rs /\
    forall va, translate s root va = address_space rs va.

(** A region cut after its first [k] pages, and where the walk of its last page
    leads. *)
Definition built_upto (rs : list region) (r : region) (k : Z) (s : kstate) : Prop :=
  built (rs ++ [Region (rg_va r) (rg_pa r) k (rg_flags r)]) s /\
  (0 < k -> path_there s root (u64 (rg_va r + 4096 * (k - 1)))).

Lemma built_same rs s : built rs s ->
  k_apic s = k_apic s0 /\ k_vmm s = k_vmm s0 /\ exists U n T, vmm_inv s U n T root.
Proof using Type.
  intros (r & es & U & n & T & -> & _ & Hi & _). split; [done|]. split; [done|]. by exists U, n, T.
Qed.

Lemma built_upto_0 rs r s : built rs s -> built_upto rs r 0 s.
Proof using Type.
  intros (ra & es & U & n & T & E & Hes & Hi & Hc & Ht). split; [|lia].
  exists ra, es, U, n, T. do 3 (split; [done|]). split.
  - rewrite cost_snoc. unfold touched. simpl. lia.
  - intros va. rewrite address_space_snoc, Ht. unfold region_entry. cbn [rg_count].
    pose proof (region_page_range (Region (rg_va r) (rg_pa r) 0 (rg_flags r)) va).
    by rewrite (proj2 (Z.ltb_ge _ 0)) by lia.
Qed.

(** Paths are there for all of a 2 MiB stretch. *)
Lemma path_there_near s va k :
  path_there s root (u64 (va + 4096 * (k - 1))) ->
  (va / 4096 + k) / 512 = (va / 4096 + (k - 1)) / 512 ->
  path_there s root (u64 (va + 4096 * k)).
Proof using Type.
  intros Hp E. unfold path_there in *.
  rewrite (leaf_table_near _ 4 root _ (u64 (va + 4096 * (k - 1)))); [done|lia|].
  rewrite !vpn_page. revert E. generalize (va / 4096 + k) (va / 4096 + (k - 1)).
  intros a b E. ldivmod.
Qed.

Lemma built_step rs r k s :
  0 <= k < 2 ^ 36 -> 0 <= rg_flags r < 2 ^ 64 ->
  cost rs + 3 * touched (rg_va r) (k + 1) <= N -> built_upto rs r k s ->
  wp (vmm_map_page alloc (root ⊕ hhdmoffset (k_vmm s0)) (u64 (rg_va r + 4096 * k))
        (u64 (rg_pa r + 4096 * k)) (rg_flags r))
    (fun _ s' => built_upto rs r (k + 1) s') never s.
Proof using Type.
  intros Hk Hf Hcost [(ra & es & U & n & T & E & Hes & Hi & Hc & Ht) Hpath].
  pose proof (touched_S (rg_va r) k ltac:(lia)) as Htouch.
  rewrite cost_snoc in Hc.
  assert (Z.of_nat (path_cost s root (u64 (rg_va r + 4096 * k))) <=
    3 * (touched (rg_va r) (k + 1) - touched (rg_va r) k)) as Hpc.
  { rewrite Htouch. unfold path_cost. case_decide as Hp; [destruct (_ && _); lia|].
    destruct (Z.ltb_spec 0 k); [|cbn; lia].
    destruct (Z.eqb_spec ((rg_va r / 4096 + k) / 512) ((rg_va r / 4096 + (k - 1)) / 512));
      [|cbn; lia].
    exfalso. apply Hp, path_there_near; auto. }
  replace (hhdmoffset (k_vmm s0)) with (hhdmoffset (k_vmm s)) by by rewrite E.
  eapply (wp_vmm_map_page s U n T root); [done|apply lor_range; [lia|apply u64_range|done]| |lia].
  intros s' U' n' T' [[r' ->] Hi' Hn _ _ Hp' Ht']. split.
  - exists r', (es ++ [EvAsm ReloadCr3]), U', n', T'. split_and!.
    + subst s. rewrite <- emits_app. done.
    + apply Forall_app. by split; [|constructor].
    + done.
    + rewrite cost_snoc. lia.
    + intros va. rewrite Ht', Ht, !address_space_snoc. unfold region_entry. cbn [rg_va rg_pa rg_count rg_flags].
      pose proof (region_page_range r va).
      change (region_page _ va) with (region_page r va).
      change (region_page (Region (rg_va r) (rg_pa r) (k + 1) (rg_flags r)) va) with (region_page r va).
      destruct (decide _) as [Hv|Hv]; rewrite (vpn_region_page r) in Hv by done.
      * rewrite Hv, (proj2 (Z.ltb_lt k (k + 1))) by lia. done.
      * destruct (Z.ltb_spec (region_page r va) k), (Z.ltb_spec (region_page r va) (k + 1));
          try done; lia.
  - intros _. by replace (k + 1 - 1) with k by lia.
Qed.
Lemma built_upto_exit rs r k s :
  k = rg_count r \/ (k = 0 /\ rg_count r <= 0) -> built_upto rs r k s -> built (rs ++ [r]) s.
Proof using Type.
  destruct r as [va pa c f]. unfold built_upto. cbn [rg_va rg_pa rg_count rg_flags].
  intros [->|[-> Hc]] [Hb _]; [done|].
  destruct Hb as (ra & es & U & n & T & E & Hes & Hi & Hn & Ht).
  exists ra, es, U, n, T. do 3 (split; [done|]). split.
  - rewrite cost_snoc in *. unfold touched in *. by rewrite (proj2 (Z.leb_le c 0)) by lia.
  - intros va'. rewrite Ht, !address_space_snoc. unfold region_entry. cbn [rg_count].
    pose proof (region_page_range (Region va pa 0 f) va').
    pose proof (region_page_range (Region va pa c f) va').
    rewrite (proj2 (Z.ltb_ge (region_page (Region va pa 0 f) va') 0)) by lia.
    by rewrite (proj2 (Z.ltb_ge (region_page (Region va pa c f) va') c)) by lia.
Qed.

Lemma touched_mono va k c : k <= c -> touched va k <= touched va c.
Proof using Type.
  intros Hk. unfold touched. destruct (Z.leb_spec k 0), (Z.leb_spec c 0); try lia.
  - pose proof (Z.div_le_mono (va / 4096) (va / 4096 + c - 1) 512 ltac:(lia) ltac:(lia)). lia.
  - pose proof (Z.div_le_mono (va / 4096 + k - 1) (va / 4096 + c - 1) 512
      ltac:(lia) ltac:(lia)). lia.
Qed.

(** One loop of [vmm_init] maps one region. *)
Lemma wp_map_loop lo hi va pa rs r s (Q : unit -> kstate -> Prop) H :
  0 <= lo -> hi + 4096 <= 2 ^ 64 ->
  (forall a, lo <= a < hi -> va a = u64 (rg_va r + (a - lo)) /\ pa a = u64 (rg_pa r + (a - lo))) ->
  rg_count r = page_count (hi - lo) -> rg_count r <= 2 ^ 36 -> 0 <= rg_flags r < 2 ^ 64 ->
  cost (rs ++ [r]) <= N -> built rs s ->
  (forall s', built (rs ++ [r]) s' -> Q tt s') ->
  wp (map_loop alloc lo hi va pa (rg_flags r)) Q H s.
Proof using Hpml4.
  intros Hlo Hhi Hva Hcnt Hmax Hf Hcost Hb HQ. unfold map_loop.
  apply (wp_for lo hi PAGE_SIZE _ (fun a => built_upto rs r ((a - lo) / 4096)));
    [done|done|done| | |].
  - intros a s1 Ha [k Hk] Hs1. unfold PAGE_SIZE in *.
    assert (a - lo = 4096 * k) as Ek by lia.
    replace ((a - lo) / 4096) with k in Hs1 by (rewrite Ek, Z.mul_comm, Z.div_mul; lia).
    replace ((a + 4096 - lo) / 4096) with (k + 1) by ldivmod.
    assert (k + 1 <= rg_count r) by (rewrite Hcnt; unfold page_count; ldivmod).
    destruct (Hva a Ha) as [-> ->]. rewrite Ek. unfold vmm_get. do 2 wp_step.
    replace (kernel_page_map (k_vmm s1)) with (root ⊕ hhdmoffset (k_vmm s0)).
    2:{ destruct Hs1 as [(ra & es & U & n & T & -> & _) _]. by rewrite <- Hpml4. }
    eapply wp_mono; [apply (built_step rs r k s1)|auto|done]; [lia|done| |done].
    pose proof (touched_mono (rg_va r) (k + 1) (rg_count r) ltac:(lia)).
    destruct r as [v p c f]. rewrite cost_snoc in Hcost. cbn in *. lia.
  - intros a s1 Ha1 Ha2 Ha3 [k Hk] Hs1. unfold PAGE_SIZE in *.
    apply HQ. apply (built_upto_exit rs r ((a - lo) / 4096) s1); [|exact Hs1].
    rewrite Hcnt. unfold page_count. clear -Hk Ha1 Ha2 Ha3. destruct Ha3; [left|right]; ldivmod.
  - rewrite Z.sub_diag. by apply built_upto_0.
Qed.
End proofs.

(** ** The phases of vmm_init *)

(** The state in which the regions are mapped: the root table is there, and all
    zeros. *)
Definition rooted (s s1 : kstate) (root : Z) : Prop :=
  exists es r, console_only es /\
    let off := hw_direct_map (k_hw s) in
    s1 = emits es (set_vmm (VmmGlobals (root ⊕ off) off (root ⊕ off ⊖ 8 ⊗ off)) (set_ram r s)).

Lemma set_ram_emits r es s : set_ram r (emits es s) = emits es (set_ram r s).
Proof. done. Qed.

Lemma set_vmm_set_ram r g s : set_ram r (set_vmm g s) = set_vmm g (set_ram r s).
Proof. done. Qed.

Lemma set_vmm_twice g g' s : set_vmm g (set_vmm g' s) = set_vmm g s.
Proof. done. Qed.

Section phases.
Context {alloc : M Z} {free : Z -> M unit} {BA : BlockAllocator alloc free}.

Lemma wp_vmm_init_root s U n ka h (Q : limine_kernel_address_response -> kstate -> Prop) H :
  hhdm_request_response (k_boot s) = Some h -> hr_offset h = hw_direct_map (k_hw s) ->
  0x100000000 <= hw_direct_map (k_hw s) ->
  hw_direct_map (k_hw s) + hw_ram_size (k_hw s) <= 2 ^ 64 ->
  kernel_addr_request_response (k_boot s) = Some ka -> ba_inv s U (S n) ->
  (forall s1 root, rooted s s1 root -> ~ (root ∈ U) ->
     vmm_inv s1 ({[root]} ∪ U) n {[root := 4%nat]} root ->
     (forall va, translate s1 root va = NotPresent) -> Q ka s1) ->
  wp (vmm_init_root alloc) Q H s.
Proof using Type.
  intros Hh Ho Hlo Hhi Hka Hba HQ. unfold vmm_init_root, vmm_set.
  do 2 wp_step. rewrite Hh. wp_step. eapply wp_deref; [done|]. rewrite Ho.
  do 2 wp_step. rewrite (proj2 (Z.eqb_neq _ 0)) by lia. do 4 wp_step.
  cbn [k_boot set_vmm]. rewrite Hka. do 3 wp_step.
  set (s1 := set_vmm _ s).
  assert (ba_inv s1 U (S n)) as Hba1 by (by apply (ba_frame s)).
  destruct (ba_alloc s1 U (S n) Hba1) as (p & r & E & Hin & Hp0 & Hp & Hba2).
  eapply wp_done; [exact E|]. clear E. do 3 wp_step.
  rewrite (proj2 (Z.eqb_neq p 0)) by done. do 8 wp_step.
  apply wp_printf_typed; [reflexivity|]. intros es Hes. wp_step.
  assert (block_wf s1 p) as Hpw.
  { apply (ba_wf _ _ _ p Hba2). set_solver +. }
  cbn [k_vmm set_vmm kernel_page_map hhdmoffset s1 set_ram].
  pose proof Hpw as (_ & Hpos & Hram & _). cbn [s1 k_hw set_vmm] in Hram.
  assert (p ⊕ hw_direct_map (k_hw s) = p + hw_direct_map (k_hw s)) as Epa
    by (apply u64_small; lia).
  match goal with |- wp _ _ _ ?x => set (s2 := x) end.
  assert (mapped s2 (p ⊕ hw_direct_map (k_hw s)) PAGE_SIZE p) as Hm.
  { rewrite Epa. apply (mapped_hw s); [done|]. apply mapped_direct; unfold PAGE_SIZE; lia. }
  assert (0 <= PAGE_SIZE < 2 ^ 64) as Hps by (unfold PAGE_SIZE; lia).
  apply (wp_memset s2 _ 0 PAGE_SIZE p _ _ Hm (proj1 (u64_range _)) Hps).
  apply wp_ret. set (s3 := set_ram (ram_fill p PAGE_SIZE 0 (k_ram s2)) s2).
  assert (rooted s s3 p) as Hroot.
  { exists es, (ram_fill p PAGE_SIZE 0 r). split; [exact Hes|].
    cbv zeta. unfold s3. change (k_ram s2) with r. generalize (ram_fill p PAGE_SIZE 0 r).
    intros r3. unfold s2, s1. by rewrite set_ram_emits, !set_vmm_set_ram, set_ram_set_ram, !set_vmm_twice. }
  assert (forall j, 0 <= j < 512 -> entry_of (k_ram s3) p j = 0) as Hz
    by (intros j Hj; exact (entry_of_zeros _ _ _ Hj)).
  assert (vmm_inv s3 ({[p]} ∪ U) n {[p := 4%nat]} p) as Hinv.
  { apply vmm_inv_root; [|done|done|done|set_solver +|exact Hz].
    apply (ba_frame (set_ram r s1)); [exact Hba2|done|done|]. intros a Ha.
    assert (~ in_block p a) as Hnp by (apply Ha; set_solver +).
    unfold in_block in Hnp. change (k_ram s3) with (ram_fill p PAGE_SIZE 0 r). cbn [k_ram set_ram].
    unfold PAGE_SIZE. by rewrite ram_get_fill, decide_False by lia. }
  apply (HQ s3 p Hroot Hp Hinv).
  intros va. unfold translate. rewrite walk_S. cbn zeta. by rewrite Hz.
Qed.
(** The loops over the memory map and over the parts of the image, from a state
    [s0] whose tables are being built. *)
Section regions.
Context (s0 : kstate) (N root : Z).
Context (Hpml4 : kernel_page_map (k_vmm s0) = root ⊕ hhdmoffset (k_vmm s0)).

Abbreviation built := (built (alloc := alloc) (free := free) s0 N root).

Lemma u64_add_l x y : u64 x ⊕ y = u64 (x + y).
Proof using Type. unfold u64. by rewrite Zplus_mod_idemp_l. Qed.

(** One of the tests of a memory map entry's type. *)
Lemma wp_map_entry_type off e flags rs s (Q : unit -> kstate -> Prop) H :
  0 <= me_length e <= 2 ^ 48 -> 0 <= flags < 2 ^ 64 ->
  let r := Region (me_base e + off) (me_base e) (page_count (me_length e)) flags in
  cost (rs ++ [r]) <= N -> built rs s -> (forall s', built (rs ++ [r]) s' -> Q tt s') ->
  wp (map_loop alloc 0 (me_length e) (fun j => me_base e ⊕ j ⊕ off) (fun j => me_base e ⊕ j) flags)
    Q H s.
Proof using Hpml4.
  intros Hl Hf r Hc Hb HQ.
  apply (wp_map_loop s0 N root Hpml4 0 (me_length e) _ _ rs r); try done; try lia.
  - intros a Ha. cbn [r rg_va rg_pa]. rewrite u64_add_l. split; f_equal; lia.
  - cbn [r rg_count]. f_equal. lia.
  - cbn [r rg_count]. unfold page_count. ldivmod.
Qed.

Lemma wp_map_entry off e rs s (Q : unit -> kstate -> Prop) H :
  0 <= me_length e <= 2 ^ 48 -> cost (rs ++ entry_regions off e) <= N -> built rs s ->
  (forall s', built (rs ++ entry_regions off e) s' -> Q tt s') ->
  wp (map_entry alloc off e) Q H s.
Proof using Hpml4.
  intros Hl Hc Hb HQ. unfold map_entry. unfold entry_regions in Hc, HQ.
  unfold LIMINE_MEMMAP_USABLE, LIMINE_MEMMAP_FRAMEBUFFER, LIMINE_MEMMAP_BOOTLOADER_RECLAIMABLE,
    LIMINE_MEMMAP_ACPI_RECLAIMABLE in *.
  destruct (Z.eqb_spec (me_type e) 0) as [Et|Ht0].
  { rewrite Et. cbn [Z.eqb]. wp_step.
    apply (wp_map_entry_type off e RW rs); [done|done|done|done|]. intros s' Hb'.
    repeat wp_step. by apply HQ. }
  destruct (Z.eqb_spec (me_type e) 7) as [Et|Ht7].
  { rewrite Et. cbn [Z.eqb Pos.eqb]. do 3 wp_step.
    apply (wp_map_entry_type off e RW_NX rs); [done|done|done|done|]. intros s' Hb'.
    repeat wp_step. by apply HQ. }
  destruct (Z.eqb_spec (me_type e) 5) as [Et|Ht5].
  { rewrite Et. cbn [Z.eqb Pos.eqb]. do 5 wp_step.
    apply (wp_map_entry_type off e RW rs); [done|done|done|done|]. intros s' Hb'.
    repeat wp_step. by apply HQ. }
  destruct (Z.eqb_spec (me_type e) 2) as [Et|Ht2]; cbn [orb] in *.
  { do 6 wp_step.
    apply (wp_map_entry_type off e RW rs); [done|done|done|done|]. intros s' Hb'. by apply HQ. }
  repeat wp_step. apply HQ. by rewrite app_nil_r.
Qed.

Lemma wp_map_entries off mm rs s (Q : unit -> kstate -> Prop) H :
  built rs s -> mr_entry_count mm = Z.of_nat (length (mr_entries mm)) -> mr_entry_count mm < 2 ^ 64 ->
  (forall e, e ∈ mr_entries mm -> 0 <= me_length e <= 2 ^ 48) ->
  cost (rs ++ concat (entry_regions off <$> mr_entries mm)) <= N ->
  (forall s', built (rs ++ concat (entry_regions off <$> mr_entries mm)) s' -> Q tt s') ->
  wp (for_ 0 (mr_entry_count mm) 1 (fun i => e ← index (mr_entries mm) i; map_entry alloc off e))
    Q H s.
Proof using Hpml4.
  intros Hb Hn Hn64 Hl Hc HQ.
  apply wp_for1 with (I := fun i =>
    built (rs ++ concat (entry_regions off <$> take (Z.to_nat i) (mr_entries mm)))); try lia.
  - intros i s1 Hi Hb1. wp_step.
    destruct (lookup_lt_is_Some_2 (mr_entries mm) (Z.to_nat i) ltac:(lia)) as [e He].
    apply (wp_index _ _ e); [lia|done|].
    replace (Z.to_nat (i + 1)) with (S (Z.to_nat i)) by lia.
    rewrite (take_S_r _ _ e), fmap_app, concat_app, app_assoc by done.
    simpl (concat (entry_regions off <$> [e])). rewrite app_nil_r.
    eapply wp_map_entry; [apply Hl; by eapply list_elem_of_lookup_2| |exact Hb1|auto].
    rewrite <- (take_drop_middle _ _ _ He) in Hc.
    rewrite fmap_app, fmap_cons, concat_app in Hc. simpl in Hc.
    rewrite !cost_app in *.
    pose proof (cost_nonneg (concat (entry_regions off <$> drop (S (Z.to_nat i)) (mr_entries mm)))).
    lia.
  - intros s1. rewrite take_ge by lia. apply HQ.
  - by rewrite take_0, app_nil_r.
Qed.

(** A part of the image, between page boundaries. *)
Lemma wp_map_kernel ka start stop flags rs s (Q : unit -> kstate -> Prop) H :
  built rs s -> 0 <= start < 2 ^ 64 -> 0 <= stop -> stop + 8192 <= 2 ^ 64 -> stop - start <= 2 ^ 47 ->
  0 <= flags < 2 ^ 64 -> cost (rs ++ [kernel_region ka start stop flags]) <= N ->
  (forall s', built (rs ++ [kernel_region ka start stop flags]) s' -> Q tt s') ->
  wp (map_kernel alloc ka (ALIGN_DOWN start PAGE_SIZE) (ALIGN_UP stop PAGE_SIZE) flags) Q H s.
Proof using Hpml4.
  intros Hb H1 H2 H3 H4 Hf Hc HQ. unfold map_kernel.
  pose proof (ALIGN_DOWN_4096 start H1) as Ed. pose proof (ALIGN_UP_4096 stop H2 ltac:(lia)) as Eu.
  fold PAGE_SIZE in Ed, Eu.
  assert (0 <= ALIGN_DOWN start PAGE_SIZE <= start) as Hd by (rewrite Ed; unfold PAGE_SIZE; ldivmod).
  assert (ALIGN_DOWN start PAGE_SIZE > start - 4096) by (rewrite Ed; unfold PAGE_SIZE; ldivmod).
  assert (ALIGN_UP stop PAGE_SIZE < stop + 4096) by (rewrite Eu; unfold PAGE_SIZE; ldivmod).
  apply (wp_map_loop s0 N root Hpml4 _ _ _ _ rs (kernel_region ka start stop flags));
    try done; try lia.
  - intros a Ha. cbn [kernel_region rg_va rg_pa]. split.
    + rewrite u64_small; lia.
    + rewrite u64_add_l. f_equal. lia.
  - cbn [kernel_region rg_count]. unfold page_count. ldivmod.
Qed.

(** The memory manager's bitmap, and the low 4 GiB. *)
Lemma wp_map_bitmap off pmm rs s (Q : unit -> kstate -> Prop) H :
  let r := Region (pmm_usable_addr pmm + off) (pmm_usable_addr pmm)
    (page_count (pmm_block_count pmm / 8)) RW in
  built rs s -> 0 <= pmm_block_count pmm <= 2 ^ 48 -> cost (rs ++ [r]) <= N ->
  (forall s', built (rs ++ [r]) s' -> Q tt s') ->
  wp (map_loop alloc 0 (pmm_block_count pmm / 8) (fun i => pmm_usable_addr pmm ⊕ off ⊕ i)
        (fun i => pmm_usable_addr pmm ⊕ i) RW) Q H s.
Proof using Hpml4.
  intros r Hb Hl Hc HQ. assert (pmm_block_count pmm / 8 <= 2 ^ 45) by ldivmod.
  apply (wp_map_loop s0 N root Hpml4 _ _ _ _ rs r); try done; try lia.
  - intros a Ha. cbn [r rg_va rg_pa]. rewrite u64_add_l. split; f_equal; lia.
  - cbn [r rg_count]. f_equal. lia.
  - cbn [r rg_count]. unfold page_count. ldivmod.
Qed.

Lemma wp_map_low rs s (Q : unit -> kstate -> Prop) H :
  built rs s -> cost (rs ++ [low_region]) <= N -> (forall s', built (rs ++ [low_region]) s' -> Q tt s') ->
  wp (map_loop alloc 0x1000 0x100000000 (fun a => a) (fun a => a) RW_NX) Q H s.
Proof using Hpml4.
  intros Hb Hc HQ. apply (wp_map_loop s0 N root Hpml4 _ _ _ _ rs low_region); try done.
  intros a Ha. unfold low_region. cbn [rg_va rg_pa].
  replace (4096 + (a - 4096)) with a by lia. by rewrite u64_small by lia.
Qed.
End regions.

(** A list of regions is an initial part of the whole. *)
Ltac region_prefix Hcost :=
  apply Hcost; eexists; unfold vmm_regions, vmm_regions_direct, image_regions; cbv zeta; rewrite <- ?app_assoc; reflexivity.

(** What [vmm_init] runs on: the bootloader's answers agree with the address
    space it left, and sizes are below those of the address space. *)
Record vmm_init_pre (s : kstate) (ka : limine_kernel_address_response)
    (mm : limine_memmap_response) : Prop := {
  vp_hhdm : exists h, hhdm_request_response (k_boot s) = Some h /\
    hr_offset h = hw_direct_map (k_hw s);
  vp_low : 0x100000000 <= hw_direct_map (k_hw s);
  vp_high : hw_direct_map (k_hw s) + hw_ram_size (k_hw s) <= 2 ^ 64;
  vp_ka : kernel_addr_request_response (k_boot s) = Some ka;
  vp_map : memmap (k_pmm s) = Some mm;
  vp_count : mr_entry_count mm = Z.of_nat (length (mr_entries mm));
  vp_count64 : mr_entry_count mm < 2 ^ 64;
  vp_lengths : forall e, e ∈ mr_entries mm -> 0 <= me_length e <= 2 ^ 48;
  vp_blocks : 0 <= pmm_block_count (k_pmm s) <= 2 ^ 48;
  vp_image : Forall (fun part => 0 <= part.1 < 2 ^ 64 /\ 0 <= part.2 /\
      part.2 + 8192 <= 2 ^ 64 /\ part.2 - part.1 <= 2 ^ 47)
    [(text_start_addr (k_link s), text_end_addr (k_link s));
     (rodata_start_addr (k_link s), rodata_end_addr (k_link s));
     (data_start_addr (k_link s), data_end_addr (k_link s))];
  vp_lapic : 0 <= lapic_addr (k_apic s) < 2 ^ 32;
}.

(** The kernel's address space is in force: [root] is in CR3, its translations
    are those of the regions. *)
Record address_space_on (s : kstate) (rs : list region) (root : Z) (s' : kstate) : Prop := {
  ao_state : exists es r k,
    let off := hw_direct_map (k_hw s) in
    s' = emits es (set_vmm (VmmGlobals (root + off) off (root + off ⊖ 8 ⊗ off)) (set_ram r s)) /\
    device es = replicate k (EvAsm ReloadCr3) ++ [EvAsm (MovCr3 root); EvAsm ReloadCr3];
  ao_inv : exists U n T, vmm_inv s' U n T root;
  ao_translate : forall va, translate s' root va = address_space rs va;
}.

(** The lapic's page, which is mapped on its own. *)
Lemma wp_map_lapic s0 N root rs lapic s (Q : unit -> kstate -> Prop) H :
  let off := hhdmoffset (k_vmm s0) in
  built (alloc := alloc) (free := free) s0 N root rs s ->
  0 <= lapic < 2 ^ 32 -> cost (rs ++ [lapic_region off lapic]) <= N ->
  (forall s', built (alloc := alloc) (free := free) s0 N root (rs ++ [lapic_region off lapic]) s' ->
     Q tt s') ->
  wp (vmm_map_page alloc (root ⊕ off) (ALIGN_DOWN (lapic ⊕ off) PAGE_SIZE)
        (ALIGN_DOWN lapic PAGE_SIZE) RW) Q H s.
Proof using Type.
  intros off Hb Hl Hc HQ. set (r := lapic_region off lapic) in *.
  assert (forall x, 0 <= x < 2 ^ 64 -> ALIGN_DOWN x PAGE_SIZE = u64 (ALIGN_DOWN x PAGE_SIZE + 4096 * 0)) as Ea.
  { intros x Hx. rewrite Z.add_0_r, u64_small; [done|].
    unfold PAGE_SIZE. rewrite ALIGN_DOWN_4096 by done. ldivmod. }
  rewrite (Ea (lapic ⊕ off)), (Ea lapic) by (apply u64_range || lia).
  eapply wp_mono; [apply (built_step (alloc := alloc) (free := free) s0 N root rs r 0 s)| |done].
  - lia.
  - done.
  - unfold r, lapic_region in Hc. rewrite cost_snoc in Hc. exact Hc.
  - by apply built_upto_0.
  - intros [] s' Hs'. apply HQ. apply (built_upto_exit s0 N root rs r (0 + 1)); [by left|done].
Qed.

(** All the loops of [vmm_init], one region after the other. *)
Lemma wp_vmm_init_map s s1 N root ka mm (Q : unit -> kstate -> Prop) H :
  vmm_init_pre s ka mm ->
  k_pmm s1 = k_pmm s -> k_link s1 = k_link s -> k_apic s1 = k_apic s ->
  hhdmoffset (k_vmm s1) = hw_direct_map (k_hw s) ->
  kernel_page_map (k_vmm s1) = root ⊕ hhdmoffset (k_vmm s1) ->
  cost (vmm_regions s ka mm) <= N ->
  built (alloc := alloc) (free := free) s1 N root [] s1 ->
  (forall s', built (alloc := alloc) (free := free) s1 N root (vmm_regions s ka mm) s' -> Q tt s') ->
  wp (vmm_init_map alloc ka) Q H s1.
Proof using Type.
  intros [_ Hlo Hhi Hka Hmm Hcnt Hcnt64 Hlen Hblk Himg Hlap] Epmm Elk Eap Eoff Hpml4 Htotal Hb0 HQ.
  assert (forall rs, rs `prefix_of` vmm_regions s ka mm -> cost rs <= N) as Hcost.
  { intros rs [rs' E]. rewrite E, cost_app in Htotal. pose proof (cost_nonneg rs'). lia. }
  apply Forall_cons in Himg as [(T1 & T2 & T3 & T4) Himg].
  apply Forall_cons in Himg as [(R1 & R2 & R3 & R4) Himg].
  apply Forall_cons in Himg as [(D1 & D2 & D3 & D4) _]. cbn [fst snd] in *.
  unfold vmm_init_map, vmm_get. do 7 wp_step. rewrite Epmm, Elk, Eoff.
  apply (wp_map_bitmap s1 N root Hpml4 (hw_direct_map (k_hw s)) (k_pmm s) [] s1 _ _ Hb0);
    [done|region_prefix Hcost|].
  intros s2 Hb2. wp_step. rewrite Hmm. eapply wp_deref; [done|]. wp_step.
  apply (wp_map_entries s1 N root Hpml4 (hw_direct_map (k_hw s)) mm _ s2 _ _ Hb2);
    [done..|region_prefix Hcost|]. intros s3 Hb3. wp_step.
  apply (wp_map_kernel s1 N root Hpml4 ka _ _ _ _ s3 _ _ Hb3); [done..|region_prefix Hcost|].
  intros s4 Hb4. wp_step.
  apply (wp_map_kernel s1 N root Hpml4 ka _ _ _ _ s4 _ _ Hb4); [done..|region_prefix Hcost|].
  intros s5 Hb5. wp_step.
  apply (wp_map_kernel s1 N root Hpml4 ka _ _ _ _ s5 _ _ Hb5); [done..|region_prefix Hcost|].
  intros s6 Hb6. wp_step.
  apply (wp_map_low s1 N root Hpml4 _ s6 _ _ Hb6); [region_prefix Hcost|].
  intros s7 Hb7. pose proof (built_same _ _ _ _ _ Hb7) as (Eap7 & Evm7 & _).
  do 4 wp_step. rewrite Eap7, Evm7, Eap, Hpml4, <- Eoff.
  apply (wp_map_lapic s1 N root _ _ s7 _ _ Hb7); [done|rewrite Eoff; region_prefix Hcost|].
  intros s8 Hb8. apply HQ. rewrite Eoff in Hb8. unfold vmm_regions, vmm_regions_direct, image_regions. cbv zeta.
  by rewrite <- !app_assoc in Hb8.
Qed.

(** CR3 is loaded with the root. *)
Lemma wp_vmm_load s s1 N root rs s8 H :
  rooted s s1 root ->
  0 <= root -> root + hw_direct_map (k_hw s) < 2 ^ 64 -> 0 <= hw_direct_map (k_hw s) ->
  built (alloc := alloc) (free := free) s1 N root rs s8 ->
  wp (pml4 ← vmm_get kernel_page_map; vmm_set_ctx pml4 ;; asm ReloadCr3)
    (fun _ s' => address_space_on s rs root s') H s8.
Proof using Type.
  intros (es & r & Hes & Es1) Hr Hro Ho Hb8.
  pose proof (built_same _ _ _ _ _ Hb8) as (_ & Evm8 & Hi8).
  unfold vmm_set_ctx, vmm_get. do 6 wp_step. rewrite Evm8, Es1. cbn zeta in Es1.
  cbn [k_vmm emits set_trace set_vmm kernel_page_map hhdmoffset].
  rewrite (u64_small (root + _)) in * by lia.
  replace (root + hw_direct_map (k_hw s) - hw_direct_map (k_hw s)) with root by lia.
  rewrite (u64_small root) by lia.
  destruct Hb8 as (r8 & es8 & U & n & T & -> & Hes8 & _ & _ & Ht). split.
  - exists (es ++ es8 ++ [EvAsm (MovCr3 root)] ++ [EvAsm ReloadCr3]), r8, (length es8).
    split; [by rewrite Es1, <- !emits_app|].
    rewrite !device_app, (device_console es Hes), (device_id es8).
    + by rewrite (replicate_as_Forall_2 _ _ _ eq_refl Hes8).
    + eapply Forall_impl; [exact Hes8|]. by intros e <- [].
  - destruct Hi8 as (U8 & n8 & T8 & Hi). exists U8, n8, T8. by apply vmm_inv_trace, vmm_inv_trace.
  - exact Ht.
Qed.

Lemma vmm_init_done s U n ka mm :
  vmm_init_pre s ka mm -> ba_inv s U n -> cost (vmm_regions s ka mm) < Z.of_nat n ->
  exists root s', vmm_init alloc s = Done tt s' /\
    ~ (root ∈ U) /\ address_space_on s (vmm_regions s ka mm) root s'.
Proof using Type.
  intros Hp Hba Hn. destruct n as [|n]; [pose proof (cost_nonneg (vmm_regions s ka mm)); lia|].
  enough (wp (vmm_init alloc) (fun _ s' => exists root, ~ (root ∈ U) /\
    address_space_on s (vmm_regions s ka mm) root s') never s) as Hw.
  { apply wp_inv_done in Hw as ([] & s' & E & root & H). eauto. }
  pose proof Hp as [(h & Hh & Ho) Hlo Hhi Hka _ _ _ _ _ _ _].
  unfold vmm_init. wp_step.
  eapply (wp_vmm_init_root s U n ka h); try done.
  intros s1 root Hroot HU Hinv Hnone. wp_step.
  assert (k_hw s1 = k_hw s /\ k_pmm s1 = k_pmm s /\ k_link s1 = k_link s /\ k_apic s1 = k_apic s /\
    hhdmoffset (k_vmm s1) = hw_direct_map (k_hw s) /\
    kernel_page_map (k_vmm s1) = root ⊕ hw_direct_map (k_hw s)) as (Ehw & Epmm & Elk & Eap & Eoff & Epm)
    by (destruct Hroot as (es & r & _ & ->); done).
  assert (0 <= root /\ root + hw_direct_map (k_hw s) < 2 ^ 64) as [Hr0 Hr1].
  { assert (root ∈ {[root]} ∪ U) as Hin by set_solver +.
    destruct (ba_wf s1 _ n root (vi_alloc _ _ _ _ _ Hinv) Hin) as (_ & ? & ? & _).
    rewrite Ehw in *. lia. }
  apply (wp_vmm_init_map s s1 (Z.of_nat n) root ka mm); try done; [by rewrite Eoff|lia| |].
  { exists (k_ram s1), [], ({[root]} ∪ U), n, {[root := 4%nat]}.
    split; [by rewrite set_ram_id, emits_nil|]. split; [done|]. split; [done|]. split; [cbn; lia|done]. }
  intros s8 Hb8.
  eapply wp_mono; [apply (wp_vmm_load s s1 (Z.of_nat n) root (vmm_regions s ka mm) s8); try done; lia| |done].
  intros [] s9 Hs9. by exists root.
Qed.
End phases.

(** ** Reading the address space *)

Lemma address_space_app rs rs' va :
  address_space (rs ++ rs') va =
    foldl (fun t r => match region_entry r va with Some e => leaf e | None => t end)
      (address_space rs va) rs'.
Proof. apply foldl_app. Qed.

(** The high half's last 2 GiB, where the image is linked. *)
Definition IMAGE_BASE : Z := 0xffffffff80000000.

Definition in_part (start stop va : Z) : Prop :=
  start / 4096 <= va / 4096 < (stop + 4095) / 4096.

(** The layout of linker.ld and of the bootloader's direct map: the parts of the
    image follow each other in the last 2 GiB, on pages of their own, and the
    direct map lies below them in the high half. *)
Record image_layout (s : kstate) (mm : limine_memmap_response) : Prop := {
  il_text : IMAGE_BASE <= text_start_addr (k_link s);
  il_rodata : (text_end_addr (k_link s) + 4095) / 4096 <= rodata_start_addr (k_link s) / 4096;
  il_data : (rodata_end_addr (k_link s) + 4095) / 4096 <= data_start_addr (k_link s) / 4096;
  il_text_order : text_start_addr (k_link s) <= text_end_addr (k_link s);
  il_rodata_order : rodata_start_addr (k_link s) <= rodata_end_addr (k_link s);
  il_direct : 0xffff800000000000 <= hw_direct_map (k_hw s);
  il_below : hw_direct_map (k_hw s) + 2 ^ 32 <= IMAGE_BASE;
  il_entries : forall e, e ∈ mr_entries mm ->
    0 <= me_base e /\ hw_direct_map (k_hw s) + me_base e + me_length e <= IMAGE_BASE;
  il_bitmap : 0 <= pmm_usable_addr (k_pmm s) /\
    hw_direct_map (k_hw s) + pmm_usable_addr (k_pmm s) + pmm_block_count (k_pmm s) / 8 <= IMAGE_BASE;
}.

(** A part of the image at an address of the last 2 GiB. *)
Lemma kernel_region_entry ka start stop flags va :
  IMAGE_BASE <= start < 2 ^ 64 -> 0 <= stop -> stop + 8192 <= 2 ^ 64 -> IMAGE_BASE <= va < 2 ^ 64 ->
  (in_part start stop va -> region_entry (kernel_region ka start stop flags) va =
     Some (Z.lor (u64 (va / 4096 * 4096 - kr_virtual_base ka + kr_physical_base ka)) flags)) /\
  (~ in_part start stop va -> region_entry (kernel_region ka start stop flags) va = None).
Proof.
  unfold IMAGE_BASE, in_part. intros Hs H0 H1 Hv. unfold region_entry, kernel_region, region_page, PAGE_SIZE.
  cbn [rg_va rg_pa rg_count rg_flags].
  rewrite ALIGN_DOWN_4096, ALIGN_UP_4096 by lia. unfold page_count.
  rewrite !Z.div_mul by lia.
  replace (((stop + 4095) / 4096 * 4096 - start / 4096 * 4096 + 4095) / 4096)
    with ((stop + 4095) / 4096 - start / 4096) by ldivmod.
  assert (0xffffffff80000 <= start / 4096) by ldivmod.
  assert (start / 4096 < 2 ^ 52) by ldivmod.
  assert (0xffffffff80000 <= va / 4096 < 2 ^ 52) by ldivmod.
  split; intros Hin.
  - rewrite (Z.mod_small (_ - _)) by lia.
    rewrite (proj2 (Z.ltb_lt _ _)) by lia. do 3 f_equal. lia.
  - rewrite (proj2 (Z.ltb_ge _ _)); [done|].
    destruct (Z.lt_ge_cases (va / 4096) (start / 4096)).
    + replace ((va / 4096 - start / 4096) mod 2 ^ 36) with (va / 4096 - start / 4096 + 2 ^ 36).
      * assert ((stop + 4095) / 4096 < 2 ^ 52) by ldivmod. lia.
      * apply (Z.mod_unique _ _ (-1)); lia.
    + rewrite Z.mod_small by lia. lia.
Qed.

(** A region of the high half does not reach the low 4 GiB. *)
Lemma high_region_low v p c f va :
  0xffff800000000000 <= v -> v / 4096 + c <= 2 ^ 52 -> 0 <= va < 2 ^ 32 ->
  region_entry (Region v p c f) va = None.
Proof.
  intros Hv Hc Hva. unfold region_entry, region_page. cbn [rg_va rg_count].
  assert (2 ^ 52 - 2 ^ 35 <= v / 4096) by ldivmod. assert (0 <= va / 4096 < 2 ^ 20) by ldivmod.
  rewrite (proj2 (Z.ltb_ge _ _)); [done|].
  destruct (Z.le_gt_cases c 0).
  { pose proof (Z.mod_pos_bound (va / 4096 - v / 4096) (2 ^ 36)). lia. }
  replace ((va / 4096 - v / 4096) mod 2 ^ 36) with (va / 4096 - v / 4096 + 2 ^ 52); [lia|].
  apply (Z.mod_unique _ _ (- 2 ^ 16)); lia.
Qed.

Lemma kernel_region_low ka start stop flags va :
  IMAGE_BASE <= start < 2 ^ 64 -> 0 <= stop -> stop + 8192 <= 2 ^ 64 -> 0 <= va < 2 ^ 32 ->
  region_entry (kernel_region ka start stop flags) va = None.
Proof.
  unfold IMAGE_BASE. intros Hs H0 H1 Hv. unfold kernel_region, PAGE_SIZE.
  rewrite ALIGN_DOWN_4096, ALIGN_UP_4096 by lia. unfold page_count.
  apply high_region_low; [ldivmod| |done]. rewrite Z.div_mul by lia. ldivmod.
Qed.

Lemma low_region_entry va :
  0x1000 <= va < 2 ^ 32 -> region_entry low_region va = Some (Z.lor (va / 4096 * 4096) RW_NX).
Proof.
  intros Hva. unfold region_entry, region_page, low_region. cbn [rg_va rg_pa rg_count rg_flags].
  change (4096 / 4096) with 1. assert (1 <= va / 4096 < 2 ^ 20) by ldivmod.
  rewrite (Z.mod_small (_ - _)) by lia. rewrite (proj2 (Z.ltb_lt _ _)) by lia.
  rewrite u64_small by lia. do 2 f_equal. lia.
Qed.

Lemma low_region_other va :
  0 <= va < 0x1000 \/ IMAGE_BASE <= va < 2 ^ 64 -> region_entry low_region va = None.
Proof.
  unfold IMAGE_BASE. intros Hva. unfold region_entry, region_page, low_region. cbn [rg_va rg_count].
  change (4096 / 4096) with 1. rewrite (proj2 (Z.ltb_ge _ _)); [done|].
  destruct Hva as [Hva|Hva].
  - replace (va / 4096) with 0 by ldivmod. done.
  - assert (0xffffffff80000 <= va / 4096 < 2 ^ 52) by ldivmod. ldivmod.
Qed.

(** The lapic's page lies in the direct map. *)
Lemma lapic_region_entry off lapic va :
  0xffff800000000000 <= off -> off + 2 ^ 32 <= IMAGE_BASE -> 0 <= lapic < 2 ^ 32 ->
  0 <= va < 2 ^ 32 \/ IMAGE_BASE <= va < 2 ^ 64 -> region_entry (lapic_region off lapic) va = None.
Proof.
  unfold IMAGE_BASE. intros Ho1 Ho2 Hl Hva. unfold lapic_region, PAGE_SIZE.
  rewrite u64_small by lia. rewrite !ALIGN_DOWN_4096 by lia.
  destruct Hva as [Hva|Hva]; [apply high_region_low; [ldivmod| |done]; rewrite Z.div_mul by lia; ldivmod|].
  unfold region_entry, region_page. cbn [rg_va rg_count]. rewrite Z.div_mul by lia.
  rewrite (proj2 (Z.ltb_ge _ _)); [done|].
  assert (2 ^ 52 - 2 ^ 35 <= (lapic + off) / 4096 < 0xffffffff80000) by ldivmod.
  assert (0xffffffff80000 <= va / 4096 < 2 ^ 52) by ldivmod.
  rewrite Z.mod_small; lia.
Qed.

(** Regions that do not cover an address leave it unmapped. *)
Lemma address_space_none rs va :
  Forall (fun r => region_entry r va = None) rs -> address_space rs va = NotPresent.
Proof.
  intros Hrs. induction rs as [|r rs IH] using rev_ind; [done|].
  apply Forall_app in Hrs as [Hrs Hr]. rewrite address_space_snoc.
  apply Forall_cons in Hr as [-> _]. auto.
Qed.

(** What protects the kernel: no page of the image is writable and executable,
    the low 4 GiB are mapped to themselves without execution, and address 0 is
    not mapped. *)
Record protected (s : kstate) (ka : limine_kernel_address_response) (t : Z -> translation)
    : Prop := {
  pr_text : forall va, IMAGE_BASE <= va < 2 ^ 64 ->
    in_part (text_start_addr (k_link s)) (text_end_addr (k_link s)) va ->
    t va = Page (Z.lor (u64 (va / 4096 * 4096 - kr_virtual_base ka + kr_physical_base ka))
                   PTE_BIT_PRESENT);
  pr_rodata : forall va, IMAGE_BASE <= va < 2 ^ 64 ->
    in_part (rodata_start_addr (k_link s)) (rodata_end_addr (k_link s)) va ->
    t va = Page (Z.lor (u64 (va / 4096 * 4096 - kr_virtual_base ka + kr_physical_base ka)) RO_NX);
  pr_data : forall va, IMAGE_BASE <= va < 2 ^ 64 ->
    in_part (data_start_addr (k_link s)) (data_end_addr (k_link s)) va ->
    t va = Page (Z.lor (u64 (va / 4096 * 4096 - kr_virtual_base ka + kr_physical_base ka)) RW_NX);
  pr_low : forall va, 0x1000 <= va < 2 ^ 32 -> t va = Page (Z.lor (va / 4096 * 4096) RW_NX);
  pr_null : forall va, 0 <= va < 0x1000 -> t va = NotPresent;
}.

Lemma image_bounds s ka mm : vmm_init_pre s ka mm -> image_layout s mm ->
  let lk := k_link s in
  (IMAGE_BASE <= text_start_addr lk < 2 ^ 64 /\ 0 <= text_end_addr lk /\ text_end_addr lk + 8192 <= 2 ^ 64) /\
  (IMAGE_BASE <= rodata_start_addr lk < 2 ^ 64 /\ 0 <= rodata_end_addr lk /\ rodata_end_addr lk + 8192 <= 2 ^ 64) /\
  (IMAGE_BASE <= data_start_addr lk < 2 ^ 64 /\ 0 <= data_end_addr lk /\ data_end_addr lk + 8192 <= 2 ^ 64).
Proof.
  intros [] []. repeat match goal with H : Forall _ (_ :: _) |- _ => apply Forall_cons in H as [? H] end.
  cbn [fst snd] in *. unfold IMAGE_BASE in *.
  assert (text_start_addr (k_link s) / 4096 * 4096 <= text_start_addr (k_link s)) by ldivmod.
  split_and!; try lia; ldivmod.
Qed.

Lemma page_not_present_entries off e va :
  0xffff800000000000 <= off -> 0 <= me_base e -> off + me_base e + me_length e <= IMAGE_BASE ->
  0 <= va < 2 ^ 32 -> Forall (fun r => region_entry r va = None) (entry_regions off e).
Proof.
  unfold IMAGE_BASE. intros Ho Hb Hl Hva.
  assert (forall f, region_entry (Region (me_base e + off) (me_base e) (page_count (me_length e)) f) va = None)
    as Hr by (intros f; apply high_region_low; [lia| |done]; unfold page_count; ldivmod).
  unfold entry_regions. repeat (case_match; [by repeat constructor|]). constructor.
Qed.

Lemma leaf_present x f : Z.testbit f 0 = true -> leaf (Z.lor x f) = Page (Z.lor x f).
Proof. intros Hf. unfold leaf, pte_present. by rewrite Z.lor_spec, Hf, orb_true_r. Qed.

(** An address of the image is decided by the three parts. *)
Lemma address_space_image s ka mm va :
  vmm_init_pre s ka mm -> image_layout s mm -> IMAGE_BASE <= va < 2 ^ 64 ->
  address_space (vmm_regions s ka mm) va =
    foldl (fun t r => match region_entry r va with Some e => leaf e | None => t end)
      (address_space (vmm_regions_direct s mm) va) (image_regions (k_link s) ka).
Proof.
  intros Hp Hlay Hva. destruct Hlay as [_ _ _ _ _ L6 L7 _ _]. pose proof (vp_lapic _ _ _ Hp).
  unfold vmm_regions. rewrite address_space_app, foldl_app. cbn [foldl].
  rewrite (low_region_other va), (lapic_region_entry _ _ va) by auto. done.
Qed.

Lemma regions_protected s ka mm :
  vmm_init_pre s ka mm -> image_layout s mm -> protected s ka (address_space (vmm_regions s ka mm)).
Proof.
  intros Hp Hlay. pose proof (image_bounds s ka mm Hp Hlay) as ((T1 & T2 & T3) & (R1 & R2 & R3) & (D1 & D2 & D3)).
  pose proof Hlay as [L1 L2 L3 L4 L5 L6 L7 L8 L9]. pose proof (vp_lapic _ _ _ Hp) as Hlap.
  assert (rodata_start_addr (k_link s) / 4096 <= (rodata_end_addr (k_link s) + 4095) / 4096) by ldivmod.
  split.
  - intros va Hva Hin. rewrite address_space_image by done. unfold image_regions. cbn [foldl].
    rewrite (proj2 (kernel_region_entry ka _ _ RW_NX va D1 D2 D3 Hva)) by (unfold in_part in *; lia).
    rewrite (proj2 (kernel_region_entry ka _ _ RO_NX va R1 R2 R3 Hva)) by (unfold in_part in *; lia).
    rewrite (proj1 (kernel_region_entry ka _ _ PTE_BIT_PRESENT va T1 T2 T3 Hva)) by done.
    by apply leaf_present.
  - intros va Hva Hin. rewrite address_space_image by done. unfold image_regions. cbn [foldl].
    rewrite (proj2 (kernel_region_entry ka _ _ RW_NX va D1 D2 D3 Hva)) by (unfold in_part in *; lia).
    rewrite (proj1 (kernel_region_entry ka _ _ RO_NX va R1 R2 R3 Hva)) by done.
    by apply leaf_present.
  - intros va Hva Hin. rewrite address_space_image by done. unfold image_regions. cbn [foldl].
    rewrite (proj1 (kernel_region_entry ka _ _ RW_NX va D1 D2 D3 Hva)) by done.
    by apply leaf_present.
  - intros va Hva. unfold vmm_regions. rewrite address_space_app, foldl_app. cbn [foldl].
    rewrite (lapic_region_entry _ _ va) by (auto || lia). rewrite low_region_entry by done.
    by apply leaf_present.
  - intros va Hva. apply address_space_none. unfold vmm_regions, vmm_regions_direct, image_regions.
    assert (0 <= va < 2 ^ 32) by lia.
    repeat (apply Forall_app; split); repeat apply Forall_cons_2; try apply Forall_nil_2;
      try (apply kernel_region_low; done).
    + apply high_region_low; [lia| |done]. unfold IMAGE_BASE in *.
      pose proof (vp_blocks _ _ _ Hp). unfold page_count. clear -L9 L6 H1. ldivmod.
    + apply Forall_concat, Forall_fmap, Forall_forall. intros e He.
      destruct (L8 e He). by apply page_not_present_entries.
    + apply low_region_other. lia.
    + apply lapic_region_entry; auto.
Qed.

(** ** A machine of 64 MiB, with the bitmap of its 16384 blocks at 0x1000 *)

Definition big_hw : hardware :=
  Hardware 0x4000000 0xffff800000000000 (fun _ _ => 0) (fun _ => 0%nat).

Definition big_memmap : limine_memmap_response :=
  MemmapResponse 0 2 [MemmapEntry 0 0x2000 1; MemmapEntry 0x2000 0x3FFE000 0].

Definition big_ka : limine_kernel_address_response :=
  KernelAddressResponse 0 0x8000 0xffffffff80000000.

Definition big_state : kstate :=
  set_apic (ApicGlobals 0 0xFEE00000 0 0 [])
    (set_pmm (PmmGlobals 2 0x2000 0x4000000 131072 16384 0x4000000 0xffff800000001000 (Some big_memmap))
      (start_state {[ 0x1000 := to_byte 3 ]} big_hw
        (BootInfo (Some big_memmap) (Some (HhdmResponse 0 0xffff800000000000)) (Some big_ka)
           None None None) sample_link)).

Lemma big_bit b : 0 <= b -> bit_at (k_ram big_state) 0x1000 b = bool_decide (b < 2).
Proof.
  intros Hb. unfold bit_at. change (k_ram big_state) with (<[0x1000 := to_byte 3]> (∅ : gmap Z byte)).
  rewrite ram_get_insert. case_decide as E.
  - assert (b < 8) by ldivmod. rewrite (Z.mod_small b) by lia.
    assert (b = 0 \/ b = 1 \/ b = 2 \/ b = 3 \/ b = 4 \/ b = 5 \/ b = 6 \/ b = 7) as Hc by lia.
    by destruct_or! Hc; subst.
  - rewrite bool_decide_false by ldivmod. by rewrite Z.bits_0.
Qed.

Lemma NoDup_zrange lo n : NoDup (zrange lo n).
Proof.
  revert lo. induction n as [|n IH]; intros lo; cbn [zrange]; [constructor|].
  apply NoDup_cons. split; [|apply IH]. intros Hin%elem_of_zrange. lia.
Qed.

Lemma big_bytes : bitmap_bytes big_state = 2048.
Proof. reflexivity. Qed.

Lemma big_free_set : free_set big_state 0x1000 = list_to_set (zrange 2 (Z.to_nat 16382)).
Proof.
  apply set_eq. intros b. rewrite elem_of_free_set, big_bytes, elem_of_list_to_set, elem_of_zrange.
  split.
  - intros [Hb Hbit]. rewrite big_bit in Hbit by lia. apply bool_decide_eq_false in Hbit. lia.
  - intros Hb. split; [lia|]. rewrite big_bit by lia. apply bool_decide_eq_false. lia.
Qed.

Lemma big_free_size : size (free_set big_state 0x1000) = Z.to_nat 16382.
Proof. rewrite big_free_set, size_list_to_set by apply NoDup_zrange. apply length_zrange. Qed.

Lemma big_pmm_inv : pmm_inv big_state 0x1000.
Proof.
  split; rewrite ?big_bytes; try done.
  - apply (mapped_direct big_state 0x1000); by vm_compute.
  - intros b Hb Hbit. rewrite big_bit in Hbit by lia. apply bool_decide_eq_false in Hbit.
    unfold frame_ok. rewrite big_bytes. unfold BLOCK_SIZE.
    change (hw_ram_size (k_hw big_state)) with 0x4000000. lia.
Qed.

Lemma big_holds : ba_inv big_state ∅ (Z.to_nat 16382).
Proof.
  exists 0x1000, (free_set big_state 0x1000). split; [|split; [|by rewrite big_free_size]].
  - split; [apply big_pmm_inv|set_solver +|]. unfold blocks. cbn [fst snd].
    by rewrite set_map_empty, (right_id_L ∅ _).
  - rewrite elem_of_free_set. intros [_ H]. by rewrite big_bit in H.
Qed.

Lemma big_init_pre : vmm_init_pre big_state big_ka big_memmap.
Proof.
  split; try done; [by eexists| |].
  - intros e [->|[->|[]%elem_of_nil]%elem_of_cons]%elem_of_cons; done.
  - repeat constructor; done.
Qed.

Lemma big_cost : cost (vmm_regions big_state big_ka big_memmap) < Z.of_nat (Z.to_nat 16382).
Proof. rewrite Z2Nat.id by done. by vm_compute. Qed.

Lemma big_layout : image_layout big_state big_memmap.
Proof.
  split; try done.
  intros e [->|[->|[]%elem_of_nil]%elem_of_cons]%elem_of_cons; done.
Qed.

(** ** Properties *)

(** C5: [vmm_init], given enough blocks, returns with the kernel's address space
    in force: the root it allocated is in CR3, the tables are well formed, and
    every virtual address translates as the list of regions says, which are, in
    the order they are mapped, the bitmap, the entries of the memory map in the
    direct map, the parts of the image, the low 4 GiB and the local APIC; an
    address in none of them is not mapped.  [kernel_pml4addr], computed by pointer
    arithmetic, ends up eight times the direct map's offset below the root's
    virtual address, not at its physical one. *)
Theorem vmm_init_address_space {alloc free} {BA : BlockAllocator alloc free} (s : kstate)
    (U : gset Z) (n : nat) (ka : limine_kernel_address_response) (mm : limine_memmap_response)
    (Hpre : vmm_init_pre s ka mm) (Hba : ba_inv s U n)
    (Hn : cost (vmm_regions s ka mm) < Z.of_nat n) :
  exists root s', vmm_init alloc s = Done tt s' /\ ~ (root ∈ U) /\
    address_space_on s (vmm_regions s ka mm) root s'.
Proof. by apply (vmm_init_done s U n). Qed.

Lemma vmm_init_address_space_witness :
  exists root s', vmm_init pmm_alloc_block big_state = Done tt s' /\ ~ (root ∈ (∅ : gset Z)) /\
    address_space_on big_state (vmm_regions big_state big_ka big_memmap) root s'.
Proof.
  exact (vmm_init_address_space big_state ∅ (Z.to_nat 16382) big_ka big_memmap
    big_init_pre big_holds big_cost).
Defined.

(** C6: with the image laid out as the linker script has it, the address space
    [vmm_init] leaves protects the kernel: its text is executable and read only,
    its read-only data neither writable nor executable, its data writable and
    not executable, the low 4 GiB are mapped to themselves, writable and not
    executable, and the page at address 0 is not mapped. *)
Theorem vmm_init_protects {alloc free} {BA : BlockAllocator alloc free} (s : kstate)
    (U : gset Z) (n : nat) (ka : limine_kernel_address_response) (mm : limine_memmap_response)
    (Hpre : vmm_init_pre s ka mm) (Hlay : image_layout s mm) (Hba : ba_inv s U n)
    (Hn : cost (vmm_regions s ka mm) < Z.of_nat n) :
  exists root s', vmm_init alloc s = Done tt s' /\ protected s ka (translate s' root).
Proof.
  destruct (vmm_init_done s U n ka mm Hpre Hba Hn) as (root & s' & E & _ & [_ _ Ht]).
  exists root, s'. split; [done|]. destruct (regions_protected s ka mm Hpre Hlay).
  split; intros va; rewrite Ht; auto.
Qed.

Lemma vmm_init_protects_witness :
  exists root s', vmm_init pmm_alloc_block big_state = Done tt s' /\
    protected big_state big_ka (translate s' root).
Proof.
  exact (vmm_init_protects big_state ∅ (Z.to_nat 16382) big_ka big_memmap
    big_init_pre big_layout big_holds big_cost).
Defined.
