(* ===== verification/Pointers.v ===== *)
(** The pointers of the kernel after [vmm_init] has loaded its own page tables.
    Memory.v resolves every pointer in the address space the bootloader left; here
    the new address space is shown to agree with it wherever the kernel goes on to
    point. *)

From S2P Require Import Prelude Limine Types Machine Memory Sample CString Video Printf Log.
From S2P Require Import Allocator Macros PageTable Pmm Vmm VmmInit.

(** ** Reference *)

(** The physical address behind a virtual one, by the page its translation names. *)
Definition frame_of (t : translation) (va : Z) : option Z :=
  match t with Page e => Some (pte_addr e + va mod 4096) | _ => None end.

(** The entries of the memory map that stay in the direct map. *)
Definition kept (e : limine_memmap_entry) : Prop := entry_regions 0 e <> [].

(** What the kernel points to from then on: the low 4 GiB (the tables of the
    firmware, the devices) and, in the direct map, the entries that are kept (page
    tables, the blocks of the allocator, its bitmap, the stack). *)
Definition in_use (s : kstate) (mm : limine_memmap_response) (va : Z) : Prop :=
  0x1000 <= va < 2 ^ 32 \/
  exists e, e ∈ mr_entries mm /\ kept e /\
    hw_direct_map (k_hw s) + me_base e <= va < hw_direct_map (k_hw s) + me_base e + me_length e.

(** What is mapped in the direct map starts on a page. *)
Record on_pages (s : kstate) (mm : limine_memmap_response) : Prop := {
  op_direct : (4096 | hw_direct_map (k_hw s));
  op_bitmap : (4096 | pmm_usable_addr (k_pmm s));
  op_entries : forall e, e ∈ mr_entries mm -> kept e -> (4096 | me_base e);
}.

(** ** Lemmas *)

Lemma pte_addr_lor x f :
  (4096 | x) -> 0 <= x < 2 ^ 52 -> Z.land f PTE_ADDR_MASK = 0 -> pte_addr (Z.lor x f) = x.
Proof.
  intros [k Hk] Hx Hf. unfold pte_addr. rewrite Z.land_lor_distr_l, Hf, Z.lor_0_r.
  apply Z.bits_inj'. intros n Hn. rewrite Z.land_spec.
  change PTE_ADDR_MASK with (Z.shiftl (Z.ones 40) 12). rewrite Z.shiftl_spec by lia.
  destruct (Z.lt_ge_cases n 12); [|destruct (Z.lt_ge_cases n 52)].
  - rewrite (Z.testbit_neg_r _ (n - 12)), andb_false_r by lia.
    rewrite Hk. change 4096 with (2 ^ 12). by rewrite Z.mul_pow2_bits_low by lia.
  - by rewrite Z.ones_spec_low, andb_true_r by lia.
  - rewrite Z.ones_spec_high, andb_false_r by lia.
    rewrite <- (Z.mod_small x (2 ^ 52)) by lia. by rewrite Z.mod_pow2_bits_high by lia.
Qed.

(** A region covers an address or not; if it does, the page is that of [pa]. *)
Definition agrees (va pa : Z) (r : region) : Prop :=
  match region_entry r va with Some e => frame_of (leaf e) va = Some pa | None => True end.

Lemma address_space_agrees rs va pa :
  Forall (agrees va pa) rs -> Exists (fun r => is_Some (region_entry r va)) rs ->
  frame_of (address_space rs va) va = Some pa.
Proof.
  intros Ha He. induction rs as [|r rs IH] using rev_ind; [by apply Exists_nil in He|].
  apply Forall_app in Ha as [Ha [Hr _]%Forall_cons]. rewrite address_space_snoc.
  unfold agrees in Hr. destruct (region_entry r va) as [e|] eqn:E; [done|].
  apply IH; [done|]. apply Exists_app in He as [He|He]; [done|].
  apply Exists_cons in He as [[x Hx]|He]; [by rewrite E in Hx|by apply Exists_nil in He].
Qed.

Section direct.
Context (off va : Z).
Context (Hoff : 0xffff800000000000 <= off) (Halign : (4096 | off)).
Context (Hva : off <= va < IMAGE_BASE).

(** Page numbers of the direct map, as the regions count them. *)
Lemma direct_page b c f :
  0 <= b -> 4096 * c + b + off <= IMAGE_BASE ->
  let r := Region (b + off) b c f in
  (region_page r va < rg_count r <-> (b + off) / 4096 <= va / 4096 < (b + off) / 4096 + c) /\
  (region_page r va < rg_count r -> region_page r va = va / 4096 - (b + off) / 4096).
Proof using Hoff Hva.
  unfold IMAGE_BASE in *. intros Hb Hc. unfold region_page. cbn [rg_va rg_count].
  pose proof (Z.mod_pos_bound (va / 4096 - (b + off) / 4096) (2 ^ 36) ltac:(lia)).
  assert (2 ^ 52 - 2 ^ 35 <= (b + off) / 4096) by ldivmod.
  assert (2 ^ 52 - 2 ^ 35 <= va / 4096 < 0xffffffff80000) by ldivmod.
  destruct (Z.le_gt_cases c 0); [lia|].
  assert ((b + off) / 4096 + c <= 0xffffffff80000) by ldivmod.
  destruct (Z.le_gt_cases ((b + off) / 4096) (va / 4096)).
  - rewrite Z.mod_small in * by lia. lia.
  - assert ((va / 4096 - (b + off) / 4096) mod 2 ^ 36 = va / 4096 - (b + off) / 4096 + 2 ^ 36) as ->
      by (symmetry; apply (Z.mod_unique _ _ (-1)); lia). lia.
Qed.

(** A region of the direct map agrees with it. *)
Lemma direct_agrees b c f :
  (4096 | b) -> 0 <= b -> 4096 * c + b + off <= IMAGE_BASE ->
  Z.land f PTE_ADDR_MASK = 0 -> Z.testbit f 0 = true ->
  agrees va (va - off) (Region (b + off) b c f).
Proof using Halign Hoff Hva.
  intros [kb ->] Hb Hc Hf Hp. unfold agrees, region_entry.
  destruct (Z.ltb_spec (region_page (Region (kb * 4096 + off) (kb * 4096) c f) va)
    (rg_count (Region (kb * 4096 + off) (kb * 4096) c f))) as [Hlt|_]; [|done].
  destruct (direct_page (kb * 4096) c f Hb Hc) as [Hin Hk].
  apply Hin in Hlt as Hr. rewrite (Hk Hlt). cbn [rg_pa rg_flags]. destruct Halign as [ko ->].
  unfold IMAGE_BASE in *.
  replace ((kb * 4096 + ko * 4096) / 4096) with (kb + ko) in * by ldivmod.
  assert (va / 4096 < 2 ^ 52) by ldivmod.
  rewrite u64_small by lia. rewrite leaf_present by done. cbn [frame_of]. f_equal.
  rewrite pte_addr_lor by (lia || done || (exists (va / 4096 - ko); lia)).
  pose proof (Z.div_mod va 4096). lia.
Qed.

(** The image and the low 4 GiB lie elsewhere. *)
Lemma direct_kernel_region ka start stop flags :
  IMAGE_BASE <= start < 2 ^ 64 -> 0 <= stop -> stop + 8192 <= 2 ^ 64 ->
  region_entry (kernel_region ka start stop flags) va = None.
Proof using Hoff Hva.
  unfold IMAGE_BASE in *. intros Hs H0 H1. unfold region_entry, kernel_region, region_page, PAGE_SIZE.
  cbn [rg_va rg_count]. rewrite ALIGN_DOWN_4096, ALIGN_UP_4096 by lia. unfold page_count.
  rewrite !Z.div_mul by lia.
  replace (((stop + 4095) / 4096 * 4096 - start / 4096 * 4096 + 4095) / 4096)
    with ((stop + 4095) / 4096 - start / 4096) by ldivmod.
  assert (0xffffffff80000 <= start / 4096 < 2 ^ 52) by ldivmod.
  assert (2 ^ 52 - 2 ^ 35 <= va / 4096 < 0xffffffff80000) by ldivmod.
  assert ((stop + 4095) / 4096 < 2 ^ 52) by ldivmod.
  rewrite (proj2 (Z.ltb_ge _ _)); [done|].
  assert ((va / 4096 - start / 4096) mod 2 ^ 36 = va / 4096 - start / 4096 + 2 ^ 36) as ->
    by (symmetry; apply (Z.mod_unique _ _ (-1)); lia). lia.
Qed.

Lemma direct_low_region : region_entry low_region va = None.
Proof using Hoff Hva.
  unfold IMAGE_BASE in *. unfold region_entry, region_page, low_region. cbn [rg_va rg_count].
  change (4096 / 4096) with 1. rewrite (proj2 (Z.ltb_ge _ _)); [done|].
  assert (2 ^ 52 - 2 ^ 35 <= va / 4096 < 2 ^ 52) by ldivmod.
  assert ((va / 4096 - 1) mod 2 ^ 36 = va / 4096 - 1 - (2 ^ 16 - 1) * 2 ^ 36) as ->
    by (symmetry; apply (Z.mod_unique _ _ (2 ^ 16 - 1)); lia). lia.
Qed.

Lemma direct_entry_agrees e :
  0 <= me_base e -> off + me_base e + me_length e <= IMAGE_BASE -> (kept e -> (4096 | me_base e)) ->
  Forall (agrees va (va - off)) (entry_regions off e).
Proof using Halign Hoff Hva.
  intros Hb Hl Hk.
  assert (forall f, (4096 | me_base e) -> Z.land f PTE_ADDR_MASK = 0 -> Z.testbit f 0 = true ->
    agrees va (va - off) (Region (me_base e + off) (me_base e) (page_count (me_length e)) f)) as Hr.
  { intros f [kb Ek] Hf Hp. apply direct_agrees; [by exists kb|done| |done|done].
    destruct Halign as [ko Eo]. unfold page_count, IMAGE_BASE in *. ldivmod. }
  unfold kept, entry_regions in *.
  repeat (case_match; [apply Forall_cons_2; [apply Hr; [by apply Hk|done|done]|by apply Forall_nil_2]|]).
  by apply Forall_nil_2.
Qed.

Lemma direct_entry_covers e :
  0 <= me_base e -> off + me_base e + me_length e <= IMAGE_BASE -> kept e ->
  (4096 | me_base e) -> off + me_base e <= va < off + me_base e + me_length e ->
  Exists (fun r => is_Some (region_entry r va)) (entry_regions off e).
Proof using Halign Hoff Hva.
  intros Hb Hl Hk [kb Ek] Hin.
  assert (forall f, is_Some (region_entry
    (Region (me_base e + off) (me_base e) (page_count (me_length e)) f) va)) as Hr.
  { intros f. unfold region_entry. destruct Halign as [ko Eo].
    destruct (direct_page (me_base e) (page_count (me_length e)) f) as [Hlt _];
      [done|unfold page_count, IMAGE_BASE in *; ldivmod|].
    rewrite (proj2 (Z.ltb_lt _ _)); [by eexists|]. apply Hlt. unfold page_count.
    subst off. rewrite Ek in *. ldivmod. }
  unfold kept, entry_regions in *.
  repeat (case_match; [apply Exists_cons; left; apply Hr|]). done.
Qed.
End direct.

Section regions.
Context (s : kstate) (ka : limine_kernel_address_response) (mm : limine_memmap_response).
Context (Hp : vmm_init_pre s ka mm) (Hlay : image_layout s mm) (Hop : on_pages s mm).

(** Every region agrees with the direct map on its addresses. *)
Lemma regions_agree va :
  hw_direct_map (k_hw s) <= va < IMAGE_BASE ->
  Forall (agrees va (va - hw_direct_map (k_hw s))) (vmm_regions s ka mm).
Proof using Hlay Hop Hp.
  intros Hva. pose proof (image_bounds s ka mm Hp Hlay) as ((T1 & T2 & T3) & (R1 & R2 & R3) & (D1 & D2 & D3)).
  pose proof Hlay as [_ _ _ _ _ L6 L7 L8 [L9 L10]]. pose proof (vp_lapic _ _ _ Hp) as Hlap.
  pose proof Hop as [Ho Hb He]. set (off := hw_direct_map (k_hw s)) in *.
  assert (forall r, region_entry r va = None -> agrees va (va - off) r) as Hnone
    by (unfold agrees; by intros r ->).
  unfold vmm_regions, vmm_regions_direct, image_regions. fold off.
  repeat (apply Forall_app; split); repeat apply Forall_cons_2; try apply Forall_nil_2;
    try (by apply Hnone, (direct_kernel_region off)).
  - apply direct_agrees; try done. destruct Ho as [ko Ho], Hb as [kb Hb].
    unfold page_count, IMAGE_BASE in *. ldivmod.
  - apply Forall_concat, Forall_fmap, Forall_forall. intros e Hin.
    destruct (L8 e Hin). apply direct_entry_agrees; auto.
  - by apply Hnone, (direct_low_region off).
  - unfold lapic_region, PAGE_SIZE, IMAGE_BASE in *. destruct Ho as [ko Ho].
    rewrite u64_small, !ALIGN_DOWN_4096 by lia.
    replace ((lapic_addr (k_apic s) + off) / 4096 * 4096)
      with (lapic_addr (k_apic s) / 4096 * 4096 + off) by ldivmod.
    apply direct_agrees; unfold IMAGE_BASE; try done; [by exists ko|by eexists|ldivmod|ldivmod].
Qed.

Lemma in_use_frame va pa :
  resolve s va = Some pa -> in_use s mm va ->
  frame_of (address_space (vmm_regions s ka mm) va) va = Some pa.
Proof using Hlay Hop Hp.
  intros Hres [Hlow|(e & He & Hk & Hva)].
  - rewrite (pr_low _ _ _ (regions_protected s ka mm Hp Hlay)) by done. cbn [frame_of].
    assert (0 <= va / 4096 * 4096 < 2 ^ 52) by ldivmod.
    rewrite pte_addr_lor by (done || (by exists (va / 4096))).
    unfold resolve in Hres. rewrite (proj2 (Z.leb_le _ _)), (proj2 (Z.ltb_lt _ _)) in Hres by lia.
    cbn [andb] in Hres. case_match; [|done]. injection Hres as <-. f_equal. ldivmod.
  - pose proof Hlay as [_ _ _ _ _ L6 L7 L8 _]. destruct (L8 e He) as [L81 L82].
    set (off := hw_direct_map (k_hw s)) in *.
    assert (off <= va < IMAGE_BASE) as Hva' by lia.
    assert (pa = va - off) as ->.
    { unfold resolve in Hres. fold off in Hres. unfold IMAGE_BASE in *.
      rewrite (proj2 (Z.leb_le 0x1000 _)), (proj2 (Z.ltb_ge va 0x100000000)) in Hres by lia.
      rewrite (proj2 (Z.leb_le _ _)), (proj2 (Z.ltb_lt _ _)) in Hres by lia.
      cbn [andb] in Hres. case_match; [|done]. by injection Hres. }
    apply address_space_agrees; [by apply regions_agree|].
    unfold vmm_regions, vmm_regions_direct. fold off. rewrite !Exists_app. left. right.
    apply Exists_concat, Exists_fmap, Exists_exists. exists e. split; [done|].
    apply (direct_entry_covers off va L6 (op_direct _ _ Hop) Hva'); auto.
    by apply (op_entries _ _ Hop).
Qed.
End regions.

(** ** Properties *)

(** C7: loading its own page tables does not pull the rug from under the kernel.
    Every pointer the bootloader's address space resolved, into the low 4 GiB or
    into an entry of the memory map that stays in the direct map, is mapped by the
    tables [vmm_init] has put in CR3, to the same byte of physical memory: reading
    memory through the bootloader's map, as the model goes on to do, is reading it
    through the kernel's. *)
Theorem vmm_init_keeps_pointers {alloc free} {BA : BlockAllocator alloc free} (s : kstate)
    (U : gset Z) (n : nat) (ka : limine_kernel_address_response) (mm : limine_memmap_response)
    (Hpre : vmm_init_pre s ka mm) (Hlay : image_layout s mm) (Hop : on_pages s mm)
    (Hba : ba_inv s U n) (Hn : cost (vmm_regions s ka mm) < Z.of_nat n) :
  exists root s', vmm_init alloc s = Done tt s' /\
    forall va pa, resolve s' va = Some pa -> in_use s mm va ->
      frame_of (translate s' root va) va = Some pa.
Proof.
  destruct (vmm_init_done s U n ka mm Hpre Hba Hn) as (root & s' & E & _ & [Hs' _ Ht]).
  exists root, s'. split; [done|]. intros va pa Hres Hin. rewrite Ht.
  destruct Hs' as (es & r & k & -> & _). by apply in_use_frame.
Qed.

Lemma big_on_pages : on_pages big_state big_memmap.
Proof.
  split; [by exists (0xffff800000000000 / 4096)|by exists 2|].
  intros e [->|[->|[]%elem_of_nil]%elem_of_cons]%elem_of_cons _; [by exists 0|by exists 2].
Qed.

Lemma vmm_init_keeps_pointers_witness :
  exists root s', vmm_init pmm_alloc_block big_state = Done tt s' /\
    forall va pa, resolve s' va = Some pa -> in_use big_state big_memmap va ->
      frame_of (translate s' root va) va = Some pa.
Proof.
  exact (vmm_init_keeps_pointers big_state ∅ (Z.to_nat 16382) big_ka big_memmap
    big_init_pre big_layout big_on_pages big_holds big_cost).
Defined.
