(* ===== verification/Gdt.v ===== *)
(** kern/sys/gdt.c, gdt.h and gdt.asm: the global descriptor table, as the code
    fills it and as the processor reads it. *)

From S2P Require Import Prelude Limine Types Machine Sample.

(** ** Code *)

Definition GDTSEGMENTS : Z := 7.

(** sizeof(gdtdesc) and sizeof(tssdesc), both packed *)
Definition sizeof_gdtdesc : Z := 8.
Definition sizeof_tssdesc : Z := 104.

Definition gdt_set (f : gdt_globals -> gdt_globals) : M unit :=
  modify (fun s => set_gdt (f (k_gdt s)) s).

(** One store to a field of gdt[num]. *)
Definition gdt_store (num : Z) (f : gdtdesc -> gdtdesc) : M unit :=
  g ← gets k_gdt;
  d ← index (gdt g) num;
  gdt_set (fun g => GdtGlobals (<[Z.to_nat num := f d]> (gdt g)) (gdtr g) (tss g)).

Definition with_base_low x d := Gdtdesc (gd_limit_low d) x (gd_base_middle d) (gd_access d)
  (gd_granularity d) (gd_base_high d).
Definition with_base_middle x d := Gdtdesc (gd_limit_low d) (gd_base_low d) x (gd_access d)
  (gd_granularity d) (gd_base_high d).
Definition with_base_high x d := Gdtdesc (gd_limit_low d) (gd_base_low d) (gd_base_middle d)
  (gd_access d) (gd_granularity d) x.
Definition with_limit_low x d := Gdtdesc x (gd_base_low d) (gd_base_middle d) (gd_access d)
  (gd_granularity d) (gd_base_high d).
Definition with_granularity x d := Gdtdesc (gd_limit_low d) (gd_base_low d) (gd_base_middle d)
  (gd_access d) x (gd_base_high d).
Definition with_access x d := Gdtdesc (gd_limit_low d) (gd_base_low d) (gd_base_middle d) x
  (gd_granularity d) (gd_base_high d).

Definition gdt_set_entry (num base limit access granularity : Z) : M unit :=
  gdt_store num (with_base_low (u16 (Z.land base 0xFFFF))) ;;
  gdt_store num (with_base_middle (u8 (Z.land (Z.shiftr base 16) 0xFF))) ;;
  gdt_store num (with_base_high (u8 (Z.land (Z.shiftr base 24) 0xFF))) ;;
  gdt_store num (with_limit_low (u16 (Z.land limit 0xFFFF))) ;;
  gdt_store num (with_granularity (u8 (Z.land (Z.shiftr limit 16) 0x0F))) ;;
  gdt_store num (fun d => with_granularity
    (u8 (Z.lor (gd_granularity d) (Z.shiftl (Z.land granularity 0xF) 4))) d) ;;
  gdt_store num (with_access access).

(** What the processor does when a selector of the table is loaded.  The descriptor
    has to be of the kind the register takes, present and for ring 0 (SDM volume 3,
    3.4.5 and 7.2.3); loading marks it: a segment as accessed, a TSS, which has to
    be available, as busy. *)
Definition is_data (d : gdtdesc) : bool := Z.land (gd_access d) 0xFA =? 0x92.
Definition is_code (d : gdtdesc) : bool := Z.land (gd_access d) 0xFC =? 0x98.
Definition is_long (d : gdtdesc) : bool := Z.land (gd_granularity d) 0x60 =? 0x20.
Definition is_code64 (d : gdtdesc) : bool := is_code d && is_long d.
Definition is_available_tss (d : gdtdesc) : bool := Z.land (gd_access d) 0x9F =? 0x89.

Definition ACCESSED : Z := 1.
Definition BUSY : Z := 2.

(** [check] gives the error code of the general protection fault, if there is one. *)
Definition load_checked (sel : Z) (check : gdtdesc -> option Z) (mark : Z) : M unit :=
  g ← gets k_gdt;
  d ← index (gdt g) (sel / 8);
  match check d with
  | None => gdt_store (sel / 8) (with_access (Z.lor (gd_access d) mark))
  | Some code => throw (GeneralProtection code)
  end.

Definition load_selector (sel : Z) (ok : gdtdesc -> bool) (mark : Z) : M unit :=
  load_checked sel (fun d => if ok d then None else Some sel) mark.

(** A far return or an interrupt return to the code segment [sel].  A segment without
    the long-mode flag is taken for a compatibility-mode one, whose 4 GiB limit the
    kernel's addresses exceed: the fault is on that limit, with the error code 0 (SDM
    volume 2, RET and IRET). *)
Definition far_return (sel : Z) : M unit :=
  load_checked sel (fun d => if is_code d then if is_long d then None else Some 0 else Some sel)
    ACCESSED.

(** gdt.asm: s_setgdt stores its arguments in gdtr, loads it, and reloads the
    segment registers, CS by a far return; s_settss loads the task register. *)
Definition s_setgdt (limit base : Z) : M unit :=
  gdt_set (fun g => GdtGlobals (gdt g) (Gdtptr (u16 limit) base) (tss g)) ;;
  asm (Lgdt (u16 limit) base) ;;
  load_selector 0x10 is_data ACCESSED ;;
  far_return 0x08 ;;
  asm (LoadSegs 0x10 0x08).

Definition s_settss : M unit :=
  load_selector 0x28 is_available_tss BUSY ;;
  asm (Ltr 0x28).

Definition gdt_init : M unit :=
  lk ← gets k_link;
  gdt_set (fun g => GdtGlobals (gdt g)
    (Gdtptr (u16 (sizeof_gdtdesc * GDTSEGMENTS - 1)) (gdt_addr lk)) (tss g)) ;;
  gdt_set (fun g => GdtGlobals (gdt g) (gdtr g) (replicate 104 x00)) ;;
  gdt_set_entry 0 0 0 0 0 ;;
  gdt_set_entry 1 0 0xFFFFF 0x9A 0xA ;;
  gdt_set_entry 2 0 0xFFFFF 0x92 0xA ;;
  gdt_set_entry 3 0 0xFFFFF 0xFA 0xA ;;
  gdt_set_entry 4 0 0xFFFFF 0xF2 0xA ;;
  gdt_set_entry 5 (tss_addr lk) sizeof_tssdesc 0x89 0x0 ;;
  g ← gets k_gdt;
  s_setgdt (gp_limit_low (gdtr g)) (gp_base (gdtr g)) ;;
  s_settss.

(** ** Reference: descriptors as the processor reads them *)

(** The eight bytes of a descriptor as one number, by the packed layout. *)
Definition gdtdesc_word (d : gdtdesc) : Z :=
  gd_limit_low d + 2 ^ 16 * gd_base_low d + 2 ^ 32 * gd_base_middle d +
  2 ^ 40 * gd_access d + 2 ^ 48 * gd_granularity d + 2 ^ 56 * gd_base_high d.

Definition field (w pos len : Z) : Z := (w / 2 ^ pos) mod 2 ^ len.

(** The base, limit, access byte and flags of a segment descriptor (SDM
    volume 3, 3.4.5). *)
Definition seg_base (w : Z) : Z := field w 16 24 + 2 ^ 24 * field w 56 8.
Definition seg_limit (w : Z) : Z := field w 0 16 + 2 ^ 16 * field w 48 4.
Definition seg_access (w : Z) : Z := field w 40 8.
Definition seg_flags (w : Z) : Z := field w 52 4.

(** The base of a 64-bit TSS descriptor, two entries of the table (SDM volume
    3, 7.2.3). *)
Definition tss_base (lo hi : Z) : Z := seg_base lo + 2 ^ 32 * field hi 0 32.

(** The descriptor at a selector. *)
Definition descriptor (g : gdt_globals) (selector : Z) : Z :=
  default 0 (gdtdesc_word <$> gdt g !! Z.to_nat (selector / 8)).

(** ** Lemmas *)

Definition encoded (base limit access granularity : Z) : gdtdesc := {|
    gd_base_low := u16 (Z.land base 0xFFFF);
    gd_base_middle := u8 (Z.land (Z.shiftr base 16) 0xFF);
    gd_base_high := u8 (Z.land (Z.shiftr base 24) 0xFF);
    gd_limit_low := u16 (Z.land limit 0xFFFF);
    gd_granularity := u8 (Z.lor (u8 (Z.land (Z.shiftr limit 16) 0x0F))
                            (Z.shiftl (Z.land granularity 0xF) 4));
    gd_access := access;
  |}.

(** Fields of a number put together from parts. *)
Lemma field_skip a b p q l : 0 <= a < 2 ^ p -> 0 <= p <= q ->
  field (a + 2 ^ p * b) q l = field b (q - p) l.
Proof.
  intros Ha Hp. unfold field. replace (2 ^ q) with (2 ^ p * 2 ^ (q - p))
    by (rewrite <- Z.pow_add_r by lia; f_equal; lia).
  rewrite <- Z.div_div by (lia || (apply Z.pow_pos_nonneg; lia)).
  do 2 f_equal. rewrite Z.mul_comm, Z.div_add by lia. rewrite Z.div_small by lia. lia.
Qed.

Lemma field_take a b l : 0 <= a < 2 ^ l -> 0 <= l -> field (a + 2 ^ l * b) 0 l = a.
Proof.
  intros Ha Hl. unfold field. rewrite Z.div_1_r, (Z.mul_comm (2 ^ l)), Z_mod_plus_full.
  by apply Z.mod_small.
Qed.

Lemma field_low a l : 0 <= a < 2 ^ l -> field a 0 l = a.
Proof. intros Ha. unfold field. rewrite Z.div_1_r. by apply Z.mod_small. Qed.

(** A descriptor's fields. *)
Lemma gdtdesc_word_fields d :
  0 <= gd_limit_low d < 2 ^ 16 -> 0 <= gd_base_low d < 2 ^ 16 ->
  0 <= gd_base_middle d < 2 ^ 8 -> 0 <= gd_access d < 2 ^ 8 ->
  0 <= gd_granularity d < 2 ^ 8 -> 0 <= gd_base_high d < 2 ^ 8 ->
  let w := gdtdesc_word d in
  seg_base w = gd_base_low d + 2 ^ 16 * gd_base_middle d + 2 ^ 24 * gd_base_high d /\
  seg_limit w = gd_limit_low d + 2 ^ 16 * (gd_granularity d mod 2 ^ 4) /\
  seg_access w = gd_access d /\ seg_flags w = gd_granularity d / 2 ^ 4.
Proof.
  intros H1 H2 H3 H4 H5 H6 w.
  assert (w = gd_limit_low d + 2 ^ 16 * (gd_base_low d + 2 ^ 16 * gd_base_middle d + 2 ^ 24 *
    (gd_access d + 2 ^ 8 * (gd_granularity d + 2 ^ 8 * gd_base_high d)))) as ->
    by (unfold w, gdtdesc_word; lia).
  unfold seg_base, seg_limit, seg_access, seg_flags.
  split_and!.
  - rewrite (field_skip _ _ 16 16), (field_skip _ _ 16 56) by lia. simpl (_ - _).
    rewrite field_take by lia.
    rewrite (field_skip _ _ 24 40), (field_skip _ _ 8 16), (field_skip _ _ 8 8) by lia.
    simpl (_ - _). rewrite field_low by lia. done.
  - rewrite field_take by lia.
    rewrite (field_skip _ _ 16 48), (field_skip _ _ 24 32), (field_skip _ _ 8 8) by lia.
    simpl (_ - _). f_equal. f_equal. unfold field. rewrite Z.div_1_r.
    replace (2 ^ 8 * gd_base_high d) with (2 ^ 4 * gd_base_high d * 2 ^ 4) by lia.
    by rewrite Z_mod_plus_full.
  - rewrite (field_skip _ _ 16 40), (field_skip _ _ 24 24) by lia. simpl (_ - _).
    by rewrite field_take by lia.
  - rewrite (field_skip _ _ 16 52), (field_skip _ _ 24 36), (field_skip _ _ 8 12) by lia.
    simpl (_ - _). unfold field.
    replace (gd_granularity d + 2 ^ 8 * gd_base_high d)
      with (gd_granularity d + 2 ^ 4 * gd_base_high d * 2 ^ 4) by lia.
    rewrite Z.div_add by lia.
    replace (2 ^ 4 * gd_base_high d) with (gd_base_high d * 2 ^ 4) by lia.
    rewrite Z_mod_plus_full. apply Z.mod_small. ldivmod.
Qed.

(** The fields of an encoded descriptor, with division and remainder. *)
Lemma encoded_fields base limit access granularity :
  encoded base limit access granularity = {|
    gd_base_low := base mod 2 ^ 16;
    gd_base_middle := (base / 2 ^ 16) mod 2 ^ 8;
    gd_base_high := (base / 2 ^ 24) mod 2 ^ 8;
    gd_limit_low := limit mod 2 ^ 16;
    gd_granularity := (limit / 2 ^ 16) mod 2 ^ 4 + 2 ^ 4 * (granularity mod 2 ^ 4);
    gd_access := access;
  |}.
Proof.
  unfold encoded.
  change 0xFFFF with (Z.ones 16). change 0xFF with (Z.ones 8). change 0x0F with (Z.ones 4).
  change 0xF with (Z.ones 4). rewrite !Z.land_ones, !Z.shiftr_div_pow2 by lia.
  unfold u8, u16. f_equal; try (rewrite Z.mod_small; [done|apply Z.mod_pos_bound; lia]).
  set (a := (limit / 2 ^ 16) mod 2 ^ 4). set (b := granularity mod 2 ^ 4).
  assert (0 <= a < 2 ^ 4) by (apply Z.mod_pos_bound; lia).
  assert (0 <= b < 2 ^ 4) by (apply Z.mod_pos_bound; lia).
  rewrite (Z.mod_small a (2 ^ 8)) by lia. rewrite Z.shiftl_mul_pow2 by lia.
  assert (Z.lor a (b * 2 ^ 4) = a + b * 2 ^ 4) as ->; [|rewrite Z.mod_small; lia].
  rewrite Z.add_nocarry_lxor, Z.lxor_lor; [done| |].
  all: apply Z.bits_inj'; intros n Hn; rewrite Z.land_spec, Z.bits_0;
    destruct (Z.lt_ge_cases n 4);
    [rewrite Z.mul_pow2_bits_low by lia; apply andb_false_r|];
    rewrite <- (Z.mod_small a (2 ^ 4)) by lia; by rewrite Z.mod_pow2_bits_high by lia.
Qed.

Lemma encoded_decodes base limit access granularity : 0 <= access < 2 ^ 8 ->
  let w := gdtdesc_word (encoded base limit access granularity) in
  seg_base w = base mod 2 ^ 32 /\ seg_limit w = limit mod 2 ^ 20 /\
  seg_access w = access /\ seg_flags w = granularity mod 2 ^ 4.
Proof.
  intros Ha. cbn zeta. rewrite encoded_fields.
  pose proof (Z.mod_pos_bound granularity (2 ^ 4) ltac:(lia)).
  pose proof (Z.mod_pos_bound (limit / 2 ^ 16) (2 ^ 4) ltac:(lia)).
  match goal with |- context [gdtdesc_word ?d] =>
    destruct (gdtdesc_word_fields d) as (-> & -> & -> & ->) end;
    cbn [gd_limit_low gd_base_low gd_base_middle gd_access gd_granularity gd_base_high];
    try (apply Z.mod_pos_bound; lia); [done|lia|].
  split_and!; [| |done|].
  - change (2 ^ 32) with (2 ^ 16 * (2 ^ 8 * 2 ^ 8)). rewrite !Z.rem_mul_r by lia.
    rewrite Z.div_div by lia. change (2 ^ 16 * 2 ^ 8) with (2 ^ 24). lia.
  - rewrite (Z.mul_comm (2 ^ 4) (granularity mod 2 ^ 4)), Z_mod_plus_full, Zmod_mod.
    change (2 ^ 20) with (2 ^ 16 * 2 ^ 4). rewrite Z.rem_mul_r by lia. lia.
  - rewrite (Z.mul_comm (2 ^ 4)), Z.div_add by lia. rewrite Z.div_small by lia. lia.
Qed.

Lemma gdt_store_done num f d s :
  0 <= num -> gdt (k_gdt s) !! Z.to_nat num = Some d ->
  gdt_store num f s = Done tt (set_gdt (GdtGlobals (<[Z.to_nat num := f d]> (gdt (k_gdt s)))
    (gdtr (k_gdt s)) (tss (k_gdt s))) s).
Proof.
  intros Hn Hd. apply wp_eq. unfold gdt_store, gdt_set. wp_steps.
  apply (wp_index _ _ d); [lia|done|]. by wp_steps.
Qed.

Lemma set_gdt_set_gdt g g' s : set_gdt g (set_gdt g' s) = set_gdt g s.
Proof. done. Qed.

Lemma set_gdt_id s : set_gdt (k_gdt s) s = s.
Proof. by destruct s. Qed.

Lemma gdt_store_at num f d l r t s :
  0 <= num -> l !! Z.to_nat num = Some d ->
  gdt_store num f (set_gdt (GdtGlobals l r t) s) =
    Done tt (set_gdt (GdtGlobals (<[Z.to_nat num := f d]> l) r t) s).
Proof. intros Hn Hd. by rewrite (gdt_store_done _ _ d). Qed.

Lemma gdt_set_entry_at num base limit access granularity l r t s :
  0 <= num < Z.of_nat (length l) ->
  gdt_set_entry num base limit access granularity (set_gdt (GdtGlobals l r t) s) =
    Done tt (set_gdt (GdtGlobals (<[Z.to_nat num := encoded base limit access granularity]> l) r t) s).
Proof.
  intros H. destruct (lookup_lt_is_Some_2 l (Z.to_nat num) ltac:(lia)) as [d Hd].
  pose proof (lookup_lt_Some _ _ _ Hd) as Hlt.
  unfold gdt_set_entry. rewrite (bind_done _ _ _ _ _ (gdt_store_at num _ d l r t s ltac:(lia) Hd)).
  do 5 (erewrite bind_done by (apply gdt_store_at; [lia|apply list_lookup_insert_eq;
    by rewrite ?length_insert]); rewrite list_insert_insert_eq).
  erewrite gdt_store_at; [|lia|apply list_lookup_insert_eq; by rewrite ?length_insert].
  by rewrite list_insert_insert_eq.
Qed.

Lemma gdt_set_entry_done num base limit access granularity s :
  0 <= num < Z.of_nat (length (gdt (k_gdt s))) ->
  gdt_set_entry num base limit access granularity s =
    Done tt (set_gdt (GdtGlobals
      (<[Z.to_nat num := encoded base limit access granularity]> (gdt (k_gdt s)))
      (gdtr (k_gdt s)) (tss (k_gdt s))) s).
Proof.
  intros Hn. replace s with (set_gdt (k_gdt s) s) at 1 by by destruct s.
  destruct (k_gdt s) as [l r t]. by apply gdt_set_entry_at.
Qed.

(** Loading a selector of a table. *)
Lemma load_checked_at sel check mark d l r t s :
  0 <= sel / 8 -> l !! Z.to_nat (sel / 8) = Some d ->
  load_checked sel check mark (set_gdt (GdtGlobals l r t) s) =
    match check d with
    | None => Done tt (set_gdt (GdtGlobals
        (<[Z.to_nat (sel / 8) := with_access (Z.lor (gd_access d) mark) d]> l) r t) s)
    | Some code => Fault (GeneralProtection code) (set_gdt (GdtGlobals l r t) s)
    end.
Proof.
  intros Hn Hd. unfold load_checked. rewrite bind_gets. cbn [k_gdt set_gdt gdt].
  assert (index l (sel / 8) (set_gdt (GdtGlobals l r t) s) =
    Done d (set_gdt (GdtGlobals l r t) s)) as E
    by (unfold index; by rewrite decide_True, Hd).
  rewrite (bind_done _ _ _ _ _ E). destruct (check d); [done|]. by apply gdt_store_at.
Qed.

Lemma load_selector_at sel ok mark d l r t s :
  0 <= sel / 8 -> l !! Z.to_nat (sel / 8) = Some d ->
  load_selector sel ok mark (set_gdt (GdtGlobals l r t) s) =
    if ok d then Done tt (set_gdt (GdtGlobals
      (<[Z.to_nat (sel / 8) := with_access (Z.lor (gd_access d) mark) d]> l) r t) s)
    else Fault (GeneralProtection sel) (set_gdt (GdtGlobals l r t) s).
Proof.
  intros Hn Hd. unfold load_selector. rewrite (load_checked_at _ _ _ d) by done. by destruct (ok d).
Qed.

Lemma emits_set_gdt es g s : emits es (set_gdt g s) = set_gdt g (emits es s).
Proof. done. Qed.

Lemma s_setgdt_at limit base d1 d2 l r t s :
  l !! 1%nat = Some d1 -> l !! 2%nat = Some d2 -> is_code64 d1 = true -> is_data d2 = true ->
  s_setgdt limit base (set_gdt (GdtGlobals l r t) s) =
    Done tt (emits [EvAsm (Lgdt (u16 limit) base); EvAsm (LoadSegs 0x10 0x08)]
      (set_gdt (GdtGlobals
        (<[1%nat := with_access (Z.lor (gd_access d1) ACCESSED) d1]>
          (<[2%nat := with_access (Z.lor (gd_access d2) ACCESSED) d2]> l))
        (Gdtptr (u16 limit) base) t) s)).
Proof.
  intros H1 H2 Hc Hd. unfold s_setgdt, gdt_set. rewrite bind_modify. cbn [k_gdt set_gdt gdt tss].
  rewrite set_gdt_set_gdt, bind_asm, emits_set_gdt.
  erewrite bind_done by (erewrite (load_selector_at 0x10) by done; by rewrite Hd).
  apply andb_prop in Hc as [Hc Hl].
  erewrite bind_done by (unfold far_return; erewrite (load_checked_at 0x08 _ _ d1)
    by (done || by rewrite list_lookup_insert_ne); by rewrite Hc, Hl).
  unfold asm. by rewrite emit_done, <- emits_set_gdt, emits_app.
Qed.

Lemma s_settss_at d5 l r t s :
  l !! 5%nat = Some d5 ->
  s_settss (set_gdt (GdtGlobals l r t) s) =
    if is_available_tss d5 then
      Done tt (emits [EvAsm (Ltr 0x28)] (set_gdt (GdtGlobals
        (<[5%nat := with_access (Z.lor (gd_access d5) BUSY) d5]> l) r t) s))
    else Fault (GeneralProtection 0x28) (set_gdt (GdtGlobals l r t) s).
Proof.
  intros H5. unfold s_settss.
  pose proof (load_selector_at 0x28 is_available_tss BUSY d5 l r t s ltac:(done) H5) as E.
  destruct (is_available_tss d5); [by rewrite (bind_done _ _ _ _ _ E)|by apply bind_fault].
Qed.

(** The table and the globals [gdt_init] leaves: the kernel's segments are marked
    as accessed and the TSS as busy. *)
Definition gdt_final (lk : link_map) : gdt_globals :=
  GdtGlobals
    [encoded 0 0 0 0; encoded 0 0xFFFFF 0x9B 0xA; encoded 0 0xFFFFF 0x93 0xA;
     encoded 0 0xFFFFF 0xFA 0xA; encoded 0 0xFFFFF 0xF2 0xA;
     encoded (tss_addr lk) sizeof_tssdesc 0x8B 0; gdtdesc_zero]
    (Gdtptr 55 (gdt_addr lk)) (replicate 104 x00).

Lemma gdt_init_done s :
  gdt (k_gdt s) !! 6%nat = Some gdtdesc_zero -> length (gdt (k_gdt s)) = 7%nat ->
  gdt_init s = Done tt (emits [EvAsm (Lgdt 55 (gdt_addr (k_link s)));
      EvAsm (LoadSegs 0x10 0x08); EvAsm (Ltr 0x28)]
    (set_gdt (gdt_final (k_link s)) s)).
Proof.
  intros H6 Hl.
  destruct (gdt (k_gdt s)) as [|d0 [|d1 [|d2 [|d3 [|d4 [|d5 [|d6 [|]]]]]]]] eqn:E; try done.
  injection H6 as ->. unfold gdt_init, gdt_set. rewrite bind_gets, !bind_modify. cbn [k_gdt set_gdt].
  rewrite E, set_gdt_set_gdt.
  do 6 (erewrite bind_done by (apply gdt_set_entry_at; by split); cbn [insert list_insert Z.to_nat]).
  rewrite bind_gets.
  erewrite bind_done by (by apply s_setgdt_at). cbn [insert list_insert].
  rewrite emits_set_gdt. erewrite s_settss_at by done.
  by rewrite <- emits_set_gdt, emits_app.
Qed.

(** The base in the TSS's descriptor, whose upper half is zero. *)
Lemma gdt_final_tss lk :
  tss_base (descriptor (gdt_final lk) 0x28) (descriptor (gdt_final lk) 0x30) =
    tss_addr lk mod 2 ^ 32.
Proof.
  change (tss_base (gdtdesc_word (encoded (tss_addr lk) sizeof_tssdesc 0x8B 0))
    (gdtdesc_word gdtdesc_zero) = tss_addr lk mod 2 ^ 32).
  unfold tss_base. destruct (encoded_decodes (tss_addr lk) sizeof_tssdesc 0x8B 0) as (-> & _); [done|].
  change (field _ 0 32) with 0. lia.
Qed.

(** ** Properties *)

(** [gdt_set_entry] writes the entry the processor decodes to the base
    modulo 2^32, the limit modulo 2^20, the access byte and the low four flag
    bits it was given, leaves every other entry alone, and faults on an index
    out of the table. *)
Theorem gdt_set_entry_decodes (num base limit access granularity : Z) (s : kstate)
    (Ha : 0 <= access < 2 ^ 8) :
  (forall e, gdt (k_gdt s) !! Z.to_nat num = Some e -> 0 <= num ->
     exists s', gdt_set_entry num base limit access granularity s = Done tt s' /\
       let w := descriptor (k_gdt s') (8 * num) in
       seg_base w = base mod 2 ^ 32 /\ seg_limit w = limit mod 2 ^ 20 /\
       seg_access w = access /\ seg_flags w = granularity mod 2 ^ 4 /\
       forall j, j <> Z.to_nat num -> gdt (k_gdt s') !! j = gdt (k_gdt s) !! j) /\
  (num < 0 \/ gdt (k_gdt s) !! Z.to_nat num = None ->
     gdt_set_entry num base limit access granularity s = Fault (OutOfBounds num) s).
Proof.
  split.
  - intros e He Hn. pose proof (lookup_lt_Some _ _ _ He) as Hlt.
    eexists. split; [apply gdt_set_entry_done; lia|]. cbn [k_gdt set_gdt gdt].
    unfold descriptor. cbn [gdt]. rewrite (Z.mul_comm 8), Z.div_mul by lia.
    rewrite list_lookup_insert_eq by done. cbn [fmap option_fmap option_map default].
    split_and!; try apply encoded_decodes; [done..|].
    intros j Hj. by rewrite list_lookup_insert_ne by done.
  - intros Hn. unfold gdt_set_entry, gdt_store.
    unfold mbind at 1, M_bind at 1, gets. unfold mbind at 1, M_bind at 1, index.
    destruct Hn as [Hn|Hn]; [by rewrite decide_False by lia|].
    case_decide; [by rewrite Hn|done].
Qed.

Lemma gdt_set_entry_decodes_witness :
  (forall e, gdt (k_gdt sample_start) !! 1%nat = Some e -> 0 <= 1 ->
     exists s', gdt_set_entry 1 0x12345678 0xFFFFF 0x9A 0xA sample_start = Done tt s' /\
       let w := descriptor (k_gdt s') 8 in
       seg_base w = 0x12345678 /\ seg_limit w = 0xFFFFF /\ seg_access w = 0x9A /\
       seg_flags w = 0xA /\
       forall j, j <> 1%nat -> gdt (k_gdt s') !! j = gdt (k_gdt sample_start) !! j) /\
  (1 < 0 \/ gdt (k_gdt sample_start) !! 1%nat = None ->
     gdt_set_entry 1 0x12345678 0xFFFFF 0x9A 0xA sample_start = Fault (OutOfBounds 1) sample_start).
Proof. by apply (gdt_set_entry_decodes 1 0x12345678 0xFFFFF 0x9A 0xA sample_start). Defined.

(** C33: [gdt_init] loads a table with a null descriptor and flat 4 GiB code and
    data segments for the kernel and for users (base 0, limit 0xFFFFF pages,
    long mode for code by the flags 0xA), reloads the segment registers with the
    kernel's selectors and the task register with the TSS's, which marks those
    descriptors as accessed and busy, and clears the TSS.  A table in use, with
    its TSS busy, is reloaded as well.  The base the processor reads from the TSS's descriptor is the TSS's
    address modulo 2^32 only: the upper half of the descriptor, entry 6, is never
    written, though the kernel is linked in the top 2 GiB. *)
Theorem gdt_init_segments (s : kstate)
    (H6 : gdt (k_gdt s) !! 6%nat = Some gdtdesc_zero) (Hl : length (gdt (k_gdt s)) = 7%nat) :
  exists s', gdt_init s = Done tt s' /\
    k_trace s' = k_trace s ++ [EvAsm (Lgdt 55 (gdt_addr (k_link s)));
      EvAsm (LoadSegs 0x10 0x08); EvAsm (Ltr 0x28)] /\
    tss (k_gdt s') = replicate 104 x00 /\ descriptor (k_gdt s') 0 = 0 /\
    seg_access (descriptor (k_gdt s') 0x28) = 0x8B /\
    tss_base (descriptor (k_gdt s') 0x28) (descriptor (k_gdt s') 0x30) = tss_addr (k_link s) mod 2 ^ 32 /\
    forall sel access, In (sel, access) [(0x08, 0x9B); (0x10, 0x93); (0x18, 0xFA); (0x20, 0xF2)] ->
      let w := descriptor (k_gdt s') sel in
      seg_base w = 0 /\ seg_limit w = 0xFFFFF /\ seg_access w = access /\ seg_flags w = 0xA.
Proof.
  eexists. split; [by apply gdt_init_done|]. do 3 (split; [done|]).
  split; [by apply encoded_decodes|]. split; [exact (gdt_final_tss _)|]. intros sel access Hin. cbn in Hin.
  repeat destruct Hin as [[= <- <-]|Hin]; [by vm_compute..|done].
Qed.

Lemma gdt_init_segments_witness :
  exists s', gdt_init sample_start = Done tt s' /\
    k_trace s' = [EvAsm (Lgdt 55 0xffffffff80002000); EvAsm (LoadSegs 0x10 0x08); EvAsm (Ltr 0x28)] /\
    tss (k_gdt s') = replicate 104 x00 /\ descriptor (k_gdt s') 0 = 0 /\
    seg_access (descriptor (k_gdt s') 0x28) = 0x8B /\
    tss_base (descriptor (k_gdt s') 0x28) (descriptor (k_gdt s') 0x30) = 0x80002100 /\
    forall sel access, In (sel, access) [(0x08, 0x9B); (0x10, 0x93); (0x18, 0xFA); (0x20, 0xF2)] ->
      let w := descriptor (k_gdt s') sel in
      seg_base w = 0 /\ seg_limit w = 0xFFFFF /\ seg_access w = access /\ seg_flags w = 0xA.
Proof. by apply (gdt_init_segments sample_start). Defined.
