(* ===== verification/AcpiTables.v ===== *)
(** kern/sys/acpi/acpi.h: the packed structures of the ACPI tables, as lists of
    fields, and the offsets and sizes the compiler computes from them. *)

From S2P Require Import Prelude.

(** A packed structure: its fields in order, with their sizes in bytes; a
    flexible array member has size 0. *)
Definition layout : Type := list (string * Z).

Definition sizeof (l : layout) : Z := foldr (fun f n => f.2 + n) 0 l.

(** The offset of a field; the end of the structure when it has no such field. *)
Fixpoint offset_of (l : layout) (f : string) : Z :=
  match l with
  | [] => 0
  | (g, n) :: l => if String.eqb f g then 0 else n + offset_of l f
  end.

(** Both are computed where they are written, as the compiler does. *)
Notation "'SIZEOF' l" := (ltac:(let x := eval vm_compute in (sizeof l) in exact x))
  (at level 10, l at level 9, only parsing).
Notation "'OFFSETOF' l f" := (ltac:(let x := eval vm_compute in (offset_of l f) in exact x))
  (at level 10, l at level 9, f at level 9, only parsing).

(** ** The structures *)

Definition sdt_t : layout :=
  [("signature", 4); ("length", 4); ("revision", 1); ("checksum", 1); ("OEMID", 6);
   ("OEMtableid", 8); ("oemrevision", 4); ("creatorid", 4); ("creatorrevision", 4)].

Definition rsdp_t : layout :=
  [("signature", 8); ("checksum", 1); ("OEMID", 6); ("revision", 1); ("rsdtaddress", 4);
   ("length", 4); ("xsdtaddress", 8); ("extendedchecksum", 1); ("reserved", 3)].

Definition xsdt_t : layout := [("header", sizeof sdt_t); ("tableptrs", 0)].
Definition rsdt_t : layout := [("header", sizeof sdt_t); ("tableptrs", 0)].

Definition madt_record_t : layout := [("entry_type", 1); ("record_length", 1)].

Definition madt_plapic_t : layout :=
  [("entry_type", 1); ("entry_length", 1); ("processorUID", 1); ("apicID", 1); ("flags", 4)].

Definition madt_ioapic_t : layout :=
  [("entry_type", 1); ("entry_length", 1); ("ioapicID", 1); ("reserved", 1);
   ("ioapicaddr", 4); ("gsi", 4)].

Definition madt_iso_t : layout :=
  [("entry_type", 1); ("entry_length", 1); ("bus", 1); ("source", 1); ("gsi", 4);
   ("flags", 2)].

Definition madt_nmi_t : layout :=
  [("entry_type", 1); ("entry_length", 1); ("flags", 2); ("gsi", 4)].

Definition madt_lapicnmi_t : layout :=
  [("entry_type", 1); ("entry_length", 1); ("processorUID", 1); ("flags", 2);
   ("lint_num", 1)].

Definition madt_iosapic_t : layout :=
  [("entry_type", 1); ("entry_length", 1); ("ioapicID", 1); ("reserved", 1); ("gsi", 4);
   ("iosapicaddr", 8)].

Definition madt_pslapic_t : layout :=
  [("entry_type", 1); ("entry_length", 1); ("processorUID", 1); ("lsapicID", 1);
   ("lsapicEID", 1); ("reserved", 3); ("flags", 4); ("processorUIDval", 4);
   ("processorUIDstr", 1)].

Definition madt_t : layout :=
  [("header", sizeof sdt_t); ("lapicaddr", 4); ("flags", 4);
   ("first_ics", sizeof madt_record_t)].

Definition gas_t : layout :=
  [("AddressSpace", 1); ("BitWidth", 1); ("BitOffset", 1); ("AccessSize", 1);
   ("Address", 8)].

Definition fadt_t : layout :=
  [("header", sizeof sdt_t); ("FirmwareCtrl", 4); ("Dsdt", 4); ("Reserved", 1);
   ("PreferredPowerManagementProfile", 1); ("SCI_Interrupt", 2); ("SMI_CommandPort", 4);
   ("AcpiEnable", 1); ("AcpiDisable", 1); ("S4BIOS_REQ", 1); ("PSTATE_Control", 1);
   ("PM1aEventBlock", 4); ("PM1bEventBlock", 4); ("PM1aControlBlock", 4);
   ("PM1bControlBlock", 4); ("PM2ControlBlock", 4); ("PMTimerBlock", 4); ("GPE0Block", 4);
   ("GPE1Block", 4); ("PM1EventLength", 1); ("PM1ControlLength", 1);
   ("PM2ControlLength", 1); ("PMTimerLength", 1); ("GPE0Length", 1); ("GPE1Length", 1);
   ("GPE1Base", 1); ("CStateControl", 1); ("WorstC2Latency", 2); ("WorstC3Latency", 2);
   ("FlushSize", 2); ("FlushStride", 2); ("DutyOffset", 1); ("DutyWidth", 1);
   ("DayAlarm", 1); ("MonthAlarm", 1); ("Century", 1); ("BootArchitectureFlags", 2);
   ("Reserved2", 1); ("Flags", 4); ("ResetReg", sizeof gas_t); ("ResetValue", 1);
   ("Reserved3", 3); ("X_FirmwareControl", 8); ("X_Dsdt", 8);
   ("X_PM1aEventBlock", sizeof gas_t); ("X_PM1bEventBlock", sizeof gas_t);
   ("X_PM1aControlBlock", sizeof gas_t); ("X_PM1bControlBlock", sizeof gas_t);
   ("X_PM2ControlBlock", sizeof gas_t); ("X_PMTimerBlock", sizeof gas_t);
   ("X_GPE0Block", sizeof gas_t); ("X_GPE1Block", sizeof gas_t)].

Definition ics_list_t : layout := [("type", 4); ("header", sizeof madt_record_t)].

(** ** The offsets and sizes the code uses *)

Definition rsdp_rsdtaddress : Z := OFFSETOF rsdp_t "rsdtaddress".
Definition rsdp_xsdtaddress : Z := OFFSETOF rsdp_t "xsdtaddress".
Definition sdt_length : Z := OFFSETOF sdt_t "length".
Definition sizeof_sdt : Z := SIZEOF sdt_t.
Definition sizeof_madt : Z := SIZEOF madt_t.
Definition madt_lapicaddr : Z := OFFSETOF madt_t "lapicaddr".
Definition fadt_PMTimerBlock : Z := OFFSETOF fadt_t "PMTimerBlock".
Definition fadt_PMTimerLength : Z := OFFSETOF fadt_t "PMTimerLength".

(** ** Sanity *)

Lemma packed_sizes :
  (sizeof sdt_t, sizeof rsdp_t, sizeof madt_t, sizeof gas_t, sizeof fadt_t) =
    (36, 36, 46, 12, 244).
Proof. reflexivity. Qed.
