(* ===== verification/Interleave.v ===== *)
(** Processors that run at the same time.  [prog] is a program cut into the steps
    other processors can come between (a free monad over [M]), [run] interleaves
    the processors' steps over one memory as a schedule says. *)

From S2P Require Import Prelude Limine Types Machine.

(** ** Programs as steps *)

Inductive prog (A : Type) :=
  | PRet (a : A)
  | PStep {B : Type} (m : M B) (k : B -> prog A).
Arguments PRet {A} a.
Arguments PStep {A B} m k.

#[global] Instance prog_ret : MRet prog := @PRet.
#[global] Instance prog_bind : MBind prog := fun A B f =>
  fix go (p : prog A) : prog B :=
    match p with PRet a => f a | PStep m k => PStep m (fun b => go (k b)) end.

(** One step that nothing can interrupt. *)
Definition act {A} (m : M A) : prog A := PStep m PRet.

(** The program run alone. *)
Fixpoint denote {A} (p : prog A) : M A :=
  match p with PRet a => mret a | PStep m k => b ← m; denote (k b) end.

(** Its next step; a program that has ended stays so. *)
Definition next {A} (p : prog A) : M (prog A) :=
  match p with PRet a => mret (PRet a) | PStep m k => b ← m; mret (k b) end.

(** ** Schedules *)

Section run.
Context {P : Type} (step : P -> M P).

(** The processors' local states; whose turn it is, in order. *)
Fixpoint run (sched : list nat) (ls : list P) : M (list P) :=
  match sched with
  | [] => mret ls
  | i :: sched =>
      p ← index ls (Z.of_nat i);
      p' ← step p;
      run sched (<[i := p']> ls)
  end.

Lemma run_cons i sched ls p s :
  ls !! i = Some p ->
  run (i :: sched) ls s = (p' ← step p; run sched (<[i := p']> ls)) s.
Proof.
  intros Hp. cbn [run].
  assert (index ls (Z.of_nat i) s = Done p s) as E
    by (unfold index; by rewrite decide_True, Nat2Z.id, Hp by lia).
  by rewrite (bind_done _ _ _ _ _ E).
Qed.

Lemma run_app sched sched' ls s :
  run (sched ++ sched') ls s = (ls' ← run sched ls; run sched' ls') s.
Proof.
  revert ls s. induction sched as [|i sched IH]; intros ls s; [done|]. cbn [run app].
  unfold mbind, M_bind in *. destruct (index ls (Z.of_nat i) s) as [p s1| | |]; [|done..].
  destruct (step p s1) as [p' s2| | |]; [|done..]. apply IH.
Qed.

(** What every turn keeps holds after a schedule; [n] counts the turns. *)
Lemma run_keeps (I : nat -> list P -> kstate -> Prop) (F : fault -> kstate -> Prop) N :
  (forall n ls s i p, (n < N)%nat -> I n ls s -> ls !! i = Some p ->
     match step p s with
     | Done p' s' => I (S n) (<[i := p']> ls) s'
     | Fault f s' => F f s'
     | _ => False
     end) ->
  forall sched n ls s, (n + length sched <= N)%nat -> I n ls s ->
  Forall (fun i => i < length ls)%nat sched ->
  match run sched ls s with
  | Done ls' s' => I (n + length sched)%nat ls' s'
  | Fault f s' => F f s'
  | _ => False
  end.
Proof.
  intros Hstep. induction sched as [|i sched IH]; intros n ls s Hn HI Hs.
  - cbn. by rewrite Nat.add_0_r.
  - apply Forall_cons in Hs as [Hi Hs]. destruct (lookup_lt_is_Some_2 _ _ Hi) as [p Hp].
    cbn [length] in *. rewrite (run_cons _ _ _ p) by done.
    specialize (Hstep n ls s i p ltac:(lia) HI Hp).
    unfold mbind, M_bind. destruct (step p s) as [p' s'| | |]; [|done..].
    specialize (IH (S n) (<[i := p']> ls) s' ltac:(lia) Hstep). rewrite length_insert in IH.
    rewrite <- Nat.add_succ_comm. by apply IH.
Qed.
End run.

(** ** Programs and their runs *)

Lemma denote_bind {A B} (p : prog A) (f : A -> prog B) s :
  denote (p ≫= f) s = (a ← denote p; denote (f a)) s.
Proof.
  revert s. induction p as [a|C m k IH]; intros s; [done|].
  change (denote (PStep m k ≫= f) s) with ((b ← m; denote (k b ≫= f)) s).
  cbn [denote]. rewrite bind_assoc. destruct (m s) as [b s'|s'|e s'|] eqn:E.
  - rewrite !(bind_done _ _ _ _ _ E). apply IH.
  - by rewrite !(bind_halted _ _ _ _ E).
  - by rewrite !(bind_fault _ _ _ _ _ E).
  - unfold mbind, M_bind. by rewrite E.
Qed.

Lemma denote_act {A} (m : M A) s : denote (act m) s = m s.
Proof. cbn. unfold mbind, M_bind. by destruct (m s). Qed.

(** *** Programs cut from code of the monad *)

Lemma bind_ext {A B} (m m' : M A) (f g : A -> M B) s :
  m s = m' s -> (forall a s', f a s' = g a s') -> (m ≫= f) s = (m' ≫= g) s.
Proof. intros Hm Hf. unfold mbind, M_bind. rewrite Hm. by destruct (m' s). Qed.

Lemma denote_act_bind {A B} (m : M A) (f : A -> prog B) s :
  denote (act m ≫= f) s = (a ← m; denote (f a)) s.
Proof. done. Qed.

Lemma denote_bind_bind {A B C} (p : prog A) (k : A -> prog B) (f : B -> prog C) s :
  denote ((p ≫= k) ≫= f) s = (a ← denote p; denote (k a ≫= f)) s.
Proof.
  rewrite denote_bind. transitivity (((a ← denote p; denote (k a)) ≫= (fun b => denote (f b))) s).
  - apply bind_ext; [apply denote_bind|done].
  - rewrite bind_assoc. apply bind_ext; [done|]. intros a s1. by rewrite denote_bind.
Qed.

Create HintDb same.

(** Step through a program and the code it was cut from. *)
Ltac same_steps :=
  repeat (rewrite denote_act_bind; apply bind_ext; [done|intros ? ?]);
  first
    [ solve [apply denote_act | auto with same]
    | rewrite denote_bind; apply bind_ext; [solve [auto with same]|intros ? ?]; same_steps ].

(** A processor that gets enough turns in a row does what its program does alone,
    whatever the others were doing. *)
Lemma run_alone {A} (p : prog A) : forall i ls s a s',
  ls !! i = Some p -> denote p s = Done a s' ->
  exists n, forall m, (n <= m)%nat -> run next (replicate m i) ls s = Done (<[i := PRet a]> ls) s'.
Proof.
  induction p as [a'|C m k IH]; intros i ls s a s' Hi E.
  - injection E as -> ->. exists 0%nat. intros m _. induction m as [|m IHm].
    + cbn. by rewrite list_insert_id.
    + cbn [replicate]. rewrite (run_cons _ _ _ _ _ _ Hi).
      rewrite (bind_done _ _ _ _ _ (eq_refl : next (PRet a) s' = Done (PRet a) s')).
      by rewrite list_insert_id at 1.
  - cbn [denote] in E. unfold mbind, M_bind in E. destruct (m s) as [b s1| | |] eqn:Em; [|done..].
    pose proof (lookup_lt_Some _ _ _ Hi) as Hlt.
    destruct (IH b i (<[i := k b]> ls) s1 a s') as [n Hn]; [by apply list_lookup_insert_eq|done|].
    exists (S n). intros [|t] Ht; [lia|]. cbn [replicate].
    rewrite (run_cons _ _ _ _ _ _ Hi). cbn [next].
    rewrite bind_assoc, (bind_done _ _ _ _ _ Em).
    rewrite (bind_done _ _ _ _ _ (eq_refl : (mret (k b) : M _) s1 = Done (k b) s1)).
    rewrite Hn by lia. by rewrite list_insert_insert_eq.
Qed.

(** Each step of a program keeps [I], and faults only as [F] allows. *)
Fixpoint keeps {A} (I : kstate -> Prop) (F : fault -> Prop) (p : prog A) : Prop :=
  match p with
  | PRet _ => True
  | PStep m k => forall s, I s ->
      match m s with
      | Done b s' => I s' /\ keeps I F (k b)
      | Fault f _ => F f
      | _ => False
      end
  end.

Lemma keeps_bind {A B} I F (p : prog A) (f : A -> prog B) :
  keeps I F p -> (forall a, keeps I F (f a)) -> keeps I F (p ≫= f).
Proof.
  intros Hp Hf. induction p as [a|C m k IH]; [apply Hf|].
  cbn in *. intros s Hs. specialize (Hp s Hs).
  destruct (m s) as [b s'| | |]; [|done..]. destruct Hp as [HI Hk].
  split; [done|]. by apply IH.
Qed.

(** Any number of processors, however they interleave. *)
Lemma run_all_keep {A} I F (ps : list (prog A)) sched s :
  Forall (keeps I F) ps -> I s -> Forall (fun i => i < length ps)%nat sched ->
  match run next sched ps s with
  | Done _ s' => I s'
  | Fault f _ => F f
  | _ => False
  end.
Proof.
  intros Hps Hs Hsched.
  assert (match run next sched ps s with
    | Done ls s' => Forall (keeps I F) ls /\ I s' | Fault f _ => F f | _ => False end) as H;
    [|by destruct (run next sched ps s); try apply H].
  apply (run_keeps next (fun _ (ls : list (prog A)) s => Forall (keeps I F) ls /\ I s)
    (fun f _ => F f) (length sched)) with (n := 0%nat); [|done|done|done].
  intros _ ls s1 i p _ [Hls Hs1] Hp. pose proof (proj1 (Forall_lookup _ _) Hls _ _ Hp) as Hk.
  destruct p as [a0|C m k]; cbn in *; [by rewrite list_insert_id|].
  specialize (Hk s1 Hs1). unfold mbind, M_bind. destruct (m s1) as [b s2| | |]; [|done..].
  destruct Hk as [HI Hk]. split; [by apply Forall_insert|done].
Qed.
