(* ===== verification/Apic.v ===== *)
(** kern/sys/acpi/apic.c, the local APIC, the I/O APIC and the tables of the
    MADT: register accesses, end of interrupt, the timer, sleeping, and the list
    of interrupt controllers. (The initialisation functions of the file, which
    call into ps2.c and acpi.c, are in Acpi.v.)

    A loop that polls the hardware has no bound of its own: the section's [polls]
    is the number of iterations it is run for, and the theorems say which values
    are enough. *)

From S2P Require Import Prelude Limine Types Machine Memory Sample CString Video Printf Log.
From S2P Require Import AcpiTables.

(** ** Code *)

Definition LAPIC_EOI_REG : Z := 0xB0.
Definition LAPIC_SIVR_REG : Z := 0xF0.
Definition LAPIC_ICR_LOW : Z := 0x300.
Definition LAPIC_ICR_HIGH : Z := 0x310.
Definition LAPIC_TIMERDIV_REG : Z := 0x3E0.
Definition LAPIC_LVTTIMER_REG : Z := 0x320.
Definition LAPIC_INITCNT_REG : Z := 0x380.
Definition LAPIC_CURCNT_REG : Z := 0x390.
Definition LAPIC_PERIODIC : Z := 0x20000.
Definition LAPIC_EOI_COMMAND : Z := 0x0.
Definition IOAPICVER_REG : Z := 0x1.
Definition IOAPICREDTBL_REG (n : Z) : Z := 0x10 + 2 * n.

Definition apic_get {A} (f : apic_globals -> A) : M A := gets (fun s => f (k_apic s)).
Definition apic_set (f : apic_globals -> apic_globals) : M unit :=
  modify (fun s => set_apic (f (k_apic s)) s).

Definition with_lapic_address x g := ApicGlobals x (lapic_addr g) (ioapic_address g)
  (apic_timer_ticks g) (ics_array g).
Definition with_lapic_addr x g := ApicGlobals (lapic_address g) x (ioapic_address g)
  (apic_timer_ticks g) (ics_array g).
Definition with_ioapic_address x g := ApicGlobals (lapic_address g) (lapic_addr g) x
  (apic_timer_ticks g) (ics_array g).
Definition with_ticks x g := ApicGlobals (lapic_address g) (lapic_addr g) (ioapic_address g)
  x (ics_array g).
Definition with_ics x g := ApicGlobals (lapic_address g) (lapic_addr g) (ioapic_address g)
  (apic_timer_ticks g) x.

(** *** Register accesses *)

Definition ioapic_read (ioapicaddr reg : Z) : M Z :=
  emit (EvMmioWrite 32 ioapicaddr (Z.land (u8 reg) 0xFF)) ;;
  v ← request (RMmio (ioapicaddr ⊕ 16)) (fun v => EvMmioRead (ioapicaddr ⊕ 16) (u32 v));
  mret (s32 (u32 v)).

Definition ioapic_write (ioapicaddr reg value : Z) : M unit :=
  emit (EvMmioWrite 32 ioapicaddr (Z.land (u8 reg) 0xFF)) ;;
  emit (EvMmioWrite 32 (ioapicaddr ⊕ 16) (u32 value)).

(** The elements of this one's pointer are 64 bits wide. *)
Definition ioapic_redt_write (ioapicaddr reg value : Z) : M unit :=
  emit (EvMmioWrite 64 ioapicaddr (Z.land (u8 reg) 0xFF)) ;;
  emit (EvMmioWrite 64 (ioapicaddr ⊕ 32) (u64 value)).

Definition apic_read (apic_base reg : Z) : M Z :=
  v ← request (RMmio (apic_base ⊕ reg)) (fun v => EvMmioRead (apic_base ⊕ reg) (u32 v));
  mret (u32 v).

Definition apic_write (apic_base reg data : Z) : M unit :=
  off ← gets (fun s => hhdmoffset (k_vmm s));
  emit (EvMmioWrite 32 (apic_base ⊕ reg ⊕ off) (u32 data)).

Definition apic_send_interrupt (apic_base apic vector : Z) : M unit :=
  apic_write apic_base LAPIC_ICR_HIGH (u32 (Z.shiftl (u8 apic) 24)) ;;
  apic_write apic_base LAPIC_ICR_LOW (u8 vector).

Definition apic_eoi : M unit :=
  base ← apic_get lapic_address;
  apic_write base LAPIC_EOI_REG LAPIC_EOI_COMMAND.

Definition apic_timer : M unit :=
  apic_set (fun g => with_ticks (apic_timer_ticks g ⊕ 1) g) ;;
  apic_eoi.

Definition ioapic_configure_entry (addr reg val : Z) : M unit :=
  ioapic_write addr (IOAPICREDTBL_REG (u8 reg)) (u32 val) ;;
  ioapic_write addr (IOAPICREDTBL_REG (u8 reg) + 1) (u32 (Z.shiftr val 32)).

(** *** Sleeping *)

(** The timer interrupts the hardware delivers at this point, each running
    [apic_timer]. *)
Fixpoint run_times (n : nat) (m : M unit) : M unit :=
  match n with
  | O => mret tt
  | S n => m ;; run_times n m
  end.

Definition timer_interrupts : M unit :=
  n ← gets (fun s => hw_irq (k_hw s) (k_trace s));
  run_times n apic_timer.

(** while (apic_timer_ticks - curcnt < ms) nop, on [uint64_t]: both [int]s are
    converted *)
Fixpoint apic_sleep_loop (fuel : nat) (curcnt ms : Z) : M unit :=
  ticks ← apic_get apic_timer_ticks;
  if ticks ⊖ u64 curcnt <? u64 ms then
    match fuel with
    | O => out_of_fuel
    | S fuel =>
        asm Nop ;;
        timer_interrupts ;;
        apic_sleep_loop fuel curcnt ms
    end
  else mret tt.

Definition apic_sleep (polls : nat) (ms : Z) : M unit :=
  ticks ← apic_get apic_timer_ticks;
  apic_sleep_loop polls (s32 ticks) ms.

(** io.c *)
Definition sleep (polls : nat) (ms : Z) : M unit := apic_sleep polls ms.

(** *** The MADT *)

(** ics_array[i] with some of its fields assigned *)
Definition ics_store (i : Z) (f : madt_ics_t -> madt_ics_t) : M unit :=
  l ← apic_get ics_array;
  e ← index l i;
  apic_set (with_ics (<[Z.to_nat i := f e]> l)).

(** The switch on the type of the record at [cur]; answers the next [i]. *)
Definition madt_record (cur i : Z) : M Z :=
  ty ← load8 cur;
  match ty with
  | 0 =>
      flags ← load32 (cur ⊕ OFFSETOF madt_plapic_t "flags");
      if flags =? 0 then mret i
      else
        id ← load8 (cur ⊕ OFFSETOF madt_plapic_t "apicID");
        printf "apic: Found CPU: {dn}" [VInt id] ;;
        ics_store i (fun e => MadtIcs cur (ic_type e) (ic_apic_id e) (ic_present e)) ;;
        ics_store i (fun e => MadtIcs (ic_address e) ty (ic_apic_id e) (ic_present e)) ;;
        id ← load8 (cur ⊕ OFFSETOF madt_plapic_t "apicID");
        ics_store i (fun e => MadtIcs (ic_address e) (ic_type e) id (ic_present e)) ;;
        ics_store i (fun e => MadtIcs (ic_address e) (ic_type e) (ic_apic_id e) true) ;;
        mret (i + 1)
  | 1 =>
      ics_store i (fun e => MadtIcs cur (ic_type e) (ic_apic_id e) (ic_present e)) ;;
      ics_store i (fun e => MadtIcs (ic_address e) ty (ic_apic_id e) (ic_present e)) ;;
      addr ← load32 (cur ⊕ OFFSETOF madt_ioapic_t "ioapicaddr");
      apic_set (with_ioapic_address addr) ;;
      mret (i + 1)
  | 2 =>
      ics_store i (fun e => MadtIcs cur (ic_type e) (ic_apic_id e) (ic_present e)) ;;
      ics_store i (fun e => MadtIcs (ic_address e) ty (ic_apic_id e) (ic_present e)) ;;
      mret (i + 1)
  | _ => mret i
  end.

Fixpoint madt_loop (fuel : nat) (cur length i : Z) : M unit :=
  if 0 <? length then
    match fuel with
    | O => out_of_fuel
    | S fuel =>
        i ← madt_record cur i;
        rl ← load8 (cur ⊕ OFFSETOF madt_record_t "record_length");
        madt_loop fuel (cur ⊕ rl) (length - rl) i
    end
  else mret tt.

(** A record that is not empty shortens [length] by a byte at least. *)
Definition get_madt_tables (madt : Z) : M unit :=
  len ← load32 (madt ⊕ sdt_length);
  let length := s32 (len ⊖ sizeof_madt ⊕ 2) in
  madt_loop (Z.to_nat length) (madt ⊕ OFFSETOF madt_t "first_ics") length 0.

(** The loop returns from its body. *)
Definition find_gsi (legacy_pin : Z) : M Z :=
  r ← for_ret 0 64 1 (fun i =>
    l ← apic_get ics_array;
    e ← index l i;
    if ic_type e =? 2 then
      source ← load8 (ic_address e ⊕ OFFSETOF madt_iso_t "source");
      if source =? legacy_pin then
        gsi ← load32 (ic_address e ⊕ OFFSETOF madt_iso_t "gsi");
        printf "apic: Found legacy pin: {d}, which is connected to IOAPIC pin: {dn}"
          [VInt legacy_pin; VInt gsi] ;;
        gsi ← load32 (ic_address e ⊕ OFFSETOF madt_iso_t "gsi");
        mret (Some (s32 gsi))
      else mret None
    else mret None);
  mret (default legacy_pin r).

(** ** Reference: the records of the MADT *)

(** A record as the ACPI specification lays it out, with the fields used. *)
Inductive madt_rec :=
  | LocalApic (id flags : Z)
  | IoApic (addr : Z)
  | SourceOverride (source gsi : Z)
  | OtherRecord (type : Z).

(** [n] bytes at [va] hold the little-endian value [v]. *)
Definition holds (s : kstate) (va : Z) (n : nat) (v : Z) : Prop :=
  exists p, mapped s va (Z.of_nat n) p /\ le_val (ram_read (k_ram s) p n) = v.

Definition rec_type (r : madt_rec) : Z :=
  match r with LocalApic _ _ => 0 | IoApic _ => 1 | SourceOverride _ _ => 2 | OtherRecord t => t end.

Definition rec_fields (s : kstate) (cur : Z) (r : madt_rec) : Prop :=
  match r with
  | LocalApic id flags => holds s (cur ⊕ 3) 1 id /\ holds s (cur ⊕ 4) 4 flags
  | IoApic addr => holds s (cur ⊕ 4) 4 addr
  | SourceOverride source gsi => holds s (cur ⊕ 3) 1 source /\ holds s (cur ⊕ 4) 4 gsi
  | OtherRecord t => 2 < t
  end.

(** [len] bytes at [cur] are a sequence of records, none of them empty. *)
Inductive madt_at (s : kstate) : Z -> Z -> list (Z * madt_rec) -> Prop :=
  | madt_end cur : madt_at s cur 0 []
  | madt_cons cur len r rl rs :
      holds s cur 1 (rec_type r) -> rec_fields s cur r -> holds s (cur ⊕ 1) 1 rl ->
      0 < rl <= len -> madt_at s (cur ⊕ rl) (len - rl) rs ->
      madt_at s cur len ((cur, r) :: rs).

(** The element the list of controllers gets for a record, on top of a zeroed
    one: disabled processors and other types get none. *)
Definition rec_entry (cr : Z * madt_rec) : option madt_ics_t :=
  match cr.2 with
  | LocalApic id flags => if flags =? 0 then None else Some (MadtIcs cr.1 0 id true)
  | IoApic _ => Some (MadtIcs cr.1 1 0 false)
  | SourceOverride _ _ => Some (MadtIcs cr.1 2 0 false)
  | OtherRecord _ => None
  end.

(** The I/O APIC of the last record that names one. *)
Definition last_ioapic (rs : list (Z * madt_rec)) (old : Z) : Z :=
  foldl (fun a cr => match cr.2 with IoApic addr => addr | _ => a end) old rs.

(** The messages of the scan. *)
Definition rec_events (cr : Z * madt_rec) : list event :=
  match cr.2 with
  | LocalApic id flags =>
      if flags =? 0 then []
      else default [] (format_events "apic: Found CPU: {dn}" [VInt id])
  | _ => []
  end.

(** The array with the first elements as listed and the rest zero. *)
Definition ics_list (es : list madt_ics_t) : list madt_ics_t :=
  es ++ replicate (64 - length es) madt_ics_zero.

(** ** Lemmas *)

Lemma holds_frame s s' va n v :
  k_hw s' = k_hw s -> k_ram s' = k_ram s -> holds s va n v -> holds s' va n v.
Proof. intros Hhw Hram (p & Hm & Hv). exists p. rewrite Hram. split; [by apply (mapped_hw s)|done]. Qed.

Lemma rec_fields_frame s s' cur r :
  k_hw s' = k_hw s -> k_ram s' = k_ram s -> rec_fields s cur r -> rec_fields s' cur r.
Proof.
  intros Hhw Hram. destruct r; cbn; try done;
    [intros [H1 H2]; split|intros H1|intros [H1 H2]; split]; by apply (holds_frame s).
Qed.

Lemma load8_holds s va v : holds s va 1 v -> load8 va s = Done v s.
Proof.
  intros (p & Hm & <-). specialize (Hm 0 ltac:(lia)). rewrite !Z.add_0_r in Hm.
  rewrite (load8_done s va p Hm). unfold le_val. cbn. by rewrite Z.lor_0_r.
Qed.

Lemma load32_holds s va v : holds s va 4 v -> load32 va s = Done v s.
Proof. intros (p & Hm & <-). by apply load32_done. Qed.

Lemma ics_store_done i f e s :
  0 <= i -> ics_array (k_apic s) !! Z.to_nat i = Some e ->
  ics_store i f s =
    Done tt (set_apic (with_ics (<[Z.to_nat i := f e]> (ics_array (k_apic s))) (k_apic s)) s).
Proof.
  intros Hi He. apply wp_eq. unfold ics_store, apic_get, apic_set. wp_steps.
  by apply (wp_index _ _ e); [done|done|wp_steps].
Qed.


Lemma ics_list_lookup es : (length es < 64)%nat -> ics_list es !! length es = Some madt_ics_zero.
Proof.
  intros Hl. unfold ics_list. rewrite lookup_app_r, Nat.sub_diag by lia.
  apply lookup_replicate_2. lia.
Qed.

Lemma ics_list_push es x :
  (length es < 64)%nat -> <[length es := x]> (ics_list es) = ics_list (es ++ [x]).
Proof.
  intros Hl. unfold ics_list. rewrite insert_app_r_alt, Nat.sub_diag by lia.
  rewrite length_app. cbn [length].
  replace (64 - length es)%nat with (S (64 - (length es + 1))) by lia.
  simpl. by rewrite <- app_assoc.
Qed.

Lemma ics_list_last es x y :
  (length es < 64)%nat ->
  ics_list (es ++ [x]) !! length es = Some x /\
  <[length es := y]> (ics_list (es ++ [x])) = ics_list (es ++ [y]).
Proof.
  intros Hl. unfold ics_list. rewrite !length_app. cbn [length].
  rewrite <- !app_assoc. cbn [app]. split.
  - by rewrite list_lookup_middle.
  - by rewrite insert_app_r_alt, Nat.sub_diag by lia.
Qed.

(** Assignments to the next element of the list. *)
Section push.
Context (s : kstate) (es : list madt_ics_t) (a b c d : Z).
Context (Hl : (length es < 64)%nat).

Lemma ics_store_push f :
  ics_store (Z.of_nat (length es)) f (set_apic (ApicGlobals a b c d (ics_list es)) s) =
    Done tt (set_apic (ApicGlobals a b c d (ics_list (es ++ [f madt_ics_zero]))) s).
Proof using Hl.
  rewrite (ics_store_done _ _ madt_ics_zero); cbn; [|lia|by rewrite Nat2Z.id, ics_list_lookup].
  unfold with_ics. cbn. by rewrite Nat2Z.id, ics_list_push.
Qed.

Lemma ics_store_last f x :
  ics_store (Z.of_nat (length es)) f (set_apic (ApicGlobals a b c d (ics_list (es ++ [x]))) s) =
    Done tt (set_apic (ApicGlobals a b c d (ics_list (es ++ [f x]))) s).
Proof using Hl.
  destruct (ics_list_last es x (f x) Hl) as [H1 H2].
  rewrite (ics_store_done _ _ x); cbn; [|lia|by rewrite Nat2Z.id].
  unfold with_ics. cbn. by rewrite Nat2Z.id, H2.
Qed.
End push.

(** The globals after some records, on top of [es]. *)
Definition scanned (rs : list (Z * madt_rec)) (es : list madt_ics_t) (g : apic_globals)
  : apic_globals :=
  ApicGlobals (lapic_address g) (lapic_addr g) (last_ioapic rs (ioapic_address g))
    (apic_timer_ticks g) (ics_list (es ++ omap rec_entry rs)).

Lemma madt_record_done s g es cur r :
  holds s cur 1 (rec_type r) -> rec_fields s cur r ->
  (length (es ++ omap rec_entry [(cur, r)]) <= 64)%nat ->
  ics_array g = ics_list es ->
  madt_record cur (Z.of_nat (length es)) (set_apic g s) =
    Done (Z.of_nat (length (es ++ omap rec_entry [(cur, r)])))
      (emits (rec_events (cur, r)) (set_apic (scanned [(cur, r)] es g) s)).
Proof.
  intros Hty Hf Hl Hics. destruct g as [a b c d l]. cbn in Hics. subst l.
  unfold madt_record. rewrite length_app in Hl |- *.
  assert (forall g va n v, holds s va n v -> holds (set_apic g s) va n v) as Hh
    by (intros; by apply (holds_frame s)).
  assert (Z.of_nat (length es + 1) = Z.of_nat (length es) + 1) as Hlen by lia.
  rewrite (bind_done _ _ _ _ _ (load8_holds _ _ _ (Hh _ _ _ _ Hty))).
  destruct r as [id flags|addr|source gsi|ty]; cbn [rec_type rec_fields] in *.
  - destruct Hf as [Hid Hfl].
    rewrite (bind_done _ _ _ _ _ (load32_holds _ _ _ (Hh _ _ _ _ Hfl))).
    unfold rec_events, scanned, rec_entry, omap in *. cbn [snd fst list_omap] in *.
    destruct (flags =? 0).
    + cbn [length app]. rewrite Nat.add_0_r, app_nil_r, emits_nil. done.
    + cbn [length] in Hl.
      rewrite (bind_done _ _ _ _ _ (load8_holds _ _ _ (Hh _ _ _ _ Hid))).
      destruct (render_typed (parse false (str_codes "apic: Found CPU: {dn}")) [VInt id] [])
        as (ev & E & _); [done|]. change (format_events "apic: Found CPU: {dn}" [VInt id] = Some ev) in E.
      rewrite E. rewrite (bind_done _ _ _ _ _ (printf_done _ _ _ _ E)). cbn [default].
      change (emits ev (set_apic ?g s)) with (set_apic g (emits ev s)).
      erewrite bind_done by (apply ics_store_push; lia).
      erewrite bind_done by (apply ics_store_last; lia).
      erewrite bind_done by (apply load8_holds; by apply (holds_frame s)).
      erewrite bind_done by (apply ics_store_last; lia).
      erewrite bind_done by (apply ics_store_last; lia).
      cbn [length]. by rewrite Hlen.
  - unfold rec_events, scanned, rec_entry, omap in *. cbn [snd fst list_omap length] in *.
    erewrite bind_done by (apply ics_store_push; lia).
    erewrite bind_done by (apply ics_store_last; lia).
    rewrite (bind_done _ _ _ _ _ (load32_holds _ _ _ (Hh _ _ _ _ Hf))).
    rewrite emits_nil, Hlen. done.
  - unfold rec_events, scanned, rec_entry, omap in *. cbn [snd fst list_omap length] in *.
    erewrite bind_done by (apply ics_store_push; lia).
    erewrite bind_done by (apply ics_store_last; lia).
    rewrite emits_nil, Hlen. done.
  - unfold rec_events, scanned, rec_entry, omap in *. cbn [snd fst list_omap length app] in *.
    rewrite app_nil_r, emits_nil, Nat.add_0_r.
    destruct ty as [|[p|[p|p|]|]|]; try lia; try done.
Qed.

Lemma madt_loop_done s len cur rs :
  madt_at s cur len rs -> forall fuel g es s',
  k_hw s' = k_hw s -> k_ram s' = k_ram s ->
  len <= Z.of_nat fuel -> (length (es ++ omap rec_entry rs) <= 64)%nat ->
  ics_array g = ics_list es ->
  madt_loop fuel cur len (Z.of_nat (length es)) (set_apic g s') =
    Done tt (emits (concat (rec_events <$> rs)) (set_apic (scanned rs es g) s')).
Proof.
  induction 1 as [cur|cur len r rl rs Hty Hf Hrl Hlen Hrs IH];
    intros fuel g es s' Hhw Hram Hfuel Hl Hics.
  - destruct fuel; cbn [madt_loop]; cbn [concat fmap list_fmap]; rewrite emits_nil;
      unfold scanned; cbn; rewrite app_nil_r, <- Hics; by destruct g.
  - destruct fuel as [|fuel]; [lia|]. cbn [madt_loop]. rewrite (proj2 (Z.ltb_lt 0 len)) by lia.
    assert (omap rec_entry ((cur, r) :: rs) = omap rec_entry [(cur, r)] ++ omap rec_entry rs) as E
      by (cbn; by destruct (rec_entry (cur, r))).
    rewrite E, app_assoc in Hl.
    erewrite bind_done; cycle 1.
    { apply madt_record_done; [by apply (holds_frame s)|by apply (rec_fields_frame s)| |done].
      rewrite length_app in Hl. lia. }
    erewrite bind_done; cycle 1.
    { apply load8_holds. by apply (holds_frame s). }
    change (emits (rec_events (cur, r)) (set_apic (scanned [(cur, r)] es g) s'))
      with (set_apic (scanned [(cur, r)] es g) (emits (rec_events (cur, r)) s')).
    rewrite IH; [|done|done|lia|done|done].
    change (emits ?a (set_apic ?b (emits ?c ?d))) with (emits a (emits c (set_apic b d))).
    rewrite emits_app. unfold scanned. rewrite E, app_assoc. done.
Qed.

Lemma madt_length len : 44 <= len < 2 ^ 31 -> s32 (len ⊖ sizeof_madt ⊕ 2) = len - 44.
Proof.
  intros Hl. unfold u64, sizeof_madt. rewrite Zplus_mod_idemp_l.
  rewrite Z.mod_small by lia. rewrite s32_small by lia. lia.
Qed.

(** *** Looking up an override *)

(** What an element of the list says about legacy pins: the source and the
    global interrupt of an override. *)
Definition describes (s : kstate) (e : madt_ics_t) (o : option (Z * Z)) : Prop :=
  match o with
  | None => ic_type e <> 2
  | Some (source, gsi) =>
      ic_type e = 2 /\ holds s (ic_address e ⊕ 3) 1 source /\ holds s (ic_address e ⊕ 4) 4 gsi
  end.

Definition override_of (pin : Z) (o : option (Z * Z)) : option Z :=
  match o with
  | Some (source, gsi) => if source =? pin then Some (s32 gsi) else None
  | None => None
  end.

Definition rec_override (cr : Z * madt_rec) : option (Z * Z) :=
  match cr.2 with SourceOverride source gsi => Some (source, gsi) | _ => None end.

(** The global interrupt of the first override of a pin. *)
Definition first_override (pin : Z) (rs : list (Z * madt_rec)) : option Z :=
  head (omap (fun cr => override_of pin (rec_override cr)) rs).

Definition gsi_body (legacy_pin i : Z) : M (option Z) :=
  l ← apic_get ics_array;
  e ← index l i;
  if ic_type e =? 2 then
    source ← load8 (ic_address e ⊕ 3);
    if source =? legacy_pin then
      gsi ← load32 (ic_address e ⊕ 4);
      printf "apic: Found legacy pin: {d}, which is connected to IOAPIC pin: {dn}"
        [VInt legacy_pin; VInt gsi] ;;
      gsi ← load32 (ic_address e ⊕ 4);
      mret (Some (s32 gsi))
    else mret None
  else mret None.

Lemma gsi_body_done s pin i e o :
  ics_array (k_apic s) !! i = Some e -> describes s e o ->
  exists es, console_only es /\ (override_of pin o = None -> es = []) /\
    gsi_body pin (Z.of_nat i) s = Done (override_of pin o) (emits es s).
Proof.
  intros He Ho.
  enough (wp (gsi_body pin (Z.of_nat i)) (fun r s' => r = override_of pin o /\
    exists es, console_only es /\ (override_of pin o = None -> es = []) /\
      s' = emits es s) never s) as Hw.
  { apply wp_inv_done in Hw as (r & s' & E & -> & es & Hes & Hn & ->). eauto. }
  unfold gsi_body, apic_get. wp_steps.
  eapply (wp_index _ _ e); [lia|by rewrite Nat2Z.id|].
  assert (forall r : option Z, r = override_of pin o -> r = override_of pin o /\
    exists es, console_only es /\ (override_of pin o = None -> es = []) /\ s = emits es s) as Hnil.
  { intros r Hr. split; [done|]. exists []. split; [constructor|]. by rewrite emits_nil. }
  destruct o as [[source gsi]|]; cbn [describes override_of] in *.
  - destruct Ho as (-> & Hs & Hg). rewrite Z.eqb_refl. wp_step.
    eapply wp_done; [by apply load8_holds|].
    destruct (source =? pin); [|apply wp_ret; auto].
    wp_step. eapply wp_done; [by apply load32_holds|]. wp_step.
    apply wp_printf_typed; [reflexivity|]. intros es Hes. wp_step.
    eapply wp_done; [apply load32_holds; by apply (holds_frame s)|].
    apply wp_ret. split; [done|]. by exists es.
  - rewrite (proj2 (Z.eqb_neq _ _)) by done. apply wp_ret. auto.
Qed.

Lemma find_gsi_loop s pin : forall l os pre,
  ics_array (k_apic s) = pre ++ l -> (length pre + length l = 64)%nat ->
  Forall2 (describes s) l os ->
  exists es, console_only es /\
    for_ret_fuel (length l) 64 1 (Z.of_nat (length pre)) (gsi_body pin) s =
      Done (head (omap (override_of pin) os)) (emits es s).
Proof.
  induction l as [|e l IH]; intros os pre Hics Hlen Hos.
  - apply Forall2_nil_inv_l in Hos as ->. exists []. split; [constructor|]. cbn in Hlen.
    cbn [length for_ret_fuel]. rewrite (proj2 (Z.ltb_ge _ 64)) by lia. by rewrite emits_nil.
  - apply Forall2_cons_inv_l in Hos as (o & os' & Ho & Hos & ->). cbn [length] in *.
    cbn [for_ret_fuel]. rewrite (proj2 (Z.ltb_lt _ 64)) by lia.
    assert (ics_array (k_apic s) !! length pre = Some e) as He
      by (rewrite Hics; by apply list_lookup_middle).
    destruct (gsi_body_done s pin (length pre) e o He Ho) as (es & Hes & Hn & E).
    rewrite (bind_done _ _ _ _ _ E). cbn [omap list_omap].
    destruct (override_of pin o) as [v|] eqn:Ev; [by exists es|].
    rewrite Hn, emits_nil, u64_small by (done || lia).
    replace (Z.of_nat (length pre) + 1) with (Z.of_nat (length (pre ++ [e])))
      by (rewrite length_app; cbn; lia).
    apply IH; [by rewrite <- app_assoc|rewrite length_app; cbn; lia|done].
Qed.

(** The elements [get_madt_tables] stored describe their records. *)
Lemma entries_describe s rs :
  (forall cr, cr ∈ rs -> rec_fields s cr.1 cr.2) ->
  exists os, Forall2 (describes s) (omap rec_entry rs) os /\
    forall pin, omap (override_of pin) os = omap (fun cr => override_of pin (rec_override cr)) rs.
Proof.
  induction rs as [|[cur r] rs IH]; intros Hf; [by exists []|].
  destruct IH as (os & Hos & Ho); [by intros; apply Hf; right|].
  pose proof (Hf (cur, r) ltac:(by left)) as Hr. cbn in Hr.
  destruct r as [id flags|addr|source gsi|ty]; cbn [omap list_omap rec_entry snd fst].
  - destruct (flags =? 0); [by exists os|]. exists (None :: os). split; [|done].
    by constructor.
  - exists (None :: os). split; [|done]. by constructor.
  - exists (Some (source, gsi) :: os). split; [by constructor; [split|]|].
    intros pin. cbn. rewrite Ho. done.
  - by exists os.
Qed.

Lemma get_madt_tables_done s madt len rs :
  holds s (madt ⊕ 4) 4 len -> 44 <= len < 2 ^ 31 -> madt_at s (madt ⊕ 44) (len - 44) rs ->
  (length (omap rec_entry rs) <= 64)%nat -> ics_array (k_apic s) = ics_list [] ->
  get_madt_tables madt s =
    Done tt (emits (concat (rec_events <$> rs)) (set_apic (scanned rs [] (k_apic s)) s)).
Proof.
  intros Hlen Hr Hrs Hcount Hics.
  unfold get_madt_tables. erewrite bind_done by by apply load32_holds.
  rewrite madt_length by done.
  pose proof (madt_loop_done s _ _ _ Hrs (Z.to_nat (len - 44)) (k_apic s) [] s
    eq_refl eq_refl ltac:(lia) Hcount Hics) as E.
  by replace (set_apic (k_apic s) s) with s in E by by destruct s.
Qed.

Lemma find_gsi_done s rs pin :
  ics_array (k_apic s) = ics_list (omap rec_entry rs) ->
  (length (omap rec_entry rs) <= 64)%nat ->
  (forall cr, cr ∈ rs -> rec_fields s cr.1 cr.2) ->
  exists es, console_only es /\
    find_gsi pin s = Done (default pin (first_override pin rs)) (emits es s).
Proof.
  intros Hics Hcount Hf.
  destruct (entries_describe s rs Hf) as (os & Hos & Ho).
  set (os' := os ++ replicate (64 - length (omap rec_entry rs)) None).
  destruct (find_gsi_loop s pin (ics_array (k_apic s)) os' []) as (es & Hes & E).
  - done.
  - rewrite Hics. unfold ics_list. rewrite length_app, length_replicate. cbn. lia.
  - rewrite Hics. apply Forall2_app; [done|]. apply Forall2_replicate. done.
  - exists es. split; [done|]. unfold find_gsi.
    erewrite bind_done; cycle 1.
    { unfold for_ret. change (iterations 0 64 1) with 64%nat.
      replace (length (ics_array (k_apic s))) with 64%nat in E; [exact E|].
      rewrite Hics. unfold ics_list. rewrite length_app, length_replicate. lia. }
    do 2 f_equal. unfold os', first_override. rewrite omap_app, Ho. f_equal.
    assert (forall n, omap (override_of pin) (replicate n None) = []) as ->
      by (induction n; done).
    apply app_nil_r.
Qed.

Lemma apic_write_done base reg data s :
  apic_write base reg data s =
    Done tt (emits [EvMmioWrite 32 (base ⊕ reg ⊕ hhdmoffset (k_vmm s)) (u32 data)] s).
Proof. done. Qed.

(** *** The timer *)

Definition eoi_event (s : kstate) : event :=
  EvMmioWrite 32 (lapic_address (k_apic s) ⊕ LAPIC_EOI_REG ⊕ hhdmoffset (k_vmm s)) 0.

Lemma apic_eoi_done s : apic_eoi s = Done tt (emits [eoi_event s] s).
Proof. done. Qed.

(** [n] timer interrupts, one after the other. *)
Definition ticked (n : nat) (s : kstate) : kstate :=
  emits (replicate n (eoi_event s))
    (set_apic (with_ticks (u64 (apic_timer_ticks (k_apic s) + Z.of_nat n)) (k_apic s)) s).

Lemma run_times_apic_timer n s :
  0 <= apic_timer_ticks (k_apic s) < 2 ^ 64 ->
  run_times n apic_timer s = Done tt (ticked n s).
Proof.
  revert s. induction n as [|n IH]; intros s Ht; cbn [run_times].
  - unfold ticked. cbn [replicate]. rewrite emits_nil, Z.add_0_r, u64_small by done.
    destruct s as [? ? ? ? ? ? ? ? ? ? [] ? ?]. done.
  - erewrite bind_done by done. rewrite IH by apply u64_range. unfold ticked.
    assert (u64 (apic_timer_ticks (k_apic s) ⊕ 1 + Z.of_nat n) =
      u64 (apic_timer_ticks (k_apic s) + Z.of_nat (S n))) as <-
      by (unfold u64; rewrite Zplus_mod_idemp_l; f_equal; lia).
    unfold emits. cbn. by rewrite <- app_assoc.
Qed.

Lemma timer_interrupts_done s :
  0 <= apic_timer_ticks (k_apic s) < 2 ^ 64 ->
  timer_interrupts s = Done tt (ticked (hw_irq (k_hw s) (k_trace s)) s).
Proof. intros Ht. unfold timer_interrupts. rewrite bind_gets. by apply run_times_apic_timer. Qed.

(** The state after a sleep: the tick counter is [t], and the trace is longer by
    the polls and the ends of interrupts. *)
Definition slept (s s' : kstate) (t : Z) : Prop :=
  exists es, Forall (fun e => e = EvAsm Nop \/ e = eoi_event s) es /\
    s' = emits es (set_apic (with_ticks t (k_apic s)) s).

Lemma slept_refl s : slept s s (apic_timer_ticks (k_apic s)).
Proof.
  exists []. split; [constructor|]. rewrite emits_nil.
  by destruct s as [? ? ? ? ? ? ? ? ? ? [] ? ?].
Qed.

Lemma slept_poll s n s' t : slept (ticked n (emits [EvAsm Nop] s)) s' t -> slept s s' t.
Proof.
  intros (es & Hes & ->).
  exists ([EvAsm Nop] ++ replicate n (eoi_event s) ++ es). split.
  - apply Forall_app. split; [constructor; [by left|constructor]|].
    apply Forall_app. split; [apply Forall_replicate; by right|exact Hes].
  - unfold emits. cbn. by rewrite <- !app_assoc.
Qed.

Lemma apic_sleep_loop_waits ms fuel : forall s t0,
  (forall t, (0 < hw_irq (k_hw s) t)%nat /\ Z.of_nat (hw_irq (k_hw s) t) <= 2 ^ 16) ->
  0 <= t0 < 2 ^ 31 -> 0 <= ms < 2 ^ 31 ->
  t0 <= apic_timer_ticks (k_apic s) <= t0 + ms + 2 ^ 16 ->
  t0 + ms - apic_timer_ticks (k_apic s) <= Z.of_nat fuel ->
  exists s' t, apic_sleep_loop fuel t0 ms s = Done tt s' /\ slept s s' t /\
    t0 + ms <= t <= t0 + ms + 2 ^ 16.
Proof.
  induction fuel as [|fuel IH]; intros s t0 Hirq Ht0 Hms Ht Hf;
    cbn [apic_sleep_loop]; unfold apic_get; rewrite bind_gets;
    rewrite (u64_small t0), (u64_small ms), (u64_small (_ - t0)) by lia;
    destruct (Z.ltb_spec (apic_timer_ticks (k_apic s) - t0) ms); try lia;
    try (exists s, (apic_timer_ticks (k_apic s)); split; [done|split; [apply slept_refl|lia]]).
  rewrite bind_asm.
  erewrite bind_done by (apply timer_interrupts_done; cbn; lia).
  set (n := hw_irq _ _).
  assert ((0 < n)%nat /\ Z.of_nat n <= 2 ^ 16) as Hn by apply Hirq.
  assert (apic_timer_ticks (k_apic (ticked n (emits [EvAsm Nop] s))) =
    apic_timer_ticks (k_apic s) + Z.of_nat n) as Et.
  { cbn. apply u64_small. lia. }
  destruct (IH (ticked n (emits [EvAsm Nop] s)) t0) as (s' & t & E & Hs & Hb);
    rewrite ?Et; try lia; [apply Hirq|].
  exists s', t. split; [done|]. split; [by eapply slept_poll|done].
Qed.

Lemma apic_sleep_done s polls ms :
  (forall t, (0 < hw_irq (k_hw s) t)%nat /\ Z.of_nat (hw_irq (k_hw s) t) <= 2 ^ 16) ->
  0 <= apic_timer_ticks (k_apic s) < 2 ^ 31 -> 0 <= ms < 2 ^ 31 -> ms <= Z.of_nat polls ->
  exists s' t, apic_sleep polls ms s = Done tt s' /\ slept s s' t /\
    apic_timer_ticks (k_apic s) + ms <= t <= apic_timer_ticks (k_apic s) + ms + 2 ^ 16.
Proof.
  intros Hirq Ht Hms Hp. unfold apic_sleep, apic_get. rewrite bind_gets, s32_small by done.
  apply (apic_sleep_loop_waits ms polls s _ Hirq Ht Hms); lia.
Qed.

(** ** The sample machine with a MADT at 0x3000: one processor, one I/O APIC and
    the override of pin 1 to interrupt 9 *)

Definition sample_madt_bytes : list byte := to_byte <$>
  ([65; 80; 73; 67; 74; 0; 0; 0] ++ replicate 36 0 ++
   [0; 8; 0; 1; 1; 0; 0; 0] ++
   [1; 12; 0; 0; 0; 0; 0xc0; 0xfe; 0; 0; 0; 0] ++
   [2; 10; 0; 1; 9; 0; 0; 0; 0; 0]).

Definition sample_madt : kstate := set_ram (ram_write 0x3000 sample_madt_bytes ∅) sample_start.

Definition sample_records : list (Z * madt_rec) :=
  [(0x302c, LocalApic 1 1); (0x3034, IoApic 0xfec00000); (0x3040, SourceOverride 1 9)].

Lemma sample_holds s va n v :
  k_hw s = sample_hw -> 0x1000 <= va -> va + Z.of_nat n <= 0x10000 ->
  le_val (ram_read (k_ram s) va n) = v -> holds s va n v.
Proof. intros Hhw H1 H2 Hv. exists va. split; [by apply sample_identity|done]. Qed.

Ltac sample_holds := apply sample_holds; [reflexivity|by vm_compute..].

Lemma sample_madt_at : madt_at sample_madt 0x302c 30 sample_records.
Proof.
  apply (madt_cons _ _ 30 _ 8); [sample_holds|split; sample_holds|sample_holds|lia|].
  apply (madt_cons _ _ 22 _ 12); [sample_holds|sample_holds|sample_holds|lia|].
  apply (madt_cons _ _ 10 _ 10); [sample_holds|split; sample_holds|sample_holds|lia|].
  apply madt_end.
Qed.

(** A timer that interrupts once per poll. *)
Definition sample_ticking (t : Z) : kstate :=
  set_apic (with_ticks t apic_globals_init)
    (start_state ∅ (Hardware 0x10000 0xffff800000000000 (fun _ _ => 0) (fun _ => 1%nat))
       sample_boot sample_link).

(** ** Properties *)

(** C20: [get_madt_tables] on a MADT whose records are well formed and yield at
    most 64 entries terminates with one entry per enabled processor, I/O APIC
    and interrupt source override, in order, and the address of the last I/O
    APIC; it changes nothing else but the console. *)
Theorem madt_scan (s : kstate) (madt len : Z) (rs : list (Z * madt_rec))
    (Hlen : holds s (madt ⊕ 4) 4 len) (Hr : 44 <= len < 2 ^ 31)
    (Hrs : madt_at s (madt ⊕ 44) (len - 44) rs)
    (Hcount : (length (omap rec_entry rs) <= 64)%nat)
    (Hics : ics_array (k_apic s) = ics_list []) :
  get_madt_tables madt s =
    Done tt (emits (concat (rec_events <$> rs)) (set_apic (scanned rs [] (k_apic s)) s)).
Proof. by apply (get_madt_tables_done s madt len). Qed.

Lemma madt_scan_witness :
  get_madt_tables 0x3000 sample_madt =
    Done tt (emits (concat (rec_events <$> sample_records))
      (set_apic (scanned sample_records [] (k_apic sample_madt)) sample_madt)).
Proof.
  apply (madt_scan sample_madt 0x3000 74); [sample_holds|done|apply sample_madt_at|cbn; lia|done].
Defined.

(** a record of length zero is never got past: with one of a type the scan
    ignores, the loop runs forever, whatever number of iterations it is
    given. *)
Theorem madt_empty_record_hangs (s : kstate) (cur length i ty : Z) (fuel : nat)
    (Hty : holds s cur 1 ty) (Hign : 2 < ty) (Hrl : holds s (cur ⊕ 1) 1 0)
    (Hcur : 0 <= cur < 2 ^ 64) (Hlen : 0 < length) :
  madt_loop fuel cur length i s = OutOfFuel.
Proof.
  induction fuel as [|fuel IH]; cbn [madt_loop]; rewrite (proj2 (Z.ltb_lt 0 length)) by done;
    [done|].
  assert (madt_record cur i s = Done i s) as E.
  { unfold madt_record. erewrite bind_done by by apply load8_holds.
    destruct ty as [|[[]|[]|]|]; try lia; done. }
  rewrite (bind_done _ _ _ _ _ E). erewrite bind_done by by apply load8_holds.
  by rewrite Z.add_0_r, Z.sub_0_r, u64_small.
Qed.

Lemma madt_empty_record_hangs_witness :
  madt_loop 1000 0x3000 8 0 (set_ram {[0x3000 := to_byte 4]} sample_start) = OutOfFuel.
Proof. apply (madt_empty_record_hangs _ _ _ _ 4); [sample_holds|done|sample_holds|done|done]. Defined.

(** after the scan, [find_gsi] of a legacy pin returns the global interrupt
    of the first override whose source is the pin, and the pin itself when there
    is none, writing to the console only. *)
Theorem find_gsi_first_override (s : kstate) (rs : list (Z * madt_rec)) (pin : Z)
    (Hics : ics_array (k_apic s) = ics_list (omap rec_entry rs))
    (Hcount : (length (omap rec_entry rs) <= 64)%nat)
    (Hf : forall cr, cr ∈ rs -> rec_fields s cr.1 cr.2) :
  exists es, console_only es /\
    find_gsi pin s = Done (default pin (first_override pin rs)) (emits es s).
Proof. by apply find_gsi_done. Qed.

Lemma find_gsi_first_override_witness :
  let s := set_apic (scanned sample_records [] (k_apic sample_madt)) sample_madt in
  exists es, console_only es /\ find_gsi 1 s = Done 9 (emits es s).
Proof.
  intros s. apply (find_gsi_first_override s sample_records 1); [done|cbn; lia|].
  intros cr [->|[->|[->|[]%elem_of_nil]%elem_of_cons]%elem_of_cons]%elem_of_cons;
    [split; sample_holds|sample_holds|split; sample_holds].
Defined.

(** C35: when every poll delivers at least one timer interrupt, [apic_sleep]
    returns and at least [ms] ticks have passed, as long as the tick counter
    was below 2^31 when it started. *)
Theorem apic_sleep_waits (s : kstate) (polls : nat) (ms : Z)
    (Hirq : forall t, (0 < hw_irq (k_hw s) t)%nat /\ Z.of_nat (hw_irq (k_hw s) t) <= 2 ^ 16)
    (Ht : 0 <= apic_timer_ticks (k_apic s) < 2 ^ 31) (Hms : 0 <= ms < 2 ^ 31)
    (Hp : ms <= Z.of_nat polls) :
  exists s', apic_sleep polls ms s = Done tt s' /\
    apic_timer_ticks (k_apic s) + ms <= apic_timer_ticks (k_apic s').
Proof.
  destruct (apic_sleep_done s polls ms Hirq Ht Hms Hp) as (s' & t & E & (es & _ & ->) & Hle & _).
  eexists. split; [exact E|exact Hle].
Qed.

Lemma apic_sleep_waits_witness :
  exists s', apic_sleep 5 2 (sample_ticking 7) = Done tt s' /\
    7 + 2 <= apic_timer_ticks (k_apic s').
Proof. apply (apic_sleep_waits (sample_ticking 7) 5 2); [|by vm_compute|lia|lia]. intros t. cbn. lia. Defined.

(** from 2^31 ticks on, [apic_sleep] does not sleep at all: the counter is
    truncated to an [int], the difference is at least 2^32 at once, and the
    function returns without waiting. *)
Theorem apic_sleep_truncates (s : kstate) (polls : nat) (ms : Z)
    (Ht : 2 ^ 31 <= apic_timer_ticks (k_apic s) < 2 ^ 63) (Hms : 0 <= ms < 2 ^ 31) :
  apic_sleep polls ms s = Done tt s.
Proof.
  unfold apic_sleep, apic_get. rewrite bind_gets.
  set (t := apic_timer_ticks (k_apic s)) in *.
  assert (u64 ms <= t ⊖ u64 (s32 t)) as Hge.
  { rewrite (u64_small ms) by lia. unfold u64. rewrite Zminus_mod_idemp_r.
    unfold s32. destruct (Z.ltb_spec (t mod 2 ^ 32) (2 ^ 31)).
    - rewrite Z.mod_small; ldivmod.
    - rewrite Z.mod_small; ldivmod. }
  destruct polls; cbn [apic_sleep_loop]; unfold apic_get; rewrite bind_gets;
    fold t; by rewrite (proj2 (Z.ltb_ge _ _) Hge).
Qed.

Lemma apic_sleep_truncates_witness :
  apic_sleep 0 1000 (sample_ticking (2 ^ 31)) = Done tt (sample_ticking (2 ^ 31)).
Proof. apply apic_sleep_truncates; [by vm_compute|lia]. Defined.
