(* ===== verification/Ps2.v ===== *)
(** kern/sys/ps2/ps2.c: the PS/2 keyboard, its controller's start-up and the
    state machine that turns scan codes into characters. *)

From S2P Require Import Prelude Limine Types Machine Memory Sample CString Video Printf Log Apic.

(** ** Code *)

Definition PS2_DATA_PORT : Z := 0x60.
Definition PS2_STATUS_REG : Z := 0x64.
Definition PS2_COMMAND_REG : Z := 0x64.

Definition NORMAL_STATE : Z := 0x00.
Definition SHIFT_STATE : Z := 0x01.
Definition CAPS_STATE : Z := 0x02.

Definition LEFT_SHIFT_PRESSED : Z := 0x2A.
Definition LEFT_SHIFT_RELEASED : Z := 0xAA.
Definition CAPS_LOCK_PRESSED : Z := 0x3A.
Definition CAPS_LOCK_RELEASED : Z := 0xBA.

(** The 58 elements of the initialiser; 39 is the quote and 92 the backslash. *)
Definition ascii_table : list Z :=
  [0; 0] ++ codes "1234567890-=" ++ [0; 0] ++ codes "qwertyuiop[]" ++ [0; 0] ++
  codes "asdfghjkl;" ++ [39] ++ codes "`" ++ [0; 92] ++ codes "zxcvbnm,./" ++
  [0] ++ codes "*" ++ [0] ++ codes " ".

Definition set_key_state (st : Z) : M unit := modify (set_keyboard_state st).

(** while (j != 0) { inb(data); j = (inb(status) >> 1) & 1; } *)
Fixpoint ps2_clear (polls : nat) (j : Z) : M Z :=
  if j =? 0 then mret j
  else
    match polls with
    | O => out_of_fuel
    | S polls =>
        inb PS2_DATA_PORT ;;
        st ← inb PS2_STATUS_REG;
        ps2_clear polls (Z.land (Z.shiftr st 1) 1)
    end.

Definition ps2_init (polls : nat) : M unit :=
  outb PS2_COMMAND_REG 0xAD ;;
  outb PS2_COMMAND_REG 0xA7 ;;
  j ← ps2_clear polls 1;
  printf "ps2: starting PS/2 controller test{n}" [] ;;
  outb PS2_COMMAND_REG 0xAA ;;
  data ← inb PS2_DATA_PORT;
  (if data =? 0x55 then
     printf "ps2: PS/2 controller test passed{n}" [] ;; mret tt
   else if data =? 0xFC then
     log_err "PS/2 controller test failed" ;;
     printf "ps2: test failed, the PS/2 keyboard might not work.{n}" [] ;; mret tt
   else
     printf "ps2: unexpected reply for test: '0x{x}'{n}" [VInt data] ;; mret tt) ;;
  printf "ps2: assuming US QWERTY layout, scan code 1. other layouts not supported{n}" [] ;;
  ps2_clear polls j ;;
  outb PS2_COMMAND_REG 0xAE.

Definition ps2_translate2ascii (scancode : Z) : M Z :=
  if 0x58 <? scancode then mret 0 else
  st ← gets keyboard_state;
  if (scancode =? LEFT_SHIFT_PRESSED) && negb (st =? CAPS_STATE) then
    set_key_state SHIFT_STATE ;; mret 0
  else if (scancode =? CAPS_LOCK_PRESSED) && (st =? NORMAL_STATE) then
    set_key_state CAPS_STATE ;; mret 0
  else if (scancode =? CAPS_LOCK_PRESSED) && (st =? SHIFT_STATE) then
    set_key_state CAPS_STATE ;; mret 0
  else
    c ← index ascii_table scancode;
    if c =? 0 then mret 0
    else if (st =? SHIFT_STATE) || (st =? CAPS_STATE) then
      c ← index ascii_table scancode; mret (toupper c)
    else index ascii_table scancode.

Definition ps2_handler : M unit :=
  scancode ← inb PS2_DATA_PORT;
  st ← gets keyboard_state;
  (if (scancode =? LEFT_SHIFT_RELEASED) && negb (st =? CAPS_STATE)
   then set_key_state NORMAL_STATE else mret tt) ;;
  st ← gets keyboard_state;
  if (st =? CAPS_STATE) && (scancode =? CAPS_LOCK_PRESSED) then
    set_key_state NORMAL_STATE ;; apic_eoi
  else
    character ← ps2_translate2ascii scancode;
    if character =? 0 then apic_eoi
    else printf "{c}" [VInt character] ;; apic_eoi.

(** ** Reference: the keyboard as a state machine *)

(** Left shift is held or not; caps lock, while on, hides it. *)
Definition key_state_ok (st : Z) : Prop :=
  st = NORMAL_STATE \/ st = SHIFT_STATE \/ st = CAPS_STATE.

Definition next_key_state (st sc : Z) : Z :=
  if sc =? CAPS_LOCK_PRESSED then if st =? CAPS_STATE then NORMAL_STATE else CAPS_STATE
  else if st =? CAPS_STATE then st
  else if sc =? LEFT_SHIFT_PRESSED then SHIFT_STATE
  else if sc =? LEFT_SHIFT_RELEASED then NORMAL_STATE
  else st.

(** The character of a key, in upper case unless the state is normal. *)
Definition key_char (st sc : Z) : option Z :=
  if sc =? CAPS_LOCK_PRESSED then None else
  match ascii_table !! Z.to_nat sc with
  | Some c => if c =? 0 then None else Some (if st =? NORMAL_STATE then c else toupper c)
  | None => None
  end.

Definition key_events (st sc : Z) : list event :=
  match key_char st sc with Some c => [EvWrite [c]] | None => [] end.

(** Bit 1 of the status register. *)
Definition status_busy (st : Z) : bool := Z.testbit st 1.

(** One round of the loop that clears the buffer: a byte is read and dropped,
    then the status. *)
Definition drain (r : Z * Z) : list event := [EvInb 0x60 r.1; EvInb 0x64 r.2].

(** Rounds of a loop that ends with the first status that is not busy. *)
Definition drained (rs : list (Z * Z)) : Prop :=
  exists pre b st, rs = pre ++ [(b, st)] /\ status_busy st = false /\
    Forall (fun r => status_busy r.2 = true) pre.

(** The data port answers the controller's self-test next: between the command that
    starts it and the read of the answer. *)
Definition test_step (b : bool) (e : event) : bool :=
  match e with
  | EvOutb p v => if (p =? PS2_COMMAND_REG) && (v =? 0xAA) then true else b
  | EvInb p _ => if p =? PS2_DATA_PORT then false else b
  | _ => b
  end.

Definition testing (t : list event) : bool := foldl test_step false t.

(** The keys whose codes are past the table but not past the guard. *)
Definition untabled (sc : Z) : bool := (0x3A <? sc) && (sc <=? 0x58).

(** ** Lemmas *)

Lemma set_keyboard_state_same s : set_keyboard_state (keyboard_state s) s = s.
Proof. by destruct s. Qed.

Lemma set_keyboard_state_twice x y s :
  set_keyboard_state x (set_keyboard_state y s) = set_keyboard_state x s.
Proof. done. Qed.

Lemma ascii_table_chars sc c :
  ascii_table !! sc = Some c -> 0 <= c < 128 /\ (c <> 0 -> 0 < toupper c < 128).
Proof.
  intros Hc. apply list_elem_of_lookup_2 in Hc.
  assert (forallb (fun c => (0 <=? c) && (c <? 128) &&
    ((c =? 0) || ((0 <? toupper c) && (toupper c <? 128)))) ascii_table = true) as H by done.
  rewrite forallb_forall in H. specialize (H c ltac:(by apply list_elem_of_In)).
  apply andb_prop in H as [H1 H2]. apply andb_prop in H1 as [H1 H3].
  split; [lia|]. intros H0. apply orb_prop in H2 as [H2|H2]; [lia|].
  apply andb_prop in H2 as [H2 H4]. lia.
Qed.

Lemma index_done {A} (l : list A) i a s :
  0 <= i -> l !! Z.to_nat i = Some a -> index l i s = Done a s.
Proof. intros Hi Ha. unfold index. by rewrite decide_True, Ha by done. Qed.

Lemma key_char_range st sc c : key_char st sc = Some c -> 0 < c < 128.
Proof.
  unfold key_char. destruct (sc =? CAPS_LOCK_PRESSED); [done|].
  destruct (ascii_table !! _) as [x|] eqn:Hx; [|done].
  destruct (ascii_table_chars _ _ Hx) as [H1 H2].
  destruct (Z.eqb_spec x 0); [done|]. intros [= <-].
  destruct (st =? NORMAL_STATE); [lia|auto].
Qed.

(** The state after the press of a key, releases apart. *)
Definition pressed_state (st sc : Z) : Z :=
  if (sc =? LEFT_SHIFT_PRESSED) && negb (st =? CAPS_STATE) then SHIFT_STATE
  else if sc =? CAPS_LOCK_PRESSED then CAPS_STATE else st.

Lemma ps2_translate2ascii_done s sc :
  0 <= sc < 256 -> untabled sc = false -> key_state_ok (keyboard_state s) ->
  (keyboard_state s = CAPS_STATE -> sc <> CAPS_LOCK_PRESSED) ->
  ps2_translate2ascii sc s =
    Done (default 0 (key_char (keyboard_state s) sc))
      (set_keyboard_state (pressed_state (keyboard_state s) sc) s).
Proof.
  intros Hsc Hun Hst Hcaps. unfold untabled in Hun. unfold ps2_translate2ascii.
  unfold pressed_state, key_char.
  destruct (Z.ltb_spec 0x58 sc) as [Hhi|Hhi].
  { rewrite !(proj2 (Z.eqb_neq sc _)) by (unfold LEFT_SHIFT_PRESSED, CAPS_LOCK_PRESSED; lia).
    cbn [andb]. rewrite (lookup_ge_None_2 ascii_table) by (cbn; lia).
    by rewrite set_keyboard_state_same. }
  rewrite bind_gets. unfold set_key_state.
  assert (sc <= 0x3A) as Hlo
    by (apply andb_false_iff in Hun as [?%Z.ltb_ge|?%Z.leb_gt]; lia).
  destruct (Z.eqb_spec sc LEFT_SHIFT_PRESSED) as [->|Hns].
  { destruct (Z.eqb_spec (keyboard_state s) CAPS_STATE) as [E|E]; cbn [negb andb]; [|done].
    change (LEFT_SHIFT_PRESSED =? CAPS_LOCK_PRESSED) with false. cbn [andb].
    by rewrite set_keyboard_state_same. }
  cbn [andb]. destruct (Z.eqb_spec sc CAPS_LOCK_PRESSED) as [->|Hnc].
  { cbn [andb]. destruct Hst as [->|[->|Est]]; [done|done|]. by destruct (Hcaps Est). }
  cbn [andb]. unfold LEFT_SHIFT_PRESSED, CAPS_LOCK_PRESSED in *.
  destruct (lookup_lt_is_Some_2 ascii_table (Z.to_nat sc)) as [c Hc]; [cbn; lia|].
  rewrite Hc, set_keyboard_state_same.
  rewrite (bind_done _ _ _ _ _ (index_done ascii_table sc c s (proj1 Hsc) Hc)).
  destruct (c =? 0); [done|].
  assert ((keyboard_state s =? SHIFT_STATE) || (keyboard_state s =? CAPS_STATE) =
    negb (keyboard_state s =? NORMAL_STATE)) as -> by (destruct Hst as [->|[->| ->]]; done).
  destruct (keyboard_state s =? NORMAL_STATE); cbn [negb default].
  - by apply index_done; [lia|].
  - by rewrite (bind_done _ _ _ _ _ (index_done ascii_table sc c s (proj1 Hsc) Hc)).
Qed.

Lemma inb_done p s :
  inb p s = Done (u8 (hw_dev (k_hw s) (k_trace s) (RInb (u16 p))))
    (emits [EvInb (u16 p) (u8 (hw_dev (k_hw s) (k_trace s) (RInb (u16 p))))] s).
Proof. done. Qed.

(** What an interrupt does to the kernel. *)
Definition key_pressed (sc : Z) (s : kstate) : kstate :=
  emits (EvInb 0x60 sc :: key_events (keyboard_state s) sc ++ [eoi_event s])
    (set_keyboard_state (next_key_state (keyboard_state s) sc) s).

(** What the keyboard's port answers. *)
Definition key_code (s : kstate) : Z := u8 (hw_dev (k_hw s) (k_trace s) (RInb 0x60)).

(** The rest of the handler, after the release of shift and the second press of
    caps lock. *)
Lemma key_tail_done s sc :
  0 <= sc < 256 -> untabled sc = false -> key_state_ok (keyboard_state s) ->
  (keyboard_state s = CAPS_STATE -> sc <> CAPS_LOCK_PRESSED) ->
  (character ← ps2_translate2ascii sc;
   if character =? 0 then apic_eoi else printf "{c}" [VInt character] ;; apic_eoi) s =
    Done tt (emits (key_events (keyboard_state s) sc ++ [eoi_event s])
      (set_keyboard_state (pressed_state (keyboard_state s) sc) s)).
Proof.
  intros Hsc Hun Hst Hcaps.
  rewrite (bind_done _ _ _ _ _ (ps2_translate2ascii_done s sc Hsc Hun Hst Hcaps)).
  unfold key_events. destruct (key_char (keyboard_state s) sc) as [c|] eqn:Ec;
    [|by apply apic_eoi_done].
  change (default 0 (Some c)) with c.
  pose proof (key_char_range _ _ _ Ec). rewrite (proj2 (Z.eqb_neq c 0)) by lia.
  erewrite bind_done by (apply (printf_done _ _ [EvWrite [u8 c]]); reflexivity).
  by rewrite apic_eoi_done, emits_app, u8_small by lia.
Qed.

Lemma ps2_handler_done s :
  key_state_ok (keyboard_state s) -> untabled (key_code s) = false ->
  ps2_handler s = Done tt (key_pressed (key_code s) s).
Proof.
  intros Hst Hun. unfold ps2_handler. rewrite (bind_done _ _ _ _ _ (inb_done _ _)).
  change (u16 PS2_DATA_PORT) with 0x60. fold (key_code s).
  assert (0 <= key_code s < 256) as Hsc by apply u8_range. revert Hun Hsc.
  generalize (key_code s). intros sc Hun Hsc.
  unfold set_key_state, key_pressed. rewrite bind_gets.
  change (EvInb 96 sc :: key_events (keyboard_state s) sc ++ [eoi_event s])
    with ([EvInb 96 sc] ++ (key_events (keyboard_state s) sc ++ [eoi_event s])).
  rewrite <- emits_app.
  change (emits [EvInb 96 sc] (set_keyboard_state ?x s))
    with (set_keyboard_state x (emits [EvInb 96 sc] s)).
  change (eoi_event s) with (eoi_event (emits [EvInb 96 sc] s)).
  change (keyboard_state s) with (keyboard_state (emits [EvInb 96 sc] s)) in *.
  revert Hst. generalize (emits [EvInb 96 sc] s). clear s. intros s Hst.
  destruct (decide (sc = LEFT_SHIFT_RELEASED /\ keyboard_state s <> CAPS_STATE)) as [[-> Hn]|Hn].
  - rewrite Z.eqb_refl, (proj2 (Z.eqb_neq _ _) Hn). cbn [andb negb].
    rewrite bind_modify, bind_gets. cbn [keyboard_state set_keyboard_state].
    change (NORMAL_STATE =? CAPS_STATE) with false. cbn [andb].
    rewrite key_tail_done by (done || by left). cbn [keyboard_state set_keyboard_state].
    assert (next_key_state (keyboard_state s) LEFT_SHIFT_RELEASED = NORMAL_STATE) as ->
      by (unfold next_key_state; rewrite (proj2 (Z.eqb_neq _ _) Hn); done).
    done.
  - assert ((sc =? LEFT_SHIFT_RELEASED) && negb (keyboard_state s =? CAPS_STATE) = false) as ->.
    { destruct (Z.eqb_spec sc LEFT_SHIFT_RELEASED), (Z.eqb_spec (keyboard_state s) CAPS_STATE);
        tauto. }
    rewrite bind_ret, bind_gets.
    destruct (decide (keyboard_state s = CAPS_STATE /\ sc = CAPS_LOCK_PRESSED)) as [[E ->]|Hc].
    + rewrite E, !Z.eqb_refl. cbn [andb]. by rewrite bind_modify.
    + assert ((keyboard_state s =? CAPS_STATE) && (sc =? CAPS_LOCK_PRESSED) = false) as ->.
      { destruct (Z.eqb_spec (keyboard_state s) CAPS_STATE), (Z.eqb_spec sc CAPS_LOCK_PRESSED);
          tauto. }
      rewrite key_tail_done by (done || tauto).
      assert (next_key_state (keyboard_state s) sc = pressed_state (keyboard_state s) sc) as ->;
        [|done].
      unfold next_key_state, pressed_state.
      destruct (Z.eqb_spec sc CAPS_LOCK_PRESSED) as [->|];
        destruct (Z.eqb_spec (keyboard_state s) CAPS_STATE); cbn [negb andb]; try tauto; try done.
      * by rewrite andb_false_r.
      * rewrite andb_true_r. destruct (sc =? LEFT_SHIFT_PRESSED); [done|].
        destruct (Z.eqb_spec sc LEFT_SHIFT_RELEASED); tauto.
Qed.

(** *** The controller's start-up *)

Lemma status_bit st : Z.land (Z.shiftr st 1) 1 = if status_busy st then 1 else 0.
Proof.
  unfold status_busy. change 1 with (Z.ones 1) at 2. rewrite Z.land_ones by lia.
  rewrite Z.shiftr_div_pow2 by lia. pose proof (Z.testbit_spec' st 1 ltac:(lia)) as H.
  change (2 ^ 1) with 2 in *. rewrite <- H. by destruct (Z.testbit st 1).
Qed.

Lemma ps2_clear_round polls s :
  exists b st, st = u8 (hw_dev (k_hw s) (k_trace s ++ [EvInb 0x60 b]) (RInb 0x64)) /\
    ps2_clear (S polls) 1 s =
      ps2_clear polls (if status_busy st then 1 else 0) (emits (drain (b, st)) s).
Proof.
  eexists _, _. split; [reflexivity|]. cbn [ps2_clear]. change (1 =? 0) with false. cbn iota.
  rewrite (bind_done _ _ _ _ _ (inb_done _ _)), (bind_done _ _ _ _ _ (inb_done _ _)).
  by rewrite emits_app, status_bit.
Qed.

Lemma ps2_clear_end polls s : ps2_clear polls 0 s = Done 0 s.
Proof. by destruct polls. Qed.

Lemma ps2_clear_done n : forall s polls,
  (n < polls)%nat ->
  (forall t, (length (k_trace s) + 2 * n < length t)%nat ->
     status_busy (u8 (hw_dev (k_hw s) t (RInb 0x64))) = false) ->
  exists rs, drained rs /\ (length rs <= S n)%nat /\
    ps2_clear polls 1 s = Done 0 (emits (rs ≫= drain) s).
Proof.
  induction n as [|n IH]; intros s [|polls] Hp Hdev; try lia;
    destruct (ps2_clear_round polls s) as (b & st & Est & ->);
    destruct (status_busy st) eqn:Eb;
    try (exists [(b, st)]; split; [by exists [], b, st|]; split; [cbn; lia|];
         apply ps2_clear_end).
  - rewrite Est, Hdev in Eb; [done|]. rewrite length_app. cbn. lia.
  - destruct (IH (emits (drain (b, st)) s) polls) as (rs & (pre & b' & st' & -> & H1 & H2) & Hl & E).
    + lia.
    + intros t Ht. apply Hdev. cbn in Ht. rewrite length_app in Ht. cbn in Ht. lia.
    + exists ((b, st) :: pre ++ [(b', st')]). split.
      * exists ((b, st) :: pre), b', st'. split; [done|]. split; [done|]. by constructor.
      * split; [cbn in *; lia|]. by rewrite E, emits_app.
Qed.

(** The exchange of [ps2_init] with the controller: the ports are disabled, the
    buffer is drained, the test is run and its answer read, and the first port is
    enabled; the second loop that drains the buffer makes no round. *)
Definition controller_start (rs : list (Z * Z)) (data : Z) : list event :=
  [EvOutb 0x64 0xAD; EvOutb 0x64 0xA7] ++ (rs ≫= drain) ++
  [EvOutb 0x64 0xAA; EvInb 0x60 data; EvOutb 0x64 0xAE].

Lemma testing_app t t' : testing (t ++ t') = foldl test_step (testing t) t'.
Proof. apply foldl_app. Qed.

(** Console output is nothing to the controller. *)
Lemma test_device b t : foldl test_step b t = foldl test_step b (device t).
Proof. revert b. induction t as [|e t IH]; intros b; [done|]. destruct e; apply IH. Qed.

Lemma testing_device t : testing t = testing (device t).
Proof. apply test_device. Qed.

Lemma test_console b es : console_only es -> foldl test_step b es = b.
Proof. intros Hes. by rewrite test_device, device_console. Qed.

Lemma device_drain rs : device (rs ≫= drain) = rs ≫= drain.
Proof. induction rs as [|r rs IH]; [done|]. cbn. by rewrite <- IH at 2. Qed.

(** The report on the controller's test. *)
Lemma test_report_done data s : exists es, console_only es /\
  (if data =? 0x55 then
     printf "ps2: PS/2 controller test passed{n}" [] ;; mret tt
   else if data =? 0xFC then
     log_err "PS/2 controller test failed" ;;
     printf "ps2: test failed, the PS/2 keyboard might not work.{n}" [] ;; mret tt
   else
     printf "ps2: unexpected reply for test: '0x{x}'{n}" [VInt data] ;; mret tt) s =
    Done tt (emits es s).
Proof.
  enough (wp (if data =? 0x55 then
     printf "ps2: PS/2 controller test passed{n}" [] ;; mret tt
   else if data =? 0xFC then
     log_err "PS/2 controller test failed" ;;
     printf "ps2: test failed, the PS/2 keyboard might not work.{n}" [] ;; mret tt
   else
     printf "ps2: unexpected reply for test: '0x{x}'{n}" [VInt data] ;; mret tt)
    (fun _ s' => exists es, console_only es /\ s' = emits es s) never s) as Hw.
  { apply wp_inv_done in Hw as ([] & s' & E & es & Hes & ->). eauto. }
  destruct (data =? 0x55); [|destruct (data =? 0xFC)].
  - wp_step. apply wp_printf_typed; [reflexivity|]. intros es Hes. apply wp_ret. eauto.
  - wp_step. eapply wp_done; [apply log_err_done|]. wp_step.
    apply wp_printf_typed; [reflexivity|]. intros es Hes. apply wp_ret. rewrite emits_app.
    eexists. split; [|done]. apply Forall_app. split; [apply log_line_console|done].
  - wp_step. apply wp_printf_typed; [reflexivity|]. intros es Hes. apply wp_ret. eauto.
Qed.

Lemma ps2_init_done n s polls :
  (n < polls)%nat ->
  (forall t, (length (k_trace s) + 2 + 2 * n < length t)%nat ->
     status_busy (u8 (hw_dev (k_hw s) t (RInb 0x64))) = false) ->
  exists rs data es, drained rs /\ (length rs <= S n)%nat /\
    device es = controller_start rs data /\
    ps2_init polls s = Done tt (emits es s).
Proof.
  intros Hp Hdev. unfold ps2_init, outb. rewrite !bind_emit, emits_app.
  set (s1 := emits _ s).
  destruct (ps2_clear_done n s1 polls Hp) as (rs & Hrs & Hl & E).
  { intros t Ht. apply Hdev. cbn in Ht. rewrite length_app in Ht. cbn in Ht. lia. }
  rewrite (bind_done _ _ _ _ _ E).
  destruct (printf_typed_done "ps2: starting PS/2 controller test{n}" [] eq_refl) as (e1 & H1 & E1).
  rewrite (bind_done _ _ _ _ _ (E1 _)), bind_emit, (bind_done _ _ _ _ _ (inb_done _ _)).
  change (u16 PS2_DATA_PORT) with 0x60. set (data := u8 (hw_dev _ _ _)).
  destruct (test_report_done data (emits [EvInb 0x60 data]
    (emits [EvOutb (u16 PS2_COMMAND_REG) (u8 0xAA)] (emits e1 (emits (rs ≫= drain) s1)))))
    as (e2 & H2 & E2).
  rewrite (bind_done _ _ _ _ _ E2).
  destruct (printf_typed_done
    "ps2: assuming US QWERTY layout, scan code 1. other layouts not supported{n}" [] eq_refl)
    as (e3 & H3 & E3).
  rewrite (bind_done _ _ _ _ _ (E3 _)), (bind_done _ _ _ _ _ (ps2_clear_end _ _)), emit_done.
  unfold s1. rewrite !emits_app.
  eexists rs, data, _. split; [done|]. split; [done|]. split; [|reflexivity].
  rewrite !device_app, (device_console e1), (device_console e2), (device_console e3),
    device_drain by done.
  unfold controller_start. by rewrite <- !app_assoc.
Qed.

(** ** Properties *)

(** C23: from a well-formed keyboard state and a scan code the table covers, the
    keyboard's interrupt handler returns having read the data port once, printed
    the key's character, if any, and signalled end of interrupt exactly once; the
    state is the one of the keyboard state machine and stays well formed. *)
Theorem ps2_handler_step (s : kstate)
    (Hst : key_state_ok (keyboard_state s)) (Hun : untabled (key_code s) = false) :
  exists s', ps2_handler s = Done tt s' /\
    k_trace s' = k_trace s ++
      EvInb 0x60 (key_code s) :: key_events (keyboard_state s) (key_code s) ++ [eoi_event s] /\
    keyboard_state s' = next_key_state (keyboard_state s) (key_code s) /\
    key_state_ok (keyboard_state s').
Proof.
  eexists. split; [by apply ps2_handler_done|]. split; [done|]. split; [done|].
  unfold key_pressed. cbn [keyboard_state emits set_trace set_keyboard_state].
  unfold key_state_ok, next_key_state.
  destruct Hst as [->|[->| ->]]; repeat case_match; tauto.
Qed.

(** The sample machine with a keyboard that answers [sc], in state [st]. *)
Definition sample_keyboard (st sc : Z) : kstate :=
  set_keyboard_state st (start_state ∅
    (Hardware 0x10000 0xffff800000000000 (fun _ _ => sc) (fun _ => 0%nat)) sample_boot sample_link).

Lemma ps2_handler_step_witness :
  exists s', ps2_handler (sample_keyboard SHIFT_STATE 0x1E) = Done tt s' /\
    k_trace s' = [EvInb 0x60 0x1E; EvWrite [65]; EvMmioWrite 32 0xB0 0] /\
    keyboard_state s' = SHIFT_STATE /\ key_state_ok (keyboard_state s').
Proof. apply (ps2_handler_step (sample_keyboard SHIFT_STATE 0x1E)); [by right; left|done]. Defined.

(** For the scan codes from 0x3B to 0x58 (the function keys and the keypad)
    the handler reads past the 58 elements of [ascii_table], so it does not get
    to signal end of interrupt. *)
Lemma ps2_handler_reads_past_table (s : kstate)
    (Hst : key_state_ok (keyboard_state s)) (Hun : untabled (key_code s) = true) :
  ps2_handler s = Fault (OutOfBounds (key_code s)) (emits [EvInb 0x60 (key_code s)] s).
Proof.
  unfold ps2_handler. rewrite (bind_done _ _ _ _ _ (inb_done _ _)).
  change (u16 PS2_DATA_PORT) with 0x60. fold (key_code s). set (sc := key_code s) in *.
  unfold untabled in Hun. apply andb_prop in Hun as [H1%Z.ltb_lt H2%Z.leb_le].
  rewrite bind_gets. rewrite (proj2 (Z.eqb_neq sc LEFT_SHIFT_RELEASED))
    by (unfold LEFT_SHIFT_RELEASED; lia). cbn [andb]. rewrite bind_ret, bind_gets.
  rewrite (proj2 (Z.eqb_neq sc CAPS_LOCK_PRESSED)) by (unfold CAPS_LOCK_PRESSED; lia).
  rewrite andb_false_r. apply bind_fault. unfold ps2_translate2ascii.
  rewrite (proj2 (Z.ltb_ge 0x58 sc)), bind_gets by lia.
  rewrite (proj2 (Z.eqb_neq sc LEFT_SHIFT_PRESSED)) by (unfold LEFT_SHIFT_PRESSED; lia).
  rewrite (proj2 (Z.eqb_neq sc CAPS_LOCK_PRESSED)) by (unfold CAPS_LOCK_PRESSED; lia).
  cbn [andb]. apply bind_fault. unfold index.
  rewrite decide_True, (lookup_ge_None_2 ascii_table) by (cbn; lia). done.
Qed.

Lemma ps2_handler_reads_past_table_witness :
  ps2_handler (sample_keyboard NORMAL_STATE 0x3B) =
    Fault (OutOfBounds 0x3B) (emits [EvInb 0x60 0x3B] (sample_keyboard NORMAL_STATE 0x3B)).
Proof.
  apply (ps2_handler_reads_past_table (sample_keyboard NORMAL_STATE 0x3B)); [by left|done].
Defined.

(** What a call of the handler comes to. *)
Lemma ps2_handler_outcome s :
  key_state_ok (keyboard_state s) ->
  ps2_handler s =
    if untabled (key_code s)
    then Fault (OutOfBounds (key_code s)) (emits [EvInb 0x60 (key_code s)] s)
    else Done tt (key_pressed (key_code s) s).
Proof.
  intros Hst. destruct (untabled (key_code s)) eqn:Hun;
    [by apply ps2_handler_reads_past_table|by apply ps2_handler_done].
Qed.

(** C25: once the controller's status stays clear, [ps2_init] returns: its exchange
    with the controller is [controller_start], whatever the controller answers to
    the test, so the first port ends up enabled; of the two loops that clear the
    buffer only the first makes any round, and the rest is console output. *)
Theorem ps2_init_starts (s : kstate) (n polls : nat) (Hp : (n < polls)%nat)
    (Hdev : forall t, (length (k_trace s) + 2 + 2 * n < length t)%nat ->
       status_busy (u8 (hw_dev (k_hw s) t (RInb 0x64))) = false) :
  exists rs data es, drained rs /\ (length rs <= S n)%nat /\
    device es = controller_start rs data /\
    ps2_init polls s = Done tt (emits es s).
Proof. by apply ps2_init_done. Qed.

Lemma ps2_init_starts_witness :
  exists rs data es, drained rs /\ (length rs <= 1)%nat /\
    device es = controller_start rs data /\
    ps2_init 1 (sample_keyboard NORMAL_STATE 0x55) =
      Done tt (emits es (sample_keyboard NORMAL_STATE 0x55)).
Proof. apply (ps2_init_starts (sample_keyboard NORMAL_STATE 0x55) 0 1); [lia|done]. Defined.
