(* ===== verification/Idt.v ===== *)
(** kern/sys/idt.c, idt.h and idt.asm: the interrupt descriptor table, the entry
    stubs and the dispatch of interrupts. *)

From S2P Require Import Prelude Limine Types Machine Memory Sample CString Video Printf Log.
From S2P Require Import Apic Ps2.

(** ** Code *)

(** sizeof(idtentry), packed *)
Definition sizeof_idtentry : Z := 16.

Definition idt_set (f : idt_globals -> idt_globals) : M unit :=
  modify (fun s => set_idt (f (k_idt s)) s).

(** The seven assignments to idt[vector]; [vector] is an unsigned char. *)
Definition idt_set_gate (vector isr flags : Z) : M unit :=
  idt_set (fun g => IdtGlobals (<[Z.to_nat (u8 vector) := {|
      ie_isr_low := u16 (Z.land isr 0xFFFF);
      ie_kernel_cs := 0x08;
      ie_ist := 0;
      ie_attributes := u8 flags;
      ie_isr_mid := u16 (Z.land (Z.shiftr isr 16) 0xFFFF);
      ie_isr_high := u32 (Z.land (Z.shiftr isr 32) 0xFFFFFFFF);
      ie_reserved := 0;
    |}]> (idt g)) (idtpr g)).

Definition idt_load : M unit :=
  r ← gets (fun s => idtpr (k_idt s));
  asm (Lidt (ir_limit r) (ir_base r)) ;;
  asm Sti.

(** The vectors with a handler, in the order of the calls. *)
Definition gate_vectors : list Z := zrange 0 32 ++ [33; 172].

Fixpoint set_gates (vectors : list Z) : M unit :=
  match vectors with
  | [] => mret tt
  | v :: vectors =>
      isr ← gets (fun s => s_isr (k_link s) v);
      idt_set_gate v isr 0x8E ;;
      set_gates vectors
  end.

Definition idt_init : M unit :=
  base ← gets (fun s => idt_addr (k_link s));
  idt_set (fun g => IdtGlobals (idt g) (Idtrr (ir_limit (idtpr g)) base)) ;;
  idt_set (fun g => IdtGlobals (idt g)
    (Idtrr (u16 (u16 sizeof_idtentry * 256 - 1)) (ir_base (idtpr g)))) ;;
  set_gates gate_vectors ;;
  idt_load.

Definition exception_messages : list string :=
  ["Division Error"; "Debug"; "Non Maskable Interrupt"; "Breakpoint";
   "Into Detected Overflow"; "Out of Bounds"; "Invalid Opcode"; "No Coprocessor";
   "Double Fault"; "Coprocessor Segment Overrun"; "Bad TSS"; "Segment Not Present";
   "Stack Fault"; "General Protection Fault"; "Page Fault"; "Unknown Interrupt";
   "Coprocessor Fault"; "Alignment Check"; "Machine Check"; "Reserved";
   "Reserved"; "Reserved"; "Reserved"; "Reserved";
   "Reserved"; "Reserved"; "Reserved"; "Reserved";
   "Reserved"; "Reserved"; "Reserved"; "Reserved"]%string.

(** The double quote. *)
Definition dq : string := String (Ascii.ascii_of_N 34) EmptyString.

Definition print_frame (r : int_frame) (message : string) : M Z :=
  printf "Oh no!{n}" [] ;;
  printf "               _.------.{n}" [] ;;
  printf ("           _.-`    ('>.-`" +:+ dq +:+ "-.{n}") [] ;;
  printf " '.__.---'`       _'`   _ .--.){n}" [] ;;
  printf ("        -'         '-.-';`   `           ----  " +:+ dq +:+
          " You have gotten exception {d}, aka '{s}'. Below is a provided stack frame. " +:+
          dq +:+ "{n}") [VInt (f_int_no r); VStr message] ;;
  printf "        ' -      _.'  ``'--. {n}" [] ;;
  printf "            '---`    .-'`{n}" [] ;;
  printf "                   /`{n}" [] ;;
  printf "{n}" [] ;;
  printf "{n}" [] ;;
  printf "error code 0x{xn}" [VInt (f_err r)] ;;
  printf "rax 0x{x} | rbx 0x{x} | rcx 0x{x} | rdx 0x{xn}"
    [VInt (f_rax r); VInt (f_rbx r); VInt (f_rcx r); VInt (f_rdx r)] ;;
  printf "rdi 0x{x} | rsi 0x{x} | rbp 0x{xn}" [VInt (f_rdi r); VInt (f_rsi r); VInt (f_rbp r)] ;;
  printf "r8 0x{x} | r9 0x{x} | r10 0x{x} | r11 0x{x} | r12 0x{x} | r13 0x{x} | r14 0x{x} | r15 0x{xn}"
    [VInt (f_r8 r); VInt (f_r9 r); VInt (f_r10 r); VInt (f_r11 r);
     VInt (f_r12 r); VInt (f_r13 r); VInt (f_r14 r); VInt (f_r15 r)] ;;
  printf "rip 0x{x} | cs 0x{x} | ss 0x{x} | rsp 0x{x} | rflags 0x{xn}"
    [VInt (f_rip r); VInt (f_cs r); VInt (f_ss r); VInt (f_rsp r); VInt (f_rflags r)].

Definition exception_handler (r : int_frame) : M unit :=
  (if f_int_no r <? 32 then
     message ← index exception_messages (f_int_no r);
     print_frame r message ;;
     hang
   else mret tt) ;;
  (if f_int_no r =? 0xAC then apic_timer else mret tt) ;;
  (if f_int_no r =? 33 then ps2_handler else mret tt).

(** *** idt.asm *)

(** The general registers the stub saves. *)
Record cpu_regs := CpuRegs {
  c_rax : Z; c_rbx : Z; c_rcx : Z; c_rdx : Z; c_rbp : Z; c_rsi : Z; c_rdi : Z;
  c_r8 : Z; c_r9 : Z; c_r10 : Z; c_r11 : Z; c_r12 : Z; c_r13 : Z; c_r14 : Z; c_r15 : Z;
}.

(** The stubs without a dummy push. *)
Definition no_dummy (v : Z) : bool :=
  existsb (Z.eqb v) [8; 10; 11; 12; 13; 14].

(** s_isr<v>: the words on the stack, the top first. *)
Definition isr_stub (v : Z) (stack : list Z) : list Z :=
  v :: if no_dummy v then stack else 0 :: stack.

(** pushaq and popaq *)
Definition pushaq (c : cpu_regs) (stack : list Z) : list Z :=
  [c_r15 c; c_r14 c; c_r13 c; c_r12 c; c_r11 c; c_r10 c; c_r9 c; c_r8 c;
   c_rdi c; c_rsi c; c_rbp c; c_rdx c; c_rcx c; c_rbx c; c_rax c] ++ stack.

Definition popaq (stack : list Z) : option (cpu_regs * list Z) :=
  match stack with
  | r15 :: r14 :: r13 :: r12 :: r11 :: r10 :: r9 :: r8 ::
    rdi :: rsi :: rbp :: rdx :: rcx :: rbx :: rax :: stack =>
      Some (CpuRegs rax rbx rcx rdx rbp rsi rdi r8 r9 r10 r11 r12 r13 r14 r15, stack)
  | _ => None
  end.

(** The words at the stack pointer as struct int_frame lays them out. *)
Definition read_frame (stack : list Z) : option int_frame :=
  match stack with
  | r15 :: r14 :: r13 :: r12 :: r11 :: r10 :: r9 :: r8 ::
    rdi :: rsi :: rbp :: rdx :: rcx :: rbx :: rax ::
    int_no :: err :: rip :: cs :: ss :: rsp :: rflags :: _ =>
      Some {| f_r15 := r15; f_r14 := r14; f_r13 := r13; f_r12 := r12; f_r11 := r11;
              f_r10 := r10; f_r9 := r9; f_r8 := r8; f_rdi := rdi; f_rsi := rsi;
              f_rbp := rbp; f_rdx := rdx; f_rcx := rcx; f_rbx := rbx; f_rax := rax;
              f_int_no := int_no; f_err := err;
              f_rip := rip; f_cs := cs; f_ss := ss; f_rsp := rsp; f_rflags := rflags |}
  | _ => None
  end.

(** isr_common_stub: the handler, then the registers and the stack iretq finds. *)
Definition isr_common_stub (c : cpu_regs) (stack : list Z) : M (cpu_regs * list Z) :=
  let stack := pushaq c stack in
  r ← deref (read_frame stack);
  exception_handler r ;;
  out ← deref (popaq stack);
  mret (out.1, drop 2 out.2).

(** ** Reference: gates and interrupt delivery (SDM volume 3, 6.14) *)

Definition gate_offset (e : idtentry) : Z :=
  ie_isr_low e + 2 ^ 16 * ie_isr_mid e + 2 ^ 32 * ie_isr_high e.

Definition gate_present (e : idtentry) : bool := Z.testbit (ie_attributes e) 7.
Definition gate_dpl (e : idtentry) : Z := (ie_attributes e / 2 ^ 5) mod 4.
Definition gate_type (e : idtentry) : Z := ie_attributes e mod 16.

(** What the processor saves. *)
Record cpu_state := CpuState { p_rip : Z; p_cs : Z; p_rflags : Z; p_rsp : Z; p_ss : Z }.

(** The exceptions with an error code. *)
Definition has_error_code (v : Z) : bool :=
  existsb (Z.eqb v) [8; 10; 11; 12; 13; 14; 17; 21; 29; 30].

Definition saved_state (p : cpu_state) : list Z :=
  [p_rip p; p_cs p; p_rflags p; p_rsp p; p_ss p].

Definition deliver (v err : Z) (p : cpu_state) : list Z :=
  if has_error_code v then err :: saved_state p else saved_state p.

(** ** Reference: the report of an exception, as text *)

Definition newline : list Z := [10].

Definition hex (z : Z) : list Z := numeral 16 (u64 z).

(** One line of registers: the names with their values, between bars. *)
Fixpoint register_line (fields : list (string * Z)) : list Z :=
  match fields with
  | [] => []
  | [(name, v)] => codes name ++ codes " 0x" ++ hex v ++ newline
  | (name, v) :: fields => codes name ++ codes " 0x" ++ hex v ++ codes " | " ++ register_line fields
  end.

(** The picture, what has happened, and the saved registers. *)
Definition report (r : int_frame) (message : string) : list Z :=
  codes "Oh no!" ++ newline ++
  codes "               _.------." ++ newline ++
  codes ("           _.-`    ('>.-`" +:+ dq +:+ "-.") ++ newline ++
  codes " '.__.---'`       _'`   _ .--.)" ++ newline ++
  codes ("        -'         '-.-';`   `           ----  " +:+ dq +:+
    " You have gotten exception ") ++ numeral 10 (u64 (f_int_no r)) ++
    codes ", aka '" ++ str_codes message ++
    codes ("'. Below is a provided stack frame. " +:+ dq) ++ newline ++
  codes "        ' -      _.'  ``'--. " ++ newline ++
  codes "            '---`    .-'`" ++ newline ++
  codes "                   /`" ++ newline ++ newline ++ newline ++
  codes "error code 0x" ++ hex (f_err r) ++ newline ++
  register_line [("rax", f_rax r); ("rbx", f_rbx r); ("rcx", f_rcx r); ("rdx", f_rdx r)]%string ++
  register_line [("rdi", f_rdi r); ("rsi", f_rsi r); ("rbp", f_rbp r)]%string ++
  register_line [("r8", f_r8 r); ("r9", f_r9 r); ("r10", f_r10 r); ("r11", f_r11 r);
    ("r12", f_r12 r); ("r13", f_r13 r); ("r14", f_r14 r); ("r15", f_r15 r)]%string ++
  register_line [("rip", f_rip r); ("cs", f_cs r); ("ss", f_ss r); ("rsp", f_rsp r);
    ("rflags", f_rflags r)]%string.

(** ** Lemmas *)

(** The gate of a vector after [idt_set_gate]. *)
Definition gate (isr flags : Z) : idtentry := {|
  ie_isr_low := u16 (Z.land isr 0xFFFF);
  ie_kernel_cs := 0x08;
  ie_ist := 0;
  ie_attributes := u8 flags;
  ie_isr_mid := u16 (Z.land (Z.shiftr isr 16) 0xFFFF);
  ie_isr_high := u32 (Z.land (Z.shiftr isr 32) 0xFFFFFFFF);
  ie_reserved := 0;
|}.

Lemma gate_offset_isr isr flags : 0 <= isr < 2 ^ 64 -> gate_offset (gate isr flags) = isr.
Proof.
  intros Hi. unfold gate_offset, gate.
  cbn [ie_isr_low ie_isr_mid ie_isr_high]. unfold u16, u32.
  change 0xFFFF with (Z.ones 16). change 0xFFFFFFFF with (Z.ones 32).
  rewrite !Z.land_ones, !Z.shiftr_div_pow2, !Zmod_mod by lia.
  rewrite (Z.mod_small (isr / 2 ^ 32)) by ldivmod. ldivmod.
Qed.

(** The table after gates for a list of vectors. *)
Definition gates_set (lk : link_map) (vectors : list Z) (t : list idtentry) : list idtentry :=
  foldl (fun t v => <[Z.to_nat (u8 v) := gate (s_isr lk v) 0x8E]> t) t vectors.

Lemma set_gates_done vectors s :
  set_gates vectors s = Done tt (set_idt (IdtGlobals
    (gates_set (k_link s) vectors (idt (k_idt s))) (idtpr (k_idt s))) s).
Proof.
  revert s. induction vectors as [|v vs IH]; intros s; cbn [set_gates].
  - destruct s as [? ? ? ? ? ? ? ? [] ? ? ? ?]. done.
  - unfold idt_set_gate, idt_set. rewrite bind_gets, bind_modify, IH. done.
Qed.

Lemma gates_set_length lk vectors t : length (gates_set lk vectors t) = length t.
Proof.
  revert t. induction vectors as [|v vs IH]; intros t; [done|]. cbn.
  unfold gates_set in IH. rewrite IH. apply length_insert.
Qed.

Lemma gates_set_other lk vectors t i :
  (forall v, v ∈ vectors -> i <> Z.to_nat (u8 v)) -> gates_set lk vectors t !! i = t !! i.
Proof.
  revert t. induction vectors as [|v vs IH]; intros t Hi; [done|]. cbn.
  unfold gates_set in IH. rewrite IH by (intros w Hw; apply Hi; by right).
  apply list_lookup_insert_ne. symmetry. apply Hi. by left.
Qed.

Lemma gates_set_in lk vectors t v :
  NoDup vectors -> (forall w, w ∈ vectors -> 0 <= w < 256) -> length t = 256%nat ->
  v ∈ vectors -> gates_set lk vectors t !! Z.to_nat v = Some (gate (s_isr lk v) 0x8E).
Proof.
  revert t. induction vectors as [|w vs IH]; intros t Hnd Hr Hl Hv; [by apply not_elem_of_nil in Hv|].
  apply NoDup_cons in Hnd as [Hni Hnd]. cbn.
  pose proof (Hr w ltac:(by left)). rewrite u8_small by lia.
  apply elem_of_cons in Hv as [->|Hv].
  - change (gates_set lk vs (<[Z.to_nat w := gate (s_isr lk w) 0x8E]> t) !! Z.to_nat w =
      Some (gate (s_isr lk w) 0x8E)).
    rewrite gates_set_other; [by apply list_lookup_insert_eq; rewrite Hl; lia|].
    intros x Hx. pose proof (Hr x ltac:(by right)). rewrite u8_small by lia.
    intros E. apply Hni. by replace w with x by lia.
  - apply IH; [done|intros; apply Hr; by right|by rewrite length_insert|done].
Qed.

Lemma gate_vectors_ok : NoDup gate_vectors /\ forall w, w ∈ gate_vectors -> 0 <= w < 256.
Proof.
  split; [by apply (bool_decide_eq_true_1 _)|].
  intros w [Hw%elem_of_zrange|[->|[->|[]%elem_of_nil]%elem_of_cons]%elem_of_cons]%elem_of_app; lia.
Qed.

Lemma exception_message i : 0 <= i < 32 -> is_Some (exception_messages !! Z.to_nat i).
Proof. intros Hi. apply lookup_lt_is_Some_2. cbn. lia. Qed.

(** A call of printf, by the text it prints. *)
Lemma wp_printf_text fmt args txt (Q : Z -> kstate -> Prop) H s :
  signature fmt = arg_kind <$> args -> format_text fmt args = Some txt ->
  (forall es, console_only es -> console es = txt -> Q 0 (emits es s)) ->
  wp (printf fmt args) Q H s.
Proof.
  intros Hsig Htxt HQ. destruct (printf_text_done fmt args txt Hsig Htxt) as (es & Hes & Hc & E).
  eapply wp_done; [apply E|]. by apply HQ.
Qed.

(** What has been printed so far. *)
Definition says (txt : list Z) (es : list event) : Prop := console_only es /\ console es = txt.

Lemma says_app txt txt' es es' : says txt es -> says txt' es' -> says (txt ++ txt') (es ++ es').
Proof.
  intros [H1 <-] [H2 <-]. split; [by apply console_only_app|apply console_app].
Qed.

Lemma wp_print_frame r msg (Q : Z -> kstate -> Prop) H s :
  (forall es, says (report r msg) es -> Q 0 (emits es s)) -> wp (print_frame r msg) Q H s.
Proof.
  intros HQ. unfold print_frame.
  do 14 (wp_step; eapply wp_printf_text; [reflexivity|print_text|];
    let es := fresh "es" in let Hes := fresh "Hes" in let Hc := fresh "Hc" in
    intros es Hes Hc; pose proof (conj Hes Hc : says _ es); clear Hes Hc).
  eapply wp_printf_text; [reflexivity|print_text|]. intros es' Hes' Hc'. rewrite !emits_app.
  pose proof (conj Hes' Hc' : says _ es'). apply HQ.
  match goal with |- says _ ?all =>
    eassert (says _ all) as Hall by (repeat (eapply says_app; [eassumption|]); eassumption) end.
  match type of Hall with says ?txt _ => replace (report r msg) with txt; [exact Hall|] end.
  clear. lazy -[numeral u64 app str_codes]. repeat (rewrite <- ?app_assoc; cbn [app]).
  generalize numeral, u64, str_codes, (@app Z). reflexivity.
Qed.

(** The stub calls the handler with the vector in the frame, restores the registers
    and leaves IRETQ what the processor pushed. *)
Lemma isr_runs s c p v err :
  no_dummy v = has_error_code v ->
  exists r, f_int_no r = v /\
    isr_common_stub c (isr_stub v (deliver v err p)) s = (exception_handler r ;; mret (c, saved_state p)) s.
Proof.
  intros Hv. unfold isr_stub, deliver. rewrite Hv. destruct c, p.
  by destruct (has_error_code v); eexists; (split; [|reflexivity]).
Qed.

Lemma isr_returns s s' c p v err :
  no_dummy v = has_error_code v ->
  (forall r, f_int_no r = v -> exception_handler r s = Done tt s') ->
  isr_common_stub c (isr_stub v (deliver v err p)) s = Done (c, saved_state p) s'.
Proof.
  intros Hv Hret. destruct (isr_runs s c p v err Hv) as (r & Hr & ->).
  by rewrite (bind_done _ _ _ _ _ (Hret r Hr)).
Qed.

(** ** Properties *)

(** C22: [idt_init] gives each of the 32 exceptions, the keyboard (33) and the
    timer (172) a present ring-0 interrupt gate to its stub in the kernel's code
    segment, leaves every other gate as it was, and loads the table of 256 gates
    with interrupts enabled. *)
Theorem idt_init_gates (s : kstate)
    (Hl : length (idt (k_idt s)) = 256%nat)
    (Hisr : forall v, 0 <= s_isr (k_link s) v < 2 ^ 64) :
  exists s', idt_init s = Done tt s' /\
    k_trace s' = k_trace s ++ [EvAsm (Lidt 4095 (idt_addr (k_link s))); EvAsm Sti] /\
    (forall v, v ∈ gate_vectors -> exists e, idt (k_idt s') !! Z.to_nat v = Some e /\
       gate_offset e = s_isr (k_link s) v /\ ie_kernel_cs e = 0x08 /\ ie_ist e = 0 /\
       gate_present e = true /\ gate_type e = 0xE /\ gate_dpl e = 0) /\
    (forall i, (forall v, v ∈ gate_vectors -> i <> Z.to_nat v) ->
       idt (k_idt s') !! i = idt (k_idt s) !! i).
Proof.
  destruct gate_vectors_ok as [Hnd Hr]. eexists. split; [|split; [|split]].
  - unfold idt_init, idt_set. rewrite bind_gets, !bind_modify.
    rewrite (bind_done _ _ _ _ _ (set_gates_done _ _)).
    unfold idt_load. rewrite bind_gets, bind_asm. reflexivity.
  - cbn -[gates_set]. by rewrite <- app_assoc.
  - intros v Hv. eexists. split; [by apply gates_set_in|].
    split; [by apply gate_offset_isr|]. by vm_compute.
  - intros i Hi. apply gates_set_other. intros v Hv. rewrite u8_small by (by apply Hr). by apply Hi.
Qed.

Lemma idt_init_gates_witness :
  exists s', idt_init sample_start = Done tt s' /\
    k_trace s' = [EvAsm (Lidt 4095 0xffffffff80002200); EvAsm Sti] /\
    (forall v, v ∈ gate_vectors -> exists e, idt (k_idt s') !! Z.to_nat v = Some e /\
       gate_offset e = s_isr sample_link v /\ ie_kernel_cs e = 0x08 /\
       ie_ist e = 0 /\ gate_present e = true /\ gate_type e = 0xE /\ gate_dpl e = 0) /\
    (forall i, (forall v, v ∈ gate_vectors -> i <> Z.to_nat v) ->
       idt (k_idt s') !! i = idt (k_idt sample_start) !! i).
Proof.
  apply (idt_init_gates sample_start); [done|].
  intros v. cbn [k_link sample_start start_state sample_link s_isr].
  pose proof (Z.mod_pos_bound v 256 ltac:(lia)). lia.
Defined.

(** An exception prints its report and halts with interrupts off. *)
Definition reported (r : int_frame) (s s' : kstate) : Prop :=
  exists es message, exception_messages !! Z.to_nat (f_int_no r) = Some message /\
    says (report r message) es /\ s' = emits (es ++ [EvAsm Cli; EvAsm Hlt]) s.

Lemma exception_handler_fatal s r :
  0 <= f_int_no r < 32 -> exists s', exception_handler r s = Halted s' /\ reported r s s'.
Proof.
  intros Hv. destruct (exception_message _ Hv) as [msg Hmsg].
  enough (wp (exception_handler r) (fun _ _ => False) (reported r s) s) as Hw.
  { unfold wp in Hw. destruct (exception_handler r s); try done. eauto. }
  unfold exception_handler. rewrite (proj2 (Z.ltb_lt _ 32)) by lia.
  do 2 wp_step. apply (wp_index _ _ msg); [lia|done|]. wp_step.
  apply wp_print_frame. intros es Hes. unfold wp. rewrite hang_halts.
  exists es, msg. split; [done|]. split; [done|]. by rewrite emits_app.
Qed.

(** The vectors above the exceptions. *)
Lemma exception_handler_irq s r :
  32 <= f_int_no r -> 0 <= apic_timer_ticks (k_apic s) < 2 ^ 64 ->
  exception_handler r s =
    if f_int_no r =? 172 then Done tt (ticked 1 s)
    else if f_int_no r =? 33 then ps2_handler s
    else Done tt s.
Proof.
  intros Hv Ht. unfold exception_handler. rewrite (proj2 (Z.ltb_ge _ 32)) by lia. rewrite bind_ret.
  destruct (Z.eqb_spec (f_int_no r) 172) as [->|].
  - change (172 =? 33) with false.
    pose proof (run_times_apic_timer 1 s Ht) as E. cbn [run_times] in E.
    unfold mbind, M_bind in E |- *. destruct (apic_timer s); done.
  - rewrite bind_ret. by destruct (f_int_no r =? 33).
Qed.

Definition sample_frame (v : Z) : int_frame :=
  IntFrame 0 0 0 0 0 0 0 0 0 0 0 0 0 0 0 v 0 0 8 16 0 0.

(** C37: what an interrupt does, by its vector.  An exception (below 32) prints its
    report (the exception's number and name, the error code, and each saved register
    in hexadecimal after its name) and halts the processor with interrupts off:
    nothing else precedes the halt, and no end of interrupt is signalled.  The
    timer's vector counts one tick and signals end of interrupt once.  The keyboard's
    reads one scan code, prints the character it types, if any, follows the state
    machine of the modifier keys and signals end of interrupt once; but for a code
    past the table it faults, without signalling.  Any other vector does nothing. *)
Theorem interrupt_dispatch (s : kstate) (r : int_frame)
    (Hv : 0 <= f_int_no r) (Ht : 0 <= apic_timer_ticks (k_apic s) < 2 ^ 64)
    (Hk : key_state_ok (keyboard_state s)) :
  if f_int_no r <? 32 then
    exists es message s', exception_messages !! Z.to_nat (f_int_no r) = Some message /\
      console_only es /\ console es = report r message /\
      k_trace s' = k_trace s ++ es ++ [EvAsm Cli; EvAsm Hlt] /\
      exception_handler r s = Halted s'
  else
    exception_handler r s =
      if f_int_no r =? 172 then Done tt (ticked 1 s)
      else if f_int_no r =? 33 then
        if untabled (key_code s)
        then Fault (OutOfBounds (key_code s)) (emits [EvInb 0x60 (key_code s)] s)
        else Done tt (key_pressed (key_code s) s)
      else Done tt s.
Proof.
  destruct (Z.ltb_spec (f_int_no r) 32).
  - destruct (exception_handler_fatal s r) as (s' & E & es & message & Hm & [Hes Hc] & ->); [done|].
    by exists es, message, (emits (es ++ [EvAsm Cli; EvAsm Hlt]) s).
  - rewrite exception_handler_irq by done. destruct (f_int_no r =? 172); [done|].
    destruct (f_int_no r =? 33); [by apply ps2_handler_outcome|done].
Qed.

Lemma interrupt_dispatch_witness :
  exception_handler (sample_frame 172) sample_start = Done tt (ticked 1 sample_start) /\
  (exists es message s', exception_messages !! 14%nat = Some message /\
    console_only es /\ console es = report (sample_frame 14) message /\
    k_trace s' = k_trace sample_start ++ es ++ [EvAsm Cli; EvAsm Hlt] /\
    exception_handler (sample_frame 14) sample_start = Halted s') /\
  exception_handler (sample_frame 33) (sample_keyboard NORMAL_STATE 0x1E) =
    Done tt (key_pressed 0x1E (sample_keyboard NORMAL_STATE 0x1E)) /\
  exception_handler (sample_frame 33) (sample_keyboard NORMAL_STATE 0x3B) =
    Fault (OutOfBounds 0x3B) (emits [EvInb 0x60 0x3B] (sample_keyboard NORMAL_STATE 0x3B)).
Proof.
  split; [|split; [|split]].
  - apply (interrupt_dispatch sample_start (sample_frame 172)); [cbn; lia|done|by left].
  - apply (interrupt_dispatch sample_start (sample_frame 14)); [cbn; lia|done|by left].
  - apply (interrupt_dispatch (sample_keyboard NORMAL_STATE 0x1E) (sample_frame 33));
      [cbn; lia|done|by left].
  - apply (interrupt_dispatch (sample_keyboard NORMAL_STATE 0x3B) (sample_frame 33));
      [cbn; lia|done|by left].
Defined.

(** C21: when its stub and the processor agree on the error code, the handler is
    given the vector, the error code, each of the fifteen saved registers in its own
    field and the interrupted RIP, CS and RSP, and once it returns the stub restores
    every register and leaves IRETQ exactly what the processor pushed; but the
    structure names the words after CS the other way round: [f_ss] is the interrupted
    RFLAGS and [f_rflags] the interrupted SS. *)
Theorem interrupt_frame (s : kstate) (c : cpu_regs) (p : cpu_state) (v err : Z)
    (Hv : no_dummy v = has_error_code v) :
  let stack := isr_stub v (deliver v err p) in
  exists r, isr_common_stub c stack s =
      (exception_handler r ;; mret (c, saved_state p)) s /\
    f_int_no r = v /\ f_err r = (if has_error_code v then err else 0) /\
    f_rax r = c_rax c /\ f_rbx r = c_rbx c /\ f_rcx r = c_rcx c /\ f_rdx r = c_rdx c /\
    f_rbp r = c_rbp c /\ f_rsi r = c_rsi c /\ f_rdi r = c_rdi c /\
    f_r8 r = c_r8 c /\ f_r9 r = c_r9 c /\ f_r10 r = c_r10 c /\ f_r11 r = c_r11 c /\
    f_r12 r = c_r12 c /\ f_r13 r = c_r13 c /\ f_r14 r = c_r14 c /\ f_r15 r = c_r15 c /\
    f_rip r = p_rip p /\ f_cs r = p_cs p /\ f_rsp r = p_rsp p /\
    f_ss r = p_rflags p /\ f_rflags r = p_ss p.
Proof.
  cbn zeta. unfold isr_stub, deliver. rewrite Hv. destruct c, p.
  destruct (has_error_code v) eqn:E; eexists; split_and!; reflexivity.
Qed.

Lemma interrupt_frame_witness :
  let c := CpuRegs 1 2 3 4 5 6 7 8 9 10 11 12 13 14 15 in
  let p := CpuState 0x1000 8 0x202 0x9000 16 in
  exists r, isr_common_stub c (isr_stub 172 (deliver 172 0 p)) sample_start =
      (exception_handler r ;; mret (c, [0x1000; 8; 0x202; 0x9000; 16])) sample_start /\
    f_int_no r = 172 /\ f_err r = 0 /\
    f_rax r = 1 /\ f_rbx r = 2 /\ f_rcx r = 3 /\ f_rdx r = 4 /\
    f_rbp r = 5 /\ f_rsi r = 6 /\ f_rdi r = 7 /\
    f_r8 r = 8 /\ f_r9 r = 9 /\ f_r10 r = 10 /\ f_r11 r = 11 /\
    f_r12 r = 12 /\ f_r13 r = 13 /\ f_r14 r = 14 /\ f_r15 r = 15 /\
    f_rip r = 0x1000 /\ f_cs r = 8 /\ f_rsp r = 0x9000 /\ f_ss r = 0x202 /\ f_rflags r = 16.
Proof.
  exact (interrupt_frame sample_start (CpuRegs 1 2 3 4 5 6 7 8 9 10 11 12 13 14 15)
    (CpuState 0x1000 8 0x202 0x9000 16) 172 0 eq_refl).
Defined.

(** the exceptions 17, 21, 29 and 30 have an error code, and their stubs push
    a dummy one as well: the handler is shown error code 0, the error code as
    the interrupted RIP, and the RIP as the CS. *)
Theorem error_code_misread (c : cpu_regs) (p : cpu_state) (v err : Z)
    (Hv : v ∈ [17; 21; 29; 30]) :
  exists r, read_frame (pushaq c (isr_stub v (deliver v err p))) = Some r /\
    f_int_no r = v /\ f_err r = 0 /\ f_rip r = err /\ f_cs r = p_rip p.
Proof.
  assert (no_dummy v = false /\ has_error_code v = true) as [E1 E2].
  { revert Hv. intros [->|[->|[->|[->|[]%elem_of_nil]%elem_of_cons]%elem_of_cons]%elem_of_cons]%elem_of_cons;
      done. }
  unfold isr_stub, deliver. rewrite E1, E2. by eexists.
Qed.

Lemma error_code_misread_witness :
  let c := CpuRegs 1 2 3 4 5 6 7 8 9 10 11 12 13 14 15 in
  let p := CpuState 0x1000 8 0x202 0x9000 16 in
  exists r, read_frame (pushaq c (isr_stub 17 (deliver 17 7 p))) = Some r /\
    f_int_no r = 17 /\ f_err r = 0 /\ f_rip r = 7 /\ f_cs r = 0x1000.
Proof. apply error_code_misread. by left. Defined.
