(* ===== verification/Acpi.v ===== *)
(** kern/sys/acpi/acpi.c, the ACPI tables and the delay by the ACPI timer, and
    the initialisation functions of kern/sys/acpi/apic.c that use them. *)

From S2P Require Import Prelude Limine Types Machine Memory Sample CString Video Printf Log.
From S2P Require Import AcpiTables Apic Ps2.

(** ** Code: acpi.c *)

Definition PMT_TIMER_RATE : Z := 3579545.

Definition acpi_get {A} (f : acpi_globals -> A) : M A := gets (fun s => f (k_acpi s)).
Definition acpi_set (f : acpi_globals -> acpi_globals) : M unit :=
  modify (fun s => set_acpi (f (k_acpi s)) s).

Definition parse_xsdt (hhdmoffset rsdp : Z) : M Z :=
  a ← load64 (rsdp ⊕ rsdp_xsdtaddress);
  if a =? 0 then mret 0
  else a ← load64 (rsdp ⊕ rsdp_xsdtaddress); mret (a ⊕ hhdmoffset).

Definition parse_rsdt (hhdmoffset rsdp : Z) : M Z :=
  a ← load32 (rsdp ⊕ rsdp_rsdtaddress);
  if a =? 0 then mret 0
  else a ← load32 (rsdp ⊕ rsdp_rsdtaddress); mret (a ⊕ hhdmoffset).

(** memcmp of memory with the bytes of a literal. *)
Definition memcmp_lit (p : Z) (lit : list Z) : M Z :=
  r ← for_ret 0 (Z.of_nat (length lit)) 1 (fun i =>
    b1 ← load8 (p ⊕ i);
    b2 ← index lit i;
    if b1 =? b2 then mret None
    else mret (Some (if b1 <? b2 then -1 else 1)));
  mret (default 0 r).

(** Which root table is used, and its number of entries. *)
Definition root_table (rsdt xsdt : Z) : M (Z * Z) :=
  if xsdt =? 0 then
    len ← load32 (rsdt ⊕ sdt_length);
    mret (0, s32 ((len ⊖ sizeof_sdt) / 4))
  else
    len ← load32 (xsdt ⊕ sdt_length);
    mret (1, s32 ((len ⊖ sizeof_sdt) / 8)).

Definition find_acpi_table (signature : string) (rsdt xsdt : Z) : M Z :=
  let chars := VInt <$> codes signature in
  printf "acpi: looking for table with signature '{cccc}'{n}" chars ;;
  '(usexsdt, entries) ← root_table rsdt xsdt;
  r ← for_ret 0 entries 1 (fun i =>
    header ← (if usexsdt =? 0 then load32 (rsdt ⊕ sizeof_sdt ⊕ 4 * i)
              else load64 (xsdt ⊕ sizeof_sdt ⊕ 8 * i));
    c ← memcmp_lit header (codes signature);
    if c =? 0 then
      printf "acpi: Found table with signature '{cccc}'{n}" chars ;;
      mret (Some header)
    else mret None);
  match r with
  | Some header => mret header
  | None =>
      printf "acpi: Table '{s}' not found.{n}" [VStr signature] ;;
      mret 0
  end.

Definition fetch_fadt : M Z :=
  r ← acpi_get rsdt;
  x ← acpi_get xsdt;
  find_acpi_table "FACP" r x.

(** while (current < target) *)
Fixpoint pmt_loop (polls : nat) (count target current : Z) : M unit :=
  if current <? target then
    match polls with
    | O => out_of_fuel
    | S polls =>
        f ← acpi_get fadt;
        port ← load32 (f ⊕ fadt_PMTimerBlock);
        v ← inl port;
        pmt_loop polls count target (Z.land (v ⊖ count) 0xffffff)
    end
  else mret tt.

Definition pmt_delay (polls : nat) (us : Z) : M unit :=
  f ← acpi_get fadt;
  len ← load8 (f ⊕ fadt_PMTimerLength);
  (if negb (len =? 4) then log_panic "ACPI Timer unavailable" else mret tt) ;;
  port ← load32 (f ⊕ fadt_PMTimerBlock);
  count ← inl port;
  pmt_loop polls count (us ⊗ PMT_TIMER_RATE / 1000000) 0.

(** ** Code: apic.c, initialisation *)

Definition ps2_int_init (polls : nat) : M unit :=
  log_info "Initalizing PS/2 keyboard" ;;
  gsi ← find_gsi 1;
  ps2_init polls ;;
  io ← apic_get ioapic_address;
  ioapic_configure_entry io gsi (Z.shiftl 0 16) ;;
  ioapic_configure_entry io gsi 33 ;;
  printf "ps2: configured IOAPIC redirection entry{n}" [] ;;
  log_success "PS/2 keyboard initalized".

Definition calibrate_timer (polls : nat) (madt : Z) : M unit :=
  a ← load32 (madt ⊕ madt_lapicaddr);
  apic_set (with_lapic_address a) ;;
  apic_write a LAPIC_TIMERDIV_REG 0x3 ;;
  apic_write a LAPIC_INITCNT_REG 0xFFFFFFFF ;;
  pmt_delay polls 50000 ;;
  apic_write a LAPIC_TIMERDIV_REG 0x10000 ;;
  cur ← apic_read a LAPIC_CURCNT_REG;
  let calibration := u32 (0xffffffff - cur) in
  apic_write a LAPIC_LVTTIMER_REG (Z.lor 172 LAPIC_PERIODIC) ;;
  apic_write a LAPIC_TIMERDIV_REG 0x3 ;;
  apic_write a LAPIC_INITCNT_REG calibration.

(** for (i = 0; i != max redirection entry; i++), the version register read
    before each round *)
Fixpoint ioapic_mask_loop (polls : nat) (i : Z) : M unit :=
  io ← apic_get ioapic_address;
  ver ← ioapic_read io IOAPICVER_REG;
  if i =? Z.land (Z.shiftr ver 16) 0xFF then mret tt
  else
    match polls with
    | O => out_of_fuel
    | S polls =>
        ioapic_configure_entry io i (Z.shiftl 1 16) ;;
        ioapic_mask_loop polls (i + 1)
    end.

(** With interrupts off: the local APIC, its timer, and the I/O APIC's pins masked. *)
Definition init_apic_off (polls : nat) (madt : Z) : M unit :=
  asm Cli ;;
  get_madt_tables madt ;;
  printf "apic: MADT tables listed through{n}" [] ;;
  printf "apic: writing to SIV register{n}" [] ;;
  a ← load32 (madt ⊕ madt_lapicaddr);
  apic_set (with_lapic_addr a) ;;
  spurious_reg ← apic_read a LAPIC_SIVR_REG;
  printf "madt lapic adr: 0x{xn}" [VInt a] ;;
  apic_write a LAPIC_SIVR_REG (Z.lor spurious_reg 0x100) ;;
  log_success "LAPICs initialized" ;;
  calibrate_timer polls madt ;;
  ioapic_mask_loop polls 0 ;;
  asm Sti.

Definition init_apic (polls : nat) (madt : Z) : M unit :=
  init_apic_off polls madt ;;
  ps2_int_init polls ;;
  log_success "IOAPIC initalized".

Definition init_apic_ap (polls : nat) : M unit :=
  a ← apic_get lapic_addr;
  spurious_reg ← apic_read a LAPIC_SIVR_REG;
  apic_write a LAPIC_SIVR_REG (Z.lor spurious_reg 0x100) ;;
  m ← acpi_get madt;
  calibrate_timer polls m.

(** The tables; the result is the MADT's address. *)
Definition init_acpi_tables : M Z :=
  response ← gets (fun s => rsdp_request_response (k_boot s));
  response ← match response with
             | None => log_panic "RSDP not recieved, halting."
             | Some r => mret r
             end;
  let rsdp := rr_address response in
  off ← gets (fun s => hhdmoffset (k_vmm s));
  r ← parse_rsdt off rsdp;
  acpi_set (fun g => AcpiGlobals r (xsdt g) (fadt g) (madt g)) ;;
  x ← parse_xsdt off rsdp;
  acpi_set (fun g => AcpiGlobals (rsdt g) x (fadt g) (madt g)) ;;
  m ← find_acpi_table "APIC" r x;
  acpi_set (fun g => AcpiGlobals (rsdt g) (xsdt g) (fadt g) m) ;;
  (if m =? 0 then log_panic "MADT table not found, hanging" else mret tt) ;;
  f ← find_acpi_table "FACP" r x;
  acpi_set (fun g => AcpiGlobals (rsdt g) (xsdt g) f (madt g)) ;;
  (if f =? 0 then log_panic "FADT table not found, hanging" else mret tt) ;;
  mret m.

Definition init_acpi (polls : nat) : M unit :=
  m ← init_acpi_tables;
  init_apic polls m.

(** ** Reference: the tables of the root table *)

(** The root table lists the headers at [ptrs]: the XSDT's 64-bit pointers when
    there is one, else the RSDT's 32-bit pointers. *)
Definition root_lists (s : kstate) (rsdt xsdt : Z) (ptrs : list Z) : Prop :=
  let n := Z.of_nat (length ptrs) in
  if xsdt =? 0 then
    holds s (rsdt ⊕ 4) 4 (36 + 4 * n) /\
    forall i p, ptrs !! i = Some p -> holds s (rsdt ⊕ 36 ⊕ 4 * Z.of_nat i) 4 p
  else
    holds s (xsdt ⊕ 4) 4 (36 + 8 * n) /\
    forall i p, ptrs !! i = Some p -> holds s (xsdt ⊕ 36 ⊕ 8 * Z.of_nat i) 8 p.

(** The signature of a header. *)
Definition signed (s : kstate) (p : Z) (sig : list Z) : Prop :=
  forall i c, sig !! i = Some c -> holds s (p ⊕ Z.of_nat i) 1 c.

(** The first header with a signature, 0 for none. *)
Definition first_signed (sig : list Z) (headers : list (Z * list Z)) : Z :=
  default 0 (head (omap (fun h => if decide (h.2 = sig) then Some h.1 else None) headers)).

(** ** Lemmas *)

Lemma signed_cons s p b sig : signed s p (b :: sig) -> holds s (p ⊕ 0) 1 b.
Proof. intros H. apply (H 0%nat). done. Qed.

Lemma load64_holds s va v : holds s va 8 v -> load64 va s = Done v s.
Proof. intros (p & Hm & <-). by apply load64_done. Qed.

Lemma memcmp_lit_loop s p lit : forall l hb i,
  length l = length hb -> drop i lit = l -> Z.of_nat (length lit) < 2 ^ 64 - 1 ->
  (forall j c, hb !! j = Some c -> holds s (p ⊕ Z.of_nat (i + j)) 1 c) ->
  exists r, for_ret_fuel (length l) (Z.of_nat (length lit)) 1 (Z.of_nat i) (fun i =>
    b1 ← load8 (p ⊕ i);
    b2 ← index lit i;
    if b1 =? b2 then mret None
    else mret (Some (if b1 <? b2 then -1 else 1))) s = Done r s /\
    default 0 r = lex_cmp hb l.
Proof.
  induction l as [|c l IH]; intros hb i Hlen Hdrop Hsmall Hh.
  - exists None. destruct hb; [|done]. cbn [length for_ret_fuel].
    assert (length lit <= i)%nat by (apply (f_equal length) in Hdrop; rewrite length_drop in Hdrop; cbn in Hdrop; lia).
    by rewrite (proj2 (Z.ltb_ge _ _)) by lia.
  - destruct hb as [|b hb]; [done|]. cbn [length for_ret_fuel].
    assert (lit !! i = Some c) as Hc.
    { rewrite <- (Nat.add_0_r i), <- lookup_drop, Hdrop. done. }
    pose proof (lookup_lt_Some _ _ _ Hc).
    rewrite (proj2 (Z.ltb_lt _ _)) by lia.
    pose proof (Hh 0%nat b eq_refl) as Hb. rewrite Nat.add_0_r in Hb.
    assert ((b1 ← load8 (p ⊕ Z.of_nat i); b2 ← index lit (Z.of_nat i);
      if b1 =? b2 then mret None else mret (Some (if b1 <? b2 then -1 else 1))) s =
      Done (if b =? c then None else Some (if b <? c then -1 else 1)) s) as E.
    { rewrite (bind_done _ _ _ _ _ (load8_holds _ _ _ Hb)).
      erewrite bind_done by (apply index_done; [lia|by rewrite Nat2Z.id]).
      by destruct (b =? c). }
    rewrite (bind_done _ _ _ _ _ E). cbn [lex_cmp].
    destruct (b =? c); [|by eexists].
    rewrite u64_small by lia. replace (Z.of_nat i + 1) with (Z.of_nat (S i)) by lia.
    apply IH; [by injection Hlen|by rewrite <- Nat.add_1_r, <- drop_drop, Hdrop|done|].
    intros j d Hd. replace (S i + j)%nat with (i + S j)%nat by lia. by apply Hh.
Qed.

Lemma memcmp_lit_done s p lit hb :
  length hb = length lit -> Z.of_nat (length lit) < 2 ^ 64 - 1 -> signed s p hb ->
  exists r, memcmp_lit p lit s = Done r s /\ (r = 0 <-> hb = lit).
Proof.
  intros Hlen Hsmall Hs.
  destruct (memcmp_lit_loop s p lit lit hb 0) as (r & E & Hr); [done|done|done|done|].
  exists (default 0 r). split.
  - unfold memcmp_lit, for_ret.
    replace (iterations 0 _ 1) with (length lit) by (unfold iterations; rewrite Z.div_1_r; lia).
    by rewrite (bind_done _ _ _ _ _ E).
  - rewrite Hr. by apply lex_cmp_eq.
Qed.

Lemma signed_frame s s' p sig :
  k_hw s' = k_hw s -> k_ram s' = k_ram s -> signed s p sig -> signed s' p sig.
Proof. intros Hhw Hram Hs i c Hc. apply (holds_frame s); auto. Qed.

(** The search loop, over the headers the root table lists. *)
Section search.
Context (s : kstate) (sig : string) (get : Z -> M Z).
Context (headers : list (Z * list Z)).
Context (Hsig : length (codes sig) = 4%nat).
Context (Hget : forall i h, headers !! i = Some h -> get (Z.of_nat i) s = Done h.1 s).
Context (Hhdr : forall h, h ∈ headers -> length h.2 = 4%nat /\ signed s h.1 h.2).
Context (Hnz : forall h, h ∈ headers -> h.1 <> 0).

Definition search_body (i : Z) : M (option Z) :=
  header ← get i;
  c ← memcmp_lit header (codes sig);
  if c =? 0 then
    printf "acpi: Found table with signature '{cccc}'{n}" (VInt <$> codes sig) ;;
    mret (Some header)
  else mret None.

Lemma sig_kinds : [KInt; KInt; KInt; KInt] = arg_kind <$> (VInt <$> codes sig).
Proof using Hsig. by destruct (codes sig) as [|? [|? [|? [|? [|]]]]]. Qed.

Lemma search_body_done i h :
  headers !! i = Some h ->
  if decide (h.2 = codes sig)
  then exists es, console_only es /\ search_body (Z.of_nat i) s = Done (Some h.1) (emits es s)
  else search_body (Z.of_nat i) s = Done None s.
Proof using All.
  intros Hh. destruct (Hhdr h ltac:(by eapply list_elem_of_lookup_2)) as [Hlen Hs].
  destruct (memcmp_lit_done s h.1 (codes sig) h.2) as (r & E & Hr); [lia|rewrite Hsig; lia|done|].
  unfold search_body. rewrite (bind_done _ _ _ _ _ (Hget i h Hh)), (bind_done _ _ _ _ _ E).
  case_decide as Hd.
  - rewrite (proj2 Hr Hd). cbn [Z.eqb].
    destruct (printf_typed_done "acpi: Found table with signature '{cccc}'{n}"
      (VInt <$> codes sig) sig_kinds) as (es & Hes & E1).
    exists es. split; [done|]. by rewrite (bind_done _ _ _ _ _ (E1 s)).
  - rewrite (proj2 (Z.eqb_neq r 0)); [done|]. tauto.
Qed.

Lemma search_loop : forall hs i,
  drop i headers = hs -> Z.of_nat (length headers) < 2 ^ 31 ->
  exists es r, console_only es /\
    for_ret_fuel (length hs) (Z.of_nat (length headers)) 1 (Z.of_nat i) search_body s =
      Done r (emits es s) /\
    default 0 r = first_signed (codes sig) hs /\ (r = Some 0 -> False) .
Proof using All.
  induction hs as [|h hs IH]; intros i Hdrop Hsmall.
  - exists [], None. split; [constructor|]. rewrite emits_nil. cbn [length for_ret_fuel].
    assert (length headers <= i)%nat by (apply (f_equal length) in Hdrop; rewrite length_drop in Hdrop; cbn in Hdrop; lia).
    by rewrite (proj2 (Z.ltb_ge _ _)) by lia.
  - assert (headers !! i = Some h) as Hh.
    { rewrite <- (Nat.add_0_r i), <- lookup_drop, Hdrop. done. }
    pose proof (lookup_lt_Some _ _ _ Hh). cbn [length for_ret_fuel].
    rewrite (proj2 (Z.ltb_lt _ _)) by lia.
    pose proof (search_body_done i h Hh) as Hb.
    unfold first_signed. cbn [omap list_omap]. destruct (decide (h.2 = codes sig)).
    + destruct Hb as (es & Hes & E). exists es, (Some h.1). split; [done|].
      rewrite (bind_done _ _ _ _ _ E). split; [done|]. split; [done|].
      intros [= E0]. apply (Hnz h); [by eapply list_elem_of_lookup_2|done].
    + rewrite (bind_done _ _ _ _ _ Hb), u64_small by lia.
      replace (Z.of_nat i + 1) with (Z.of_nat (S i)) by lia.
      apply IH; [|done]. by rewrite <- Nat.add_1_r, <- drop_drop, Hdrop.
Qed.
End search.

Lemma root_entries s rsdt xsdt ptrs :
  root_lists s rsdt xsdt ptrs -> Z.of_nat (length ptrs) < 2 ^ 28 ->
  root_table rsdt xsdt s = Done (if xsdt =? 0 then 0 else 1, Z.of_nat (length ptrs)) s.
Proof.
  intros Hr Hl. unfold root_lists in Hr. unfold root_table, sdt_length, sizeof_sdt.
  assert (forall k, k = 4 \/ k = 8 -> s32 ((36 + k * Z.of_nat (length ptrs) ⊖ 36) / k) =
    Z.of_nat (length ptrs)) as Hn.
  { intros k Hk. rewrite u64_small by (destruct Hk as [->| ->]; lia).
    replace (36 + k * Z.of_nat (length ptrs) - 36) with (Z.of_nat (length ptrs) * k) by lia.
    rewrite Z.div_mul by lia. apply s32_small. lia. }
  destruct (xsdt =? 0); destruct Hr as [Hlen _]; unfold mbind, M_bind;
    rewrite (load32_holds _ _ _ Hlen); cbn; by rewrite Hn by lia.
Qed.

Lemma root_lists_frame s s' rsdt xsdt ptrs :
  k_hw s' = k_hw s -> k_ram s' = k_ram s -> root_lists s rsdt xsdt ptrs -> root_lists s' rsdt xsdt ptrs.
Proof.
  intros Hhw Hram. unfold root_lists.
  destruct (xsdt =? 0); intros [H1 H2]; split;
    first [by apply (holds_frame s)|intros i p Hp; apply (holds_frame s); auto].
Qed.

(** *** The search *)

Lemma find_acpi_table_done s sig rsdt xsdt headers :
  length (codes sig) = 4%nat -> root_lists s rsdt xsdt (fst <$> headers) ->
  (forall h, h ∈ headers -> length h.2 = 4%nat /\ signed s h.1 h.2) ->
  (forall h, h ∈ headers -> h.1 <> 0) -> Z.of_nat (length headers) < 2 ^ 28 ->
  exists es, console_only es /\
    find_acpi_table sig rsdt xsdt s = Done (first_signed (codes sig) headers) (emits es s).
Proof.
  intros Hsig Hroot Hhdr Hnz Hsmall.
  destruct (printf_typed_done "acpi: looking for table with signature '{cccc}'{n}"
    (VInt <$> codes sig) (sig_kinds sig Hsig)) as (es1 & Hes1 & E1).
  unfold find_acpi_table. rewrite (bind_done _ _ _ _ _ (E1 s)).
  set (s1 := emits es1 s).
  pose proof (root_lists_frame s s1 _ _ _ eq_refl eq_refl Hroot) as Hroot1.
  pose proof (root_entries s1 rsdt xsdt _ Hroot1) as Een. rewrite length_fmap in Een.
  specialize (Een Hsmall).
  rewrite (bind_done _ _ _ _ _ Een). cbn beta iota.
  set (get := fun i : Z => if (if xsdt =? 0 then 0 else 1) =? 0
    then load32 (rsdt ⊕ sizeof_sdt ⊕ 4 * i) else load64 (xsdt ⊕ sizeof_sdt ⊕ 8 * i)).
  destruct (search_loop s1 sig get headers Hsig) with (hs := headers) (i := 0%nat)
    as (es & r & Hes & E & Hr & Hr0).
  - intros i h Hh. unfold get. unfold root_lists in Hroot1.
    assert ((fst <$> headers) !! i = Some h.1) as Hi by by rewrite list_lookup_fmap, Hh.
    destruct (xsdt =? 0); destruct Hroot1 as [_ Hp]; cbn [Z.eqb];
      [apply load32_holds|apply load64_holds]; by apply Hp.
  - intros h Hh. destruct (Hhdr h Hh). split; [done|]. by apply (signed_frame s).
  - done.
  - done.
  - lia.
  - erewrite bind_done; cycle 1.
    { unfold for_ret. replace (iterations 0 _ 1) with (length headers)
        by (unfold iterations; rewrite Z.div_1_r; lia). exact E. }
    rewrite <- Hr. unfold s1. rewrite emits_app.
    destruct r as [h|]; [by exists (es1 ++ es); split; [apply Forall_app|]|].
    destruct (printf_typed_done "acpi: Table '{s}' not found.{n}" [VStr sig] eq_refl)
      as (es2 & Hes2 & E2).
    exists ((es1 ++ es) ++ es2). split; [by repeat apply console_only_app|].
    by rewrite (bind_done _ _ _ _ _ (E2 _)), emits_app.
Qed.

(** *** The ACPI timer *)

(** The timer's port is readable and answers [inl]. *)
Record timer_at (s : kstate) (port : Z) : Prop := {
  tm_length : holds s (fadt (k_acpi s) ⊕ fadt_PMTimerLength) 1 4;
  tm_port : holds s (fadt (k_acpi s) ⊕ fadt_PMTimerBlock) 4 port;
}.

Definition timer_read (s : kstate) (port : Z) : Z :=
  u32 (hw_dev (k_hw s) (k_trace s) (RInl (u16 port))).

Lemma inl_done p s : inl p s = Done (timer_read s p) (emits [EvInl (u16 p) (timer_read s p)] s).
Proof. done. Qed.

Lemma timer_at_trace s port t : timer_at s port -> timer_at (set_trace t s) port.
Proof. intros [H1 H2]. split; by apply (holds_frame s). Qed.

(** Ticks since [count], of the 24 bits that are significant. *)
Definition elapsed (count v : Z) : Z := Z.land (v ⊖ count) 0xffffff.

Lemma elapsed_range count v : 0 <= elapsed count v <= 0xffffff.
Proof.
  unfold elapsed. change 0xffffff with (Z.ones 24). rewrite Z.land_ones by lia.
  pose proof (Z.mod_pos_bound (v ⊖ count) (2 ^ 24) ltac:(lia)). change (Z.ones 24) with (2 ^ 24 - 1). lia.
Qed.

(** One poll. *)
Lemma pmt_poll s port count target current polls :
  timer_at s port -> current < target ->
  pmt_loop (S polls) count target current s =
    pmt_loop polls count target (elapsed count (timer_read s port))
      (emits [EvInl (u16 port) (timer_read s port)] s).
Proof.
  intros Ht Hlt. cbn [pmt_loop]. rewrite (proj2 (Z.ltb_lt _ _)) by done.
  unfold acpi_get. rewrite bind_gets.
  rewrite (bind_done _ _ _ _ _ (load32_holds _ _ _ (tm_port s port Ht))).
  by rewrite (bind_done _ _ _ _ _ (inl_done _ _)).
Qed.

Lemma pmt_loop_returns port count target n : forall s polls current,
  timer_at s port -> (n < polls)%nat ->
  (forall t, length t = (length (k_trace s) + n)%nat ->
     target <= elapsed count (u32 (hw_dev (k_hw s) t (RInl (u16 port))))) ->
  exists es s', Forall (fun e => exists v, e = EvInl (u16 port) v) es /\
    pmt_loop polls count target current s = Done tt s' /\ s' = emits es s.
Proof.
  induction n as [|n IH]; intros s polls current Ht Hp Hdev;
    (destruct (Z.ltb_spec current target) as [Hlt|Hge];
      [|exists [], s; split; [constructor|]; rewrite emits_nil;
        destruct polls; cbn [pmt_loop]; by rewrite (proj2 (Z.ltb_ge _ _)) by lia]);
    (destruct polls as [|polls]; [lia|]); rewrite (pmt_poll s port) by done.
  - exists [EvInl (u16 port) (timer_read s port)]. eexists.
    split; [constructor; [by eexists|constructor]|]. split; [|done].
    pose proof (Hdev (k_trace s) ltac:(lia)).
    destruct polls; cbn [pmt_loop]; by rewrite (proj2 (Z.ltb_ge _ _)).
  - destruct (IH (emits [EvInl (u16 port) (timer_read s port)] s) polls
      (elapsed count (timer_read s port))) as (es & s' & Hes & E & ->).
    + by apply timer_at_trace.
    + lia.
    + intros t Hl. apply Hdev. cbn in Hl. rewrite length_app in Hl. cbn in Hl. lia.
    + eexists (_ :: es), _. split; [constructor; [by eexists|done]|]. split; [exact E|].
      by rewrite emits_app.
Qed.

Lemma pmt_loop_never port count target : 0xffffff < target -> forall polls s current,
  timer_at s port -> current < target -> pmt_loop polls count target current s = OutOfFuel.
Proof.
  intros Hbig polls. induction polls as [|polls IH]; intros s current Ht Hlt.
  - cbn [pmt_loop]. by rewrite (proj2 (Z.ltb_lt _ _)).
  - rewrite (pmt_poll s port) by done. apply IH; [by apply timer_at_trace|].
    pose proof (elapsed_range count (timer_read s port)). lia.
Qed.

(** The delay up to its loop. *)
Lemma pmt_delay_loop s port us polls :
  timer_at s port ->
  pmt_delay polls us s =
    pmt_loop polls (timer_read s port) (us ⊗ PMT_TIMER_RATE / 1000000) 0
      (emits [EvInl (u16 port) (timer_read s port)] s).
Proof.
  intros [H1 H2]. unfold pmt_delay, acpi_get. rewrite bind_gets.
  rewrite (bind_done _ _ _ _ _ (load8_holds _ _ _ H1)). cbn [negb Z.eqb Pos.eqb].
  rewrite bind_ret, (bind_done _ _ _ _ _ (load32_holds _ _ _ H2)).
  by rewrite (bind_done _ _ _ _ _ (inl_done _ _)).
Qed.

Lemma pmt_delay_done s port us n polls :
  timer_at s port -> (n < polls)%nat ->
  (forall t, length t = (length (k_trace s) + 1 + n)%nat ->
     us ⊗ PMT_TIMER_RATE / 1000000 <=
       elapsed (timer_read s port) (u32 (hw_dev (k_hw s) t (RInl (u16 port))))) ->
  exists es, pmt_delay polls us s = Done tt (emits es s) /\
    Forall (fun e => exists v, e = EvInl (u16 port) v) es.
Proof.
  intros Ht Hp Hdev. rewrite (pmt_delay_loop s port) by done.
  destruct (pmt_loop_returns port (timer_read s port) (us ⊗ PMT_TIMER_RATE / 1000000) n
    (emits [EvInl (u16 port) (timer_read s port)] s) polls 0) as (es & s' & Hes & E & ->).
  - by apply timer_at_trace.
  - done.
  - intros t Hl. apply Hdev. cbn in Hl. rewrite length_app in Hl. cbn in Hl. lia.
  - exists (EvInl (u16 port) (timer_read s port) :: es). rewrite E, emits_app.
    split; [done|]. constructor; [by eexists|done].
Qed.

(** *** The I/O APIC *)

(** The last redirection entry a version register names (82093AA, 3.2.2). *)
Definition max_redirection (ver : Z) : Z := Z.land (Z.shiftr (s32 (u32 ver)) 16) 0xFF.

(** The writes that set entry [i] to the two halves of [v]: index and value,
    for each half. *)
Definition entry_writes (io i v : Z) : list event :=
  [EvMmioWrite 32 io (0x10 + 2 * i); EvMmioWrite 32 (io ⊕ 16) (u32 v);
   EvMmioWrite 32 io (0x11 + 2 * i); EvMmioWrite 32 (io ⊕ 16) (u32 (Z.shiftr v 32))].

(** An entry with nothing but its mask bit. *)
Definition mask_entry (io i : Z) : list event := entry_writes io i 0x10000.

Definition version_read (io ver : Z) : list event :=
  [EvMmioWrite 32 io 1; EvMmioRead (io ⊕ 16) (u32 ver)].

Lemma ioapic_configure_entry_done io i v s :
  0 <= i < 112 -> ioapic_configure_entry io i v s = Done tt (emits (entry_writes io i v) s).
Proof.
  intros Hi. unfold ioapic_configure_entry, IOAPICREDTBL_REG, ioapic_write.
  rewrite bind_assoc, !bind_emit. unfold entry_writes.
  assert (forall x, 0 <= x < 256 -> Z.land (u8 x) 0xFF = x) as Hx.
  { intros x Hx. rewrite u8_small by lia. change 0xFF with (Z.ones 8). rewrite Z.land_ones by lia.
    by apply Z.mod_small. }
  assert (forall x, u32 (u32 x) = u32 x) as Hu by (intros; apply u32_small, u32_range).
  rewrite (u8_small i), !Hx, !Hu by lia. rewrite emit_done, !emits_app.
  replace (16 + 2 * i + 1) with (17 + 2 * i) by lia. done.
Qed.

Lemma ioapic_mask_done ver io : forall n s polls i,
  ioapic_address (k_apic s) = io ->
  (forall t, hw_dev (k_hw s) t (RMmio (io ⊕ 16)) = ver) ->
  (n <= polls)%nat -> 0 <= i -> i + Z.of_nat n = max_redirection ver -> max_redirection ver <= 112 ->
  ioapic_mask_loop polls i s = Done tt (emits
    (concat ((fun i => version_read io ver ++ mask_entry io i) <$> zrange i n) ++
     version_read io ver) s).
Proof.
  induction n as [|n IH]; intros s polls i Hio Hdev Hp Hi Hmax Hsmall.
  all: assert (forall s, ioapic_address (k_apic s) = io ->
    (forall t, hw_dev (k_hw s) t (RMmio (io ⊕ 16)) = ver) ->
    ioapic_read io IOAPICVER_REG s = Done (s32 (u32 ver)) (emits (version_read io ver) s)) as Hread
    by (clear; intros s Hio Hdev; unfold ioapic_read; rewrite bind_emit; unfold request;
        unfold mbind, M_bind; cbn; rewrite Hdev; unfold version_read, emits; cbn;
        by rewrite <- app_assoc).
  all: destruct polls as [|polls]; try lia; cbn [ioapic_mask_loop]; unfold apic_get;
    rewrite bind_gets, Hio, (bind_done _ _ _ _ _ (Hread s Hio Hdev)); fold (max_redirection ver).
  - rewrite (proj2 (Z.eqb_eq _ _)) by lia. done.
  - rewrite (proj2 (Z.eqb_eq _ _)) by lia. done.
  - rewrite (proj2 (Z.eqb_neq _ _)) by lia.
    rewrite (bind_done _ _ _ _ _ (ioapic_configure_entry_done io i _ _ ltac:(lia))).
    rewrite IH; [|done|done|lia|lia|lia|lia]. by rewrite !emits_app.
Qed.

(** ** Properties *)

(** [find_acpi_table] searches the XSDT when there is one and the RSDT else,
    and returns the address of the first header with the signature, NULL when no
    header has it, writing to the console only. *)
Theorem find_acpi_table_first (s : kstate) (sig : string) (rsdt xsdt : Z)
    (headers : list (Z * list Z))
    (Hsig : length (codes sig) = 4%nat)
    (Hroot : root_lists s rsdt xsdt (fst <$> headers))
    (Hhdr : forall h, h ∈ headers -> length h.2 = 4%nat /\ signed s h.1 h.2)
    (Hnz : forall h, h ∈ headers -> h.1 <> 0)
    (Hsmall : Z.of_nat (length headers) < 2 ^ 28) :
  exists es, console_only es /\
    find_acpi_table sig rsdt xsdt s = Done (first_signed (codes sig) headers) (emits es s).
Proof. by apply find_acpi_table_done. Qed.

(** The sample machine whose root table is an RSDT at 0x3000 with two headers,
    at 0x4000 and 0x4100. *)
Definition sample_acpi : kstate :=
  set_ram (ram_write 0x4100 (to_byte <$> codes "APIC") (ram_write 0x4000 (to_byte <$> codes "FACP")
    (ram_write 0x3024 (to_byte <$> [0; 0x40; 0; 0; 0; 0x41; 0; 0])
      (ram_write 0x3004 [to_byte 44] ∅)))) sample_start.

Lemma find_acpi_table_first_witness :
  exists es, console_only es /\
    find_acpi_table "APIC" 0x3000 0 sample_acpi = Done 0x4100 (emits es sample_acpi).
Proof.
  apply (find_acpi_table_first sample_acpi "APIC" 0x3000 0
    [(0x4000, codes "FACP"); (0x4100, codes "APIC")]).
  - done.
  - split; [sample_holds|]. intros [|[|i]] p Hp; [injection Hp as <-|injection Hp as <-|done];
      sample_holds.
  - intros h [->|[->|[]%elem_of_nil]%elem_of_cons]%elem_of_cons; (split; [done|]);
      intros [|[|[|[|i]]]] c Hc; try done; injection Hc as <-; sample_holds.
  - by intros h [->|[->|[]%elem_of_nil]%elem_of_cons]%elem_of_cons.
  - cbn. lia.
Defined.

(** C36: [pmt_delay] returns, having only read the timer's port, once the port has
    shown the target number of ticks since its first reading: when the reading
    of the [n]-th poll, at the latest, is past the target, [n + 1] polls are
    enough. *)
Theorem pmt_delay_returns (s : kstate) (port us : Z) (n polls : nat)
    (Ht : timer_at s port) (Hp : (n < polls)%nat)
    (Hdev : forall t, length t = (length (k_trace s) + 1 + n)%nat ->
       us ⊗ PMT_TIMER_RATE / 1000000 <=
         elapsed (timer_read s port) (u32 (hw_dev (k_hw s) t (RInl (u16 port))))) :
  exists es, pmt_delay polls us s = Done tt (emits es s) /\
    Forall (fun e => exists v, e = EvInl (u16 port) v) es.
Proof.
  by apply (pmt_delay_done s port us n polls).
Qed.

(** The sample machine with a FADT at 0x5000 whose timer is at port 0x608 and
    gains 100000 ticks with every event. *)
Definition sample_timer : kstate :=
  set_acpi (AcpiGlobals 0 0 0x5000 0) (start_state
    (ram_write 0x504c (to_byte <$> [8; 6; 0; 0]) (ram_write 0x505b [to_byte 4] ∅))
    (Hardware 0x10000 0xffff800000000000 (fun t _ => Z.min 400000 (100000 * Z.of_nat (length t))) (fun _ => 0%nat))
    sample_boot sample_link).

Lemma sample_timer_at : timer_at sample_timer 0x608.
Proof.
  split.
  - exists 0x505b. split; [|by vm_compute]. apply mapped_identity; by vm_compute.
  - exists 0x504c. split; [|by vm_compute]. apply mapped_identity; by vm_compute.
Qed.

Lemma pmt_delay_returns_witness :
  exists es, pmt_delay 4 50000 sample_timer = Done tt (emits es sample_timer) /\
    Forall (fun e => exists v, e = EvInl 0x608 v) es.
Proof.
  apply (pmt_delay_returns sample_timer 0x608 50000 3); [apply sample_timer_at|lia|].
  intros t Hl. cbn [k_hw sample_timer set_acpi start_state hw_dev].
  cbn in Hl. rewrite (Z.min_l 400000) by lia. by vm_compute.
Defined.

(** a delay of more ticks than the timer's 24 bits can count (from 4.7
    seconds on) never ends, however often the timer is polled. *)
Theorem pmt_delay_never_returns (s : kstate) (port us : Z) (polls : nat)
    (Ht : timer_at s port) (Hbig : 0xffffff < us ⊗ PMT_TIMER_RATE / 1000000) :
  pmt_delay polls us s = OutOfFuel.
Proof.
  rewrite (pmt_delay_loop s port) by done.
  apply (pmt_loop_never port); [done|by apply timer_at_trace|lia].
Qed.

Lemma pmt_delay_never_returns_witness : pmt_delay 1000 5000000 sample_timer = OutOfFuel.
Proof. apply (pmt_delay_never_returns sample_timer 0x608); [apply sample_timer_at|by vm_compute]. Defined.
