(* ===== verification/Protocol.v ===== *)
(** kern/include/limine.h as the kernel uses it: the requests it plants in its
    image, the structures the bootloader answers with as they lie in memory, and
    the expressions of the kernel that read them, each where it stands.  The rest of
    the model takes their values from [boot_info]; this file shows that they are
    those. *)

From S2P Require Import Prelude Limine Types Machine Memory Sample CString Video Printf Log.
From S2P Require Import AcpiTables Apic Ps2 Idt Acpi.

(** ** Requests *)

Definition LIMINE_COMMON_MAGIC : list Z := [0xc7b1dd30df4c8b88; 0x0a82e883a194f07b].

Definition LIMINE_HHDM_REQUEST : list Z :=
  LIMINE_COMMON_MAGIC ++ [0x48dcf1cb8ad2b852; 0x63984e959a98244b].
Definition LIMINE_FRAMEBUFFER_REQUEST : list Z :=
  LIMINE_COMMON_MAGIC ++ [0x9d5827dcd881dd75; 0xa3148604f6fab11b].
Definition LIMINE_SMP_REQUEST : list Z :=
  LIMINE_COMMON_MAGIC ++ [0x95a67b819a1b857e; 0xa0b61b723b6a73e0].
Definition LIMINE_MEMMAP_REQUEST : list Z :=
  LIMINE_COMMON_MAGIC ++ [0x67cf3d9d378a806f; 0xe304acdfc50c3c62].
Definition LIMINE_RSDP_REQUEST : list Z :=
  LIMINE_COMMON_MAGIC ++ [0xc5e77b6b397e7b43; 0x27637845accdcf3c].
Definition LIMINE_KERNEL_ADDRESS_REQUEST : list Z :=
  LIMINE_COMMON_MAGIC ++ [0x71ba76863cc55f63; 0xb2644a48c516a487].

(** struct limine_<feature>_request: all begin alike; the response is a pointer. *)
Record limine_request := Request { rq_id : list Z; rq_revision : Z; rq_response : Z }.

Definition memmap_request : limine_request := Request LIMINE_MEMMAP_REQUEST 0 0.
Definition hhdm_request : limine_request := Request LIMINE_HHDM_REQUEST 0 0.
Definition kernel_addr_request : limine_request := Request LIMINE_KERNEL_ADDRESS_REQUEST 0 0.
Definition rsdp_request : limine_request := Request LIMINE_RSDP_REQUEST 0 0.
Definition framebuffer_request : limine_request := Request LIMINE_FRAMEBUFFER_REQUEST 0 0.
Definition smp_request : limine_request := Request LIMINE_SMP_REQUEST 0 0.

Inductive feature := Memmap | Hhdm | KernelAddress | Rsdp | FramebufferFeature | Smp.

Definition request_of (f : feature) : limine_request :=
  match f with
  | Memmap => memmap_request
  | Hhdm => hhdm_request
  | KernelAddress => kernel_addr_request
  | Rsdp => rsdp_request
  | FramebufferFeature => framebuffer_request
  | Smp => smp_request
  end.

(** The bootloader finds each request by its identifier and stores the address of
    its answer in it, if it has one: [loader] is what it knows. *)
Definition answered (loader : list Z -> option Z) (r : limine_request) : limine_request :=
  match loader (rq_id r) with Some p => Request (rq_id r) (rq_revision r) p | None => r end.

(** ** Structures *)

Definition limine_request_l : layout := [("id", 32); ("revision", 8); ("response", 8)].
Definition limine_hhdm_response_l : layout := [("revision", 8); ("offset", 8)].
Definition limine_framebuffer_l : layout :=
  [("address", 8); ("width", 8); ("height", 8); ("pitch", 8); ("bpp", 2); ("memory_model", 1);
   ("red_mask_size", 1); ("red_mask_shift", 1); ("green_mask_size", 1);
   ("green_mask_shift", 1); ("blue_mask_size", 1); ("blue_mask_shift", 1); ("unused", 7);
   ("edid_size", 8); ("edid", 8); ("mode_count", 8); ("modes", 8)].
Definition limine_framebuffer_response_l : layout :=
  [("revision", 8); ("framebuffer_count", 8); ("framebuffers", 8)].
Definition limine_smp_info_l : layout :=
  [("processor_id", 4); ("lapic_id", 4); ("reserved", 8); ("goto_address", 8);
   ("extra_argument", 8)].
Definition limine_smp_response_l : layout :=
  [("revision", 8); ("flags", 4); ("bsp_lapic_id", 4); ("cpu_count", 8); ("cpus", 8)].
Definition limine_memmap_entry_l : layout := [("base", 8); ("length", 8); ("type", 8)].
Definition limine_memmap_response_l : layout :=
  [("revision", 8); ("entry_count", 8); ("entries", 8)].
Definition limine_rsdp_response_l : layout := [("revision", 8); ("address", 8)].
Definition limine_kernel_address_response_l : layout :=
  [("revision", 8); ("physical_base", 8); ("virtual_base", 8)].

(** The structures are not packed: the compiler puts a field on a multiple of its
    size.  When the offsets without padding are that already, it adds none.  (An
    array is aligned as its elements: [unused] is of bytes, [id] of 8 bytes.) *)
Definition alignment (f : string * Z) : Z :=
  if String.eqb f.1 "unused" then 1 else Z.min f.2 8.

Definition unpadded (l : layout) : bool :=
  forallb (fun f => offset_of l f.1 mod alignment f =? 0) l && (sizeof l mod 8 =? 0).

Definition structures : list layout :=
  [limine_request_l; limine_hhdm_response_l; limine_framebuffer_l;
   limine_framebuffer_response_l; limine_smp_info_l; limine_smp_response_l;
   limine_memmap_entry_l; limine_memmap_response_l; limine_rsdp_response_l;
   limine_kernel_address_response_l].

(** ** Code: the expressions that read the answers *)

(** p->f for a field of 8 bytes, and for one of 4; the address of a field. *)
Definition field64 (l : layout) (f : string) (p : Z) : M Z := load64 (p ⊕ offset_of l f).
Definition field32 (l : layout) (f : string) (p : Z) : M Z := load32 (p ⊕ offset_of l f).
Definition field_addr (l : layout) (f : string) (p : Z) : Z := p ⊕ offset_of l f.

(** array[i] of an array of pointers. *)
Definition element (array i : Z) : M Z := load64 (array ⊕ 8 ⊗ i).

Section expressions.
(** The requests in the kernel's image, as the bootloader leaves them. *)
Context (image : feature -> limine_request).

Definition response (f : feature) : Z := rq_response (image f).

(** pmm_init, vmm_init: memmap = memmap_request.response *)
Definition memmap_count : M Z := field64 limine_memmap_response_l "entry_count" (response Memmap).
Definition memmap_entry (i : Z) : M Z :=
  entries ← field64 limine_memmap_response_l "entries" (response Memmap);
  element entries i.
Definition memmap_entry_base (i : Z) : M Z :=
  e ← memmap_entry i; field64 limine_memmap_entry_l "base" e.
Definition memmap_entry_length (i : Z) : M Z :=
  e ← memmap_entry i; field64 limine_memmap_entry_l "length" e.
Definition memmap_entry_type (i : Z) : M Z :=
  e ← memmap_entry i; field64 limine_memmap_entry_l "type" e.

(** vmm_init: hhdm_request.response->offset, kernel_addr_request.response->... *)
Definition hhdm_offset : M Z := field64 limine_hhdm_response_l "offset" (response Hhdm).
Definition kernel_physical_base : M Z :=
  field64 limine_kernel_address_response_l "physical_base" (response KernelAddress).
Definition kernel_virtual_base : M Z :=
  field64 limine_kernel_address_response_l "virtual_base" (response KernelAddress).

(** init_acpi: rsdp_request.response->address *)
Definition rsdp_address : M Z := field64 limine_rsdp_response_l "address" (response Rsdp).

(** fb_init: the first framebuffer, and what flanterm is given of it *)
Definition framebuffer_args : M (Z * Z * Z * Z) :=
  framebuffers ← field64 limine_framebuffer_response_l "framebuffers" (response FramebufferFeature);
  framebuffer ← element framebuffers 0;
  address ← field64 limine_framebuffer_l "address" framebuffer;
  width ← field64 limine_framebuffer_l "width" framebuffer;
  height ← field64 limine_framebuffer_l "height" framebuffer;
  pitch ← field64 limine_framebuffer_l "pitch" framebuffer;
  mret (address, width, height, pitch).

(** smp_init: the number of processors, smp_info[i], and where it stores the address
    of [ap_trampoline] *)
Definition smp_cpu_count : M Z := field64 limine_smp_response_l "cpu_count" (response Smp).
Definition smp_info (i : Z) : M Z :=
  smp_info ← field64 limine_smp_response_l "cpus" (response Smp);
  element smp_info i.
Definition smp_goto_address (i : Z) : M Z :=
  info ← smp_info i; mret (field_addr limine_smp_info_l "goto_address" info).
End expressions.

(** ap_trampoline: smp_info->lapic_id, smp_info->processor_id *)
Definition smp_lapic_id (info : Z) : M Z := field32 limine_smp_info_l "lapic_id" info.
Definition smp_processor_id (info : Z) : M Z := field32 limine_smp_info_l "processor_id" info.

(** ** Reference: the protocol.  Which identifier asks for which feature *)

Definition protocol_id (f : feature) : list Z :=
  [0xc7b1dd30df4c8b88; 0x0a82e883a194f07b] ++
  match f with
  | Hhdm => [0x48dcf1cb8ad2b852; 0x63984e959a98244b]
  | FramebufferFeature => [0x9d5827dcd881dd75; 0xa3148604f6fab11b]
  | Smp => [0x95a67b819a1b857e; 0xa0b61b723b6a73e0]
  | Memmap => [0x67cf3d9d378a806f; 0xe304acdfc50c3c62]
  | Rsdp => [0xc5e77b6b397e7b43; 0x27637845accdcf3c]
  | KernelAddress => [0x71ba76863cc55f63; 0xb2644a48c516a487]
  end.

(** ** Reference: an answer as it lies in memory, by the offsets of the protocol *)

Definition has64 (s : kstate) (p offset v : Z) : Prop := holds s (p ⊕ offset) 8 v.
Definition has32 (s : kstate) (p offset v : Z) : Prop := holds s (p ⊕ offset) 4 v.

(** An array of pointers to the objects of a list. *)
Definition array_at {A} (at_ : Z -> A -> Prop) (s : kstate) (array : Z) (l : list A) : Prop :=
  forall i a, l !! i = Some a -> exists p, holds s (array ⊕ 8 ⊗ Z.of_nat i) 8 p /\ at_ p a.

Definition memmap_entry_at (s : kstate) (p : Z) (e : limine_memmap_entry) : Prop :=
  let has := has64 s p in
  has 0 (me_base e) /\ has 8 (me_length e) /\ has 16 (me_type e).

Definition memmap_at (s : kstate) (p : Z) (r : limine_memmap_response) : Prop :=
  let has := has64 s p in
  has 0 (mr_revision r) /\ has 8 (mr_entry_count r) /\
  mr_entry_count r = Z.of_nat (length (mr_entries r)) /\
  exists a, has 16 a /\ array_at (memmap_entry_at s) s a (mr_entries r).

Definition hhdm_at (s : kstate) (p : Z) (r : limine_hhdm_response) : Prop :=
  let has := has64 s p in
  has 0 (hr_revision r) /\ has 8 (hr_offset r).

Definition kernel_address_at (s : kstate) (p : Z) (r : limine_kernel_address_response) : Prop :=
  let has := has64 s p in
  has 0 (kr_revision r) /\ has 8 (kr_physical_base r) /\
  has 16 (kr_virtual_base r).

Definition rsdp_at (s : kstate) (p : Z) (r : limine_rsdp_response) : Prop :=
  let has := has64 s p in
  has 0 (rr_revision r) /\ has 8 (rr_address r).

Definition framebuffer_at (s : kstate) (p : Z) (f : limine_framebuffer) : Prop :=
  let has := has64 s p in
  has 0 (fb_address f) /\ has 8 (fb_width f) /\ has 16 (fb_height f) /\
  has 24 (fb_pitch f).

Definition framebuffers_at (s : kstate) (p : Z) (r : limine_framebuffer_response) : Prop :=
  let has := has64 s p in
  has 0 (fr_revision r) /\ has 8 (fr_framebuffer_count r) /\
  fr_framebuffer_count r = Z.of_nat (length (fr_framebuffers r)) /\
  exists a, has 16 a /\ array_at (framebuffer_at s) s a (fr_framebuffers r).

Definition smp_info_at (s : kstate) (p : Z) (i : limine_smp_info) : Prop :=
  has32 s p 0 (si_processor_id i) /\
  has32 s p 4 (si_lapic_id i) /\
  has64 s p 24 (si_extra_argument i).

Definition smp_at (s : kstate) (p : Z) (r : limine_smp_response) : Prop :=
  let has := has64 s p in
  has 0 (sr_revision r) /\ has32 s p 8 (sr_flags r) /\
  has32 s p 12 (sr_bsp_lapic_id r) /\
  has 16 (sr_cpu_count r) /\ sr_cpu_count r = Z.of_nat (length (sr_cpus r)) /\
  exists a, has 24 a /\ array_at (smp_info_at s) s a (sr_cpus r).

(** The answer to a feature: NULL, or a structure in memory. *)
Definition answer_at {A} (at_ : Z -> A -> Prop) (p : Z) (o : option A) : Prop :=
  match o with
  | None => p = 0
  | Some a => p <> 0 /\ at_ p a
  end.

(** The bootloader keeps to the protocol: what it stores in a request that has the
    identifier of a feature is NULL or the address of that feature's answer. *)
Record follows_protocol (s : kstate) (loader : list Z -> option Z) (bi : boot_info) : Prop := {
  fp_memmap : answer_at (memmap_at s) (default 0 (loader (protocol_id Memmap)))
    (memmap_request_response bi);
  fp_hhdm : answer_at (hhdm_at s) (default 0 (loader (protocol_id Hhdm))) (hhdm_request_response bi);
  fp_kernel : answer_at (kernel_address_at s) (default 0 (loader (protocol_id KernelAddress)))
    (kernel_addr_request_response bi);
  fp_rsdp : answer_at (rsdp_at s) (default 0 (loader (protocol_id Rsdp))) (rsdp_request_response bi);
  fp_framebuffer : answer_at (framebuffers_at s) (default 0 (loader (protocol_id FramebufferFeature)))
    (framebuffer_request_response bi);
  fp_smp : answer_at (smp_at s) (default 0 (loader (protocol_id Smp))) (smp_request_response bi);
}.

(** The kernel finds NULL where there is no answer, and reads the answer as [P] says
    where there is one. *)
Definition finds {A} (p : Z) (o : option A) (P : A -> Prop) : Prop :=
  match o with
  | None => p = 0
  | Some a => p <> 0 /\ P a
  end.

(** ** Lemmas *)

(** The bootloader finds each of the kernel's requests. *)
Lemma answered_request loader f :
  rq_response (answered loader (request_of f)) = default 0 (loader (protocol_id f)).
Proof.
  unfold answered. replace (rq_id (request_of f)) with (protocol_id f) by (by destruct f).
  destruct (loader (protocol_id f)); [done|by destruct f].
Qed.

Section reading.
Context (s : kstate).

Lemma field64_reads l f p o v : offset_of l f = o -> has64 s p o v -> field64 l f p s = Done v s.
Proof. intros <- H. by apply load64_holds. Qed.

Lemma field32_reads l f p o v : offset_of l f = o -> has32 s p o v -> field32 l f p s = Done v s.
Proof. intros <- H. by apply load32_holds. Qed.

Lemma element_reads {A} (at_ : Z -> A -> Prop) array l i a :
  array_at at_ s array l -> l !! i = Some a ->
  exists p, at_ p a /\ element array (Z.of_nat i) s = Done p s.
Proof. intros Hat Hi. destruct (Hat i a Hi) as (p & Hp & Ha). exists p. split; [done|]. exact (load64_holds _ _ _ Hp). Qed.

(** A chain of reads, one after the other. *)
Ltac read_chain :=
  repeat (erewrite bind_done by (eassumption || (eapply field64_reads; [reflexivity|eassumption])));
  try (eassumption || reflexivity || (eapply field64_reads; [reflexivity|eassumption])
    || (eapply field32_reads; [reflexivity|eassumption])).

Lemma reads_memmap image r :
  memmap_at s (response image Memmap) r ->
  memmap_count image s = Done (mr_entry_count r) s /\
  forall i e, mr_entries r !! i = Some e ->
    memmap_entry_base image (Z.of_nat i) s = Done (me_base e) s /\
    memmap_entry_length image (Z.of_nat i) s = Done (me_length e) s /\
    memmap_entry_type image (Z.of_nat i) s = Done (me_type e) s.
Proof.
  intros (_ & Hc & _ & a & Ha & Hat). split; [by eapply field64_reads|]. intros i e Hi.
  destruct (element_reads _ _ _ _ _ Hat Hi) as (p & (Hb & Hl & Ht) & Ep).
  assert (memmap_entry image (Z.of_nat i) s = Done p s) as E by (unfold memmap_entry; read_chain).
  unfold memmap_entry_base, memmap_entry_length, memmap_entry_type. split_and!; read_chain.
Qed.

Lemma reads_framebuffer image r f :
  framebuffers_at s (response image FramebufferFeature) r -> head (fr_framebuffers r) = Some f ->
  framebuffer_args image s = Done (fb_address f, fb_width f, fb_height f, fb_pitch f) s.
Proof.
  intros (_ & _ & _ & a & Ha & Hat) Hf. rewrite head_lookup in Hf.
  destruct (element_reads _ _ _ _ _ Hat Hf) as (p & (H1 & H2 & H3 & H4) & Ep).
  unfold framebuffer_args. read_chain.
Qed.

Lemma reads_smp image r :
  smp_at s (response image Smp) r ->
  smp_cpu_count image s = Done (sr_cpu_count r) s /\
  forall i cpu, sr_cpus r !! i = Some cpu -> exists info,
    smp_info image (Z.of_nat i) s = Done info s /\
    smp_goto_address image (Z.of_nat i) s = Done (info ⊕ 16) s /\
    smp_lapic_id info s = Done (si_lapic_id cpu) s /\
    smp_processor_id info s = Done (si_processor_id cpu) s.
Proof.
  intros (_ & _ & _ & Hc & _ & a & Ha & Hat). split; [by eapply field64_reads|]. intros i cpu Hi.
  destruct (element_reads _ _ _ _ _ Hat Hi) as (p & (Hp & Hl & _) & Ep). exists p.
  assert (smp_info image (Z.of_nat i) s = Done p s) as E by (unfold smp_info; read_chain).
  split_and!; [done|unfold smp_goto_address; read_chain|unfold smp_lapic_id; read_chain
    |unfold smp_processor_id; read_chain].
Qed.

Lemma finds_answer {A} (at_ : Z -> A -> Prop) p o P :
  answer_at at_ p o -> (forall a, at_ p a -> P a) -> finds p o P.
Proof. destruct o as [a|]; [|done]. intros [Hne Ha] HP. split; auto. Qed.
End reading.

(** ** Properties *)

(** C38: where the bootloader keeps to the protocol, every expression of the kernel
    that reads an answer has the value the rest of the model takes from [boot_info].
    The bootloader knows a request by its identifier alone, so each request of the
    kernel carries the identifier of the feature its code expects; every field is at
    the offset the protocol gives it, none padded; and an answer that is missing
    leaves NULL.  The address of [ap_trampoline] is stored where the bootloader's
    processors wait for it. *)
Theorem boot_answers_read (s : kstate) (loader : list Z -> option Z) (bi : boot_info)
    (Hfp : follows_protocol s loader bi) :
  let image f := answered loader (request_of f) in
  finds (response image Memmap) (memmap_request_response bi) (fun r =>
    memmap_count image s = Done (mr_entry_count r) s /\
    forall i e, mr_entries r !! i = Some e ->
      memmap_entry_base image (Z.of_nat i) s = Done (me_base e) s /\
      memmap_entry_length image (Z.of_nat i) s = Done (me_length e) s /\
      memmap_entry_type image (Z.of_nat i) s = Done (me_type e) s) /\
  finds (response image Hhdm) (hhdm_request_response bi) (fun r =>
    hhdm_offset image s = Done (hr_offset r) s) /\
  finds (response image KernelAddress) (kernel_addr_request_response bi) (fun r =>
    kernel_physical_base image s = Done (kr_physical_base r) s /\
    kernel_virtual_base image s = Done (kr_virtual_base r) s) /\
  finds (response image Rsdp) (rsdp_request_response bi) (fun r =>
    rsdp_address image s = Done (rr_address r) s) /\
  finds (response image FramebufferFeature) (framebuffer_request_response bi) (fun r =>
    forall f, head (fr_framebuffers r) = Some f ->
      framebuffer_args image s = Done (fb_address f, fb_width f, fb_height f, fb_pitch f) s) /\
  finds (response image Smp) (smp_request_response bi) (fun r =>
    smp_cpu_count image s = Done (sr_cpu_count r) s /\
    forall i cpu, sr_cpus r !! i = Some cpu -> exists info,
      smp_info image (Z.of_nat i) s = Done info s /\
      smp_goto_address image (Z.of_nat i) s = Done (info ⊕ 16) s /\
      smp_lapic_id info s = Done (si_lapic_id cpu) s /\
      smp_processor_id info s = Done (si_processor_id cpu) s) /\
  forallb unpadded structures = true.
Proof.
  destruct Hfp as [H1 H2 H3 H4 H5 H6]. rewrite <- !answered_request in *. intros image.
  split_and!; [..|by vm_compute]; (eapply finds_answer; [eassumption|]); intros r Hr.
  - by apply reads_memmap.
  - destruct Hr. by eapply field64_reads.
  - destruct Hr as (_ & ? & ?). by split; eapply field64_reads.
  - destruct Hr. by eapply field64_reads.
  - intros f. by apply reads_framebuffer.
  - by apply reads_smp.
Qed.

(** The sample machine with a memory map, the direct map's offset and two
    processors, and no answer to the other requests. *)
Definition sample_words : list (Z * Z) :=
  [(0x3000, 0); (0x3008, 2); (0x3010, 0x3100); (0x3100, 0x3200); (0x3108, 0x3220);
   (0x3200, 0); (0x3208, 0x2000); (0x3210, 1); (0x3220, 0x2000); (0x3228, 0xE000); (0x3230, 0);
   (0x3300, 0); (0x3308, 0xffff800000000000);
   (0x3400, 0); (0x3408, 0); (0x3410, 2); (0x3418, 0x3500); (0x3500, 0x3600); (0x3508, 0x3640);
   (0x3600, 0); (0x3618, 7); (0x3640, 0x100000001); (0x3658, 9)].

Definition sample_answers : kstate :=
  set_ram (foldr (fun w r => ram_write w.1 (le_bytes 8 w.2) r) ∅ sample_words) sample_start.

Definition sample_loader (id : list Z) : option Z :=
  if decide (id = protocol_id Memmap) then Some 0x3000
  else if decide (id = protocol_id Hhdm) then Some 0x3300
  else if decide (id = protocol_id Smp) then Some 0x3400 else None.

Definition sample_info : boot_info :=
  BootInfo (Some sample_memmap) (Some (HhdmResponse 0 0xffff800000000000)) None None None
    (Some (SmpResponse 0 0 0 2 [SmpInfo 0 0 7; SmpInfo 1 1 9])).

Lemma boot_answers_read_witness :
  let image f := answered sample_loader (request_of f) in
  memmap_entry_length image 1 sample_answers = Done 0xE000 sample_answers /\
  hhdm_offset image sample_answers = Done 0xffff800000000000 sample_answers /\
  response image Rsdp = 0 /\
  exists info, smp_info image 1 sample_answers = Done info sample_answers /\
    smp_goto_address image 1 sample_answers = Done (info ⊕ 16) sample_answers /\
    smp_lapic_id info sample_answers = Done 1 sample_answers /\
    smp_processor_id info sample_answers = Done 1 sample_answers.
Proof.
  intros image. destruct (boot_answers_read sample_answers sample_loader sample_info)
    as ((_ & _ & Hm) & (_ & Hh) & _ & Hr & _ & (_ & _ & Hs) & _);
    [|split; [apply (Hm 1%nat _ eq_refl)|]; split; [exact Hh|]; split; [exact Hr|];
      exact (Hs 1%nat _ eq_refl)].
  assert (forall p o v, 0x1000 <= p ⊕ o -> p ⊕ o + 8 <= 0x10000 ->
    le_val (ram_read (k_ram sample_answers) (p ⊕ o) 8) = v -> has64 sample_answers p o v) as H64 by (intros; by apply sample_holds).
  assert (forall p o v, 0x1000 <= p ⊕ o -> p ⊕ o + 4 <= 0x10000 ->
    le_val (ram_read (k_ram sample_answers) (p ⊕ o) 4) = v -> has32 sample_answers p o v) as H32 by (intros; by apply sample_holds).
  split; try reflexivity.
  - split; [done|]. split; [apply H64; by vm_compute|]. split; [apply H64; by vm_compute|].
    split; [done|]. exists 0x3100. split; [apply H64; by vm_compute|].
    intros [|[|i]] a Ha; [injection Ha as <-; exists 0x3200|injection Ha as <-; exists 0x3220|done].
    all: split; [sample_holds|]; split_and!; apply H64; by vm_compute.
  - split; [done|]. split; apply H64; by vm_compute.
  - split; [done|]. split; [apply H64; by vm_compute|].
    do 2 (split; [apply H32; by vm_compute|]). split; [apply H64; by vm_compute|].
    split; [done|]. exists 0x3500. split; [apply H64; by vm_compute|].
    intros [|[|i]] a Ha; [injection Ha as <-; exists 0x3600|injection Ha as <-; exists 0x3640|done].
    all: split; [sample_holds|]; split_and!; (apply H32 || apply H64); by vm_compute.
Defined.
