(* ===== verification/ApicInit.v ===== *)
(** What the initialisation functions of kern/sys/acpi/apic.c and acpi.c leave
    in the devices: the local APIC's registers and the I/O APIC's redirection
    table, as the writes of a trace program them. *)

From S2P Require Import Prelude Limine Types Machine Memory Sample CString Video Printf Log.
From S2P Require Import AcpiTables Apic Ps2 Acpi.

(** ** Reference: the devices *)

(** The I/O APIC (82093AA): a write to its first register selects the one its
    window, 16 bytes on, gives access to. *)
Record ioapic := Ioapic { io_select : Z; io_regs : gmap Z Z }.

Definition ioapic_step (io : Z) (d : ioapic) (e : event) : ioapic :=
  match e with
  | EvMmioWrite _ a v =>
      if a =? io then Ioapic v (io_regs d)
      else if a =? io ⊕ 16 then Ioapic (io_select d) (<[io_select d := v]> (io_regs d))
      else d
  | _ => d
  end.

Definition ioapic_after (io : Z) (d : ioapic) (t : list event) : ioapic :=
  foldl (ioapic_step io) d t.

(** The two halves of the redirection entry of a pin. *)
Definition redirection (d : ioapic) (pin : Z) : option Z * option Z :=
  (io_regs d !! (0x10 + 2 * pin), io_regs d !! (0x11 + 2 * pin)).

(** The values a trace writes to an address, in order. *)
Definition writes_to (a : Z) (t : list event) : list Z :=
  omap (fun e => match e with
                 | EvMmioWrite _ a' v => if a' =? a then Some v else None
                 | _ => None
                 end) t.

(** The address a register of the local APIC is written at, with the direct map
    at [off]. *)
Definition lapic_reg (off base r : Z) : Z := base ⊕ r ⊕ off.

(** The I/O APIC's registers are not among the local APIC's. *)
Definition apart (off base io : Z) : Prop :=
  forall r, 0 <= r < 4096 -> lapic_reg off base r <> io /\ lapic_reg off base r <> io ⊕ 16.

(** The ACPI timer counts: [n + 1] readings after any reading it is 50 ms ahead
    of it. *)
Definition timer_runs (hw : hardware) (port : Z) (n : nat) : Prop :=
  forall t0 t, length t = (length t0 + 1 + n)%nat ->
    50000 ⊗ PMT_TIMER_RATE / 1000000 <=
      elapsed (u32 (hw_dev hw t0 (RInl (u16 port)))) (u32 (hw_dev hw t (RInl (u16 port)))).

(** ** Lemmas *)

(** *** The devices *)

Lemma ioapic_after_app io d t t' :
  ioapic_after io d (t ++ t') = ioapic_after io (ioapic_after io d t) t'.
Proof. apply foldl_app. Qed.

Lemma writes_to_app a t t' : writes_to a (t ++ t') = writes_to a t ++ writes_to a t'.
Proof. apply omap_app. Qed.

(** Console output is nothing to a device. *)
Lemma ioapic_after_device io d t : ioapic_after io d t = ioapic_after io d (device t).
Proof.
  revert d. induction t as [|e t IH]; intros d; [done|].
  unfold ioapic_after, device in *. by destruct e; cbn; rewrite IH.
Qed.

Lemma writes_to_device a t : writes_to a t = writes_to a (device t).
Proof.
  induction t as [|e t IH]; [done|]. unfold writes_to, device in *.
  by destruct e; cbn; rewrite ?IH; try case_match.
Qed.

(** A trace without writes to an address. *)
Definition leaves (a : Z) (t : list event) : Prop :=
  Forall (fun e => match e with EvMmioWrite _ a' _ => a' <> a | _ => True end) t.

Lemma ioapic_left io d t : leaves io t -> leaves (io ⊕ 16) t -> ioapic_after io d t = d.
Proof.
  intros H1. revert d. induction H1 as [|e t He _ IH]; intros d H2; [done|].
  apply Forall_cons in H2 as [He2 H2]. unfold ioapic_after in *. cbn.
  destruct e; try by apply IH. cbn.
  rewrite (proj2 (Z.eqb_neq _ _) He), (proj2 (Z.eqb_neq _ _) He2). by apply IH.
Qed.

Lemma window_apart io : io <> io ⊕ 16.
Proof.
  unfold u64. intros E. assert (0 <= io < 2 ^ 64) by (rewrite E; apply Z.mod_pos_bound; lia).
  revert E. destruct (Z.ltb_spec (io + 16) (2 ^ 64)).
  - rewrite Z.mod_small by lia. lia.
  - rewrite <- (Z.mod_unique (io + 16) (2 ^ 64) 1 (io + 16 - 2 ^ 64)); lia.
Qed.

Lemma ioapic_select io d w v : ioapic_step io d (EvMmioWrite w io v) = Ioapic v (io_regs d).
Proof. cbn. by rewrite Z.eqb_refl. Qed.

Lemma ioapic_window io d w v :
  ioapic_step io d (EvMmioWrite w (io ⊕ 16) v) =
    Ioapic (io_select d) (<[io_select d := v]> (io_regs d)).
Proof.
  cbn. rewrite (proj2 (Z.eqb_neq _ io)), Z.eqb_refl; [done|]. apply not_eq_sym, window_apart.
Qed.

(** Writing an entry changes its two halves and no other entry. *)
Lemma redirection_entry io d i v pin :
  redirection (ioapic_after io d (entry_writes io i v)) pin =
    if decide (pin = i) then (Some (u32 v), Some (u32 (Z.shiftr v 32))) else redirection d pin.
Proof.
  unfold ioapic_after, entry_writes. cbn [foldl].
  rewrite ioapic_select, ioapic_window, ioapic_select, ioapic_window. unfold redirection.
  cbn [io_select io_regs]. case_decide as Hd; [subst pin|].
  - rewrite (lookup_insert_ne _ (17 + 2 * i) (16 + 2 * i)), !lookup_insert_eq by lia. done.
  - by rewrite !lookup_insert_ne by lia.
Qed.

Lemma redirection_version io d ver pin :
  redirection (ioapic_after io d (version_read io ver)) pin = redirection d pin.
Proof. unfold ioapic_after, version_read. cbn [foldl]. by rewrite ioapic_select. Qed.

(** The loop that masks the entries from [i] on. *)
Definition mask_writes (io ver i : Z) (n : nat) : list event :=
  concat ((fun i => version_read io ver ++ mask_entry io i) <$> zrange i n) ++ version_read io ver.

Lemma redirection_masked io ver n : forall d i pin,
  redirection (ioapic_after io d (mask_writes io ver i n)) pin =
    if decide (i <= pin < i + Z.of_nat n) then (Some 0x10000, Some 0) else redirection d pin.
Proof.
  induction n as [|n IH]; intros d i pin; unfold mask_writes.
  - cbn [zrange fmap list_fmap concat app]. rewrite redirection_version.
    by rewrite decide_False by lia.
  - cbn [zrange fmap list_fmap concat]. rewrite <- app_assoc.
    rewrite ioapic_after_app. fold (mask_writes io ver (i + 1) n). rewrite IH, ioapic_after_app.
    unfold mask_entry. rewrite redirection_entry, redirection_version.
    repeat case_decide; (lia || done).
Qed.

(** *** Calibration *)

Definition timer_reading (port : Z) (e : event) : Prop := exists v, e = EvInl (u16 port) v.

(** What [calibrate_timer] does, with the readings [ts] of the ACPI timer and the
    reading [cur] of the current count. *)
Definition calibration (off base : Z) (ts : list event) (cur : Z) : list event :=
  [EvMmioWrite 32 (lapic_reg off base LAPIC_TIMERDIV_REG) 3;
   EvMmioWrite 32 (lapic_reg off base LAPIC_INITCNT_REG) 0xFFFFFFFF] ++ ts ++
  [EvMmioWrite 32 (lapic_reg off base LAPIC_TIMERDIV_REG) 0x10000;
   EvMmioRead (base ⊕ LAPIC_CURCNT_REG) cur;
   EvMmioWrite 32 (lapic_reg off base LAPIC_LVTTIMER_REG) (Z.lor 172 LAPIC_PERIODIC);
   EvMmioWrite 32 (lapic_reg off base LAPIC_TIMERDIV_REG) 3;
   EvMmioWrite 32 (lapic_reg off base LAPIC_INITCNT_REG) (0xFFFFFFFF - cur)].

Lemma apic_read_done base r s : exists v,
  0 <= v < 2 ^ 32 /\ apic_read base r s = Done v (emits [EvMmioRead (base ⊕ r) v] s).
Proof.
  exists (u32 (hw_dev (k_hw s) (k_trace s) (RMmio (base ⊕ r)))).
  split; [apply u32_range|done].
Qed.

Lemma calibrate_timer_done s madt base port n polls :
  holds s (madt ⊕ madt_lapicaddr) 4 base -> timer_at s port -> (n < polls)%nat ->
  timer_runs (k_hw s) port n ->
  exists ts cur, 0 <= cur < 2 ^ 32 /\ Forall (timer_reading port) ts /\
    calibrate_timer polls madt s = Done tt (emits (calibration (hhdmoffset (k_vmm s)) base ts cur)
      (set_apic (with_lapic_address base (k_apic s)) s)).
Proof.
  intros Hbase Ht Hp Hdev. unfold calibrate_timer.
  rewrite (bind_done _ _ _ _ _ (load32_holds _ _ _ Hbase)).
  unfold apic_set. rewrite bind_modify.
  do 2 rewrite (bind_done _ _ _ _ _ (apic_write_done _ _ _ _)). rewrite emits_app.
  match goal with |- context [(pmt_delay polls 50000 ≫= _) ?x] => set (s1 := x) end.
  assert (timer_at s1 port) as Ht1 by (destruct Ht; split; by apply (holds_frame s)).
  destruct (pmt_delay_done s1 port 50000 n polls Ht1 Hp) as (ts & E & Hts);
    [intros t Hl; by apply Hdev|].
  rewrite (bind_done _ _ _ _ _ E), (bind_done _ _ _ _ _ (apic_write_done _ _ _ _)).
  edestruct (apic_read_done base LAPIC_CURCNT_REG) as (cur & Hcur & Er).
  rewrite (bind_done _ _ _ _ _ Er). exists ts, cur. split; [done|]. split; [done|].
  do 2 rewrite (bind_done _ _ _ _ _ (apic_write_done _ _ _ _)). rewrite apic_write_done.
  assert (u32 (u32 (0xffffffff - cur)) = 0xffffffff - cur) as ->
    by (rewrite (u32_small (_ - _)) by lia; apply u32_small; lia).
  unfold s1. rewrite !emits_app, <- !app_assoc. done.
Qed.

Lemma device_calibration off base port ts cur :
  Forall (timer_reading port) ts -> device (calibration off base ts cur) = calibration off base ts cur.
Proof.
  intros Hts. apply device_id. unfold calibration.
  repeat (apply Forall_app; split); repeat (constructor; [by intros []|]); try constructor.
  eapply Forall_impl; [exact Hts|]. by intros e [v ->] [].
Qed.

Lemma device_mask_writes io ver i n : device (mask_writes io ver i n) = mask_writes io ver i n.
Proof.
  apply device_id. unfold mask_writes. apply Forall_app.
  split; [|repeat (constructor; [by intros []|]); constructor].
  apply Forall_concat, Forall_fmap, Forall_true. intros j.
  repeat (constructor; [by intros []|]). constructor.
Qed.

(** *** [init_apic] *)

Lemma madt_at_fields s cur len rs :
  madt_at s cur len rs -> forall cr, cr ∈ rs -> rec_fields s cr.1 cr.2.
Proof.
  induction 1 as [|cur len r rl rs _ Hf _ _ _ IH]; [by intros cr ?%elem_of_nil|].
  by intros cr [->|Hin]%elem_of_cons; [|apply IH].
Qed.

Lemma madt_at_frame s s' cur len rs :
  k_hw s' = k_hw s -> k_ram s' = k_ram s -> madt_at s cur len rs -> madt_at s' cur len rs.
Proof.
  intros Hhw Hram. induction 1 as [|cur len r rl rs Hty Hf Hrl Hlen _ IH]; [constructor|].
  by apply (madt_cons _ _ _ _ rl); [apply (holds_frame s)|apply (rec_fields_frame s)|
    apply (holds_frame s)|done|].
Qed.

Lemma timer_at_frame s s' port :
  k_hw s' = k_hw s -> k_ram s' = k_ram s -> k_acpi s' = k_acpi s ->
  timer_at s port -> timer_at s' port.
Proof.
  intros Hhw Hram Hac [H1 H2].
  split; rewrite Hac; by apply (holds_frame s).
Qed.

Lemma rec_events_console rs : console_only (concat (rec_events <$> rs)).
Proof.
  induction rs as [|[cur r] rs IH]; [constructor|]. cbn. apply console_only_app; [|done].
  destruct r; try constructor. unfold rec_events. cbn [snd]. case_match; [constructor|].
  destruct (render_typed (parse false (str_codes "apic: Found CPU: {dn}")) [VInt id] [])
    as (ev & E & Hev); [done|].
  change (format_events "apic: Found CPU: {dn}" [VInt id] = Some ev) in E. by rewrite E.
Qed.

(** What [init_apic] relies on: a MADT with the records [rs], the local APIC's
    address [base] in it, a running ACPI timer, an I/O APIC with version register
    [ver], and a keyboard controller that answers. *)
Record apic_ready (s : kstate) (madt base port : Z) (rs : list (Z * madt_rec)) (ver : Z)
    (n : nat) : Prop := {
  ar_records : exists len, holds s (madt ⊕ 4) 4 len /\ 44 <= len < 2 ^ 31 /\
    madt_at s (madt ⊕ 44) (len - 44) rs;
  ar_count : (length (omap rec_entry rs) <= 64)%nat;
  ar_ics : ics_array (k_apic s) = ics_list [];
  ar_base : holds s (madt ⊕ madt_lapicaddr) 4 base;
  ar_timer : timer_at s port;
  ar_runs : timer_runs (k_hw s) port n;
  ar_version : forall t, hw_dev (k_hw s) t
    (RMmio (last_ioapic rs (ioapic_address (k_apic s)) ⊕ 16)) = ver;
  ar_pins : max_redirection ver <= 112;
  ar_gsi : 0 <= default 1 (first_override 1 rs) < 112;
  ar_keyboard : forall t, (length (k_trace s) + 2 * n < length t)%nat ->
    status_busy (u8 (hw_dev (k_hw s) t (RInb 0x64))) = false;
}.

(** The APIC globals it leaves. *)
Definition apic_final (s : kstate) (base : Z) (rs : list (Z * madt_rec)) : apic_globals :=
  with_lapic_address base (with_lapic_addr base (scanned rs [] (k_apic s))).

Lemma max_redirection_nonneg ver : 0 <= max_redirection ver.
Proof. unfold max_redirection. rewrite Z.land_nonneg. by right. Qed.

Lemma ps2_int_init_done s rs n polls :
  ics_array (k_apic s) = ics_list (omap rec_entry rs) ->
  (length (omap rec_entry rs) <= 64)%nat ->
  (forall cr, cr ∈ rs -> rec_fields s cr.1 cr.2) ->
  let gsi := default 1 (first_override 1 rs) in
  0 <= gsi < 112 -> (n < polls)%nat ->
  (forall t, (length (k_trace s) + 2 * n < length t)%nat ->
     status_busy (u8 (hw_dev (k_hw s) t (RInb 0x64))) = false) ->
  exists ds data es, drained ds /\
    device es = controller_start ds data ++
      entry_writes (ioapic_address (k_apic s)) gsi 0 ++
      entry_writes (ioapic_address (k_apic s)) gsi 33 /\
    ps2_int_init polls s = Done tt (emits es s).
Proof.
  intros Hics Hcount Hf gsi Hg Hp Hdev. unfold ps2_int_init.
  rewrite (bind_done _ _ _ _ _ (log_info_done _ _)). set (e0 := log_line _ _ _).
  destruct (find_gsi_done (emits e0 s) rs 1) as (e1 & H1 & E1); [done|done| |].
  { intros cr Hcr. by apply (rec_fields_frame s), Hf. }
  rewrite (bind_done _ _ _ _ _ E1), emits_app.
  destruct (ps2_init_done n (emits (e0 ++ e1) s) polls Hp) as (ds & data & e2 & Hds & _ & H2 & E2).
  { intros t Ht. apply Hdev. cbn in Ht. rewrite length_app in Ht. lia. }
  rewrite (bind_done _ _ _ _ _ E2), emits_app. unfold apic_get. rewrite bind_gets.
  fold gsi. do 2 rewrite (bind_done _ _ _ _ _ (ioapic_configure_entry_done _ gsi _ _ Hg)).
  destruct (printf_typed_done "ps2: configured IOAPIC redirection entry{n}" [] eq_refl)
    as (e3 & H3 & E3).
  rewrite (bind_done _ _ _ _ _ (E3 _)), log_success_done, !emits_app.
  exists ds, data. eexists. split; [done|]. split; [|reflexivity].
  rewrite !device_app, H2, (device_console e0), (device_console e1), (device_console e3),
    (device_console (log_line _ _ _)) by (done || apply log_line_console).
  rewrite app_nil_r. by rewrite <- app_assoc.
Qed.

(** What [init_apic_off] and [init_apic] do, console output apart. *)
Definition apic_off (off base io ver sp : Z) (ts : list event) (cur : Z) : list event :=
  [EvAsm Cli; EvMmioRead (base ⊕ LAPIC_SIVR_REG) sp;
   EvMmioWrite 32 (lapic_reg off base LAPIC_SIVR_REG) (u32 (Z.lor sp 0x100))] ++
  calibration off base ts cur ++ mask_writes io ver 0 (Z.to_nat (max_redirection ver)) ++
  [EvAsm Sti].

Definition apic_start (off base io gsi ver : Z) (sp : Z) (ts : list event) (cur : Z)
    (ds : list (Z * Z)) (data : Z) : list event :=
  apic_off off base io ver sp ts cur ++
  controller_start ds data ++ entry_writes io gsi 0 ++ entry_writes io gsi 33.

(** A run of [init_apic_off] from [s], to [s']. *)
Definition apic_stopped (s : kstate) (base port : Z) (rs : list (Z * madt_rec)) (ver : Z)
    (sp : Z) (ts : list event) (cur : Z) (s' : kstate) : Prop :=
  exists es, s' = emits es (set_apic (apic_final s base rs) s) /\
    device es = apic_off (hhdmoffset (k_vmm s)) base (last_ioapic rs (ioapic_address (k_apic s)))
      ver sp ts cur /\
    0 <= cur < 2 ^ 32 /\ Forall (timer_reading port) ts.

(** A run of [init_apic] from [s], to [s']. *)
Definition apic_started (s : kstate) (base port : Z) (rs : list (Z * madt_rec)) (ver : Z)
    (s' : kstate) : Prop :=
  exists es sp ts cur ds data,
    s' = emits es (set_apic (apic_final s base rs) s) /\
    device es = apic_start (hhdmoffset (k_vmm s)) base (last_ioapic rs (ioapic_address (k_apic s)))
      (default 1 (first_override 1 rs)) ver sp ts cur ds data /\
    0 <= cur < 2 ^ 32 /\ Forall (timer_reading port) ts /\ drained ds.

Lemma emits_set_apic es g s : emits es (set_apic g s) = set_apic g (emits es s).
Proof. done. Qed.

Lemma set_apic_twice g g' s : set_apic g (set_apic g' s) = set_apic g s.
Proof. done. Qed.

Lemma init_apic_off_done s madt base port rs ver n polls :
  apic_ready s madt base port rs ver n -> (n < polls)%nat ->
  max_redirection ver <= Z.of_nat polls ->
  exists s' sp ts cur, init_apic_off polls madt s = Done tt s' /\
    apic_stopped s base port rs ver sp ts cur s'.
Proof.
  intros [(len & Hlen & Hr & Hrs) Hcount Hics Hbase Htm Hruns Hver Hpins Hgsi Hkb] Hp Hpp.
  pose proof (max_redirection_nonneg ver) as Hm.
  unfold init_apic_off. rewrite bind_asm.
  rewrite (bind_done _ _ _ _ _ (get_madt_tables_done (emits [EvAsm Cli] s) madt len rs
    ltac:(by apply (holds_frame s)) Hr ltac:(by apply (madt_at_frame s)) Hcount Hics)).
  pose proof (rec_events_console rs) as H0. set (e0 := concat (rec_events <$> rs)) in *.
  destruct (printf_typed_done "apic: MADT tables listed through{n}" [] eq_refl) as (e1 & H1 & E1).
  destruct (printf_typed_done "apic: writing to SIV register{n}" [] eq_refl) as (e2 & H2 & E2).
  rewrite (bind_done _ _ _ _ _ (E1 _)), (bind_done _ _ _ _ _ (E2 _)).
  erewrite bind_done by (apply load32_holds; apply (holds_frame s); [done|done|exact Hbase]).
  unfold apic_set at 1. rewrite bind_modify.
  match goal with |- exists _ _ _ _, (apic_read _ _ ≫= _) ?x = _ /\ _ => set (s1 := x) end.
  destruct (apic_read_done base LAPIC_SIVR_REG s1) as (sp & _ & Esp).
  rewrite (bind_done _ _ _ _ _ Esp).
  destruct (printf_typed_done "madt lapic adr: 0x{xn}" [VInt base] eq_refl) as (e3 & H3 & E3).
  rewrite (bind_done _ _ _ _ _ (E3 _)), (bind_done _ _ _ _ _ (apic_write_done _ _ _ _)).
  rewrite (bind_done _ _ _ _ _ (log_success_done _ _)). set (e4 := log_line _ _ _).
  match goal with |- exists _ _ _ _, (calibrate_timer _ _ ≫= _) ?x = _ /\ _ => set (s2 := x) end.
  destruct (calibrate_timer_done s2 madt base port n polls) as (ts & cur & Hcur & Hts & E5);
    [by apply (holds_frame s)|by apply (timer_at_frame s)|done|done|].
  rewrite (bind_done _ _ _ _ _ E5).
  set (io := last_ioapic rs (ioapic_address (k_apic s))) in *.
  erewrite bind_done by (apply (ioapic_mask_done ver io (Z.to_nat (max_redirection ver)));
    [done|done|lia|done|lia|done]).
  eexists _, sp, ts, cur. split; [apply emit_done|]. eexists. split; [|split; [|done]].
  - unfold s2, s1. rewrite !emits_set_apic, !set_apic_twice, !emits_app. reflexivity.
  - fold (mask_writes io ver 0 (Z.to_nat (max_redirection ver))). rewrite !device_app.
    rewrite (device_console e0), (device_console e1), (device_console e2), (device_console e3),
      (device_console e4) by (done || apply log_line_console).
    rewrite (device_calibration _ _ port), device_mask_writes by done. reflexivity.
Qed.

(** Nothing of it has to do with the keyboard's controller. *)
Lemma test_readings b port ts : Forall (timer_reading port) ts -> foldl test_step b ts = b.
Proof. induction 1 as [|e ts [v ->] _ IH]; [done|exact IH]. Qed.

Lemma test_mask_writes b io ver n : forall i, foldl test_step b (mask_writes io ver i n) = b.
Proof.
  unfold mask_writes. induction n as [|n IH]; intros i; [done|].
  cbn [zrange fmap list_fmap concat]. rewrite <- app_assoc, foldl_app. apply IH.
Qed.

Lemma test_apic_off b off base io ver sp port ts cur :
  Forall (timer_reading port) ts -> foldl test_step b (apic_off off base io ver sp ts cur) = b.
Proof.
  intros Hts. unfold apic_off, calibration. rewrite !foldl_app, test_mask_writes.
  cbn [foldl]. by rewrite (test_readings _ port).
Qed.

(** What the keyboard's part relies on: the entries of the MADT's records. *)
Record pins_known (s : kstate) (rs : list (Z * madt_rec)) : Prop := {
  pk_ics : ics_array (k_apic s) = ics_list (omap rec_entry rs);
  pk_count : (length (omap rec_entry rs) <= 64)%nat;
  pk_fields : forall cr, cr ∈ rs -> rec_fields s cr.1 cr.2;
  pk_gsi : 0 <= default 1 (first_override 1 rs) < 112;
}.

Lemma apic_stopped_pins s madt base port rs ver n sp ts cur s1 :
  apic_ready s madt base port rs ver n -> apic_stopped s base port rs ver sp ts cur s1 ->
  pins_known s1 rs.
Proof.
  intros [(len & Hlen & Hr & Hrs) Hcount Hics Hbase Htm Hruns Hver Hpins Hgsi Hkb] (es & -> & _).
  split; [done|done| |done]. intros cr Hcr.
  apply (rec_fields_frame s); [done|done|]. by eapply madt_at_fields.
Qed.

(** The keyboard's part, after that. *)
Lemma ps2_int_init_after s madt base port rs ver n polls sp ts cur s1 :
  apic_ready s madt base port rs ver n -> (n < polls)%nat ->
  apic_stopped s base port rs ver sp ts cur s1 ->
  exists ds data es, drained ds /\
    device es = controller_start ds data ++
      entry_writes (last_ioapic rs (ioapic_address (k_apic s))) (default 1 (first_override 1 rs)) 0 ++
      entry_writes (last_ioapic rs (ioapic_address (k_apic s))) (default 1 (first_override 1 rs)) 33 /\
    (ps2_int_init polls ;; log_success "IOAPIC initalized") s1 = Done tt (emits es s1).
Proof.
  intros [(len & Hlen & Hr & Hrs) Hcount Hics Hbase Htm Hruns Hver Hpins Hgsi Hkb] Hp
    (es & -> & Hdev & _).
  destruct (ps2_int_init_done (emits es (set_apic (apic_final s base rs) s)) rs n polls)
    as (ds & data & e6 & Hds & H6 & E6); [done|done| |done|done| |].
  { intros cr Hcr. apply (rec_fields_frame s); [done|done|]. by eapply madt_at_fields. }
  { intros t Ht. apply Hkb. cbn in Ht. rewrite length_app in Ht. lia. }
  rewrite (bind_done _ _ _ _ _ E6), log_success_done, emits_app.
  exists ds, data. eexists. split; [done|]. split; [|reflexivity].
  by rewrite device_app, H6, (device_console (log_line _ _ _)), app_nil_r by apply log_line_console.
Qed.

Lemma init_apic_done s madt base port rs ver n polls :
  apic_ready s madt base port rs ver n -> (n < polls)%nat ->
  max_redirection ver <= Z.of_nat polls ->
  exists s', init_apic polls madt s = Done tt s' /\ apic_started s base port rs ver s'.
Proof.
  intros Hready Hp Hpp.
  destruct (init_apic_off_done s madt base port rs ver n polls Hready Hp Hpp)
    as (s1 & sp & ts & cur & E1 & H1).
  destruct (ps2_int_init_after s madt base port rs ver n polls sp ts cur s1 Hready Hp H1)
    as (ds & data & e2 & Hds & H2 & E2).
  unfold init_apic. rewrite (bind_done _ _ _ _ _ E1), E2.
  destruct H1 as (e1 & -> & Hd1 & Hcur & Hts). eexists. split; [reflexivity|].
  exists (e1 ++ e2), sp, ts, cur, ds, data. rewrite emits_app, device_app, Hd1, H2. by do 4 (split; [done|]).
Qed.

(** *** The writes to the local APIC *)

Lemma lapic_reg_eqb off base r r' :
  0 <= r < 4096 -> 0 <= r' < 4096 -> (lapic_reg off base r =? lapic_reg off base r') = (r =? r').
Proof.
  intros Hr Hr'. destruct (Z.eqb_spec r r') as [->|Hn]; [apply Z.eqb_refl|].
  apply Z.eqb_neq. unfold lapic_reg, u64. intros E. apply Hn.
  rewrite !Zplus_mod_idemp_l in E.
  assert ((r - r') mod 2 ^ 64 = 0) as Hd.
  { replace (r - r') with ((base + r + off) - (base + r' + off)) by lia.
    by rewrite Zminus_mod, E, Z.sub_diag. }
  apply Z.mod_divide in Hd as [k Hk]; [|lia]. nia.
Qed.

Lemma writes_to_left a t : leaves a t -> writes_to a t = [].
Proof.
  induction 1 as [|e t He _ IH]; [done|]. unfold writes_to in *. destruct e; try done.
  cbn. by rewrite (proj2 (Z.eqb_neq _ _) He).
Qed.

Lemma entry_writes_left a io i v : a <> io -> a <> io ⊕ 16 -> leaves a (entry_writes io i v).
Proof. intros H1 H2. repeat (constructor; [by apply not_eq_sym|]). constructor. Qed.

Lemma mask_writes_left a io ver i n : a <> io -> a <> io ⊕ 16 -> leaves a (mask_writes io ver i n).
Proof.
  intros H1 H2. apply Forall_app.
  assert (leaves a (version_read io ver)) as Hv
    by (constructor; [by apply not_eq_sym|by repeat constructor]).
  split; [|done]. apply Forall_concat, Forall_fmap, Forall_true. intros j.
  apply Forall_app. split; [done|by apply entry_writes_left].
Qed.

Lemma drain_left a rs : leaves a (rs ≫= drain).
Proof. induction rs as [|r rs IH]; [constructor|]. by repeat constructor. Qed.

Lemma controller_start_left a rs data : leaves a (controller_start rs data).
Proof.
  apply Forall_app. split; [by repeat constructor|]. apply Forall_app.
  split; [apply drain_left|by repeat constructor].
Qed.

Lemma readings_left a port ts : Forall (timer_reading port) ts -> leaves a ts.
Proof. intros Hts. eapply Forall_impl; [exact Hts|]. by intros e [v ->]. Qed.

(** The writes to a register of the local APIC during [init_apic]. *)
Lemma apic_start_writes off base io gsi ver sp ts cur ds data port r :
  apart off base io -> Forall (timer_reading port) ts -> 0 <= r < 4096 ->
  writes_to (lapic_reg off base r) (apic_start off base io gsi ver sp ts cur ds data) =
    (if r =? LAPIC_SIVR_REG then [u32 (Z.lor sp 0x100)]
     else if r =? LAPIC_TIMERDIV_REG then [3; 0x10000; 3]
     else if r =? LAPIC_INITCNT_REG then [0xFFFFFFFF; 0xFFFFFFFF - cur]
     else if r =? LAPIC_LVTTIMER_REG then [Z.lor 172 LAPIC_PERIODIC]
     else []).
Proof.
  intros Hap Hts Hr. destruct (Hap r Hr) as [Hio Hwin]. set (a := lapic_reg off base r) in *.
  unfold apic_start, apic_off, calibration. rewrite !writes_to_app.
  rewrite (writes_to_left a ts) by by eapply readings_left.
  rewrite (writes_to_left a (mask_writes _ _ _ _)) by by apply mask_writes_left.
  rewrite (writes_to_left a (controller_start _ _)) by apply controller_start_left.
  rewrite !(writes_to_left a (entry_writes _ _ _)) by by apply entry_writes_left.
  unfold writes_to, a. cbn [omap list_omap app].
  rewrite !lapic_reg_eqb by (done || lia).
  rewrite !(Z.eqb_sym _ r). unfold LAPIC_SIVR_REG, LAPIC_TIMERDIV_REG, LAPIC_INITCNT_REG,
    LAPIC_LVTTIMER_REG.
  destruct (Z.eqb_spec r 0xF0) as [->|]; [done|].
  destruct (Z.eqb_spec r 0x3E0) as [->|]; [done|].
  destruct (Z.eqb_spec r 0x380) as [->|]; [done|].
  destruct (Z.eqb_spec r 0x320) as [->|]; done.
Qed.

(** *** The redirection table *)

(** What comes before the I/O APIC is touched. *)
Lemma lapic_start_left off base ts cur sp port a :
  (forall r, 0 <= r < 4096 -> lapic_reg off base r <> a) -> Forall (timer_reading port) ts ->
  leaves a ([EvAsm Cli; EvMmioRead (base ⊕ LAPIC_SIVR_REG) sp;
    EvMmioWrite 32 (lapic_reg off base LAPIC_SIVR_REG) (u32 (Z.lor sp 0x100))] ++
    calibration off base ts cur).
Proof.
  intros Ha Hts. unfold calibration.
  repeat (apply Forall_app; split); try by eapply readings_left.
  all: repeat (constructor; [first [done|by apply Ha]|]); constructor.
Qed.

Lemma apic_start_redirects off base io gsi ver sp ts cur ds data port d pin :
  apart off base io -> Forall (timer_reading port) ts ->
  redirection (ioapic_after io d (apic_start off base io gsi ver sp ts cur ds data)) pin =
    (if decide (pin = gsi) then (Some 33, Some 0)
     else if decide (0 <= pin < max_redirection ver) then (Some 0x10000, Some 0)
     else redirection d pin).
Proof.
  intros Hap Hts. pose proof (max_redirection_nonneg ver).
  unfold apic_start, apic_off. rewrite <- !app_assoc, app_assoc, ioapic_after_app.
  rewrite (ioapic_left io d) by (eapply lapic_start_left; [|done]; intros; by apply Hap).
  rewrite !ioapic_after_app.
  rewrite !redirection_entry. case_decide; [done|].
  rewrite !(ioapic_left io _ (controller_start _ _)) by apply controller_start_left.
  rewrite (ioapic_left io _ [EvAsm Sti]) by (by repeat constructor).
  rewrite redirection_masked, Z2Nat.id, Z.add_0_l by done. done.
Qed.

(** Interrupts are off from the first event to the last. *)
Lemma apic_off_between off base io ver sp ts cur port :
  Forall (timer_reading port) ts ->
  exists es, apic_off off base io ver sp ts cur = [EvAsm Cli] ++ es ++ [EvAsm Sti] /\ instrs es = [].
Proof.
  intros Hts. exists ([EvMmioRead (base ⊕ LAPIC_SIVR_REG) sp;
      EvMmioWrite 32 (lapic_reg off base LAPIC_SIVR_REG) (u32 (Z.lor sp 0x100))] ++
    calibration off base ts cur ++ mask_writes io ver 0 (Z.to_nat (max_redirection ver))).
  split; [unfold apic_off; cbn [app]; by rewrite <- !app_assoc|].
  unfold calibration. rewrite !instrs_app.
  assert (instrs ts = []) as ->.
  { induction Hts as [|e t [v ->] _ IH]; [done|exact IH]. }
  assert (instrs (mask_writes io ver 0 (Z.to_nat (max_redirection ver))) = []) as ->; [|done].
  unfold mask_writes. rewrite instrs_app. generalize 0.
  induction (Z.to_nat (max_redirection ver)) as [|k IH]; intros i; [done|].
  cbn [zrange fmap list_fmap concat]. rewrite instrs_app. by rewrite <- app_assoc, IH.
Qed.

Lemma apic_start_instrs off base io gsi ver sp ts cur ds data port :
  Forall (timer_reading port) ts ->
  instrs (apic_start off base io gsi ver sp ts cur ds data) = [Cli; Sti].
Proof.
  intros Hts. unfold apic_start.
  destruct (apic_off_between off base io ver sp ts cur port Hts) as (es & -> & Hes).
  unfold controller_start. rewrite !instrs_app, Hes.
  assert (instrs (ds ≫= drain) = []) as ->
    by (induction ds as [|r ds IH]; [done|exact IH]).
  done.
Qed.

(** *** [init_acpi] *)

Lemma apic_ready_emits s es madt base port rs ver n :
  apic_ready s madt base port rs ver n -> apic_ready (emits es s) madt base port rs ver n.
Proof.
  intros [(len & Hlen & Hr & Hrs) ? ? Hbase Htm ? ? ? ? Hkb].
  split; [|done|done|by apply (holds_frame s)|by apply (timer_at_frame s)|done..|].
  - exists len. split; [by apply (holds_frame s)|]. split; [done|by apply (madt_at_frame s)].
  - intros t Ht. apply Hkb. cbn in Ht. rewrite length_app in Ht. lia.
Qed.

(** A root table's address, NULL when the root pointer holds none. *)
Definition root_address (a off : Z) : Z := if a =? 0 then 0 else a ⊕ off.

(** The bootloader's root pointer is at [rsdp] and leads to the tables with the
    given addresses and signatures. *)
Record acpi_tables (s : kstate) (rsdp r x : Z) (headers : list (Z * list Z)) : Prop := {
  at_response : exists resp, rsdp_request_response (k_boot s) = Some resp /\ rr_address resp = rsdp;
  at_rsdt : holds s (rsdp ⊕ rsdp_rsdtaddress) 4 r;
  at_xsdt : holds s (rsdp ⊕ rsdp_xsdtaddress) 8 x;
  at_root : root_lists s (root_address r (hhdmoffset (k_vmm s)))
    (root_address x (hhdmoffset (k_vmm s))) (fst <$> headers);
  at_headers : forall h, h ∈ headers -> length h.2 = 4%nat /\ signed s h.1 h.2;
  at_nonnull : forall h, h ∈ headers -> h.1 <> 0;
  at_small : Z.of_nat (length headers) < 2 ^ 28;
}.

(** The globals of acpi.c once the tables are found. *)
Definition acpi_found (s : kstate) (r x : Z) (headers : list (Z * list Z)) : acpi_globals :=
  AcpiGlobals (root_address r (hhdmoffset (k_vmm s))) (root_address x (hhdmoffset (k_vmm s)))
    (first_signed (codes "FACP") headers) (first_signed (codes "APIC") headers).

Lemma parse_rsdt_done s off rsdp r :
  holds s (rsdp ⊕ rsdp_rsdtaddress) 4 r -> parse_rsdt off rsdp s = Done (root_address r off) s.
Proof.
  intros H. unfold parse_rsdt, root_address. rewrite (bind_done _ _ _ _ _ (load32_holds _ _ _ H)).
  destruct (r =? 0); [done|]. by rewrite (bind_done _ _ _ _ _ (load32_holds _ _ _ H)).
Qed.

Lemma parse_xsdt_done s off rsdp x :
  holds s (rsdp ⊕ rsdp_xsdtaddress) 8 x -> parse_xsdt off rsdp s = Done (root_address x off) s.
Proof.
  intros H. unfold parse_xsdt, root_address. rewrite (bind_done _ _ _ _ _ (load64_holds _ _ _ H)).
  destruct (x =? 0); [done|]. by rewrite (bind_done _ _ _ _ _ (load64_holds _ _ _ H)).
Qed.

(** The search does not depend on what is printed or found before it. *)
Lemma find_acpi_table_later s s' rsdp r x headers sig :
  acpi_tables s rsdp r x headers -> k_hw s' = k_hw s -> k_ram s' = k_ram s ->
  length (codes sig) = 4%nat ->
  exists es, console_only es /\
    find_acpi_table sig (root_address r (hhdmoffset (k_vmm s)))
      (root_address x (hhdmoffset (k_vmm s))) s' =
      Done (first_signed (codes sig) headers) (emits es s').
Proof.
  intros [_ _ _ Hroot Hh Hnz Hs] Hhw Hram Hsig. apply find_acpi_table_done; try done.
  - by apply (root_lists_frame s).
  - intros h Hin. destruct (Hh h Hin). split; [done|by apply (signed_frame s)].
Qed.

(** How the search for the tables ends: it panics without a MADT or a FADT. *)
Lemma init_acpi_tables_done s rsdp r x headers :
  acpi_tables s rsdp r x headers ->
  let g := acpi_found s r x headers in
  exists es, console_only es /\
    init_acpi_tables s =
      if madt g =? 0 then
        Halted (emits (es ++ [EvAsm Cli; EvAsm Hlt])
          (set_acpi (AcpiGlobals (rsdt g) (xsdt g) (fadt (k_acpi s)) 0) s))
      else if fadt g =? 0 then Halted (emits (es ++ [EvAsm Cli; EvAsm Hlt]) (set_acpi g s))
      else Done (madt g) (emits es (set_acpi g s)).
Proof.
  intros Ht g. pose proof Ht as [(resp & Hresp & Ha) Hr Hx _ _ _ _].
  unfold init_acpi_tables. rewrite bind_gets, Hresp, bind_ret, Ha. cbn zeta. rewrite bind_gets.
  rewrite (bind_done _ _ _ _ _ (parse_rsdt_done _ _ _ _ Hr)). unfold acpi_set. rewrite bind_modify.
  erewrite bind_done by (apply parse_xsdt_done; apply (holds_frame s); [done|done|exact Hx]).
  rewrite bind_modify.
  match goal with |- exists es, _ /\ (find_acpi_table _ _ _ ≫= _) ?st = _ => set (s1 := st) end.
  destruct (find_acpi_table_later s s1 rsdp r x headers "APIC") as (e1 & H1 & E1);
    [done|done|done|done|].
  rewrite (bind_done _ _ _ _ _ E1), bind_modify. fold (madt g).
  change (first_signed (codes "APIC") headers) with (madt g).
  destruct (Z.eqb_spec (madt g) 0) as [Em|Em].
  { rewrite Em. exists (e1 ++ log_line ANSI_COLOR_RED "kern_panic: " "MADT table not found, hanging").
    split; [apply console_only_app; [done|apply log_line_console]|].
    erewrite bind_halted by apply log_panic_halts. by rewrite <- app_assoc, <- (emits_app e1). }
  rewrite bind_ret.
  match goal with |- exists es, _ /\ (find_acpi_table _ _ _ ≫= _) ?st = _ => set (s2 := st) end.
  destruct (find_acpi_table_later s s2 rsdp r x headers "FACP") as (e2 & H2 & E2);
    [done|done|done|done|].
  rewrite (bind_done _ _ _ _ _ E2), bind_modify.
  change (first_signed (codes "FACP") headers) with (fadt g).
  destruct (Z.eqb_spec (fadt g) 0) as [Ef|Ef].
  - exists (e1 ++ e2 ++ log_line ANSI_COLOR_RED "kern_panic: " "FADT table not found, hanging").
    split; [repeat apply console_only_app; by try apply log_line_console|].
    erewrite bind_halted by apply log_panic_halts.
    by rewrite <- !app_assoc, <- (emits_app e1), <- (emits_app e2).
  - exists (e1 ++ e2). split; [by apply console_only_app|].
    by rewrite bind_ret, <- (emits_app e1).
Qed.

(** How [init_acpi] ends: it panics with it, and hands the MADT to [init_apic] else. *)
Lemma init_acpi_done s rsdp r x headers polls :
  acpi_tables s rsdp r x headers ->
  let g := acpi_found s r x headers in
  exists es, console_only es /\
    init_acpi polls s =
      if madt g =? 0 then
        Halted (emits (es ++ [EvAsm Cli; EvAsm Hlt])
          (set_acpi (AcpiGlobals (rsdt g) (xsdt g) (fadt (k_acpi s)) 0) s))
      else if fadt g =? 0 then Halted (emits (es ++ [EvAsm Cli; EvAsm Hlt]) (set_acpi g s))
      else init_apic polls (madt g) (emits es (set_acpi g s)).
Proof.
  intros Ht g. destruct (init_acpi_tables_done s rsdp r x headers Ht) as (es & Hes & E).
  fold g in E. exists es. split; [done|]. unfold init_acpi.
  destruct (madt g =? 0); [|destruct (fadt g =? 0)];
    [by apply bind_halted..|by apply (bind_done _ _ _ _ _ E)].
Qed.

(** *** [init_apic_ap] *)

(** What it does on the processor it runs on. *)
Definition apic_ap_start (off lapic base sp : Z) (ts : list event) (cur : Z) : list event :=
  [EvMmioRead (lapic ⊕ LAPIC_SIVR_REG) sp;
   EvMmioWrite 32 (lapic_reg off lapic LAPIC_SIVR_REG) (u32 (Z.lor sp 0x100))] ++
  calibration off base ts cur.

Lemma init_apic_ap_done s base port n polls :
  holds s (madt (k_acpi s) ⊕ madt_lapicaddr) 4 base -> timer_at s port ->
  (n < polls)%nat -> timer_runs (k_hw s) port n ->
  exists sp ts cur, 0 <= cur < 2 ^ 32 /\ Forall (timer_reading port) ts /\
    init_apic_ap polls s = Done tt
      (emits (apic_ap_start (hhdmoffset (k_vmm s)) (lapic_addr (k_apic s)) base sp ts cur)
        (set_apic (with_lapic_address base (k_apic s)) s)).
Proof.
  intros Hbase Ht Hp Hruns. unfold init_apic_ap, apic_get, acpi_get. rewrite bind_gets.
  destruct (apic_read_done (lapic_addr (k_apic s)) LAPIC_SIVR_REG s) as (sp & _ & E).
  rewrite (bind_done _ _ _ _ _ E), (bind_done _ _ _ _ _ (apic_write_done _ _ _ _)), bind_gets.
  rewrite emits_app. set (s1 := emits _ s).
  destruct (calibrate_timer_done s1 (madt (k_acpi s)) base port n polls) as (ts & cur & Hc & Hts & Ec);
    [by apply (holds_frame s)|by apply (timer_at_frame s)|done|done|].
  exists sp, ts, cur. split; [done|]. split; [done|].
  etransitivity; [exact Ec|]. unfold s1. by rewrite <- emits_set_apic, emits_app.
Qed.

Lemma device_apic_ap_start off lapic base sp ts cur port :
  Forall (timer_reading port) ts ->
  device (apic_ap_start off lapic base sp ts cur) = apic_ap_start off lapic base sp ts cur.
Proof.
  intros Hts. unfold apic_ap_start. by rewrite device_app, (device_calibration _ _ port).
Qed.

(** ** Properties *)


(** The sample machine for the witness: the MADT of Apic.v with the local APIC
    at 0xfee00000, the FADT of Acpi.v, a timer of 100000 ticks per event, an I/O
    APIC with 24 entries and a keyboard controller that is never busy and passes its
    test. *)
Definition sample_devices (t : list event) (r : devreq) : Z :=
  match r with
  | RInl _ => 100000 * Z.of_nat (length t)
  | RMmio _ => 0x170011
  | RInb p => if (p =? PS2_DATA_PORT) && testing t then 0x55 else 0
  | _ => 0
  end.

Definition sample_tables : gmap Z byte :=
  ram_write 0x504c (to_byte <$> [8; 6; 0; 0]) (ram_write 0x505b [to_byte 4]
    (ram_write 0x3024 (to_byte <$> [0; 0; 0xe0; 0xfe]) (ram_write 0x3000 sample_madt_bytes ∅))).

Definition sample_apic : kstate :=
  set_acpi (AcpiGlobals 0 0 0x5000 0x3000) (start_state sample_tables
    (Hardware 0x10000 0xffff800000000000 sample_devices (fun _ => 0%nat)) sample_boot sample_link).

(** [holds] at an identity-mapped address, by computation. *)
Ltac identity_holds :=
  cbn [rec_fields];
  lazymatch goal with
  | |- holds _ ?va _ _ => let p := eval vm_compute in va in exists p
  end; split; [apply mapped_identity; by vm_compute|by vm_compute].

Lemma sample_devices_run hw port : hw_dev hw = sample_devices -> timer_runs hw port 2.
Proof.
  intros Hd t0 t Ht. rewrite Hd. cbn [sample_devices]. rewrite Ht.
  change (50000 ⊗ PMT_TIMER_RATE / 1000000) with 178977. unfold elapsed.
  change 0xffffff with (Z.ones 24). rewrite Z.land_ones by lia.
  replace (100000 * Z.of_nat (length t0 + 1 + 2)) with (100000 * Z.of_nat (length t0) + 300000) by lia.
  generalize (100000 * Z.of_nat (length t0)). intros a. unfold u64, u32.
  rewrite Z.mod_mod_divide by (by exists (2 ^ 40)). rewrite Zminus_mod.
  rewrite !Z.mod_mod_divide by (by exists (2 ^ 8)). rewrite <- Zminus_mod.
  replace (a + 300000 - a) with 300000 by lia. by vm_compute.
Qed.

Lemma sample_apic_ready : apic_ready sample_apic 0x3000 0xfee00000 0x608 sample_records 0x170011 2.
Proof.
  split; try done.
  - exists 74. split; [identity_holds|]. split; [done|].
    apply (madt_cons _ _ 30 _ 8); [identity_holds|split; identity_holds|identity_holds|lia|].
    apply (madt_cons _ _ 22 _ 12); [identity_holds|identity_holds|identity_holds|lia|].
    apply (madt_cons _ _ 10 _ 10); [identity_holds|split; identity_holds|identity_holds|lia|].
    apply madt_end.
  - cbn. lia.
  - identity_holds.
  - split; identity_holds.
  - by apply sample_devices_run.
Qed.

Lemma sample_apart : apart 0 0xfee00000 0xfec00000.
Proof.
  intros r Hr. unfold lapic_reg. rewrite Z.add_0_r, !(u64_small (_ + r)) by lia.
  change (0xfec00000 ⊕ 16) with 0xfec00010. lia.
Qed.


(** C24: [init_acpi] searches the root table the bootloader's pointer leads to, the
    XSDT when its address is not zero, for the MADT and then the FADT; it panics
    when one is missing, with interrupts off and nothing done to the devices, and
    else records them and hands the MADT to [init_apic]. *)
Theorem init_acpi_outcomes (s : kstate) (rsdp r x : Z) (headers : list (Z * list Z)) (polls : nat)
    (Ht : acpi_tables s rsdp r x headers) :
  let g := acpi_found s r x headers in
  exists es, console_only es /\
    init_acpi polls s =
      if madt g =? 0 then
        Halted (emits (es ++ [EvAsm Cli; EvAsm Hlt])
          (set_acpi (AcpiGlobals (rsdt g) (xsdt g) (fadt (k_acpi s)) 0) s))
      else if fadt g =? 0 then Halted (emits (es ++ [EvAsm Cli; EvAsm Hlt]) (set_acpi g s))
      else init_apic polls (madt g) (emits es (set_acpi g s)).
Proof. exact (init_acpi_done s rsdp r x headers polls Ht). Qed.

(** The sample machine of Acpi.v, with a root pointer at 0x2000 to its RSDT. *)
Definition sample_rsdp : kstate :=
  set_ram (ram_write 0x2010 (to_byte <$> [0; 0x30; 0; 0]) (k_ram sample_acpi))
    (start_state ∅ sample_hw (BootInfo None None None (Some (RsdpResponse 0 0x2000)) None None)
      sample_link).

Lemma sample_rsdp_tables :
  acpi_tables sample_rsdp 0x2000 0x3000 0 [(0x4000, codes "FACP"); (0x4100, codes "APIC")].
Proof.
  split; try done.
  - by eexists.
  - identity_holds.
  - identity_holds.
  - split; [identity_holds|]. intros [|[|i]] p Hp; try done; injection Hp as <-; identity_holds.
  - intros h [->|[->|[]%elem_of_nil]%elem_of_cons]%elem_of_cons; (split; [done|]);
      intros [|[|[|[|i]]]] c Hc; try done; injection Hc as <-; identity_holds.
  - intros h [->|[->|[]%elem_of_nil]%elem_of_cons]%elem_of_cons; done.
Qed.

Lemma init_acpi_outcomes_witness :
  let g := acpi_found sample_rsdp 0x3000 0 [(0x4000, codes "FACP"); (0x4100, codes "APIC")] in
  g = AcpiGlobals 0x3000 0 0x4000 0x4100 /\
  exists es, console_only es /\
    init_acpi 5 sample_rsdp =
      if madt g =? 0 then
        Halted (emits (es ++ [EvAsm Cli; EvAsm Hlt])
          (set_acpi (AcpiGlobals (rsdt g) (xsdt g) (fadt (k_acpi sample_rsdp)) 0) sample_rsdp))
      else if fadt g =? 0 then Halted (emits (es ++ [EvAsm Cli; EvAsm Hlt]) (set_acpi g sample_rsdp))
      else init_apic 5 (madt g) (emits es (set_acpi g sample_rsdp)).
Proof.
  intros g. split; [by vm_compute|].
  exact (init_acpi_outcomes sample_rsdp 0x2000 0x3000 0 _ 5 sample_rsdp_tables).
Defined.
