(* ===== verification/Smp.v ===== *)
(** kern/sys/smp/smp.c: starting the other processors, and what each does when it
    starts. *)

From S2P Require Import Prelude Limine Types Machine Memory Sample CString Video Printf Log.
From S2P Require Import AcpiTables Gdt Apic Ps2 Idt Acpi ApicInit Vmm.

(** ** Code *)

(** for (;;) hlt: the processor idles from here on. *)
Definition idle {A} : M A := asm Hlt ;; halt.

Definition ap_trampoline (polls : nat) (smp_info : limine_smp_info) : M unit :=
  if si_lapic_id smp_info =? 0 then mret tt
  else
    asm Cli ;;
    gdt_init ;;
    idt_load ;;
    pml4 ← vmm_get kernel_page_map;
    vmm_set_ctx pml4 ;;
    asm ReloadCr3 ;;
    init_apic_ap polls ;;
    asm Sti ;;
    printf "smp: cpu {d} started {n}" [VInt (si_processor_id smp_info)] ;;
    idle.

Definition smp_init (polls : nat) : M unit :=
  response ← gets (fun s => smp_request_response (k_boot s));
  r ← match response with
      | None => log_panic "SMP request unfulfilled"
      | Some r => mret r
      end;
  if sr_cpu_count r =? 1 then
    printf "smp: single core processor, skipping smp initalization{n}" [] ;;
    modify (set_state_single_processor true)
  else
    printf "smp: cpu count: {dn}" [VInt (sr_cpu_count r)] ;;
    for_ 0 (sr_cpu_count r) 1 (fun i =>
      apic_sleep polls 2 ;;
      printf "smp: starting cpu {dn}" [VInt i] ;;
      info ← index (sr_cpus r) i;
      target ← gets (fun s => ap_trampoline_addr (k_link s));
      emit (EvSmpGoto (si_processor_id info) target)) ;;
    printf "smp: CPUs started{n}" [] ;;
    mret tt.

(** ** Reference *)

(** The processors a trace starts, in order. *)
Definition started (t : list event) : list (Z * Z) :=
  omap (fun e => match e with EvSmpGoto cpu target => Some (cpu, target) | _ => None end) t.

(** What a processor does from the trampoline on, console output apart: first
    its tables and the address space, ... *)
Definition ap_enter (s : kstate) : list event :=
  [EvAsm Cli; EvAsm (Lgdt 55 (gdt_addr (k_link s))); EvAsm (LoadSegs 0x10 0x08);
   EvAsm (Ltr 0x28); EvAsm (Lidt (ir_limit (idtpr (k_idt s))) (ir_base (idtpr (k_idt s))));
   EvAsm Sti; EvAsm (MovCr3 (kernel_page_map (k_vmm s) ⊖ hhdmoffset (k_vmm s)));
   EvAsm ReloadCr3].

(** ... then its local APIC, with interrupts on and idle afterwards. *)
Definition ap_start (s : kstate) (base sp : Z) (ts : list event) (cur : Z) : list event :=
  ap_enter s ++ apic_ap_start (hhdmoffset (k_vmm s)) (lapic_addr (k_apic s)) base sp ts cur ++
  [EvAsm Sti; EvAsm Hlt].

(** ** Lemmas *)

Lemma started_app t t' : started (t ++ t') = started t ++ started t'.
Proof. apply omap_app. Qed.

Lemma started_console es : console_only es -> started es = [].
Proof. induction 1 as [|e es He _ IH]; [done|]. unfold started in *. cbn. by destruct e. Qed.

Lemma idle_halts {A} s : idle (A := A) s = Halted (emits [EvAsm Hlt] s).
Proof. done. Qed.

(** The trampoline up to its local APIC. *)
Lemma ap_enter_then {A} (rest : M A) s :
  k_gdt s = gdt_final (k_link s) ->
  (asm Cli ;; gdt_init ;; idt_load ;; pml4 ← vmm_get kernel_page_map;
   vmm_set_ctx pml4 ;; asm ReloadCr3 ;; rest) s = rest (emits (ap_enter s) s).
Proof.
  intros Hgdt. rewrite bind_asm.
  rewrite (bind_done _ _ _ _ _ (gdt_init_done (emits [EvAsm Cli] s)
    ltac:(cbn; by rewrite Hgdt) ltac:(cbn; by rewrite Hgdt))).
  change (set_gdt (gdt_final (k_link (emits [EvAsm Cli] s))) (emits [EvAsm Cli] s))
    with (emits [EvAsm Cli] (set_gdt (gdt_final (k_link s)) s)).
  rewrite <- Hgdt, set_gdt_id, emits_app. set (s1 := emits _ s).
  assert (idt_load s1 = Done tt (emits [EvAsm (Lidt (ir_limit (idtpr (k_idt s)))
    (ir_base (idtpr (k_idt s)))); EvAsm Sti] s1)) as Ei.
  { unfold idt_load. rewrite bind_gets, bind_asm. unfold asm. by rewrite emit_done, emits_app. }
  rewrite (bind_done _ _ _ _ _ Ei). unfold vmm_get. rewrite bind_gets.
  assert (forall s pml4, vmm_set_ctx pml4 s =
    Done tt (emits [EvAsm (MovCr3 (pml4 ⊖ hhdmoffset (k_vmm s)))] s)) as Em by done.
  rewrite (bind_done _ _ _ _ _ (Em _ _)), bind_asm. unfold s1. by rewrite !emits_app.
Qed.

Lemma ap_enter_done s polls info :
  si_lapic_id info <> 0 -> k_gdt s = gdt_final (k_link s) ->
  ap_trampoline polls info s =
    (init_apic_ap polls ;; asm Sti ;;
     printf "smp: cpu {d} started {n}" [VInt (si_processor_id info)] ;; idle)
    (emits (ap_enter s) s).
Proof.
  intros Hid Hgdt. unfold ap_trampoline. rewrite (proj2 (Z.eqb_neq _ 0)) by done.
  by apply ap_enter_then.
Qed.

(** What the start of the processors adds to the trace: console output, the polls
    and ends of interrupts of sleeping, and the jumps. *)
Definition smp_event (s : kstate) (e : event) : Prop :=
  console_event e \/ e = EvAsm Nop \/ e = eoi_event s \/
  exists cpu, e = EvSmpGoto cpu (ap_trampoline_addr (k_link s)).

Definition goto (s : kstate) (info : limine_smp_info) : Z * Z :=
  (si_processor_id info, ap_trampoline_addr (k_link s)).

(** Every poll delivers a timer interrupt. *)
Definition ticking (hw : hardware) : Prop :=
  forall t, (0 < hw_irq hw t)%nat /\ Z.of_nat (hw_irq hw t) <= 2 ^ 16.

(** The state with the processors [l] started. *)
Definition smp_progress (s : kstate) (l : list limine_smp_info) (bound : Z) (s' : kstate) : Prop :=
  exists es t, s' = emits es (set_apic (with_ticks t (k_apic s)) s) /\ 0 <= t <= bound /\
    Forall (smp_event s) es /\ started es = goto s <$> l.

Lemma smp_progress_0 s es :
  console_only es -> 0 <= apic_timer_ticks (k_apic s) < 2 ^ 20 ->
  smp_progress s [] (2 ^ 20) (emits es s).
Proof.
  intros Hes Ht. exists es, (apic_timer_ticks (k_apic s)). split; [|split; [lia|split]].
  - by destruct s as [? ? ? ? ? ? ? ? ? ? [] ? ?].
  - eapply Forall_impl; [exact Hes|]. by left.
  - by apply started_console.
Qed.

(** Sleeping before the next one. *)
Lemma smp_progress_sleep s l bound s' polls :
  ticking (k_hw s) -> bound < 2 ^ 31 -> (2 <= polls)%nat -> smp_progress s l bound s' ->
  exists s'', apic_sleep polls 2 s' = Done tt s'' /\
    smp_progress s l (bound + (2 ^ 16 + 2)) s''.
Proof.
  intros Hirq Hb Hp (es & t & -> & Ht & Hes & Hst).
  destruct (apic_sleep_done (emits es (set_apic (with_ticks t (k_apic s)) s)) polls 2)
    as (s'' & t' & E & (es' & Hes' & ->) & Hle & Hge); [exact Hirq|cbn; lia|lia|lia|].
  cbn [k_apic emits set_trace set_apic with_ticks apic_timer_ticks] in *.
  eexists. split; [exact E|]. exists (es ++ es'), t'.
  split; [by rewrite <- emits_app|]. split; [lia|]. split.
  - apply Forall_app. split; [done|]. eapply Forall_impl; [exact Hes'|].
    intros e [->| ->]; unfold smp_event; auto.
  - rewrite started_app, Hst.
    assert (started es' = []) as ->; [|by rewrite app_nil_r]. clear -Hes'.
    induction Hes' as [|e es' He _ IH]; [done|]. unfold started in *. cbn.
    by destruct He as [->| ->].
Qed.

(** Events that start no processor. *)
Lemma smp_progress_console s l bound s' es :
  console_only es -> smp_progress s l bound s' -> smp_progress s l bound (emits es s').
Proof.
  intros Hc (es' & t & -> & Ht & Hes & Hst). exists (es' ++ es), t.
  split; [by rewrite emits_app|]. split; [done|]. split.
  - apply Forall_app. split; [done|]. eapply Forall_impl; [exact Hc|]. by left.
  - by rewrite started_app, Hst, (started_console es), app_nil_r.
Qed.

Lemma smp_progress_goto s l bound s' info :
  smp_progress s l bound s' ->
  smp_progress s (l ++ [info]) bound
    (emits [EvSmpGoto (si_processor_id info) (ap_trampoline_addr (k_link s))] s').
Proof.
  intros (es' & t & -> & Ht & Hes & Hst). eexists (es' ++ [_]), t.
  split; [by rewrite emits_app|]. split; [done|]. split.
  - apply Forall_app. split; [done|]. constructor; [|constructor]. right. right. right. by eexists.
  - by rewrite started_app, Hst, fmap_app.
Qed.

(** [smp_init] with more than one processor. *)
Lemma smp_init_many s r polls :
  smp_request_response (k_boot s) = Some r ->
  sr_cpu_count r = Z.of_nat (length (sr_cpus r)) -> sr_cpu_count r <> 1 ->
  sr_cpu_count r < 2 ^ 14 -> ticking (k_hw s) ->
  0 <= apic_timer_ticks (k_apic s) < 2 ^ 20 -> (2 <= polls)%nat ->
  exists s', smp_init polls s = Done tt s' /\ smp_progress s (sr_cpus r) (2 ^ 31) s'.
Proof.
  intros Hr Hcount Hmany Hsmall Hirq Ht Hp.
  enough (wp (smp_init polls) (fun _ => smp_progress s (sr_cpus r) (2 ^ 31)) never s) as Hw.
  { apply wp_inv_done in Hw as ([] & s' & E & H). eauto. }
  unfold smp_init. wp_steps. rewrite Hr. wp_step. rewrite (proj2 (Z.eqb_neq _ 1)) by done.
  wp_step. apply wp_printf_typed; [reflexivity|]. intros es0 Hes0. wp_step.
  apply wp_for1 with (I := fun i s' =>
    smp_progress s (take (Z.to_nat i) (sr_cpus r)) (2 ^ 20 + i * (2 ^ 16 + 2)) s'); try lia.
  - intros i s1 Hi Hs1. wp_step.
    destruct (smp_progress_sleep s _ (2 ^ 20 + i * (2 ^ 16 + 2)) s1 polls Hirq ltac:(lia) Hp Hs1) as (s2 & E & Hs2).
    eapply wp_done; [exact E|]. wp_step. apply wp_printf_typed; [reflexivity|].
    intros es1 Hes1. wp_step.
    destruct (lookup_lt_is_Some_2 (sr_cpus r) (Z.to_nat i) ltac:(lia)) as [info Hinfo].
    apply (wp_index _ _ info); [lia|done|]. do 3 wp_step.
    apply (smp_progress_console _ _ _ _ es1 Hes1) in Hs2.
    assert (k_link (emits es1 s2) = k_link s) as -> by (destruct Hs2 as (? & ? & -> & _); done).
    replace (Z.to_nat (i + 1)) with (S (Z.to_nat i)) by lia.
    rewrite (take_S_r _ _ info) by done.
    replace (2 ^ 20 + (i + 1) * (2 ^ 16 + 2)) with (2 ^ 20 + i * (2 ^ 16 + 2) + (2 ^ 16 + 2)) by lia.
    by apply smp_progress_goto.
  - intros s1 (es & t & -> & Hb & Hes & Hst). wp_step. apply wp_printf_typed; [reflexivity|].
    intros es1 Hes1. wp_step. apply (smp_progress_console _ _ _ _ es1 Hes1).
    exists es, t. split; [done|]. split; [lia|]. split; [done|].
    rewrite Hst, take_ge; [done|lia].
  - rewrite Z.mul_0_l, Z.add_0_r, take_0. by apply smp_progress_0.
Qed.

(** ** Properties *)

(** with more than one processor, and a timer that interrupts at every poll,
    [smp_init] returns after handing the trampoline's address to every processor
    of the bootloader's list once, in the list's order, the boot processor
    included. *)
Theorem smp_init_starts_all (s : kstate) (r : limine_smp_response) (polls : nat)
    (Hr : smp_request_response (k_boot s) = Some r)
    (Hcount : sr_cpu_count r = Z.of_nat (length (sr_cpus r)))
    (Hmany : sr_cpu_count r <> 1) (Hsmall : sr_cpu_count r < 2 ^ 14)
    (Hirq : ticking (k_hw s))
    (Ht : 0 <= apic_timer_ticks (k_apic s) < 2 ^ 20) (Hp : (2 <= polls)%nat) :
  exists s', smp_init polls s = Done tt s' /\
    started (k_trace s') = started (k_trace s) ++ (goto s <$> sr_cpus r).
Proof.
  destruct (smp_init_many s r polls) as (s' & E & es & t & -> & _ & _ & Hst); try done.
  eexists. split; [exact E|]. cbn. by rewrite started_app, Hst.
Qed.

Definition sample_smp : limine_smp_response :=
  SmpResponse 0 0 0 2 [SmpInfo 0 0 0; SmpInfo 1 1 0].

Definition sample_smp_state : kstate :=
  start_state ∅ (Hardware 0x10000 0xffff800000000000 (fun _ _ => 0) (fun _ => 1%nat))
    (BootInfo None None None None None (Some sample_smp)) sample_link.

Lemma smp_init_starts_all_witness :
  exists s', smp_init 2 sample_smp_state = Done tt s' /\
    started (k_trace s') = [(0, 0xffffffff80000800); (1, 0xffffffff80000800)].
Proof.
  apply (smp_init_starts_all sample_smp_state sample_smp 2);
    [done|done|done|done|intros t; cbn; lia|cbn; lia|lia].
Defined.

(** C27: a processor other than the boot processor, sent to the trampoline, ends up
    idle: it loads the segments, the interrupt table and the kernel's address
    space, enables its local APIC, starts its timer, reports and halts, leaving
    the kernel's globals as a boot processor that had done the same would.  The
    instructions also show that loading the interrupt table turns interrupts on
    again, before the address space and the APIC are set up. *)
Theorem ap_trampoline_idles (s : kstate) (info : limine_smp_info) (base port : Z) (n polls : nat)
    (Hid : si_lapic_id info <> 0)
    (Hgdt : k_gdt s = gdt_final (k_link s))
    (Hbase : holds s (madt (k_acpi s) ⊕ madt_lapicaddr) 4 base) (Ht : timer_at s port)
    (Hp : (n < polls)%nat) (Hruns : timer_runs (k_hw s) port n) :
  exists es sp ts cur, 0 <= cur < 2 ^ 32 /\ Forall (timer_reading port) ts /\
    ap_trampoline polls info s =
      Halted (emits es (set_apic (with_lapic_address base (k_apic s)) s)) /\
    device es = ap_start s base sp ts cur.
Proof.
  enough (exists s', ap_trampoline polls info s = Halted s' /\
    exists es sp ts cur, s' = emits es (set_apic (with_lapic_address base (k_apic s)) s) /\
      0 <= cur < 2 ^ 32 /\ Forall (timer_reading port) ts /\
      device es = ap_start s base sp ts cur) as (s' & E & es & sp & ts & cur & -> & H1 & H2 & H3)
    by (exists es, sp, ts, cur; done).
  rewrite ap_enter_done by done. set (s1 := emits (ap_enter s) s).
  destruct (init_apic_ap_done s1 base port n polls) as (sp & ts & cur & Hcur & Hts & E);
    [by apply (holds_frame s)|by apply (timer_at_frame s)|done|done|].
  destruct (printf_typed_done "smp: cpu {d} started {n}" [VInt (si_processor_id info)] eq_refl)
    as (es & Hes & Ep).
  rewrite (bind_done _ _ _ _ _ E), bind_asm, (bind_done _ _ _ _ _ (Ep _)), idle_halts.
  eexists. split; [reflexivity|].
  eexists _, sp, ts, cur. split; [|split; [done|split; [done|]]].
  - unfold s1. rewrite <- emits_set_apic, !emits_app. reflexivity.
  - rewrite !device_app, (device_console es), (device_apic_ap_start _ _ _ _ _ _ port) by done.
    reflexivity.
Qed.

(** The witness's processor, on the sample machine of ApicInit.v once its
    segments are loaded. *)
Definition sample_ap : kstate :=
  set_gdt (gdt_final sample_link) (set_apic (with_lapic_addr 0xfee00000 apic_globals_init) sample_apic).

Lemma ap_trampoline_idles_witness :
  exists es sp ts cur, 0 <= cur < 2 ^ 32 /\ Forall (timer_reading 0x608) ts /\
    ap_trampoline 3 (SmpInfo 1 1 0) sample_ap =
      Halted (emits es (set_apic (with_lapic_address 0xfee00000 (k_apic sample_ap)) sample_ap)) /\
    device es = ap_start sample_ap 0xfee00000 sp ts cur.
Proof.
  apply (ap_trampoline_idles sample_ap (SmpInfo 1 1 0) 0xfee00000 0x608 2 3);
    [done|done|identity_holds|split; identity_holds|lia|by apply sample_devices_run].
Defined.
