(* ===== verification/Trampoline.v ===== *)
(** The other processors' first steps.  All of them fill the one descriptor table
    in again and load it, while the processors that already run use it: the first
    half of [ap_trampoline] cut into its stores, and what becomes of the table when
    processors interleave. *)

From S2P Require Import Prelude Limine Types Machine Memory Sample CString Video Printf Log.
From S2P Require Import AcpiTables Gdt Interleave Apic Ps2 Idt Acpi ApicInit Vmm Smp.

(** ** Code: [ap_trampoline] up to the local APIC, store by store *)

Definition gdt_set_entry_p (num base limit access granularity : Z) : prog unit :=
  act (gdt_store num (with_base_low (u16 (Z.land base 0xFFFF)))) ;;
  act (gdt_store num (with_base_middle (u8 (Z.land (Z.shiftr base 16) 0xFF)))) ;;
  act (gdt_store num (with_base_high (u8 (Z.land (Z.shiftr base 24) 0xFF)))) ;;
  act (gdt_store num (with_limit_low (u16 (Z.land limit 0xFFFF)))) ;;
  act (gdt_store num (with_granularity (u8 (Z.land (Z.shiftr limit 16) 0x0F)))) ;;
  act (gdt_store num (fun d => with_granularity
    (u8 (Z.lor (gd_granularity d) (Z.shiftl (Z.land granularity 0xF) 4))) d)) ;;
  act (gdt_store num (with_access access)).

Definition s_setgdt_p (limit base : Z) : prog unit :=
  act (gdt_set (fun g => GdtGlobals (gdt g) (Gdtptr (u16 limit) base) (tss g))) ;;
  act (asm (Lgdt (u16 limit) base)) ;;
  act (load_selector 0x10 is_data ACCESSED) ;;
  act (far_return 0x08) ;;
  act (asm (LoadSegs 0x10 0x08)).

Definition s_settss_p : prog unit :=
  act (load_selector 0x28 is_available_tss BUSY) ;;
  act (asm (Ltr 0x28)).

Definition gdt_init_p : prog unit :=
  lk ← act (gets k_link);
  act (gdt_set (fun g => GdtGlobals (gdt g)
    (Gdtptr (u16 (sizeof_gdtdesc * GDTSEGMENTS - 1)) (gdt_addr lk)) (tss g))) ;;
  act (gdt_set (fun g => GdtGlobals (gdt g) (gdtr g) (replicate 104 x00))) ;;
  gdt_set_entry_p 0 0 0 0 0 ;;
  gdt_set_entry_p 1 0 0xFFFFF 0x9A 0xA ;;
  gdt_set_entry_p 2 0 0xFFFFF 0x92 0xA ;;
  gdt_set_entry_p 3 0 0xFFFFF 0xFA 0xA ;;
  gdt_set_entry_p 4 0 0xFFFFF 0xF2 0xA ;;
  gdt_set_entry_p 5 (tss_addr lk) sizeof_tssdesc 0x89 0x0 ;;
  g ← act (gets k_gdt);
  s_setgdt_p (gp_limit_low (gdtr g)) (gp_base (gdtr g)) ;;
  s_settss_p.

Definition ap_tables_p : prog unit :=
  act (asm Cli) ;;
  gdt_init_p ;;
  r ← act (gets (fun s => idtpr (k_idt s)));
  act (asm (Lidt (ir_limit r) (ir_base r))) ;;
  act (asm Sti) ;;
  pml4 ← act (vmm_get kernel_page_map);
  act (vmm_set_ctx pml4) ;;
  act (asm ReloadCr3).

(** ** The programs are the code *)

Lemma gdt_set_entry_p_same num base limit access granularity s :
  denote (gdt_set_entry_p num base limit access granularity) s =
    gdt_set_entry num base limit access granularity s.
Proof. unfold gdt_set_entry_p, gdt_set_entry. same_steps. Qed.

Lemma s_setgdt_p_same limit base s : denote (s_setgdt_p limit base) s = s_setgdt limit base s.
Proof. unfold s_setgdt_p, s_setgdt. same_steps. Qed.

Lemma s_settss_p_same s : denote s_settss_p s = s_settss s.
Proof. unfold s_settss_p, s_settss. same_steps. Qed.

#[export] Hint Resolve gdt_set_entry_p_same s_setgdt_p_same s_settss_p_same : same.

Lemma gdt_init_p_same s : denote gdt_init_p s = gdt_init s.
Proof. unfold gdt_init_p, gdt_init. same_steps. Qed.

#[export] Hint Resolve gdt_init_p_same : same.

(** Running [ap_tables_p] alone is the first half of the trampoline. *)
Lemma ap_tables_p_bind {A} (rest : M A) s :
  (denote ap_tables_p ;; rest) s =
    (asm Cli ;; gdt_init ;; idt_load ;; pml4 ← vmm_get kernel_page_map;
     vmm_set_ctx pml4 ;; asm ReloadCr3 ;; rest) s.
Proof.
  assert (denote ap_tables_p s = (asm Cli ;; gdt_init ;; r ← gets (fun s => idtpr (k_idt s));
    asm (Lidt (ir_limit r) (ir_base r)) ;; asm Sti ;; pml4 ← vmm_get kernel_page_map;
    vmm_set_ctx pml4 ;; asm ReloadCr3) s) as E by (unfold ap_tables_p; same_steps).
  unfold mbind at 1, M_bind. rewrite E, !bind_asm.
  destruct (gdt_init (emits [EvAsm Cli] s)) as [[] s1|s1|f s1|] eqn:Eg.
  - by rewrite !(bind_done _ _ _ _ _ Eg).
  - by rewrite !(bind_halted _ _ _ _ Eg).
  - by rewrite !(bind_fault _ _ _ _ _ Eg).
  - unfold mbind, M_bind. by rewrite Eg.
Qed.

Lemma ap_trampoline_tables polls info s :
  si_lapic_id info <> 0 ->
  ap_trampoline polls info s =
    (denote ap_tables_p ;; init_apic_ap polls ;; asm Sti ;;
     printf "smp: cpu {d} started {n}" [VInt (si_processor_id info)] ;; idle) s.
Proof.
  intros Hid. rewrite ap_tables_p_bind. unfold ap_trampoline.
  by rewrite (proj2 (Z.eqb_neq _ 0)) by done.
Qed.

(** ** The table while processors write it *)

(** The descriptors [gdt_init] writes, and the bit the processor may set in each. *)
Definition written (lk : link_map) : list (gdtdesc * Z) :=
  [(encoded 0 0 0 0, 0); (encoded 0 0xFFFFF 0x9A 0xA, ACCESSED);
   (encoded 0 0xFFFFF 0x92 0xA, ACCESSED); (encoded 0 0xFFFFF 0xFA 0xA, 0);
   (encoded 0 0xFFFFF 0xF2 0xA, 0); (encoded (tss_addr lk) sizeof_tssdesc 0x89 0, BUSY)].

(** A descriptor as [f], but for the mark [m], and for the flags between the two
    stores to the granularity byte. *)
Record settled (f : gdtdesc) (m : Z) (d : gdtdesc) : Prop := {
  st_limit_low : gd_limit_low d = gd_limit_low f;
  st_base_low : gd_base_low d = gd_base_low f;
  st_base_middle : gd_base_middle d = gd_base_middle f;
  st_base_high : gd_base_high d = gd_base_high f;
  st_granularity : gd_granularity d = gd_granularity f \/
    gd_granularity d = Z.land (gd_granularity f) 0xF;
  st_access : gd_access d = gd_access f \/ gd_access d = Z.lor (gd_access f) m;
}.

(** The table in use: settled entry by entry. *)
Definition gdt_settled (lk : link_map) (g : gdt_globals) : Prop :=
  exists ds, Forall2 (fun f d => settled f.1 f.2 d) (written lk) ds /\
    g = GdtGlobals (ds ++ [gdtdesc_zero]) (Gdtptr 55 (gdt_addr lk)) (replicate 104 x00).

(** Nothing else of the state [s0] has changed but the trace. *)
Definition table_settled (s0 s : kstate) : Prop :=
  exists g es, gdt_settled (k_link s0) g /\ s = emits es (set_gdt g s0).

(** The faults a processor may run into: returning to its code segment, and loading
    its TSS. *)
Definition table_fault (f : fault) : Prop :=
  f = GeneralProtection 0 \/ f = GeneralProtection 0x28.

(** ** Lemmas *)

(** Code that does to a settled table what [g'] says, and nothing else, or faults. *)
Definition on_table (lk : link_map) (m : M unit) (F : fault -> Prop) : Prop :=
  forall g, gdt_settled lk g ->
    (exists g', gdt_settled lk g' /\ forall s, m (set_gdt g s) = Done tt (set_gdt g' s)) \/
    (exists f, F f /\ forall s, m (set_gdt g s) = Fault f (set_gdt g s)).

Section table.
Context (lk : link_map).

(** A store that keeps its entry settled keeps the table. *)
Lemma store_on_table num upd f m F :
  0 <= num -> written lk !! Z.to_nat num = Some (f, m) ->
  (forall d, settled f m d -> settled f m (upd d)) -> on_table lk (gdt_store num upd) F.
Proof.
  intros Hn Hw Hupd g (ds & Hds & ->). left.
  destruct (Forall2_lookup_l _ _ _ _ _ Hds Hw) as (d & Hd & Hfd).
  pose proof (lookup_lt_Some _ _ _ Hd) as Hlt.
  eexists. split; [|intros s; apply (gdt_store_at _ _ d); [done|by apply lookup_app_l_Some]].
  exists (<[Z.to_nat num := upd d]> ds). split.
  - rewrite <- (list_insert_id _ _ _ Hw). apply Forall2_insert; [done|]. by apply Hupd.
  - by rewrite insert_app_l by done.
Qed.

(** Loading a selector marks its entry, or faults. *)
Lemma load_on_table sel check f m (F : fault -> Prop) :
  0 <= sel / 8 -> written lk !! Z.to_nat (sel / 8) = Some (f, m) ->
  (forall d code, settled f m d -> check d = Some code -> F (GeneralProtection code)) ->
  on_table lk (load_checked sel check m) F.
Proof.
  intros Hn Hw Hok g (ds & Hds & ->).
  destruct (Forall2_lookup_l _ _ _ _ _ Hds Hw) as (d & Hd & Hfd).
  assert (settled f m (with_access (Z.lor (gd_access d) m) d)) as Hm.
  { destruct Hfd as [? ? ? ? ? [E|E]]; split; cbn; auto; right; rewrite E; [done|].
    by rewrite <- Z.lor_assoc, Z.lor_diag. }
  pose proof (lookup_app_l_Some ds [gdtdesc_zero] _ _ Hd) as Hd'.
  destruct (check d) as [code|] eqn:Ed; [right|left].
  - exists (GeneralProtection code). split; [by apply (Hok d)|]. intros s.
    by rewrite (load_checked_at _ _ _ d), Ed.
  - eexists. split; [|intros s; by rewrite (load_checked_at _ _ _ d), Ed].
    exists (<[Z.to_nat (sel / 8) := with_access (Z.lor (gd_access d) m) d]> ds). split.
    + rewrite <- (list_insert_id _ _ _ Hw). by apply Forall2_insert.
    + by rewrite insert_app_l by (by eapply lookup_lt_Some).
Qed.

(** What stores the same again. *)
Lemma same_on_table (f : gdt_globals -> gdt_globals) F :
  (forall ds, f (GdtGlobals ds (Gdtptr 55 (gdt_addr lk)) (replicate 104 x00)) =
    GdtGlobals ds (Gdtptr 55 (gdt_addr lk)) (replicate 104 x00)) -> on_table lk (gdt_set f) F.
Proof.
  intros Hf g (ds & Hds & ->). left. eexists. split; [exists ds; by split|]. intros s.
  unfold gdt_set, modify. cbn [k_gdt set_gdt]. by rewrite Hf.
Qed.

(** The kernel's code segment. *)
Lemma code_settled d : settled (encoded 0 0xFFFFF 0x9A 0xA) ACCESSED d -> is_code d = true.
Proof. intros [_ _ _ _ _ H6]. unfold is_code. by destruct H6 as [->| ->]. Qed.

Lemma interrupt_on_table :
  on_table lk (load_selector 0x08 is_code64 ACCESSED) (eq (GeneralProtection 0x08)).
Proof. eapply load_on_table; [done..|]. intros d code _. by destruct (is_code64 d); intros [= <-]. Qed.

Lemma return_on_table : on_table lk (far_return 0x08) (eq (GeneralProtection 0)).
Proof.
  eapply load_on_table; [done..|]. intros d code Hd. rewrite (code_settled d Hd).
  by destruct (is_long d); intros [= <-].
Qed.

Lemma data_on_table F : on_table lk (load_selector 0x10 is_data ACCESSED) F.
Proof.
  eapply load_on_table; [done..|]. intros d code [_ _ _ _ _ H6]. unfold is_data.
  by destruct H6 as [->| ->].
Qed.

Lemma tss_on_table :
  on_table lk (load_selector 0x28 is_available_tss BUSY) (eq (GeneralProtection 0x28)).
Proof. eapply load_on_table; [done..|]. intros d code _. by destruct (is_available_tss d); intros [= <-]. Qed.

Lemma on_table_mono m (F F' : fault -> Prop) :
  on_table lk m F -> (forall f, F f -> F' f) -> on_table lk m F'.
Proof. intros Hm HF g Hg. destruct (Hm g Hg) as [H|(f & Hf & H)]; [by left|right; eauto]. Qed.

(** The table [gdt_init] has left is settled. *)
Lemma gdt_settled_final : gdt_settled lk (gdt_final lk).
Proof.
  exists (take 6 (gdt (gdt_final lk))). split; [|done].
  unfold written. repeat apply Forall2_cons_2; [by split; cbn; auto..|constructor].
Qed.

End table.

(** *** Programs *)

Section settled.
Context (s0 : kstate).

(** A state with what no processor changes as in [s0]. *)
Definition fits (s : kstate) : Prop :=
  k_link s = k_link s0 /\ k_idt s = k_idt s0 /\ k_vmm s = k_vmm s0.

(** Every way through the program, however the table in use changes between its
    steps, keeps it settled, changes nothing else but the trace, and either faults on
    the table or ends as [Q] says, of the result and the events added. *)
Fixpoint walks {A} (p : prog A) (Q : A -> list event -> Prop) : Prop :=
  match p with
  | PRet a => Q a []
  | PStep m k => forall g s, gdt_settled (k_link s0) g -> fits s ->
      match m (set_gdt g s) with
      | Done b s' => exists g' es, gdt_settled (k_link s0) g' /\ s' = emits es (set_gdt g' s) /\
          walks (k b) (fun a es' => Q a (es ++ es'))
      | Fault f s' => table_fault f /\ s' = set_gdt g s
      | _ => False
      end
  end.

Lemma walks_mono {A} (p : prog A) : forall (Q Q' : A -> list event -> Prop),
  (forall a es, Q a es -> Q' a es) -> walks p Q -> walks p Q'.
Proof.
  induction p as [a|B m k IH]; intros Q Q' HQ Hp; [by apply HQ|].
  intros g s Hg Hs. specialize (Hp g s Hg Hs).
  destruct (m (set_gdt g s)) as [b s'| | |]; [|done..]. destruct Hp as (g' & es & Hg' & -> & Hk).
  exists g', es. do 2 (split; [done|]). eapply IH; [|exact Hk]. intros a es'. apply HQ.
Qed.

Lemma walks_bind {A B} (p : prog A) (f : A -> prog B) : forall (Q : B -> list event -> Prop),
  walks p (fun a es => walks (f a) (fun b es' => Q b (es ++ es'))) -> walks (p ≫= f) Q.
Proof.
  induction p as [a|C m k IH]; intros Q Hp; [exact Hp|].
  intros g s Hg Hs. specialize (Hp g s Hg Hs).
  destruct (m (set_gdt g s)) as [b s'| | |]; [|done..]. destruct Hp as (g' & es & Hg' & -> & Hk).
  exists g', es. do 2 (split; [done|]). apply IH. eapply walks_mono; [|exact Hk].
  intros a es' Ha. eapply walks_mono; [|exact Ha]. intros c es''. by rewrite app_assoc.
Qed.

Lemma walks_step {A B} (m : M B) (k : B -> prog A) Q :
  walks (act m) (fun b es => walks (k b) (fun a es' => Q a (es ++ es'))) -> walks (act m ≫= k) Q.
Proof. apply walks_bind. Qed.

Lemma walks_table (m : M unit) (Q : unit -> list event -> Prop) :
  on_table (k_link s0) m table_fault -> Q tt [] -> walks (act m) Q.
Proof.
  intros Hm HQ g s Hg _. destruct (Hm g Hg) as [(g' & Hg' & E)|(f & Hf & E)]; rewrite E; [|done].
  exists g', []. rewrite emits_nil. do 2 (split; [done|]). exact HQ.
Qed.

Lemma walks_emit (m : M unit) e (Q : unit -> list event -> Prop) :
  (forall s, fits s -> m s = Done tt (emits [e] s)) -> Q tt [e] -> walks (act m) Q.
Proof.
  intros Hm HQ g s Hg Hs. rewrite Hm by done. exists g, [e]. do 2 (split; [done|]). exact HQ.
Qed.

Lemma walks_read {A} (f : kstate -> A) (Q : A -> list event -> Prop) :
  (forall g s, gdt_settled (k_link s0) g -> fits s -> Q (f (set_gdt g s)) []) ->
  walks (act (gets f)) Q.
Proof.
  intros HQ g s Hg Hs. exists g, []. rewrite emits_nil. do 2 (split; [done|]). by apply HQ.
Qed.

(** The seven stores of an entry, when they are those of the table. *)
Lemma walks_entry num base limit access granularity m (Q : unit -> list event -> Prop) :
  let f := encoded base limit access granularity in
  0 <= num -> written (k_link s0) !! Z.to_nat num = Some (f, m) ->
  Z.land (gd_granularity f) 0xF = u8 (Z.land (Z.shiftr limit 16) 0x0F) ->
  u8 (Z.lor (gd_granularity f) (Z.shiftl (Z.land granularity 0xF) 4)) = gd_granularity f ->
  Q tt [] -> walks (gdt_set_entry_p num base limit access granularity) Q.
Proof.
  intros f Hn Hw Hlo Hor HQ. unfold gdt_set_entry_p.
  repeat (apply walks_step, walks_table; [eapply store_on_table; [exact Hn|exact Hw|]|]).
  all: [> ..|exact HQ].
  all: intros d [H1 H2 H3 H4 H5 H6]; split; try done; cbn; auto.
  left. destruct H5 as [->| ->]; [done|]. by rewrite Hlo.
Qed.

Ltac walk_on := apply walks_step, walks_table; [|cbn beta; cbn [app]].

Lemma walks_gdt_init :
  walks gdt_init_p (fun _ es => es = [EvAsm (Lgdt 55 (gdt_addr (k_link s0)));
    EvAsm (LoadSegs 0x10 0x08); EvAsm (Ltr 0x28)]).
Proof.
  unfold gdt_init_p. apply walks_step, walks_read. intros g s _ (Hlk & _). cbn [k_link set_gdt]. rewrite Hlk.
  do 2 (walk_on; [by apply same_on_table|]).
  do 6 (apply walks_bind; eapply walks_entry; [done..|]; cbn beta; cbn [app]).
  apply walks_step, walks_read. intros g' s' (ds & _ & ->) _. cbn [k_gdt set_gdt gdtr gp_limit_low gp_base].
  apply walks_bind. unfold s_setgdt_p.
  walk_on; [by apply same_on_table|].
  apply walks_step. eapply walks_emit; [done|]. cbn beta; cbn [app].
  walk_on; [apply data_on_table|].
  walk_on; [eapply on_table_mono; [apply return_on_table|by left]|].
  eapply walks_emit; [done|]. cbn beta; cbn [app]. unfold s_settss_p.
  walk_on; [eapply on_table_mono; [apply tss_on_table|by right]|].
  by eapply walks_emit.
Qed.

Lemma walks_ap_tables : walks ap_tables_p (fun _ es => es = ap_enter s0).
Proof.
  unfold ap_tables_p. apply walks_step. eapply walks_emit; [done|]. cbn beta; cbn [app].
  apply walks_bind. eapply walks_mono; [|apply walks_gdt_init]. intros [] es ->.
  apply walks_step, walks_read. intros g s _ (_ & Hidt & _). cbn [k_idt set_gdt]. rewrite Hidt.
  do 2 (apply walks_step; eapply walks_emit; [done|]; cbn beta; cbn [app]).
  apply walks_step, walks_read. intros g' s' _ (_ & _ & Hvmm). cbn [k_vmm set_gdt]. rewrite Hvmm.
  apply walks_step. eapply walks_emit.
  { intros s1 (_ & _ & Hv). unfold vmm_set_ctx, vmm_get. rewrite bind_gets, Hv. reflexivity. }
  cbn beta; cbn [app]. eapply walks_emit; [done|]. reflexivity.
Qed.

(** So the processors keep the table settled, however they interleave. *)
Lemma keeps_walks {A} (p : prog A) : forall Q, walks p Q -> keeps (table_settled s0) table_fault p.
Proof.
  induction p as [a|B m k IH]; intros Q Hp; [done|]. intros s (g & es & Hg & ->).
  rewrite emits_set_gdt. specialize (Hp g (emits es s0) Hg (conj eq_refl (conj eq_refl eq_refl))).
  destruct (m (set_gdt g (emits es s0))) as [b s'|s'|f s'|]; [|done| |done].
  - destruct Hp as (g' & es' & Hg' & -> & Hk). split; [|by eapply IH].
    exists g', (es ++ es'). split; [done|]. by rewrite emits_set_gdt, emits_app.
  - apply Hp.
Qed.

Lemma keeps_ap_tables : keeps (table_settled s0) table_fault ap_tables_p.
Proof. eapply keeps_walks, walks_ap_tables. Qed.

(** The table [gdt_init] has left is settled. *)
Lemma settled_final : k_gdt s0 = gdt_final (k_link s0) -> table_settled s0 s0.
Proof.
  intros Hg. exists (gdt_final (k_link s0)), []. split; [apply gdt_settled_final|].
  rewrite emits_nil, <- Hg. by destruct s0.
Qed.
End settled.

(** What a settled descriptor decodes to. *)
Lemma settled_decodes base limit access granularity m d :
  0 <= access < 2 ^ 8 -> 0 <= Z.lor access m < 2 ^ 8 ->
  settled (encoded base limit access granularity) m d ->
  let w := gdtdesc_word d in
  seg_base w = base mod 2 ^ 32 /\ seg_limit w = limit mod 2 ^ 20 /\
  (seg_access w = access \/ seg_access w = Z.lor access m) /\
  (seg_flags w = granularity mod 2 ^ 4 \/ seg_flags w = 0).
Proof.
  intros Ha Hm [H1 H2 H3 H4 H5 H6].
  assert (exists a g, d = encoded base limit a g /\ 0 <= a < 2 ^ 8 /\
    (a = access \/ a = Z.lor access m) /\ (g = granularity \/ g = 0)) as (a & g & -> & ? & ? & ?).
  { exists (gd_access d).
    assert (gd_granularity d = gd_granularity (encoded base limit access granularity) \/
      gd_granularity d = gd_granularity (encoded base limit access 0)) as H5'.
    { destruct H5 as [H5|H5]; [by left|right]. rewrite H5, !encoded_fields. cbn.
      change 0xF with (Z.ones 4). rewrite Z.land_ones by lia.
      rewrite (Z.mul_comm 16), Z_mod_plus_full, Zmod_mod. by rewrite Z.mul_0_r, Z.add_0_r. }
    destruct H5' as [E|E]; [exists granularity|exists 0];
      (split; [destruct d; cbn in *; by subst|]; split; [destruct H6 as [->| ->]; done|]; auto). }
  cbn zeta. destruct (encoded_decodes base limit a g) as (-> & -> & -> & ->); [done|].
  split_and!; [done|done|done|]. match goal with H : g = _ \/ g = _ |- _ => destruct H as [->| ->] end; auto.
Qed.

(** A processor alone: it ends up with its tables, and the shared one as it was. *)
Lemma ap_tables_done s :
  k_gdt s = gdt_final (k_link s) -> denote ap_tables_p s = Done tt (emits (ap_enter s) s).
Proof.
  intros Hg. assert (denote ap_tables_p s = (denote ap_tables_p ;; mret tt) s) as ->
    by (unfold mbind, M_bind; by destruct (denote ap_tables_p s) as [[]| | |]).
  rewrite ap_tables_p_bind. by apply (ap_enter_then (mret tt)).
Qed.

(** The processors' turns in order, each with [m] turns in a row. *)
Definition one_by_one (m : nat) (order : list nat) : list nat := concat (replicate m <$> order).

Lemma run_one_by_one order : forall ls s,
  NoDup order -> Forall (fun i => ls !! i = Some ap_tables_p) order ->
  k_gdt s = gdt_final (k_link s) ->
  exists n, forall m, (n <= m)%nat -> exists ls',
    run next (one_by_one m order) ls s =
      Done ls' (emits (concat (replicate (length order) (ap_enter s))) s) /\
    (forall i, i ∈ order -> ls' !! i = Some (PRet tt)) /\
    (forall i, i ∉ order -> ls' !! i = ls !! i).
Proof.
  induction order as [|i order IH]; intros ls s Hnd Hls Hg.
  - exists 0%nat. intros m _. exists ls. split; [by rewrite emits_nil|].
    split; [by intros i ?%elem_of_nil|done].
  - apply NoDup_cons in Hnd as [Hi Hnd]. apply Forall_cons in Hls as [Hp Hls].
    destruct (run_alone ap_tables_p i ls s _ _ Hp (ap_tables_done s Hg)) as [n1 H1].
    destruct (IH (<[i := PRet tt]> ls) (emits (ap_enter s) s)) as [n2 H2]; [done| |done|].
    { apply Forall_forall. intros j Hj. rewrite list_lookup_insert_ne by (by intros ->).
      by apply (proj1 (Forall_forall _ _) Hls). }
    exists (n1 + n2)%nat. intros m Hm. destruct (H2 m ltac:(lia)) as (ls' & E & Hin & Hout).
    exists ls'. change (one_by_one m (i :: order)) with (replicate m i ++ one_by_one m order).
    rewrite run_app, (bind_done _ _ _ _ _ (H1 m ltac:(lia))), E, emits_app.
    split; [done|]. pose proof (lookup_lt_Some _ _ _ Hp) as Hlt. split.
    + intros j [->|Hj]%elem_of_cons; [|by apply Hin].
      rewrite Hout by done. by apply list_lookup_insert_eq.
    + intros j [Hne Hj]%not_elem_of_cons. rewrite Hout by done. by apply list_lookup_insert_ne.
Qed.

(** A settled table, as the processors read it: whatever the stores under way, no
    descriptor's base, limit or privilege differs from what [gdt_init] means it to
    be; only the marks and, between two stores, the flags do. *)
Definition reads_settled (lk : link_map) (g : gdt_globals) : Prop :=
  (forall sel access, In (sel, access) [(0x08, 0x9A); (0x10, 0x92); (0x18, 0xFA); (0x20, 0xF2)] ->
     let w := descriptor g sel in
     seg_base w = 0 /\ seg_limit w = 0xFFFFF /\ Z.land (seg_access w) 0xFE = access /\
     (seg_flags w = 0xA \/ seg_flags w = 0)) /\
  seg_base (descriptor g 0x28) = tss_addr lk mod 2 ^ 32 /\
  seg_limit (descriptor g 0x28) = sizeof_tssdesc /\
  (seg_access (descriptor g 0x28) = 0x89 \/ seg_access (descriptor g 0x28) = 0x8B).

Definition table_reads (s0 s : kstate) : Prop :=
  (exists es, s = emits es (set_gdt (k_gdt s) s0)) /\ reads_settled (k_link s0) (k_gdt s).

Lemma settled_descriptor lk g i f m :
  gdt_settled lk g -> written lk !! i = Some (f, m) ->
  exists d, settled f m d /\ descriptor g (8 * Z.of_nat i) = gdtdesc_word d.
Proof.
  intros (ds & Hds & ->) Hw. destruct (Forall2_lookup_l _ _ _ _ _ Hds Hw) as (d & Hd & Hfd).
  exists d. split; [done|]. unfold descriptor. cbn [gdt].
  rewrite (Z.mul_comm 8), Z.div_mul, Nat2Z.id by lia. by rewrite (lookup_app_l_Some _ _ _ _ Hd).
Qed.

Lemma gdt_settled_reads lk g : gdt_settled lk g -> reads_settled lk g.
Proof.
  intros Hs. split.
  - intros sel access Hin.
    assert (exists i m, written lk !! i = Some (encoded 0 0xFFFFF access 0xA, m) /\
      sel = 8 * Z.of_nat i /\ 0 <= access < 2 ^ 8 /\ 0 <= Z.lor access m < 2 ^ 8 /\
      Z.land access 0xFE = access /\ Z.land (Z.lor access m) 0xFE = access)
      as (i & m & Hw & -> & Ha & Ham & Hl & Hlm).
    { cbn in Hin. repeat destruct Hin as [[= <- <-]|Hin]; [exists 1%nat, 1|exists 2%nat, 1|
        exists 3%nat, 0|exists 4%nat, 0|done]; by vm_compute. }
    destruct (settled_descriptor lk g i _ m Hs Hw) as (d & Hd & ->).
    destruct (settled_decodes 0 0xFFFFF access 0xA m d Ha Ham Hd) as (H1 & H2 & H3 & H4).
    cbn zeta. rewrite H1, H2. split_and!; [done|done| |done]. by destruct H3 as [->| ->].
  - destruct (settled_descriptor lk g 5 (encoded (tss_addr lk) sizeof_tssdesc 0x89 0) BUSY
      Hs eq_refl) as (d & Hd & E).
    change (8 * Z.of_nat 5) with 0x28 in E. rewrite E.
    destruct (settled_decodes _ _ 0x89 0 BUSY d ltac:(done) ltac:(done) Hd) as (H1 & H2 & H3 & _).
    by rewrite H1, H2.
Qed.

Lemma table_settled_reads s0 s : table_settled s0 s -> table_reads s0 s.
Proof. intros (g & es & Hg & ->). split; [by exists es|by apply gdt_settled_reads]. Qed.

(** A processor that takes an interrupt loads its code segment from the gate, the
    kernel's (0x08 in every gate of [idt_init]). *)
Definition takes_interrupt (s : kstate) : Prop :=
  exists s', load_selector 0x08 is_code64 ACCESSED s = Done tt s'.

(** The same as a test, and whether the processor has got through. *)
Definition interruptible (o : outcome (list (prog unit))) : bool :=
  match o with
  | Done _ s => match load_selector 0x08 is_code64 ACCESSED s with Done _ _ => true | _ => false end
  | _ => false
  end.

Definition through (o : outcome (list (prog unit))) : bool :=
  match o with Done [PRet _] _ => true | _ => false end.

Definition runs (o : outcome (list (prog unit))) : bool :=
  match o with Done _ _ => true | _ => false end.

Lemma interruptible_spec ls s : interruptible (Done ls s) = true <-> takes_interrupt s.
Proof.
  unfold takes_interrupt, interruptible.
  destruct (load_selector 0x08 is_code64 ACCESSED s) as [[] s'| | |]; split; intros H;
    try done; try (by destruct H); by eexists.
Qed.

(** A processor that is through stays so. *)
Lemma run_through k ls s : through (Done ls s) = true ->
  run next (replicate k 0%nat) ls s = Done ls s.
Proof.
  destruct ls as [|[a|] [|]]; try done. intros _. induction k as [|k IH]; [done|]. exact IH.
Qed.

Definition faults_with {A} (f : fault) (o : outcome A) : Prop :=
  match o with Fault f' _ => f' = f | _ => False end.

(** The sample machine after [gdt_init]. *)
Definition sample_tables : kstate := set_gdt (gdt_final sample_link) sample_start.

(** ** Properties *)

(** Processors started one after another, each after the one before has its
    tables, as the sleeps in [smp_init] arrange, all get through: the TSS, busy
    after each, is made available again by the next, the shared table ends as it
    was, and nothing but the trace has changed. *)
Lemma tables_one_by_one (s : kstate) (n : nat) (order : list nat)
    (Hg : k_gdt s = gdt_final (k_link s)) (Hnd : NoDup order)
    (Hn : Forall (fun i => i < n)%nat order) :
  exists turns, forall m, (turns <= m)%nat -> exists ls,
    run next (one_by_one m order) (replicate n ap_tables_p) s =
      Done ls (emits (concat (replicate (length order) (ap_enter s))) s) /\
    forall i, i ∈ order -> ls !! i = Some (PRet tt).
Proof.
  destruct (run_one_by_one order (replicate n ap_tables_p) s Hnd) as [turns H]; [|done|].
  - eapply Forall_impl; [exact Hn|]. intros i Hi. by apply lookup_replicate.
  - exists turns. intros m Hm. destruct (H m Hm) as (ls & E & Hin & _). by exists ls.
Qed.

Lemma tables_one_by_one_witness :
  exists turns, forall m, (turns <= m)%nat -> exists ls,
    run next (one_by_one m [1; 3; 2]%nat) (replicate 4 ap_tables_p) sample_tables =
      Done ls (emits (concat (replicate 3 (ap_enter sample_tables))) sample_tables) /\
    forall i, i ∈ [1; 3; 2]%nat -> ls !! i = Some (PRet tt).
Proof.
  apply (tables_one_by_one sample_tables 4 [1; 3; 2]%nat); [done| |repeat constructor].
  apply (bool_decide_eq_true_1 _). by vm_compute.
Defined.

(** C30: however many processors run the trampoline and however their stores
    interleave, the table in use is never worse than half marked: every descriptor
    keeps its base, limit and privilege, and nothing else of the kernel's state
    changes.  What a processor may run into is a general protection fault on its
    code segment (on its limit, with the error code 0, when the
    flags are missing) or on its TSS, and nothing else. *)
Theorem tables_interleaved (s : kstate) (n : nat) (sched : list nat)
    (Hg : k_gdt s = gdt_final (k_link s)) (Hn : Forall (fun i => i < n)%nat sched) :
  (exists ls s', run next sched (replicate n ap_tables_p) s = Done ls s' /\ table_reads s s') \/
  (exists s', run next sched (replicate n ap_tables_p) s = Fault (GeneralProtection 0) s') \/
  (exists s', run next sched (replicate n ap_tables_p) s = Fault (GeneralProtection 0x28) s').
Proof.
  pose proof (run_all_keep (table_settled s) table_fault (replicate n ap_tables_p) sched s) as H.
  rewrite length_replicate in H. specialize (H (Forall_replicate _ _ _ (keeps_ap_tables s))
    (settled_final s Hg) Hn).
  destruct (run next sched (replicate n ap_tables_p) s) as [ls s'|s'|f s'|]; [|done| |done].
  - left. exists ls, s'. split; [done|]. by apply table_settled_reads.
  - right. destruct H as [->| ->]; [left|right]; by exists s'.
Qed.

Lemma tables_interleaved_witness :
  (exists ls s', run next [0; 1; 1; 0; 2]%nat (replicate 3 ap_tables_p) sample_tables = Done ls s' /\
     table_reads sample_tables s') \/
  (exists s', run next [0; 1; 1; 0; 2]%nat (replicate 3 ap_tables_p) sample_tables =
     Fault (GeneralProtection 0) s') \/
  (exists s', run next [0; 1; 1; 0; 2]%nat (replicate 3 ap_tables_p) sample_tables =
     Fault (GeneralProtection 0x28) s').
Proof.
  apply (tables_interleaved sample_tables 3 [0; 1; 1; 0; 2]%nat); [done|repeat constructor].
Defined.

(** C31: the faults are real.  Two processors that come to load the task register
    after both have made the TSS available fault, the second on the descriptor the
    first has marked busy; and a processor that returns to its code segment between the
    two stores another makes to that descriptor's flags faults on the limit of a
    segment that is not a 64-bit one. *)
Theorem tables_race (s : kstate) (Hg : k_gdt s = gdt_final (k_link s)) :
  (exists s', run next (replicate 52 0%nat ++ replicate 52 1%nat ++ [0; 1]%nat)
     [ap_tables_p; ap_tables_p] s = Fault (GeneralProtection 0x28) s') /\
  (exists s', run next (replicate 50 0%nat ++ replicate 16 1%nat ++ [0]%nat)
     [ap_tables_p; ap_tables_p] s = Fault (GeneralProtection 0) s').
Proof.
  assert (forall sched f, faults_with f (run next sched [ap_tables_p; ap_tables_p] s) ->
    exists s', run next sched [ap_tables_p; ap_tables_p] s = Fault f s') as Hf.
  { intros sched f. destruct (run next sched [ap_tables_p; ap_tables_p] s) as [| |f' s'|]; [done..| |done].
    intros ->. by exists s'. }
  split; apply Hf; clear Hf; destruct s; cbn in Hg; subst; by vm_compute.
Qed.

Lemma tables_race_witness :
  (exists s', run next (replicate 52 0%nat ++ replicate 52 1%nat ++ [0; 1]%nat)
     [ap_tables_p; ap_tables_p] sample_tables = Fault (GeneralProtection 0x28) s') /\
  (exists s', run next (replicate 50 0%nat ++ replicate 16 1%nat ++ [0]%nat)
     [ap_tables_p; ap_tables_p] sample_tables = Fault (GeneralProtection 0) s').
Proof. exact (tables_race sample_tables eq_refl). Defined.

(** C32: starting one processor at a time does not protect those that run.  While a
    processor fills the table in, the others can take interrupts at every point but
    one: after its sixteenth step, when the kernel's code segment has no flags, an
    interrupt anywhere faults on that segment. *)
Theorem interrupt_window (s : kstate) (k : nat) (Hg : k_gdt s = gdt_final (k_link s)) :
  exists ls s', run next (replicate k 0%nat) [ap_tables_p] s = Done ls s' /\
    (takes_interrupt s' <-> k <> 16%nat).
Proof.
  set (o := fun k => run next (replicate k 0%nat) [ap_tables_p] s).
  assert (forallb (fun k => runs (o k) && Bool.eqb (interruptible (o k)) (negb (k =? 16)%nat))
    (seq 0 62) && through (o 61%nat) = true) as H
    by (unfold o; clear o; destruct s; cbn in Hg; subst; by vm_compute).
  apply andb_prop in H as [H Hend].
  assert (forall k, (k < 62)%nat -> exists ls s', o k = Done ls s' /\
    (takes_interrupt s' <-> k <> 16%nat)) as Hlow.
  { intros j Hj. rewrite forallb_forall in H. specialize (H j ltac:(apply in_seq; lia)).
    apply andb_prop in H as [Hr Hi%eqb_prop]. destruct (o j) as [ls s'| | |]; [|done..].
    exists ls, s'. split; [done|]. rewrite <- (interruptible_spec ls), Hi, negb_true_iff.
    by rewrite Nat.eqb_neq. }
  destruct (decide (k < 62)%nat) as [Hk|Hk]; [by apply Hlow|].
  destruct (Hlow 61%nat ltac:(lia)) as (ls & s' & E & Hi). rewrite E in Hend.
  exists ls, s'. split; [|rewrite Hi; lia].
  replace k with (61 + (k - 61))%nat by lia. rewrite replicate_add, run_app.
  rewrite (bind_done _ _ _ _ _ E). by apply run_through.
Qed.

Lemma interrupt_window_witness :
  exists ls s', run next (replicate 16 0%nat) [ap_tables_p] sample_tables = Done ls s' /\
    (takes_interrupt s' <-> 16%nat <> 16%nat).
Proof. exact (interrupt_window sample_tables 16 eq_refl). Defined.
