(* ===== verification/Cpus.v ===== *)
(** Timer interrupts on several processors.  smp.c starts the other processors
    with their own local APIC timers, all of them on the vector of [apic_timer], so
    its handler runs on each and they share [apic_timer_ticks].  The increment is a
    load and a store; here the processors' handlers interleave between the two, as
    a schedule of turns. *)

From S2P Require Import Prelude Limine Types Machine Memory Sample CString Video Printf Log.
From S2P Require Import Allocator Pmm Vmm Gdt AcpiTables Interleave Apic Acpi ApicInit.

(** ** Code: the handler, cut where another processor can come between *)

(** apic_timer_ticks++ *)
Definition timer_load : M Z := apic_get apic_timer_ticks.
Definition timer_store (v : Z) : M unit := apic_set (with_ticks (v ⊕ 1)).

(** Where a processor is in the handler: outside it, with the count loaded, or
    with the count stored and the end of the interrupt still to signal. *)
Inductive phase := Resting | Loaded (v : Z) | Stored.

(** One turn of a processor; a turn of a resting one is an interrupt.  (The gate
    keeps interrupts off while its handler runs.) *)
Definition timer_turn (p : phase) : M phase :=
  match p with
  | Resting => v ← timer_load; mret (Loaded v)
  | Loaded v => timer_store v ;; mret Stored
  | Stored => apic_eoi ;; mret Resting
  end.

(** [n] processors, all outside the handler. *)
Definition resting (n : nat) : list phase := replicate n Resting.

(** ** Reference *)

(** [s] with the count at [t], after [k] ends of interrupts. *)
Definition counted (t : Z) (k : nat) (s : kstate) : kstate :=
  emits (replicate k (eoi_event s)) (set_apic (with_ticks t (k_apic s)) s).

(** One whole handler of each processor of a list, one after the other. *)
Definition serially (order : list nat) : list nat := concat ((fun i => [i; i; i]) <$> order).

(** The turns a processor has taken in its present handler, and whether it has
    stored. *)
Definition turns (p : phase) : nat :=
  match p with Resting => 0 | Loaded _ => 1 | Stored => 2 end.
Definition stores (p : phase) : nat := match p with Stored => 1 | _ => 0 end.

(** What every schedule keeps: the count, and the counts loaded, lie between the
    first one and the number of stores since; the turns are accounted for. *)
Definition between (s0 : kstate) (n : nat) (ls : list phase) (s : kstate) : Prop :=
  exists t k st, s = counted t k s0 /\
    st = (k + sum_list_with stores ls)%nat /\ n = (3 * k + sum_list_with turns ls)%nat /\
    apic_timer_ticks (k_apic s0) + Z.of_nat (st `min` 1) <= t <=
      apic_timer_ticks (k_apic s0) + Z.of_nat st /\
    forall i v, ls !! i = Some (Loaded v) ->
      apic_timer_ticks (k_apic s0) <= v <= apic_timer_ticks (k_apic s0) + Z.of_nat st.

(** ** Lemmas *)

Lemma sum_list_with_insert {A} (f : A -> nat) l i x y :
  l !! i = Some x ->
  (sum_list_with f (<[i := y]> l) + f x = sum_list_with f l + f y)%nat.
Proof.
  revert i. induction l as [|a l IH]; intros [|i] H; [done|done| |].
  - injection H as ->. simpl. lia.
  - specialize (IH i H). simpl in *. lia.
Qed.

Lemma sum_list_with_zero {A} (f : A -> nat) l :
  Forall (fun x => f x = 0%nat) l -> sum_list_with f l = 0%nat.
Proof. induction 1 as [|x l Hx _ IH]; cbn; [done|]. by rewrite Hx, IH. Qed.

Lemma stores_le_turns l : (sum_list_with stores l <= sum_list_with turns l)%nat.
Proof. induction l as [|p l IH]; simpl; [done|]. destruct p; simpl; lia. Qed.

(** What a turn does. *)
Lemma timer_turn_done p t k s :
  timer_turn p (counted t k s) =
    match p with
    | Resting => Done (Loaded t) (counted t k s)
    | Loaded v => Done Stored (counted (v ⊕ 1) k s)
    | Stored => Done Resting (counted t (S k) s)
    end.
Proof.
  destruct p; [done|done|]. cbn [timer_turn]. erewrite bind_done by apply apic_eoi_done.
  cbv [mret M_ret]. f_equal. unfold counted. rewrite emits_app. by rewrite replicate_S_end.
Qed.

Lemma counted_id s : counted (apic_timer_ticks (k_apic s)) 0 s = s.
Proof. unfold counted. cbn. rewrite emits_nil. by destruct s as [? ? ? ? ? ? ? ? ? ? [] ? ?]. Qed.

(** The invariant, by cases on the turn taken; the count stays below 2^64. *)
Lemma between_turn s0 n ls s i p :
  between s0 n ls s -> 0 <= apic_timer_ticks (k_apic s0) ->
  apic_timer_ticks (k_apic s0) + Z.of_nat n + 1 < 2 ^ 64 -> ls !! i = Some p ->
  match timer_turn p s with
  | Done p' s' => between s0 (S n) (<[i := p']> ls) s'
  | _ => False
  end.
Proof.
  intros (t & k & st & -> & Hst & Hn & Ht & Hl) H0 Hmax Hi. rewrite timer_turn_done.
  assert (forall p' j v, <[i := p']> ls !! j = Some (Loaded v) ->
    p' = Loaded v \/ ls !! j = Some (Loaded v)) as Hins.
  { intros p' j v [(-> & -> & _)|[_ Hj]]%list_lookup_insert_Some; auto. }
  pose proof (fun p' => sum_list_with_insert stores ls i _ p' Hi) as Hs.
  pose proof (fun p' => sum_list_with_insert turns ls i _ p' Hi) as Hu.
  destruct p as [|v|].
  - exists t, k, st. specialize (Hs (Loaded t)). specialize (Hu (Loaded t)). cbn [stores turns] in *.
    split; [done|]. split; [lia|]. split; [lia|]. split; [done|].
    intros j v [[= <-]|Hj]%Hins; [lia|by apply (Hl j)].
  - pose proof (Hl i v Hi). exists (v ⊕ 1), k, (S st).
    specialize (Hs Stored). specialize (Hu Stored). cbn [stores turns] in *.
    pose proof (stores_le_turns ls). rewrite u64_small by lia.
    split; [done|]. split; [lia|]. split; [lia|]. split; [lia|].
    intros j w [?|Hj]%Hins; [done|]. pose proof (Hl j w Hj). lia.
  - exists t, (S k), st. specialize (Hs Resting). specialize (Hu Resting). cbn [stores turns] in *.
    split; [done|]. split; [lia|]. split; [lia|]. split; [done|].
    intros j w [?|Hj]%Hins; [done|by apply (Hl j)].
Qed.

Lemma between_start s n : between s 0 (resting n) s.
Proof.
  exists (apic_timer_ticks (k_apic s)), 0%nat, 0%nat. unfold resting.
  rewrite counted_id, !sum_list_with_zero by by apply Forall_replicate.
  split; [done|]. split; [done|]. split; [done|]. split; [lia|].
  by intros i v [? _]%lookup_replicate.
Qed.

Lemma between_run s n sched :
  0 <= apic_timer_ticks (k_apic s) ->
  apic_timer_ticks (k_apic s) + Z.of_nat (length sched) < 2 ^ 64 ->
  Forall (fun i => i < n)%nat sched ->
  exists ls s', run timer_turn sched (resting n) s = Done ls s' /\
    between s (length sched) ls s'.
Proof.
  intros H0 Hmax Hn.
  pose proof (run_keeps timer_turn (between s) (fun _ _ => False) (length sched)) as H.
  specialize (fun Hstep => H Hstep sched 0%nat (resting n) s (le_n _) (between_start s n)).
  unfold resting in *. rewrite length_replicate in H. cbn [Nat.add] in H.
  assert (match run timer_turn sched (replicate n Resting) s with
    | Done ls s' => between s (length sched) ls s' | _ => False end) as Hr.
  { destruct (run timer_turn sched (replicate n Resting) s); apply H; try done.
    all: intros m ls1 s1 i p Hm Hb Hi;
      pose proof (between_turn s m ls1 s1 i p Hb H0 ltac:(lia) Hi); by destruct (timer_turn p s1). }
  destruct (run timer_turn sched (replicate n Resting) s); [by do 2 eexists|done..].
Qed.

(** A serial schedule of processors that rest, whatever the others do. *)
Lemma run_serially order ls t k s :
  Forall (fun i => ls !! i = Some Resting) order -> 0 <= t < 2 ^ 64 ->
  run timer_turn (serially order) ls (counted t k s) =
    Done ls (counted (u64 (t + Z.of_nat (length order))) (k + length order) s).
Proof.
  intros Hord. revert t k. induction Hord as [|i order Hi _ IH]; intros t k Ht.
  - cbn [length]. change (Z.of_nat 0) with 0. by rewrite Z.add_0_r, u64_small, Nat.add_0_r by done.
  - change (serially (i :: order)) with ([i; i; i] ++ serially order).
    pose proof (lookup_lt_Some _ _ _ Hi) as Hlen.
    assert (run timer_turn [i; i; i] ls (counted t k s) = Done ls (counted (t ⊕ 1) (S k) s)) as E.
    { rewrite (run_cons _ _ _ _ Resting) by done.
      erewrite bind_done by apply (timer_turn_done Resting).
      rewrite (run_cons _ _ _ _ (Loaded t)) by by apply list_lookup_insert_eq.
      erewrite bind_done by apply (timer_turn_done (Loaded t)).
      rewrite (run_cons _ _ _ _ Stored)
        by (apply list_lookup_insert_eq; by rewrite length_insert).
      erewrite bind_done by apply (timer_turn_done Stored).
      rewrite !list_insert_insert_eq. by rewrite list_insert_id. }
    rewrite run_app, (bind_done _ _ _ _ _ E), IH by apply u64_range. cbn [length].
    assert (u64 (t ⊕ 1 + Z.of_nat (length order)) = u64 (t + Z.of_nat (S (length order)))) as ->
      by (unfold u64; rewrite Zplus_mod_idemp_l; f_equal; lia).
    by rewrite Nat.add_succ_comm.
Qed.

(** ** Properties *)

(** Timer interrupts whose handlers do not overlap are [apic_timer] run once for
    each, on whichever processors they come: in particular every processor that is
    started adds its own ticks to the count [apic_sleep] takes for milliseconds. *)
Lemma serial_interrupts (s : kstate) (n : nat) (order : list nat)
    (Hn : Forall (fun i => i < n)%nat order) (Ht : 0 <= apic_timer_ticks (k_apic s) < 2 ^ 64) :
  exists s', run_times (length order) apic_timer s = Done tt s' /\
    run timer_turn (serially order) (resting n) s = Done (resting n) s' /\
    apic_timer_ticks (k_apic s') = u64 (apic_timer_ticks (k_apic s) + Z.of_nat (length order)).
Proof.
  eexists. split; [by apply run_times_apic_timer|]. split; [|done].
  unfold resting. rewrite <- (counted_id s) at 1. apply run_serially; [|done].
  eapply Forall_impl; [exact Hn|]. intros i Hi. by apply lookup_replicate.
Qed.

Lemma serial_interrupts_witness :
  exists s', run_times 3 apic_timer (sample_ticking 7) = Done tt s' /\
    run timer_turn (serially [0; 2; 1]%nat) (resting 4) (sample_ticking 7) = Done (resting 4) s' /\
    apic_timer_ticks (k_apic s') = 10.
Proof.
  apply (serial_interrupts (sample_ticking 7) 4 [0; 2; 1]%nat); [|by vm_compute].
  repeat constructor.
Defined.

(** C34: however the handlers of the processors interleave, once all of them have
    returned each interrupt has been acknowledged exactly once, the count has
    advanced by at most the number of interrupts and by at least one if there was
    any, and nothing else has changed. *)
Theorem interleaved_ticks (s : kstate) (n : nat) (sched : list nat)
    (Hn : Forall (fun i => i < n)%nat sched) (H0 : 0 <= apic_timer_ticks (k_apic s))
    (Hmax : apic_timer_ticks (k_apic s) + Z.of_nat (length sched) < 2 ^ 64) :
  exists ls s', run timer_turn sched (resting n) s = Done ls s' /\
    (Forall (eq Resting) ls ->
     exists k t, length sched = (3 * k)%nat /\ s' = counted t k s /\
       apic_timer_ticks (k_apic s) + Z.of_nat (k `min` 1) <= t <=
         apic_timer_ticks (k_apic s) + Z.of_nat k).
Proof.
  destruct (between_run s n sched H0 Hmax Hn) as (ls & s' & Hrun & Hb).
  exists ls, s'. split; [done|]. intros Hrest.
  destruct Hb as (t & k & st & Hm & Hst & Hlen & Ht & _).
  rewrite sum_list_with_zero, Nat.add_0_r in Hst, Hlen
    by by eapply Forall_impl; [exact Hrest|intros ? <-].
  exists k, t. by subst st.
Qed.

(** Two processors whose handlers overlap, and a third interrupt: all return. *)
Lemma interleaved_ticks_witness :
  exists s', run timer_turn [0; 1; 0; 0; 1; 1; 0; 0; 0]%nat (resting 2) (sample_ticking 7) =
      Done (resting 2) s' /\
    exists k t, 9%nat = (3 * k)%nat /\ s' = counted t k (sample_ticking 7) /\
      7 + Z.of_nat (k `min` 1) <= t <= 7 + Z.of_nat k.
Proof.
  destruct (interleaved_ticks (sample_ticking 7) 2 [0; 1; 0; 0; 1; 1; 0; 0; 0]%nat)
    as (ls & s' & E & H); [repeat constructor|done|done|].
  assert (ls = resting 2) as ->.
  { assert (match run timer_turn [0; 1; 0; 0; 1; 1; 0; 0; 0]%nat (resting 2) (sample_ticking 7) with
      Done l _ => l | _ => [] end = resting 2) as Hl by by vm_compute.
    by rewrite E in Hl. }
  exists s'. split; [exact E|]. apply H. by repeat constructor.
Defined.

(** the increment is not atomic: a processor that stores its count after
    another has served interrupts since it loaded it takes the count back.  However
    many they were, their ticks are lost, and the count decreases when there was
    more than one. *)
Theorem ticks_lost (s : kstate) (k : nat) (H0 : 0 <= apic_timer_ticks (k_apic s))
    (Hmax : apic_timer_ticks (k_apic s) + Z.of_nat k < 2 ^ 64 - 1) :
  let t := apic_timer_ticks (k_apic s) in
  let during := [0%nat] ++ serially (replicate k 1%nat) in
  run timer_turn during (resting 2) s = Done [Loaded t; Resting] (counted (t + Z.of_nat k) k s) /\
  run timer_turn (during ++ [0; 0]%nat) (resting 2) s = Done (resting 2) (counted (t + 1) (S k) s).
Proof.
  intros t during. pose proof (counted_id s) as Es. fold t in Es.
  assert (run timer_turn during (resting 2) s =
    Done [Loaded t; Resting] (counted (t + Z.of_nat k) k s)) as E.
  { unfold during, resting. rewrite <- Es at 1. cbn [app].
    rewrite (run_cons _ _ _ _ Resting) by done. erewrite bind_done by apply (timer_turn_done Resting).
    cbn [insert list_insert replicate].
    rewrite run_serially by (try apply Forall_replicate; done || lia).
    by rewrite length_replicate, u64_small by lia. }
  split; [exact E|]. rewrite run_app, (bind_done _ _ _ _ _ E).
  rewrite (run_cons _ _ _ _ (Loaded t)) by done. erewrite bind_done by apply (timer_turn_done (Loaded t)).
  rewrite (run_cons _ _ _ _ Stored) by done. erewrite bind_done by apply (timer_turn_done Stored).
  by rewrite u64_small by lia.
Qed.

Lemma ticks_lost_witness :
  run timer_turn [0; 1; 1; 1; 1; 1; 1]%nat (resting 2) (sample_ticking 7) =
    Done [Loaded 7; Resting] (counted 9 2 (sample_ticking 7)) /\
  run timer_turn [0; 1; 1; 1; 1; 1; 1; 0; 0]%nat (resting 2) (sample_ticking 7) =
    Done (resting 2) (counted 8 3 (sample_ticking 7)).
Proof. apply (ticks_lost (sample_ticking 7) 2); [done|by vm_compute]. Defined.
