(* ===== verification/Kern.v ===== *)
(** kern/kern.c: the entry point, which brings the machine up component by
    component and then idles. *)

From S2P Require Import Prelude Limine Types Machine Memory Sample CString Video Printf Log.
From S2P Require Import Pmm PmmInit Gdt Apic Ps2 Idt Acpi Vmm Smp.

(** ** Code *)

(** The terminal is set up on the first framebuffer; the check before it has an
    empty body. *)
Definition fb_init : M limine_framebuffer :=
  response ← gets (fun s => framebuffer_request_response (k_boot s));
  r ← deref response;
  index (fr_framebuffers r) 0.

Definition hcf : M unit := idle.

Definition NEOBIRD64_VERSION_MAJOR : string := "0.2".

(** The body of [_start], in two parts: the terminal and the processor's
    tables, ... *)
Definition start_tables : M unit :=
  fb_init ;;
  printf "{k}Welcome to Neobird64 v{skn}"
    [VStr ANSI_COLOR_CYAN; VStr NEOBIRD64_VERSION_MAJOR; VStr ANSI_COLOR_RESET] ;;
  log_info "Loading GDT..." ;;
  gdt_init ;;
  log_success "GDT loaded!" ;;
  log_info "Loading IDT..." ;;
  idt_init ;;
  log_success "IDT loaded!".

(** ... then memory, interrupt controllers, paging and processors. *)
Definition start_services (polls : nat) : M unit :=
  log_info "Loading PMM..." ;;
  pmm_init ;;
  log_success "PMM loaded!" ;;
  log_info "Initalizing ACPI and APIC..." ;;
  init_acpi polls ;;
  log_info "Loading VMM..." ;;
  vmm_init pmm_alloc_block ;;
  log_success "VMM loaded!" ;;
  log_info "Starting CPUs..." ;;
  smp_init polls ;;
  printf "Done!{n}" [] ;;
  printf "Hi!{n}" [] ;;
  hcf.

Definition _start (polls : nat) : M unit := start_tables ;; start_services polls.

(** ** Reference *)

(** What the processor has been told once segments and interrupts are set up. *)
Definition tables_loaded (lk : link_map) : list instr :=
  [Lgdt 55 (gdt_addr lk); LoadSegs 0x10 0x08; Ltr 0x28; Lidt 4095 (idt_addr lk); Sti].

(** ** Lemmas *)

Lemma instrs_log_line c p m : instrs (log_line c p m) = [].
Proof. apply instrs_console, log_line_console. Qed.

Lemma wp_gdt_init (Q : unit -> kstate -> Prop) H s :
  gdt (k_gdt s) !! 6%nat = Some gdtdesc_zero -> length (gdt (k_gdt s)) = 7%nat ->
  Q tt (emits [EvAsm (Lgdt 55 (gdt_addr (k_link s))); EvAsm (LoadSegs 0x10 0x08);
               EvAsm (Ltr 0x28)] (set_gdt (gdt_final (k_link s)) s)) ->
  wp gdt_init Q H s.
Proof. intros H6 Hl. apply wp_done, gdt_init_done; done. Qed.

Lemma wp_idt_init (Q : unit -> kstate -> Prop) H s :
  (forall g, Q tt (emits [EvAsm (Lidt 4095 (idt_addr (k_link s))); EvAsm Sti] (set_idt g s))) ->
  wp idt_init Q H s.
Proof.
  intros HQ. eapply wp_done; [|apply HQ]. unfold idt_init, idt_set.
  rewrite bind_gets, !bind_modify, (bind_done _ _ _ _ _ (set_gates_done _ _)).
  unfold idt_load. rewrite bind_gets, bind_asm. cbn beta. unfold asm. by rewrite emit_done, emits_app.
Qed.

(** A machine as the bootloader starts the kernel, with a framebuffer. *)
Definition fresh (s : kstate) : Prop :=
  k_gdt s = gdt_globals_init /\ k_pmm s = pmm_globals_init /\ k_vmm s = vmm_globals_init /\
  k_trace s = [] /\
  exists r f, framebuffer_request_response (k_boot s) = Some r /\ fr_framebuffers r !! 0%nat = Some f.

(** What [start_tables] leaves. *)
Definition tables_ready (s s1 : kstate) : Prop :=
  exists g es, s1 = emits es (set_idt g (set_gdt (gdt_final (k_link s)) s)) /\
    device es = EvAsm <$> tables_loaded (k_link s).

Lemma tables_ready_instrs lk es :
  device es = EvAsm <$> tables_loaded lk -> instrs es = tables_loaded lk.
Proof. intros E. by rewrite instrs_device, E, instrs_asm. Qed.

Lemma device_log_line c p m : device (log_line c p m) = [].
Proof. apply device_console, log_line_console. Qed.

Ltac boot_log :=
  try wp_step;
  lazymatch goal with
  | |- wp (log_info _) _ _ _ => apply wp_log_info
  | |- wp (log_success _) _ _ _ => apply wp_log_success
  end.

Lemma wp_start_tables s :
  fresh s -> wp start_tables (fun _ => tables_ready s) never s.
Proof.
  intros (Hg & _ & _ & Ht & r & f & Hr & Hf). unfold start_tables, fb_init.
  do 3 wp_step. rewrite Hr. wp_step. eapply wp_deref; [done|].
  apply (wp_index _ _ f); [lia|done|]. wp_step.
  eapply wp_printf; [reflexivity|]. boot_log. wp_step.
  apply wp_gdt_init; [cbn; by rewrite Hg|cbn; by rewrite Hg|].
  do 2 boot_log. wp_step. apply wp_idt_init. intros g. boot_log.
  exists g. eexists. split; [unfold emits; cbn -[log_line gdt_final]; rewrite <- !app_assoc; reflexivity|].
  rewrite !device_app, !device_log_line. reflexivity.
Qed.

(** [start_services] takes over in every way [start_tables] can end. *)
Lemma wp_start polls H s :
  fresh s -> (forall s1, tables_ready s s1 -> wp (start_services polls) (fun _ _ => False) H s1) ->
  wp (_start polls) (fun _ _ => False) H s.
Proof.
  intros Hs Hrest. unfold _start. apply wp_bind.
  eapply wp_mono; [by apply wp_start_tables|intros [] s1; apply Hrest|done].
Qed.

(** The memory map's preconditions do not depend on what [start_tables] does. *)
Lemma init_pre_tables s s1 mm e0 pa n es :
  tables_ready s s1 -> init_pre s mm e0 pa n -> init_pre (emits es s1) mm e0 pa n.
Proof. intros (g & es' & -> & _) []. by split. Qed.

(** ** Properties *)

(** without a memory map the kernel halts: segments and interrupts are set up
    in this order, then [pmm_init] panics, with interrupts off, RAM and the
    memory manager's globals untouched. *)
Theorem start_without_memmap (s : kstate) (polls : nat) (Hs : fresh s)
    (Hmm : memmap_request_response (k_boot s) = None) :
  exists s', _start polls s = Halted s' /\ k_ram s' = k_ram s /\ k_pmm s' = k_pmm s /\
    k_gdt s' = gdt_final (k_link s) /\
    instrs (k_trace s') = tables_loaded (k_link s) ++ [Cli; Hlt].
Proof.
  apply wp_inv_halted, wp_start; [done|]. intros s1 (g & es & -> & Hes%tables_ready_instrs).
  destruct Hs as (_ & _ & _ & Ht & _). unfold start_services. boot_log.
  unfold pmm_init. do 3 wp_step. cbn [k_boot emits set_trace set_idt set_gdt]. rewrite Hmm.
  apply wp_log_panic. do 3 (split; [done|]).
  cbn -[log_line tables_loaded]. by rewrite Ht, !instrs_app, !instrs_log_line, Hes.
Qed.

Definition sample_framebuffer : limine_framebuffer_response :=
  FramebufferResponse 0 1 [Framebuffer 0xE0000000 1024 768 4096].

Definition sample_boot_with (mm : option limine_memmap_response) : kstate :=
  start_state ∅ sample_hw
    (BootInfo mm (Some (HhdmResponse 0 0xffff800000000000)) None None
       (Some sample_framebuffer) None) sample_link.

Lemma sample_boot_fresh mm : fresh (sample_boot_with mm).
Proof. split_and!; try done. by eexists _, _. Qed.

Lemma start_without_memmap_witness :
  exists s', _start 0 (sample_boot_with None) = Halted s' /\ k_ram s' = ∅ /\
    k_pmm s' = pmm_globals_init /\ k_gdt s' = gdt_final sample_link /\
    instrs (k_trace s') = tables_loaded sample_link ++ [Cli; Hlt].
Proof. apply (start_without_memmap (sample_boot_with None)); [apply sample_boot_fresh|done]. Defined.

(** with a good memory map and no ACPI root pointer the kernel halts after
    memory is set up: the allocator's invariant holds with exactly the usable
    blocks outside the bitmap free, and the bitmap is addressed by its physical
    address, because the direct map's offset is only recorded later, by
    [vmm_init]. *)
Theorem start_without_rsdp (s : kstate) (polls : nat) (mm : limine_memmap_response)
    (e0 : limine_memmap_entry) (n : Z) (Hs : fresh s)
    (Hpre : init_pre s mm e0 (me_base e0) n)
    (Hsize : usable_size (mr_entries mm) <= 2 ^ 43)
    (Hent : forall e, e ∈ mr_entries mm -> usable e ->
      (4096 | me_base e) /\ (4096 | me_length e) /\ 0 <= me_length e /\
      me_base e + me_length e <= hw_ram_size (k_hw s))
    (Hrsdp : rsdp_request_response (k_boot s) = None) :
  exists s', _start polls s = Halted s' /\ pmm_inv s' (me_base e0) /\
    free_set s' (me_base e0) = init_free s mm e0 /\
    pmm_bitmap (k_pmm s') = u64 (me_base e0) /\ hhdmoffset (k_vmm s') = 0 /\
    instrs (k_trace s') = tables_loaded (k_link s) ++ [Cli; Hlt].
Proof.
  apply wp_inv_halted, wp_start; [done|]. intros s1 Hs1.
  unfold start_services. boot_log. wp_step.
  pose proof (init_pre_tables _ _ _ _ _ _
    (log_line ANSI_COLOR_CYAN "kern_info: " "Loading PMM...") Hs1 Hpre) as Hpre1.
  destruct Hs as (_ & _ & Hvm & Ht & _). destruct Hs1 as (g & es & -> & Hes%tables_ready_instrs).
  destruct (pmm_init_establishes _ mm e0 n Hpre1 Hsize Hent)
    as (es1 & s2 & Hes1 & E & (r' & -> & _) & Hinv & Hfree).
  apply (wp_done _ _ _ _ _ _ E). clear E.
  do 2 boot_log. wp_step. unfold init_acpi, init_acpi_tables. do 4 wp_step.
  cbn [k_boot emits set_trace set_idt set_gdt set_pmm set_ram]. rewrite Hrsdp.
  apply wp_log_panic. split; [by eapply pmm_inv_ext; [..|exact Hinv]; [| |auto]|].
  split; [exact Hfree|]. cbn -[log_line tables_loaded]. rewrite Hvm, Ht.
  split; [unfold init_bitmap; cbn; by rewrite Hvm, Z.add_0_r|]. split; [done|].
  rewrite !instrs_app, !instrs_log_line, Hes, (instrs_console es1) by done.
  reflexivity.
Qed.

Lemma start_without_rsdp_witness :
  exists s', _start 0 (sample_boot_with (Some sample_memmap)) = Halted s' /\
    pmm_inv s' 0x2000 /\ free_set s' 0x2000 = {[3; 4; 5; 6; 7]} /\
    pmm_bitmap (k_pmm s') = 0x2000 /\ hhdmoffset (k_vmm s') = 0 /\
    instrs (k_trace s') = tables_loaded sample_link ++ [Cli; Hlt].
Proof.
  apply (start_without_rsdp (sample_boot_with (Some sample_memmap)) 0 sample_memmap
    sample_usable 2);
    [apply sample_boot_fresh|destruct sample_init_pre; by split|done| |done].
  apply sample_entries. split; [by exists 2|split; [by exists 14|done]].
Defined.
