(* ===== verification/Boot.v ===== *)
(** A boot from the bootloader's jump to the final idle loop: the phases of
    kern.c's [_start], each with what it needs and what it leaves, and what they
    leave together. *)

From S2P Require Import Prelude Limine Types Machine Memory Sample CString Video Printf Log.
From S2P Require Import Allocator Pmm PmmInit Macros PageTable Vmm VmmInit.
From S2P Require Import AcpiTables Gdt Apic Ps2 Idt Acpi ApicInit Smp Kern.

(** ** What a boot needs *)

(** What the machine holds: the memory map with its first usable entry, the root
    pointer with the tables it leads to, the MADT's local APIC and records, the
    ACPI timer's port, the I/O APIC's version register, and the bootloader's other
    answers.  [bc_n] is the number of polls after which the devices have
    answered. *)
Record boot_config := BootConfig {
  bc_mm : limine_memmap_response;
  bc_e0 : limine_memmap_entry;
  bc_bitmap : Z;
  bc_rsdp : Z; bc_rsdt : Z; bc_xsdt : Z;
  bc_headers : list (Z * list Z);
  bc_lapic : Z;
  bc_records : list (Z * madt_rec);
  bc_port : Z;
  bc_version : Z;
  bc_ka : limine_kernel_address_response;
  bc_smp : limine_smp_response;
  bc_n : nat;
}.

(** RAM as [pmm_init] leaves it outside its bitmap. *)
Definition off_bitmap (c : boot_config) (r r' : gmap Z byte) : Prop :=
  forall a, a < me_base (bc_e0 c) \/ me_base (bc_e0 c) + bc_bitmap c <= a ->
    ram_get r' a = ram_get r a.

(** The memory map. *)
Record memory_ok (s : kstate) (c : boot_config) : Prop := {
  mem_pre : init_pre s (bc_mm c) (bc_e0 c) (me_base (bc_e0 c)) (bc_bitmap c);
  mem_size : usable_size (mr_entries (bc_mm c)) <= 2 ^ 43;
  mem_entries : forall e, e ∈ mr_entries (bc_mm c) -> usable e ->
    (4096 | me_base e) /\ (4096 | me_length e) /\ 0 <= me_length e /\
    me_base e + me_length e <= hw_ram_size (k_hw s);
  mem_zero : ~ (0 ∈ init_free s (bc_mm c) (bc_e0 c));
}.

(** The firmware's tables, none of which is where the bitmap goes, and the
    devices. *)
Record devices_ok (s : kstate) (c : boot_config) (polls : nat) : Prop := {
  do_tables : forall r', off_bitmap c (k_ram s) r' ->
    acpi_tables (set_ram r' s) (bc_rsdp c) (bc_rsdt c) (bc_xsdt c) (bc_headers c);
  do_madt : first_signed (codes "APIC") (bc_headers c) <> 0;
  do_fadt : first_signed (codes "FACP") (bc_headers c) <> 0;
  do_apic : forall r', off_bitmap c (k_ram s) r' ->
    apic_ready (set_acpi (acpi_found s (bc_rsdt c) (bc_xsdt c) (bc_headers c)) (set_ram r' s))
      (first_signed (codes "APIC") (bc_headers c)) (bc_lapic c) (bc_port c) (bc_records c)
      (bc_version c) (bc_n c);
  do_polls : (bc_n c < polls)%nat /\ max_redirection (bc_version c) <= Z.of_nat polls;
}.

(** The globals the memory manager's and the interrupt controllers' start-up
    leave, as far as [vmm_init] reads them. *)
Definition before_vmm (s : kstate) (c : boot_config) : kstate :=
  set_pmm (init_globals s (bc_mm c) (bc_e0 c)) (set_apic (apic_final s (bc_lapic c) (bc_records c)) s).

Definition boot_regions (s : kstate) (c : boot_config) : list region :=
  vmm_regions (before_vmm s c) (bc_ka c) (bc_mm c).

Record paging_ok (s : kstate) (c : boot_config) : Prop := {
  po_pre : vmm_init_pre (before_vmm s c) (bc_ka c) (bc_mm c);
  po_cost : cost (boot_regions s c) < Z.of_nat (size (init_free s (bc_mm c) (bc_e0 c)));
}.

(** The processors: one, or several and a timer that ticks. *)
Record smp_ok (s : kstate) (c : boot_config) (polls : nat) : Prop := {
  so_response : smp_request_response (k_boot s) = Some (bc_smp c);
  so_count : sr_cpu_count (bc_smp c) = Z.of_nat (length (sr_cpus (bc_smp c)));
  so_many : sr_cpu_count (bc_smp c) <> 1 ->
    sr_cpu_count (bc_smp c) < 2 ^ 14 /\ ticking (k_hw s) /\ (2 <= polls)%nat;
}.

(** ** The phases *)

(** What all phases keep. *)
Record same_machine (s s' : kstate) : Prop := {
  sm_hw : k_hw s' = k_hw s;
  sm_boot : k_boot s' = k_boot s;
  sm_link : k_link s' = k_link s;
  sm_keyboard : keyboard_state s' = keyboard_state s;
}.

(** After [pmm_init]. *)
Record memory_ready (s : kstate) (c : boot_config) (s2 : kstate) : Prop := {
  m2_machine : same_machine s s2;
  m2_pmm : k_pmm s2 = init_globals s (bc_mm c) (bc_e0 c);
  m2_vmm : k_vmm s2 = k_vmm s;
  m2_acpi : k_acpi s2 = k_acpi s;
  m2_apic : k_apic s2 = k_apic s;
  m2_ram : off_bitmap c (k_ram s) (k_ram s2);
  m2_inv : pmm_inv s2 (me_base (bc_e0 c));
  m2_free : free_set s2 (me_base (bc_e0 c)) = init_free s (bc_mm c) (bc_e0 c);
  m2_device : device (k_trace s2) = EvAsm <$> tables_loaded (k_link s);
}.

(** After [init_acpi], whose run has the parameters of [apic_start]. *)
Record devices_ready (s : kstate) (c : boot_config) (ev : list event) (s2 s3 : kstate) : Prop := {
  m3_machine : same_machine s s3;
  m3_pmm : k_pmm s3 = k_pmm s2;
  m3_vmm : k_vmm s3 = k_vmm s2;
  m3_ram : k_ram s3 = k_ram s2;
  m3_apic : k_apic s3 = apic_final s (bc_lapic c) (bc_records c);
  m3_device : device (k_trace s3) = device (k_trace s2) ++ ev;
}.

(** The events of [init_acpi] in a boot. *)
Definition apic_events (c : boot_config) (ev : list event) : Prop :=
  exists sp ts cur ds data,
    ev = apic_start 0 (bc_lapic c) (last_ioapic (bc_records c) 0)
      (default 1 (first_override 1 (bc_records c))) (bc_version c) sp ts cur ds data /\
    0 <= cur < 2 ^ 32 /\ Forall (timer_reading (bc_port c)) ts /\ drained ds.

(** ** Lemmas *)

Lemma same_machine_refl s : same_machine s s.
Proof. done. Qed.

Lemma acpi_tables_frame s s' rsdp r x hs :
  k_hw s' = k_hw s -> k_ram s' = k_ram s -> k_boot s' = k_boot s -> k_vmm s' = k_vmm s ->
  acpi_tables s rsdp r x hs -> acpi_tables s' rsdp r x hs.
Proof.
  intros Hhw Hram Hb Hv [H1 H2 H3 H4 H5 H6 H7].
  split; rewrite ?Hb, ?Hv; try done; try by apply (holds_frame s).
  - by apply (root_lists_frame s).
  - intros h Hh. destruct (H5 h Hh). split; [done|by apply (signed_frame s)].
Qed.

Lemma apic_ready_frame s s' m base port rs ver n :
  k_hw s' = k_hw s -> k_ram s' = k_ram s -> k_acpi s' = k_acpi s -> k_apic s' = k_apic s ->
  (length (k_trace s) <= length (k_trace s'))%nat ->
  apic_ready s m base port rs ver n -> apic_ready s' m base port rs ver n.
Proof.
  intros Hhw Hram Hac Hap Htr [(len & Hlen & Hr & Hrs) ? ? Hbase Htm ? ? ? ? Hkb].
  split; rewrite ?Hap, ?Hhw; try done; [|by apply (holds_frame s)|by apply (timer_at_frame s)|].
  - exists len. split; [by apply (holds_frame s)|]. split; [done|by apply (madt_at_frame s)].
  - intros t Ht. apply Hkb. lia.
Qed.

(** Logging is no device event. *)
Lemma device_emits_console s es : console_only es ->
  device (k_trace (emits es s)) = device (k_trace s).
Proof. intros Hes. cbn. by rewrite device_app, (device_console es), app_nil_r. Qed.

Lemma wp_pmm_init_boot s c s1 es (Q : unit -> kstate -> Prop) H :
  fresh s -> memory_ok s c -> tables_ready s s1 -> console_only es ->
  (forall s2, memory_ready s c s2 -> Q tt s2) -> wp pmm_init Q H (emits es s1).
Proof.
  intros (_ & _ & _ & Ht & _) [Hpre Hsize Hent _] Hs1 Hes HQ.
  pose proof (init_pre_tables _ _ _ _ _ _ es Hs1 Hpre) as Hpre1.
  destruct Hs1 as (g & es1 & -> & Hd).
  destruct (pmm_init_establishes _ (bc_mm c) (bc_e0 c) (bc_bitmap c) Hpre1 Hsize Hent)
    as (es2 & s2 & Hes2 & E & (r' & -> & _ & Hr) & Hinv & Hfree).
  eapply wp_done; [exact E|]. apply HQ. split; try done.
  cbn. by rewrite Ht, !device_app, Hd, (device_console es), (device_console es2), !app_nil_r.
Qed.

(** [init_acpi] up to the sti of [init_apic], and the rest of it when no interrupt
    comes. *)
Lemma init_acpi_boot s c polls s2 es :
  fresh s -> devices_ok s c polls -> k_apic s = apic_globals_init ->
  memory_ready s c s2 -> console_only es ->
  exists s1 s3 ev, (m ← init_acpi_tables; init_apic_off polls m) (emits es s2) = Done tt s1 /\
    pins_known s1 (bc_records c) /\ testing (k_trace s1) = false /\
    (exists io sp ts cur, Forall (timer_reading (bc_port c)) ts /\
       device (k_trace s1) = device (k_trace s2) ++
         apic_off 0 (bc_lapic c) io (bc_version c) sp ts cur) /\
    (ps2_int_init polls ;; log_success "IOAPIC initalized") s1 = Done tt s3 /\
    apic_events c ev /\ devices_ready s c ev s2 s3 /\
    exists es3 ds data io gsi, s3 = emits es3 s1 /\
      device es3 = controller_start ds data ++ entry_writes io gsi 0 ++ entry_writes io gsi 33.
Proof.
  intros (_ & _ & Hv0 & Ht0 & _) [Htab Hm Hf Hapic [Hp Hpp]] Hap0 [[Hhw Hbo Hlk Hkb] Hpmm Hvm Hac Hap Hram _ _ Hdev] Hes.
  set (s2' := emits es s2).
  assert (acpi_tables s2' (bc_rsdp c) (bc_rsdt c) (bc_xsdt c) (bc_headers c)) as Ht
    by (by apply (acpi_tables_frame (set_ram (k_ram s2) s)); [| | | |apply Htab]).
  destruct (init_acpi_tables_done s2' _ _ _ _ Ht) as (e1 & He1 & E).
  assert (acpi_found s2' (bc_rsdt c) (bc_xsdt c) (bc_headers c) =
    acpi_found s (bc_rsdt c) (bc_xsdt c) (bc_headers c)) as Eg
    by (unfold acpi_found; cbn; by rewrite Hvm).
  rewrite Eg in E. cbn [madt fadt acpi_found] in E.
  rewrite (proj2 (Z.eqb_neq _ 0) Hm), (proj2 (Z.eqb_neq _ 0) Hf) in E.
  set (sa := emits e1 (set_acpi (acpi_found s (bc_rsdt c) (bc_xsdt c) (bc_headers c)) s2')) in *.
  assert (apic_ready sa (first_signed (codes "APIC") (bc_headers c)) (bc_lapic c) (bc_port c)
    (bc_records c) (bc_version c) (bc_n c)) as Hready.
  { eapply apic_ready_frame; [..|apply (Hapic (k_ram s2))]; try done. cbn. rewrite Ht0. cbn. lia. }
  destruct (init_apic_off_done sa _ _ _ _ _ _ polls Hready Hp Hpp) as (s1 & sp & ts & cur & E1 & H1).
  destruct (ps2_int_init_after sa _ _ _ _ _ _ polls sp ts cur s1 Hready Hp H1)
    as (ds & data & e2 & Hds & Hd2 & E2).
  pose proof (apic_stopped_pins _ _ _ _ _ _ _ _ _ _ _ Hready H1) as Hpins.
  destruct H1 as (e3 & -> & Hd3 & Hcur & Hts). unfold sa in Hd2, Hd3.
  cbn [k_vmm emits set_trace set_acpi s2' k_apic] in Hd2, Hd3. rewrite Hap, Hap0 in Hd2, Hd3.
  rewrite Hvm, Hv0 in Hd3.
  eexists _, _, (device e3 ++ device e2). split; [rewrite (bind_done _ _ _ _ _ E); exact E1|].
  split; [exact Hpins|]. split.
  { rewrite testing_device. cbn. rewrite !device_app, Hdev, (device_console es), (device_console e1),
      !app_nil_r, Hd3 by done. unfold testing. by rewrite foldl_app, (test_apic_off _ _ _ _ _ _ (bc_port c)). }
  split.
  { eexists _, sp, ts, cur. split; [done|]. cbn.
    by rewrite !device_app, (device_console es), (device_console e1), !app_nil_r, Hd3. }
  split; [exact E2|]. split.
  - exists sp, ts, cur, ds, data. by rewrite Hd3, Hd2.
  - split; [|by exists e2, ds, data; eexists _, _]. split; try done.
    + cbn. unfold apic_final, scanned. cbn. by rewrite Hap.
    + cbn. by rewrite !device_app, (device_console es), (device_console e1), !app_nil_r, app_assoc.
Qed.

Lemma wp_init_acpi_boot s c polls s2 es (Q : unit -> kstate -> Prop) H :
  fresh s -> devices_ok s c polls -> k_apic s = apic_globals_init ->
  memory_ready s c s2 -> console_only es ->
  (forall ev s3, apic_events c ev -> devices_ready s c ev s2 s3 -> Q tt s3) ->
  wp (init_acpi polls) Q H (emits es s2).
Proof.
  intros Hf Hd Ha Hm Hes HQ.
  destruct (init_acpi_boot s c polls s2 es Hf Hd Ha Hm Hes) as (s1 & s3 & ev & E1 & _ & _ & _ & E3 & Hev & H3 & _).
  eapply wp_done; [|by apply (HQ ev s3)]. unfold init_acpi, init_apic.
  by rewrite <- (bind_assoc init_acpi_tables), (bind_done _ _ _ _ _ E1).
Qed.

(** The allocator's class, from its invariant at boot. *)
Lemma pmm_holds_boot s pa :
  pmm_inv s pa -> ~ (0 ∈ free_set s pa) -> ba_inv s ∅ (size (free_set s pa)).
Proof.
  intros Hinv H0. exists pa, (free_set s pa). split; [|done]. split; [done|set_solver +|].
  unfold blocks. cbn [fst snd]. by rewrite set_map_empty, (right_id_L ∅ _).
Qed.

Lemma vmm_init_pre_frame s s' ka mm :
  k_hw s' = k_hw s -> k_boot s' = k_boot s -> k_link s' = k_link s -> k_pmm s' = k_pmm s ->
  k_apic s' = k_apic s -> vmm_init_pre s ka mm -> vmm_init_pre s' ka mm.
Proof. intros Hhw Hb Hl Hp Ha []. split; by rewrite ?Hhw, ?Hb, ?Hl, ?Hp, ?Ha. Qed.

Lemma vmm_regions_frame s s' ka mm :
  k_hw s' = k_hw s -> k_link s' = k_link s -> k_pmm s' = k_pmm s -> k_apic s' = k_apic s ->
  vmm_regions s' ka mm = vmm_regions s ka mm.
Proof. intros Hhw Hl Hp Ha. unfold vmm_regions, vmm_regions_direct. by rewrite Hhw, Hl, Hp, Ha. Qed.

(** After [vmm_init]. *)
Record paging_ready (s : kstate) (c : boot_config) (root : Z) (k : nat) (s3 s4 : kstate)
    : Prop := {
  m4_machine : same_machine s s4;
  m4_apic : k_apic s4 = k_apic s3;
  m4_hhdm : hhdmoffset (k_vmm s4) = hw_direct_map (k_hw s);
  m4_inv : exists U n T, vmm_inv s4 U n T root;
  m4_translate : forall va, translate s4 root va = address_space (boot_regions s c) va;
  m4_device : device (k_trace s4) = device (k_trace s3) ++
    replicate k (EvAsm ReloadCr3) ++ [EvAsm (MovCr3 root); EvAsm ReloadCr3];
}.

Lemma wp_vmm_init_boot s c s2 ev s3 es (Q : unit -> kstate -> Prop) H :
  memory_ok s c -> paging_ok s c -> memory_ready s c s2 -> devices_ready s c ev s2 s3 ->
  console_only es ->
  (forall root k s4, paging_ready s c root k s3 s4 -> Q tt s4) ->
  wp (vmm_init pmm_alloc_block) Q H (emits es s3).
Proof.
  intros Hmem [Hpre Hcost] H2 [[Hhw Hbo Hlk Hkb] Hpmm Hvm Hram Hap Hdev] Hes HQ.
  destruct H2 as [[Hhw2 _ _ _] Hpmm2 _ _ _ _ Hinv Hfree _].
  set (s3' := emits es s3).
  assert (k_pmm s3' = init_globals s (bc_mm c) (bc_e0 c)) as Hpmm3
    by (change (k_pmm s3') with (k_pmm s3); by rewrite Hpmm).
  assert (ba_inv s3' ∅ (size (init_free s (bc_mm c) (bc_e0 c)))) as Hba.
  { rewrite <- Hfree. apply (ba_frame s2).
    - apply pmm_holds_boot; [done|]. rewrite Hfree. apply Hmem.
    - change (k_hw s3') with (k_hw s3). by rewrite Hhw, Hhw2.
    - exact Hpmm.
    - intros a _. change (k_ram s3') with (k_ram s3). by rewrite Hram. }
  assert (vmm_regions s3' (bc_ka c) (bc_mm c) = boot_regions s c) as Er
    by (by apply vmm_regions_frame).
  destruct (vmm_init_done s3' ∅ (size (init_free s (bc_mm c) (bc_e0 c))) (bc_ka c) (bc_mm c)) as (root & s4 & E & _ & [(e4 & r4 & k & -> & Hd) Hi Ht]);
    [by apply (vmm_init_pre_frame (before_vmm s c))|exact Hba|by rewrite Er|].
  eapply wp_done; [exact E|]. apply (HQ root k). split; try done.
  - cbn. by rewrite Hhw.
  - intros va. by rewrite Ht, Er.
  - cbn. by rewrite !device_app, (device_console es), Hd, app_nil_r.
Qed.

(** *** The last phase *)

Lemma wp_smp_init_boot s c polls s4 es (Q : unit -> kstate -> Prop) H :
  smp_ok s c polls -> same_machine s s4 -> 0 <= apic_timer_ticks (k_apic s4) < 2 ^ 20 ->
  console_only es ->
  (forall s5 e5, k_ram s5 = k_ram s4 -> k_hw s5 = k_hw s4 -> k_pmm s5 = k_pmm s4 ->
     k_vmm s5 = k_vmm s4 -> keyboard_state s5 = keyboard_state s4 ->
     0 <= apic_timer_ticks (k_apic s5) < 2 ^ 64 -> k_trace s5 = k_trace s4 ++ e5 -> Forall (smp_event s4) e5 ->
     started e5 = (if sr_cpu_count (bc_smp c) =? 1 then [] else goto s <$> sr_cpus (bc_smp c)) ->
     Q tt s5) ->
  wp (smp_init polls) Q H (emits es s4).
Proof.
  intros [Hresp Hcount Hmany] [Hhw Hbo Hlk _] Ht Hes HQ.
  destruct (Z.eqb_spec (sr_cpu_count (bc_smp c)) 1) as [H1|H1].
  - unfold smp_init. wp_steps. cbn [k_boot emits set_trace]. rewrite Hbo, Hresp.
    wp_step. rewrite H1, Z.eqb_refl. wp_step. apply wp_printf_typed; [reflexivity|].
    intros e2 He2. wp_step. apply (HQ _ (es ++ e2)); try done.
    + cbn. lia.
    + cbn. by rewrite app_assoc.
    + apply Forall_app. split; (eapply Forall_impl; [eassumption|by left]).
    + rewrite started_app, (started_console es), (started_console e2); done.
  - destruct (Hmany H1) as (Hsmall & Htick & Hp).
    destruct (smp_init_many (emits es s4) (bc_smp c) polls) as (s5 & E & e5 & t & -> & Htk & He5 & Hst);
      try done; [cbn; by rewrite Hbo|cbn; by rewrite Hhw|].
    eapply wp_done; [exact E|]. apply (HQ _ (es ++ e5)); try done.
    + cbn. lia.
    + cbn. by rewrite app_assoc.
    + apply Forall_app. split; [eapply Forall_impl; [eassumption|by left]|exact He5].
    + rewrite started_app, Hst, (started_console es) by done. unfold goto. cbn. by rewrite Hlk.
Qed.

Lemma vmm_inv_frame s s' U n T root :
  k_hw s' = k_hw s -> k_pmm s' = k_pmm s -> k_vmm s' = k_vmm s -> k_ram s' = k_ram s ->
  vmm_inv s U n T root -> vmm_inv s' U n T root.
Proof.
  intros Hhw Hp Hv Hr []. split; rewrite ?Hhw, ?Hv, ?Hr; try done.
  apply (ba_frame s); try done. intros a _. by rewrite Hr.
Qed.

(** What the other processors' start adds to the devices' trace. *)
Definition smp_device (s : kstate) (c : boot_config) (e : event) : Prop :=
  e = EvAsm Nop \/
  e = EvMmioWrite 32 (lapic_reg (hw_direct_map (k_hw s)) (bc_lapic c) LAPIC_EOI_REG) 0 \/
  exists cpu, e = EvSmpGoto cpu (ap_trampoline_addr (k_link s)).

Lemma started_device t : started (device t) = started t.
Proof.
  induction t as [|e t IH]; [done|]. unfold started, device in *.
  by destruct e; cbn; rewrite ?IH.
Qed.

Lemma smp_events_device s c s4 es :
  k_link s4 = k_link s -> lapic_address (k_apic s4) = bc_lapic c ->
  hhdmoffset (k_vmm s4) = hw_direct_map (k_hw s) ->
  Forall (smp_event s4) es -> Forall (smp_device s c) (device es).
Proof.
  intros Hlk Hla Hoff. induction 1 as [|e es He _ IH]; [constructor|].
  change (e :: es) with ([e] ++ es). rewrite device_app. apply Forall_app. split; [|done].
  destruct He as [He|[->|[->|[cpu ->]]]].
  - rewrite (device_console [e]); [constructor|]. by repeat constructor.
  - constructor; [by left|constructor].
  - constructor; [|constructor]. right. left. unfold eoi_event. by rewrite Hla, Hoff.
  - constructor; [|constructor]. right. right. exists cpu. by rewrite Hlk.
Qed.

(** What a machine needs to boot to the idle loop. *)
Record bootable (s : kstate) (c : boot_config) (polls : nat) : Prop := {
  bo_fresh : fresh s;
  bo_apic : k_apic s = apic_globals_init;
  bo_memory : memory_ok s c;
  bo_devices : devices_ok s c polls;
  bo_paging : paging_ok s c;
  bo_smp : smp_ok s c polls;
}.

(** The devices' view of a boot. *)
Definition boot_trace (s : kstate) (c : boot_config) (root : Z) (t : list event) : Prop :=
  exists ev k es,
    device t = (EvAsm <$> tables_loaded (k_link s)) ++ ev ++
      replicate k (EvAsm ReloadCr3) ++ [EvAsm (MovCr3 root); EvAsm ReloadCr3] ++ es ++ [EvAsm Hlt] /\
    apic_events c ev /\ Forall (smp_device s c) es /\
    started es = (if sr_cpu_count (bc_smp c) =? 1 then [] else goto s <$> sr_cpus (bc_smp c)).

(** What a boot leaves. *)
Record booted (s : kstate) (c : boot_config) (root : Z) (s' : kstate) : Prop := {
  bd_trace : boot_trace s c root (k_trace s');
  bd_inv : exists U n T, vmm_inv s' U n T root;
  bd_translate : forall va, translate s' root va = address_space (boot_regions s c) va;
  bd_hw : k_hw s' = k_hw s;
  bd_keyboard : keyboard_state s' = keyboard_state s;
  bd_ticks : 0 <= apic_timer_ticks (k_apic s') < 2 ^ 64;
}.

Lemma wp_start_services_boot s c polls s1 :
  bootable s c polls -> tables_ready s s1 ->
  wp (start_services polls) (fun _ _ => False) (fun s' => exists root, booted s c root s') s1.
Proof.
  intros [Hf Hap Hm Hd Hp Hs] H1. unfold start_services. boot_log. wp_step.
  apply (wp_pmm_init_boot s c); try done; [apply log_line_console|]. intros s2 H2.
  do 2 boot_log. wp_step. rewrite emits_app.
  apply (wp_init_acpi_boot s c polls); try done; [by apply console_only_app; apply log_line_console|].
  intros ev s3 Hev H3. boot_log. wp_step.
  apply (wp_vmm_init_boot s c s2 ev); try done; [apply log_line_console|].
  intros root k s4 [Hsm Hap4 Hoff (U & n & T & Hi) Ht Hdev]. do 2 boot_log. wp_step. rewrite emits_app.
  assert (k_apic s4 = apic_final s (bc_lapic c) (bc_records c)) as Ea
    by (rewrite Hap4; apply H3).
  apply (wp_smp_init_boot s c); try done; [rewrite Ea; cbn; by rewrite Hap|
    by apply console_only_app; apply log_line_console|].
  intros s5 e5 Hram Hhw Hpmm Hvm Hkb Htk Htr He5 Hst. wp_step.
  apply wp_printf_typed; [reflexivity|]. intros e6 He6. wp_step.
  apply wp_printf_typed; [reflexivity|]. intros e7 He7.
  unfold wp, hcf. rewrite idle_halts, !emits_app. set (e8 := e6 ++ e7 ++ [EvAsm Hlt]).
  assert (device (k_trace (emits e8 s5)) = device (k_trace s4) ++ device e5 ++ [EvAsm Hlt]) as Ed.
  { unfold e8. cbn. rewrite Htr, !device_app, (device_console e6), (device_console e7) by done.
    by rewrite <- app_assoc. }
  exists root. split; [| | |destruct Hsm; cbn; congruence..|done].
  - exists ev, k, (device e5). split; [|split; [done|split]].
    + rewrite Ed, Hdev, (m3_device _ _ _ _ _ H3), (m2_device _ _ _ H2). by rewrite <- !app_assoc.
    + apply (smp_events_device s c s4); try done; [apply Hsm|by rewrite Ea].
    + by rewrite started_device.
  - exists U, n, T. by apply (vmm_inv_frame s4).
  - intros va. rewrite <- Ht. unfold translate. cbn. by rewrite Hram.
Qed.

Lemma boot_done s c polls :
  bootable s c polls -> exists s' root, _start polls s = Halted s' /\ booted s c root s'.
Proof.
  intros Hb. enough (exists s', _start polls s = Halted s' /\ exists root, booted s c root s')
    as (s' & E & root & H) by eauto.
  apply wp_inv_halted, wp_start; [apply Hb|]. intros s1. by apply wp_start_services_boot.
Qed.

(** ** Properties *)

(** C4: from a machine with a good memory map, the ACPI tables and devices the
    kernel relies on, enough memory for its page tables and the processors the
    bootloader lists, [_start] ends in the idle loop.  What the devices saw is, in
    order: segments and interrupt table loaded, the interrupt controllers and the
    keyboard programmed, the kernel's page tables loaded, the processors started
    in the bootloader's order, and the halt.  The page tables are well formed over
    the allocator's blocks, every address translates as the list of regions says,
    and with the image laid out as the linker script has it the kernel's text,
    data and page 0 are protected. *)
Theorem boot_idles (s : kstate) (c : boot_config) (polls : nat) (Hb : bootable s c polls) :
  exists s' root, _start polls s = Halted s' /\ booted s c root s' /\
    (image_layout (before_vmm s c) (bc_mm c) ->
     protected (before_vmm s c) (bc_ka c) (translate s' root)).
Proof.
  destruct (boot_done s c polls Hb) as (s' & root & E & Hbd).
  exists s', root. do 2 (split; [done|]). intros Hlay.
  destruct (regions_protected _ _ _ (po_pre _ _ (bo_paging _ _ _ Hb)) Hlay).
  split; intros va; rewrite (bd_translate _ _ _ _ Hbd); auto.
Qed.

(** *** A machine that boots: 64 MiB, two processors, the firmware's tables below
    0x2000 *)

Definition boot_ram : gmap Z byte :=
  ram_write 0x135b [to_byte 4] (ram_write 0x134c (to_byte <$> [8; 6; 0; 0])
    (ram_write 0x1300 (to_byte <$> codes "FACP")
      (ram_write 0x1224 (to_byte <$> [0; 0; 0xe0; 0xfe]) (ram_write 0x1200 sample_madt_bytes
        (ram_write 0x1124 (to_byte <$> [0; 0x13; 0; 0; 0; 0x12; 0; 0])
          (ram_write 0x1104 (to_byte <$> [44; 0; 0; 0])
            (ram_write 0x1010 (to_byte <$> [0; 0x11; 0; 0]) ∅))))))).

Definition boot_state_with (irq : list event -> nat) : kstate :=
  start_state boot_ram (Hardware 0x4000000 0xffff800000000000 sample_devices irq)
    (BootInfo (Some big_memmap) (Some (HhdmResponse 0 0xffff800000000000)) (Some big_ka)
      (Some (RsdpResponse 0 0x1000)) (Some sample_framebuffer) (Some sample_smp)) sample_link.

(** One timer interrupt at every poll. *)
Definition boot_state : kstate := boot_state_with (fun _ => 1%nat).

Definition boot_records : list (Z * madt_rec) :=
  [(0x122c, LocalApic 1 1); (0x1234, IoApic 0xfec00000); (0x1240, SourceOverride 1 9)].

Definition sample_config : boot_config :=
  BootConfig big_memmap (MemmapEntry 0x2000 0x3FFE000 0) 2048 0x1000 0x1100 0
    [(0x1300, codes "FACP"); (0x1200, codes "APIC")] 0xfee00000 boot_records 0x608 0x170011
    big_ka sample_smp 2.

(** Values below the bitmap do not depend on what it holds. *)
Lemma low_holds irq s r' va n v :
  k_hw s = k_hw (boot_state_with irq) -> off_bitmap sample_config boot_ram r' -> k_ram s = r' ->
  0x1000 <= va -> va + Z.of_nat n <= 0x2000 -> le_val (ram_read boot_ram va n) = v ->
  holds s va n v.
Proof.
  intros Hhw Hoff Hram H1 H2 Hv. exists va. split.
  - apply mapped_identity; rewrite ?Hhw; cbn; lia.
  - rewrite <- Hv, Hram. f_equal. apply ram_read_ext. intros i Hi. apply Hoff. cbn. lia.
Qed.

Ltac low_holds Hoff :=
  cbn [rec_fields];
  match goal with |- holds _ ?va _ _ =>
    let p := eval vm_compute in va in change va with p
  end;
  eapply low_holds; [reflexivity|exact Hoff|reflexivity|by vm_compute..].

Lemma boot_memory_ok irq : memory_ok (boot_state_with irq) sample_config.
Proof.
  split.
  - split; try done.
    + split; try done. intros e [->|[->|[]%elem_of_nil]%elem_of_cons]%elem_of_cons; [done|].
      intros _. split; [by exists 2|done].
    + apply mapped_identity; by vm_compute.
    + intros e [->|[->|[]%elem_of_nil]%elem_of_cons]%elem_of_cons; done.
  - done.
  - intros e [->|[->|[]%elem_of_nil]%elem_of_cons]%elem_of_cons; [done|]. intros _.
    split; [by exists 2|]. split; [by exists 0x3FFE|done].
  - unfold init_free. rewrite elem_of_list_to_set, list_elem_of_filter. by intros [[Hu _] _].
Qed.

Lemma boot_devices_ok irq : devices_ok (boot_state_with irq) sample_config 23.
Proof.
  split; try done.
  - intros r' Hoff. split.
    + by eexists.
    + low_holds Hoff.
    + low_holds Hoff.
    + split; [low_holds Hoff|]. intros [|[|i]] p Hp; try done; injection Hp as <-; low_holds Hoff.
    + intros h [->|[->|[]%elem_of_nil]%elem_of_cons]%elem_of_cons; (split; [done|]);
        intros [|[|[|[|i]]]] ch Hc; try done; injection Hc as <-; low_holds Hoff.
    + intros h [->|[->|[]%elem_of_nil]%elem_of_cons]%elem_of_cons; done.
    + done.
  - intros r' Hoff. split; try done.
    + exists 74. split; [low_holds Hoff|]. split; [done|].
      apply (madt_cons _ _ 30 _ 8); [low_holds Hoff|split; low_holds Hoff|low_holds Hoff|lia|].
      apply (madt_cons _ _ 22 _ 12); [low_holds Hoff|low_holds Hoff|low_holds Hoff|lia|].
      apply (madt_cons _ _ 10 _ 10); [low_holds Hoff|split; low_holds Hoff|low_holds Hoff|lia|].
      apply madt_end.
    + cbn. lia.
    + low_holds Hoff.
    + split; low_holds Hoff.
    + by apply sample_devices_run.
  - split; [cbn; lia|by vm_compute].
Qed.

Lemma boot_free_size irq : size (init_free (boot_state_with irq) big_memmap (bc_e0 sample_config)) = Z.to_nat 14327.
Proof.
  unfold init_free. rewrite size_list_to_set by apply NoDup_filter, NoDup_zrange.
  by vm_compute.
Qed.

Lemma boot_paging_ok irq : paging_ok (boot_state_with irq) sample_config.
Proof.
  split.
  - split; try done; [by eexists| |].
    + intros e [->|[->|[]%elem_of_nil]%elem_of_cons]%elem_of_cons; done.
    + repeat constructor; done.
  - change (bc_mm sample_config) with big_memmap. rewrite boot_free_size, Z2Nat.id by done.
    by vm_compute.
Qed.

Lemma boot_smp_ok : smp_ok boot_state sample_config 23.
Proof. split; try done. intros _. split; [done|]. split; [intros t; cbn; lia|lia]. Qed.

Lemma boot_bootable : bootable boot_state sample_config 23.
Proof.
  split; [|done|apply boot_memory_ok|apply boot_devices_ok|apply boot_paging_ok|apply boot_smp_ok].
  split_and!; try done. by eexists _, _.
Qed.

Lemma boot_layout : image_layout (before_vmm boot_state sample_config) big_memmap.
Proof.
  split; try done.
  intros e [->|[->|[]%elem_of_nil]%elem_of_cons]%elem_of_cons; done.
Qed.

Lemma boot_idles_witness :
  exists s' root, _start 23 boot_state = Halted s' /\ booted boot_state sample_config root s' /\
    protected (before_vmm boot_state sample_config) big_ka (translate s' root).
Proof.
  destruct (boot_idles boot_state sample_config 23 boot_bootable) as (s' & root & E & Hb & Hprot).
  exists s', root. do 2 (split; [assumption|]). exact (Hprot boot_layout).
Defined.
