(* ===== verification/Idle.v ===== *)
(** The kernel at work: after the boot everything happens in the handlers of the
    timer's and the keyboard's interrupts, which arrive in any order while the
    processor idles. *)

From S2P Require Import Prelude Limine Types Machine Memory Sample CString Video Printf Log.
From S2P Require Import Allocator Pmm PmmInit Vmm VmmInit Gdt AcpiTables Apic Ps2 Idt Acpi ApicInit.
From S2P Require Import Smp Kern Boot.

(** ** The interrupts of an idle processor *)

Inductive irq := Timer | Keyboard.

(** The vectors the I/O APIC and the local APIC's timer are programmed with. *)
Definition vector (q : irq) : Z := match q with Timer => 172 | Keyboard => 33 end.

(** One interrupt: whatever the registers and the interrupted state, the
    processor saves its state, the vector's stub runs, and comes back. *)
Inductive idle_step (s : kstate) (q : irq) (s' : kstate) : Prop :=
  | idle_irq c p c' out :
      isr_common_stub c (isr_stub (vector q) (deliver (vector q) 0 p)) s = Done (c', out) s' ->
      idle_step s q s'.

(** A run: interrupts in the order they arrive. *)
Inductive idle_run : kstate -> list irq -> kstate -> Prop :=
  | idle_nil s : idle_run s [] s
  | idle_cons s q s1 qs s' :
      idle_step s q s1 -> idle_run s1 qs s' -> idle_run s (q :: qs) s'.

(** ** Reference: what a run does *)

(** The scan codes a trace reads. *)
Definition scancodes (t : list event) : list Z :=
  omap (fun e => match e with EvInb 0x60 v => Some v | _ => None end) t.

(** The characters a sequence of scan codes types. *)
Fixpoint typed (st : Z) (codes : list Z) : list Z :=
  match codes with
  | [] => []
  | sc :: codes =>
      match key_char st sc with Some c => [c] | None => [] end ++
      typed (next_key_state st sc) codes
  end.

Definition timers (qs : list irq) : nat :=
  length (filter (fun q => match q with Timer => true | Keyboard => false end = true) qs).

Definition eoi_address (s : kstate) : Z :=
  lapic_address (k_apic s) ⊕ LAPIC_EOI_REG ⊕ hhdmoffset (k_vmm s).

(** The parts of the state no interrupt changes. *)
Record undisturbed (s s' : kstate) : Prop := {
  un_ram : k_ram s' = k_ram s;
  un_hw : k_hw s' = k_hw s;
  un_pmm : k_pmm s' = k_pmm s;
  un_vmm : k_vmm s' = k_vmm s;
  un_lapic : lapic_address (k_apic s') = lapic_address (k_apic s);
}.

(** A run with the interrupts [qs] from [s] to [s']: its events read one scan code
    per keyboard interrupt, write what those codes type, and signal one end of
    interrupt each; the keyboard's state machine and the tick counter follow. *)
Record served (s : kstate) (qs : list irq) (s' : kstate) : Prop := {
  sv_same : undisturbed s s';
  sv_keys : key_state_ok (keyboard_state s');
  sv_testing : testing (k_trace s') = false;
  sv_ticks : apic_timer_ticks (k_apic s') =
    u64 (apic_timer_ticks (k_apic s) + Z.of_nat (timers qs));
  sv_events : exists es, k_trace s' = k_trace s ++ es /\
    length (scancodes es) = (length qs - timers qs)%nat /\
    keyboard_state s' = foldl next_key_state (keyboard_state s) (scancodes es) /\
    console es = typed (keyboard_state s) (scancodes es) /\
    writes_to (eoi_address s) es = replicate (length qs) 0;
}.

(** The keyboard sends only codes the table covers; the controller's answer to its
    self-test, read at the same port, may be any. *)
Definition keyboard_tabled (hw : hardware) : Prop :=
  forall t, testing t = false -> untabled (u8 (hw_dev hw t (RInb 0x60))) = false.

(** The kernel is idle and can take interrupts. *)
Record idle_ok (s : kstate) : Prop := {
  io_keys : key_state_ok (keyboard_state s);
  io_ticks : 0 <= apic_timer_ticks (k_apic s) < 2 ^ 64;
  io_tabled : keyboard_tabled (k_hw s);
  io_testing : testing (k_trace s) = false;
}.

(** Whatever its keyboard sends. *)
Record alive (s : kstate) : Prop := {
  al_keys : key_state_ok (keyboard_state s);
  al_ticks : 0 <= apic_timer_ticks (k_apic s) < 2 ^ 64;
  al_testing : testing (k_trace s) = false;
}.

(** The interrupts [qs] take [s] to [s'] and nowhere else, and are served. *)
Definition served_by (s : kstate) (qs : list irq) (s' : kstate) : Prop :=
  idle_run s qs s' /\ served s qs s' /\ forall s2, idle_run s qs s2 -> s2 = s'.

(** The next scan code is past the table, and its interrupt does not return. *)
Definition past_table (s : kstate) : Prop :=
  0x3B <= key_code s <= 0x58 /\
  forall c p, isr_common_stub c (isr_stub 33 (deliver 33 0 p)) s =
    Fault (OutOfBounds (key_code s)) (emits [EvInb 0x60 (key_code s)] s).

(** The processor takes interrupts, the keyboard's only if [kb]: its pin is masked
    until [ps2_int_init] is through. *)
Record ready (kb : bool) (s : kstate) : Prop := {
  rd_keys : key_state_ok (keyboard_state s);
  rd_ticks : 0 <= apic_timer_ticks (k_apic s) < 2 ^ 64;
  rd_tabled : kb = true -> keyboard_tabled (k_hw s);
  rd_testing : kb = true -> testing (k_trace s) = false;
}.

Definition allowed (kb : bool) (q : irq) : Prop := q = Keyboard -> kb = true.

(** ** Lemmas *)

Lemma idle_ready s : idle_ok s <-> ready true s.
Proof. split; intros []; split; auto. Qed.

Lemma scancodes_app t t' : scancodes (t ++ t') = scancodes t ++ scancodes t'.
Proof. apply omap_app. Qed.

Lemma typed_app st cs cs' : typed st (cs ++ cs') = typed st cs ++ typed (foldl next_key_state st cs) cs'.
Proof.
  revert st. induction cs as [|c cs IH]; intros st; [done|]. cbn. by rewrite IH, app_assoc.
Qed.

Lemma next_key_state_ok st sc : key_state_ok st -> key_state_ok (next_key_state st sc).
Proof. unfold key_state_ok, next_key_state. intros [->|[->| ->]]; repeat case_match; tauto. Qed.

(** The handler's result on each vector. *)
Definition irq_done (q : irq) (s : kstate) : kstate :=
  match q with Timer => ticked 1 s | Keyboard => key_pressed (key_code s) s end.

Lemma isr_done_at q s c p :
  key_state_ok (keyboard_state s) -> 0 <= apic_timer_ticks (k_apic s) < 2 ^ 64 ->
  (q = Keyboard -> untabled (key_code s) = false) ->
  isr_common_stub c (isr_stub (vector q) (deliver (vector q) 0 p)) s =
    Done (c, saved_state p) (irq_done q s).
Proof.
  intros Hk Ht Hun. apply isr_returns; [by destruct q|].
  intros r Hr. rewrite exception_handler_irq, Hr by (rewrite ?Hr; destruct q; done).
  destruct q; [done|]. apply ps2_handler_done; auto.
Qed.

Lemma step_done_at s q s' :
  key_state_ok (keyboard_state s) -> 0 <= apic_timer_ticks (k_apic s) < 2 ^ 64 ->
  (q = Keyboard -> untabled (key_code s) = false) -> idle_step s q s' <-> s' = irq_done q s.
Proof.
  intros Hk Ht Hun. split.
  - intros [c p c' out E]. rewrite isr_done_at in E by done. by injection E as _ _ <-.
  - intros ->. eapply (idle_irq _ _ _ (CpuRegs 0 0 0 0 0 0 0 0 0 0 0 0 0 0 0) (CpuState 0 0 0 0 0)).
    by apply isr_done_at.
Qed.

Lemma step_done kb s q s' : ready kb s -> allowed kb q -> idle_step s q s' <-> s' = irq_done q s.
Proof.
  intros [Hk Ht Htab Htest] Ha. apply step_done_at; [done..|]. intros ->. specialize (Ha eq_refl).
  apply Htab; auto.
Qed.

Lemma idle_step_done s q s' : idle_ok s -> idle_step s q s' <-> s' = irq_done q s.
Proof. intros Hs. by apply (step_done true); [apply idle_ready|]. Qed.

Lemma idle_run_app s qs s1 qs' s' :
  idle_run s qs s1 -> idle_run s1 qs' s' -> idle_run s (qs ++ qs') s'.
Proof. induction 1 as [s|s q s1' qs s1 Hq _ IH]; [done|]. intros H'. econstructor; eauto. Qed.

Lemma idle_run_app_inv qs : forall s qs' s',
  idle_run s (qs ++ qs') s' -> exists s1, idle_run s qs s1 /\ idle_run s1 qs' s'.
Proof.
  induction qs as [|q qs IH]; intros s qs' s' H; [exists s; split; [constructor|done]|].
  inversion H as [|? ? s2 ? ? Hq Hr]; subst. destruct (IH _ _ _ Hr) as (s1 & H1 & H2).
  exists s1. split; [by econstructor|done].
Qed.

Lemma idle_alive s : idle_ok s -> alive s.
Proof. by intros []. Qed.

Lemma served_refl s : alive s -> served s [] s.
Proof.
  intros [Hk Ht Hte]. split; [done|done|done|cbn; by rewrite Z.add_0_r, u64_small|].
  exists []. by rewrite app_nil_r.
Qed.

Lemma writes_to_eoi s : writes_to (eoi_address s) [eoi_event s] = [0].
Proof. unfold writes_to, eoi_event. cbn. unfold eoi_address. by rewrite Z.eqb_refl. Qed.

Lemma key_events_quiet s st sc :
  scancodes (key_events st sc) = [] /\ writes_to (eoi_address s) (key_events st sc) = [] /\
  console (key_events st sc) = match key_char st sc with Some c => [c] | None => [] end.
Proof. unfold key_events. by destruct (key_char st sc). Qed.

Lemma test_key_events b st sc : foldl test_step b (key_events st sc) = b.
Proof. unfold key_events. by case_match. Qed.

Lemma testing_irq q s : testing (k_trace s) = false -> testing (k_trace (irq_done q s)) = false.
Proof.
  intros Ht. destruct q.
  - change (testing (k_trace s ++ [eoi_event s]) = false). by rewrite testing_app, Ht.
  - set (sc := key_code s). change (testing (k_trace s ++ [EvInb 0x60 sc] ++
      key_events (keyboard_state s) sc ++ [eoi_event s]) = false).
    by rewrite testing_app, !foldl_app, test_key_events.
Qed.

Lemma served_step s q : alive s -> served s [q] (irq_done q s).
Proof.
  intros [Hk Ht Hte]. destruct q; split; try done; try by apply (testing_irq Timer).
  - exists [eoi_event s]. split; [done|]. split; [done|]. split; [done|]. split; [done|].
    apply writes_to_eoi.
  - by apply next_key_state_ok.
  - by apply (testing_irq Keyboard).
  - cbn. by rewrite Z.add_0_r, u64_small.
  - destruct (key_events_quiet s (keyboard_state s) (key_code s)) as (H1 & H2 & H3).
    exists (EvInb 0x60 (key_code s) :: key_events (keyboard_state s) (key_code s) ++ [eoi_event s]).
    change (EvInb 0x60 (key_code s) :: ?l) with ([EvInb 0x60 (key_code s)] ++ l).
    rewrite !scancodes_app, !console_app, !writes_to_app, H1, H2, H3, writes_to_eoi.
    by cbn.
Qed.

Lemma served_trans s qs s1 qs' s2 : served s qs s1 -> served s1 qs' s2 -> served s (qs ++ qs') s2.
Proof.
  intros [[Hr1 Hh1 Hp1 Hv1 Hl1] _ _ Ht1 (e1 & Etr1 & Hn1 & Hk1 & Hc1 & Hw1)]
    [[Hr2 Hh2 Hp2 Hv2 Hl2] Hok Hte Ht2 (e2 & Etr2 & Hn2 & Hk2 & Hc2 & Hw2)].
  assert (timers (qs ++ qs') = (timers qs + timers qs')%nat) as Et
    by (unfold timers; by rewrite filter_app, length_app).
  assert (forall l, (timers l <= length l)%nat) as Hle by (intros; apply length_filter).
  assert (eoi_address s1 = eoi_address s) as Ea by (unfold eoi_address; by rewrite Hl1, Hv1).
  split; [split; congruence|done|done| |].
  - rewrite Ht2, Ht1, Et. unfold u64. rewrite Zplus_mod_idemp_l. f_equal. lia.
  - exists (e1 ++ e2). split; [by rewrite Etr2, Etr1, app_assoc|].
    rewrite !scancodes_app, console_app, writes_to_app, !length_app, foldl_app, typed_app, Et.
    pose proof (Hle qs). pose proof (Hle qs').
    split; [lia|]. split; [by rewrite Hk2, Hk1|]. split; [by rewrite Hc1, Hc2, Hk1|].
    by rewrite Hw1, <- Ea, Hw2, replicate_add.
Qed.

Lemma served_alive s qs s' : served s qs s' -> alive s'.
Proof. intros [_ Hk Hte Ht _]. split; [done| |done]. rewrite Ht. apply u64_range. Qed.

Lemma served_tabled s qs s' :
  served s qs s' -> keyboard_tabled (k_hw s) -> untabled (key_code s') = false.
Proof. intros [[_ Hhw _ _ _] _ Hte _ _] Htab. unfold key_code. rewrite Hhw. by apply Htab. Qed.

Lemma served_nil s : alive s -> served_by s [] s.
Proof.
  intros Hs. split; [constructor|]. split; [by apply served_refl|]. intros s2 H. by inversion H.
Qed.

(** One more interrupt, where the keyboard's code is in the table. *)
Lemma served_snoc s qs s1 q :
  served_by s qs s1 -> (q = Keyboard -> untabled (key_code s1) = false) ->
  served_by s (qs ++ [q]) (irq_done q s1).
Proof.
  intros (Hrun & Hsv & Huniq) Hun. pose proof (served_alive _ _ _ Hsv) as [Hk Ht Hte].
  split; [|split].
  - eapply idle_run_app; [exact Hrun|]. econstructor; [by apply step_done_at|constructor].
  - eapply served_trans; [exact Hsv|by apply served_step].
  - intros s2 (s1' & H1 & H2)%idle_run_app_inv. apply Huniq in H1 as ->.
    inversion H2 as [|? ? s3 ? ? Hq Hnil]; subst. inversion Hnil; subst. by apply step_done_at in Hq.
Qed.

Lemma keyboard_past_table s :
  alive s -> untabled (key_code s) = true -> past_table s.
Proof.
  intros [Hk Ht _] Hun. split; [unfold untabled in Hun; lia|]. intros c p.
  destruct (isr_runs s c p 33 0 eq_refl) as (r & Hr & ->). apply bind_fault.
  rewrite exception_handler_irq, Hr by (rewrite ?Hr; done).
  by rewrite ps2_handler_outcome, Hun.
Qed.

Lemma past_table_stuck s s' : past_table s -> ~ idle_step s Keyboard s'.
Proof. intros [_ H] [c p c' out E]. cbn [vector] in E. by rewrite H in E. Qed.

(** Interrupts are served to the end, or to the first key past the table. *)
Lemma served_or_past s qs :
  alive s ->
  (exists s', served_by s qs s') \/
  (exists qs1 qs2 s1, qs = qs1 ++ Keyboard :: qs2 /\ served_by s qs1 s1 /\ past_table s1).
Proof.
  intros Hs. induction qs as [|q qs IH] using rev_ind; [left; exists s; by apply served_nil|].
  destruct IH as [[s1 H1]|(qs1 & qs2 & s1 & -> & H)].
  - assert ((q = Keyboard -> untabled (key_code s1) = false) \/
      (q = Keyboard /\ untabled (key_code s1) = true)) as [Hun|[-> Hun]]
      by (destruct q, (untabled (key_code s1)); naive_solver).
    + left. exists (irq_done q s1). by apply served_snoc.
    + right. exists qs, [], s1. split; [done|]. split; [done|].
      apply keyboard_past_table; [|done]. eapply served_alive, H1.
  - right. exists qs1, (qs2 ++ [q]), s1. by rewrite <- app_assoc.
Qed.

Lemma past_table_ends s qs1 qs2 s1 s2 :
  served_by s qs1 s1 -> past_table s1 -> ~ idle_run s (qs1 ++ Keyboard :: qs2) s2.
Proof.
  intros (_ & _ & Huniq) Hp (s1' & H1 & H2)%idle_run_app_inv. apply Huniq in H1 as ->.
  inversion H2; subst. by eapply past_table_stuck.
Qed.

Lemma tabled_served s qs : alive s -> keyboard_tabled (k_hw s) -> exists s', served_by s qs s'.
Proof.
  intros Hs Htab. destruct (served_or_past s qs Hs) as [|(qs1 & qs2 & s1 & _ & (_ & Hsv & _) & [Hc _])];
    [done|]. pose proof (served_tabled _ _ _ Hsv Htab) as Hun. unfold untabled in Hun. lia.
Qed.

(** A boot leaves no self-test unanswered. *)
Lemma test_smp_device s c es : Forall (smp_device s c) es -> foldl test_step false es = false.
Proof.
  induction 1 as [|e es He _ IH]; [done|]. by destruct He as [->|[->|[cpu ->]]].
Qed.

Lemma test_reloads k b : foldl test_step b (replicate k (EvAsm ReloadCr3)) = b.
Proof. by induction k. Qed.

Lemma test_apic_events b c ev : apic_events c ev -> foldl test_step b ev = false.
Proof.
  intros (sp & ts & cur & ds & data & -> & _). unfold apic_start, apic_off, controller_start.
  rewrite !foldl_app. reflexivity.
Qed.

Lemma boot_trace_testing s c root t : boot_trace s c root t -> testing t = false.
Proof.
  intros (ev & k & es & Et & Hev & Hes & _). rewrite testing_device, Et. unfold testing.
  rewrite !foldl_app, (test_apic_events _ _ _ Hev), test_reloads.
  change (foldl test_step false [EvAsm (MovCr3 root); EvAsm ReloadCr3]) with false.
  by rewrite (test_smp_device _ _ _ Hes).
Qed.

(** ** Properties *)

(** C2: while the processor idles, timer and keyboard interrupts come in any order and
    number, whatever was interrupted, from a keyboard that may send any scan code.
    Either all of them are served, with one result; or they are served up to one of
    the keyboard's whose scan code is among 0x3B to 0x58 (the function keys and the
    keypad): there the handler reads past the keyboard's table, does not signal end of
    interrupt, and nothing after it is served.  If the keyboard sends no such code,
    all are served.  Where interrupts are served, the keyboard's state and the text on
    the console are those of the keyboard's state machine run over the scan codes
    read, one per keyboard interrupt; the tick counter has advanced by the timer
    interrupts; each interrupt was acknowledged exactly once; memory, the allocator
    and the page tables' globals are as before. *)
Theorem interrupts_served (s : kstate) (qs : list irq) (Hs : alive s) :
  ((exists s', served_by s qs s') \/
   (exists qs1 qs2 s1, qs = qs1 ++ Keyboard :: qs2 /\ served_by s qs1 s1 /\ past_table s1 /\
      forall s2, ~ idle_run s qs s2)) /\
  (keyboard_tabled (k_hw s) -> exists s', served_by s qs s').
Proof.
  split; [|by apply tabled_served].
  destruct (served_or_past s qs Hs) as [|(qs1 & qs2 & s1 & -> & H1 & Hp)]; [by left|right].
  exists qs1, qs2, s1. do 3 (split; [done|]). intros s2. by apply (past_table_ends s qs1 qs2 s1).
Qed.

(** A key of the table, and a function key. *)
Lemma interrupts_served_witness :
  (exists s', served_by (sample_keyboard NORMAL_STATE 0x1E) [Keyboard; Timer; Keyboard] s') /\
  (exists s1, served_by (sample_keyboard NORMAL_STATE 0x3B) [Timer] s1 /\ past_table s1).
Proof.
  split.
  - apply (interrupts_served (sample_keyboard NORMAL_STATE 0x1E) [Keyboard; Timer; Keyboard]);
      [by split; [left|..]|done].
  - destruct (interrupts_served (sample_keyboard NORMAL_STATE 0x3B) [Timer; Keyboard])
      as [[(s' & Hr & _)|(qs1 & qs2 & s1 & Eq & Hsv & Hp & _)] _]; [by split; [left|..]| |].
    + exfalso. inversion Hr as [|? ? s1 ? ? Hq Hk]; subst. inversion Hk as [|? ? s2 ? ? Hq2 _]; subst.
      apply (step_done_at _ Timer) in Hq as ->; [|by left|done..].
      revert Hq2. apply past_table_stuck, keyboard_past_table; [|done]. by split; [left|..].
    + destruct qs1 as [|q [|q' qs1]]; [by injection Eq| |by destruct qs1].
      injection Eq as <- _. by exists s1.
Defined.

(** C1: a machine that boots, with a keyboard that sends only codes the table
    covers, reaches the idle loop and from there serves every sequence of timer
    and keyboard interrupts, in the address space the boot has set up. *)
Theorem kernel_serves (s : kstate) (c : boot_config) (polls : nat)
    (Hb : bootable s c polls) (Hkey : keyboard_state s = NORMAL_STATE)
    (Htab : keyboard_tabled (k_hw s)) :
  exists s' root, _start polls s = Halted s' /\ booted s c root s' /\
    forall qs, exists s'', idle_run s' qs s'' /\ served s' qs s'' /\
      forall va, translate s'' root va = address_space (boot_regions s c) va.
Proof.
  destruct (boot_done s c polls Hb) as (s' & root & E & Hbd).
  exists s', root. do 2 (split; [done|]). intros qs.
  assert (idle_ok s') as Hok.
  { destruct Hbd as [Htr _ _ Hhw Hk Ht]. split; [rewrite Hk, Hkey; by left|done|by rewrite Hhw|by eapply boot_trace_testing]. }
  destruct (tabled_served s' qs (idle_alive _ Hok) (io_tabled _ Hok)) as (s'' & Hrun & Hsv & _).
  exists s''. do 2 (split; [done|]).
  intros va. rewrite <- (bd_translate _ _ _ _ Hbd). unfold translate.
  by rewrite (un_ram _ _ (sv_same _ _ _ Hsv)).
Qed.

Lemma sample_tabled : keyboard_tabled (k_hw boot_state).
Proof. intros t Ht. cbn. by rewrite Ht. Qed.

Lemma kernel_serves_witness :
  exists s' root, _start 23 boot_state = Halted s' /\ booted boot_state sample_config root s' /\
    forall qs, exists s'', idle_run s' qs s'' /\ served s' qs s'' /\
      forall va, translate s'' root va = address_space (boot_regions boot_state sample_config) va.
Proof.
  exact (kernel_serves boot_state sample_config 23 boot_bootable eq_refl sample_tabled).
Defined.
