(* ===== verification/Confined.v ===== *)
(** Code that touches a part of the state only.  A state is put together from what
    is a processor's own and the rest, which other processors change; [Confined]
    code runs the same whatever the rest is, and leaves it alone. *)

From S2P Require Import Prelude Limine Types Machine Memory Sample CString Video Printf Log.
From S2P Require Import Interleave.

Section confined.
Context {O X : Type} (W : O -> X -> kstate).

(** How code ends, as far as its own part goes. *)
Inductive part (A : Type) :=
  | PDone (a : A) (o : O)
  | PHalted (o : O)
  | PFault (f : fault) (o : O)
  | POutOfFuel.
#[global] Arguments PDone {A} a o.
#[global] Arguments PHalted {A} o.
#[global] Arguments PFault {A} f o.
#[global] Arguments POutOfFuel {A}.

Definition whole {A} (r : part A) (x : X) : outcome A :=
  match r with
  | PDone a o => Done a (W o x)
  | PHalted o => Halted (W o x)
  | PFault f o => Fault f (W o x)
  | POutOfFuel => OutOfFuel
  end.

Class Confined {A} (m : M A) : Prop :=
  confined o : exists r, forall x, m (W o x) = whole r x.

(** A program of confined steps, along the results they have. *)
Fixpoint confined_prog {A} (p : prog A) : Prop :=
  match p with
  | PRet _ => True
  | PStep m k => forall o, exists r, (forall x, m (W o x) = whole r x) /\
      match r with PDone b _ => confined_prog (k b) | _ => True end
  end.

#[global] Instance confined_ret {A} (a : A) : Confined (mret a).
Proof. intros o. by exists (PDone a o). Qed.

#[global] Instance confined_bind {A B} (m : M A) (f : A -> M B) :
  Confined m -> (forall a, Confined (f a)) -> Confined (m ≫= f).
Proof.
  intros Hm Hf o. destruct (Hm o) as [r Hr]. destruct r as [a o'|o'|e o'|].
  - destruct (Hf a o') as [r' Hr']. exists r'. intros x. by rewrite (bind_done _ _ _ _ _ (Hr x)).
  - exists (PHalted o'). intros x. by rewrite (bind_halted _ _ _ _ (Hr x)).
  - exists (PFault e o'). intros x. by rewrite (bind_fault _ _ _ _ _ (Hr x)).
  - exists POutOfFuel. intros x. unfold mbind, M_bind. by rewrite (Hr x).
Qed.

#[global] Instance confined_throw {A} e : Confined (@throw A e).
Proof. intros o. by exists (PFault e o). Qed.
#[global] Instance confined_halt {A} : Confined (@halt A).
Proof. intros o. by exists (PHalted o). Qed.
#[global] Instance confined_fuel {A} : Confined (@out_of_fuel A).
Proof. intros o. by exists POutOfFuel. Qed.

(** Reading one's own part, or what nobody changes. *)
Lemma confined_gets {A} (f : kstate -> A) (v : O -> A) :
  (forall o x, f (W o x) = v o) -> Confined (gets f).
Proof. intros Hf o. exists (PDone (v o) o). intros x. unfold gets. by rewrite Hf. Qed.

Lemma confined_modify (f : kstate -> kstate) (g : O -> O) :
  (forall o x, f (W o x) = W (g o) x) -> Confined (modify f).
Proof. intros Hf o. exists (PDone tt (g o)). intros x. unfold modify. by rewrite Hf. Qed.

#[global] Instance confined_index {A} (l : list A) i : Confined (index l i).
Proof. unfold index. repeat case_match; apply _. Qed.

Lemma confined_prog_act {A} (m : M A) : Confined m -> confined_prog (act m).
Proof. intros Hm o. destruct (Hm o) as [r Hr]. exists r. split; [done|]. by destruct r. Qed.

Lemma confined_prog_step {A B} (m : M A) (k : A -> prog B) :
  Confined m -> (forall a, confined_prog (k a)) -> confined_prog (act m ≫= k).
Proof. intros Hm Hk o. destruct (Hm o) as [r Hr]. exists r. split; [done|]. destruct r; by try apply Hk. Qed.

Lemma confined_prog_bind {A B} (p : prog A) (f : A -> prog B) :
  confined_prog p -> (forall a, confined_prog (f a)) -> confined_prog (p ≫= f).
Proof.
  intros Hp Hf. induction p as [a|C m k IH]; [apply Hf|].
  intros o. destruct (Hp o) as (r & Hr & Hk). exists r. split; [done|].
  destruct r; try done. by apply IH.
Qed.

(** The whole run is confined as well, *)
Lemma confined_denote {A} (p : prog A) :
  confined_prog p -> forall o, exists r, forall x, denote p (W o x) = whole r x.
Proof.
  induction p as [a|C m k IH]; intros Hp o; [by exists (PDone a o)|].
  destruct (Hp o) as (r & Hr & Hk). cbn [denote]. destruct r as [b o'|o'|e o'|].
  - destruct (IH b Hk o') as [r' Hr']. exists r'. intros x. by rewrite (bind_done _ _ _ _ _ (Hr x)).
  - exists (PHalted o'). intros x. by rewrite (bind_halted _ _ _ _ (Hr x)).
  - exists (PFault e o'). intros x. by rewrite (bind_fault _ _ _ _ _ (Hr x)).
  - exists POutOfFuel. intros x. unfold mbind, M_bind. by rewrite (Hr x).
Qed.

(** and with one of its steps taken, whatever the rest was, it ends as it would
    have. *)
Lemma confined_prog_next {A B} (m : M B) (k : B -> prog A) o (r : part A) :
  confined_prog (PStep m k) -> (forall x, denote (PStep m k) (W o x) = whole r x) ->
  exists r' : part B, (forall x, m (W o x) = whole r' x) /\
    match r' with
    | PDone b o' => confined_prog (k b) /\ forall x, denote (k b) (W o' x) = whole r x
    | PHalted o' => forall x, whole r x = Halted (W o' x)
    | PFault f o' => forall x, whole r x = Fault f (W o' x)
    | POutOfFuel => forall x, whole r x = OutOfFuel
    end.
Proof.
  intros Hp Hr. destruct (Hp o) as (r' & Hm & Hk). exists r'. split; [done|].
  destruct r' as [b o'|o'|e o'|]; [split; [done|]|..]; intros x; rewrite <- Hr; cbn [denote].
  - by rewrite (bind_done _ _ _ _ _ (Hm x)).
  - by rewrite (bind_halted _ _ _ _ (Hm x)).
  - by rewrite (bind_fault _ _ _ _ _ (Hm x)).
  - unfold mbind, M_bind. by rewrite (Hm x).
Qed.
End confined.

(** ** Lists of which one element goes down *)

Section one_after.
Context {A : Type} (R : A -> A -> Prop).

(** [l'] is [l] with one element replaced by a smaller one. *)
Inductive one_after : list A -> list A -> Prop :=
  | one_here x' x l : R x' x -> one_after (x' :: l) (x :: l)
  | one_there x l' l : one_after l' l -> one_after (x :: l') (x :: l).

Lemma one_after_at l i x x' : l !! i = Some x -> R x' x -> one_after (<[i := x']> l) l.
Proof.
  revert i. induction l as [|y l IH]; intros [|i] Hi HR; try done.
  - injection Hi as ->. by constructor.
  - cbn. constructor. by apply IH.
Qed.

Lemma one_after_wf : well_founded R -> well_founded one_after.
Proof.
  intros HR l. induction l as [|x l IHl]; [constructor; intros l' H; inversion H|].
  revert l IHl. induction (HR x) as [x _ IHx]. intros l Hl. induction Hl as [l Hl IHl].
  constructor. intros l' H. inversion H as [x' x1 l1 Hx|x1 l1 l2 Hl1]; subst.
  - apply IHx; [done|]. by constructor.
  - by apply IHl.
Qed.
End one_after.
