(* ===== verification/Processors.v ===== *)
(** The start of the other processors, all together: the state machine of the
    machine's processors, each of which waits, fills in the tables, starts its local
    APIC and its timer, or idles and takes interrupts.  Each has devices and a trace
    of its own; memory and the kernel's globals are shared, the descriptor table
    among them: nothing keeps a processor from writing it while others load from it. *)

From S2P Require Import Prelude Limine Types Machine Memory Sample CString Video Printf Log.
From S2P Require Import AcpiTables Gdt Interleave Confined Apic Ps2 Idt Acpi ApicInit Vmm Smp.
From S2P Require Import Trampoline Allocator Idle.

(** ** Code: the rest of [ap_trampoline], step by step *)

Fixpoint pmt_loop_p (polls : nat) (count target current : Z) : prog unit :=
  if current <? target then
    match polls with
    | O => act out_of_fuel
    | S polls =>
        f ← act (acpi_get fadt);
        port ← act (load32 (f ⊕ fadt_PMTimerBlock));
        v ← act (inl port);
        pmt_loop_p polls count target (Z.land (v ⊖ count) 0xffffff)
    end
  else mret tt.

Definition pmt_delay_p (polls : nat) (us : Z) : prog unit :=
  f ← act (acpi_get fadt);
  len ← act (load8 (f ⊕ fadt_PMTimerLength));
  act (if negb (len =? 4) then log_panic "ACPI Timer unavailable" else mret tt) ;;
  port ← act (load32 (f ⊕ fadt_PMTimerBlock));
  count ← act (inl port);
  pmt_loop_p polls count (us ⊗ PMT_TIMER_RATE / 1000000) 0.

Definition calibrate_timer_p (polls : nat) (madt : Z) : prog unit :=
  a ← act (load32 (madt ⊕ madt_lapicaddr));
  act (apic_set (with_lapic_address a)) ;;
  act (apic_write a LAPIC_TIMERDIV_REG 0x3) ;;
  act (apic_write a LAPIC_INITCNT_REG 0xFFFFFFFF) ;;
  pmt_delay_p polls 50000 ;;
  act (apic_write a LAPIC_TIMERDIV_REG 0x10000) ;;
  cur ← act (apic_read a LAPIC_CURCNT_REG);
  act (apic_write a LAPIC_LVTTIMER_REG (Z.lor 172 LAPIC_PERIODIC)) ;;
  act (apic_write a LAPIC_TIMERDIV_REG 0x3) ;;
  act (apic_write a LAPIC_INITCNT_REG (u32 (0xffffffff - cur))).

Definition init_apic_ap_p (polls : nat) : prog unit :=
  a ← act (apic_get lapic_addr);
  spurious_reg ← act (apic_read a LAPIC_SIVR_REG);
  act (apic_write a LAPIC_SIVR_REG (Z.lor spurious_reg 0x100)) ;;
  m ← act (acpi_get madt);
  calibrate_timer_p polls m.

Definition ap_report_p (smp_info : limine_smp_info) : prog unit :=
  act (asm Sti) ;;
  act (printf "smp: cpu {d} started {n}" [VInt (si_processor_id smp_info)]) ;;
  act idle.

(** ** The state machine *)

(** What is a processor's own: its local APIC and whatever else answers it, and what
    it has done. *)
Record cpu_local := Local {
  lo_dev : list event -> devreq -> Z;
  lo_trace : list event;
}.

Inductive stage :=
  | Waiting
  | Tables (p : prog unit)
  | Starting (p : prog unit)
  | Reporting (p : prog unit)
  | Idling
  (** An interrupt's handler is through, its IRETQ to come. *)
  | Returning (ph : stage)
  (** A general protection fault; what comes of it is not followed. *)
  | Faulted (f : fault).

Record cpu := Cpu {
  cpu_info : limine_smp_info;
  cpu_stage : stage;
  cpu_own : cpu_local;
}.

(** [sy_shared] stands for the memory and the globals; whose devices and trace it
    shows does not matter. *)
Record system := System {
  sy_cpus : list cpu;
  sy_shared : kstate;
}.

(** The state as a processor sees it, and what of a state is its own. *)
Definition on (l : cpu_local) (s : kstate) : kstate :=
  let hw := Hardware (hw_ram_size (k_hw s)) (hw_direct_map (k_hw s)) (lo_dev l) (hw_irq (k_hw s)) in
  KState (k_ram s) (lo_trace l) hw (k_boot s) (k_link s) (k_pmm s) (k_vmm s) (k_gdt s)
    (k_idt s) (k_acpi s) (k_apic s) (keyboard_state s) (state_single_processor s).

Definition own_of (s : kstate) : cpu_local := Local (hw_dev (k_hw s)) (k_trace s).

Definition in_tables (c : cpu) : Prop :=
  match cpu_stage c with Tables _ => True | _ => False end.

(** A processor is interrupted once its timer runs, and not in a handler. *)
Definition interruptible_stage (ph : stage) : Prop :=
  match ph with Reporting _ | Idling => True | _ => False end.

(** Processor [i] takes a step and comes to the stage [ph] with the state [s']. *)
Definition moved (sy : system) (i : nat) (c : cpu) (ph : stage) (s' : kstate) : system :=
  System (<[i := Cpu (cpu_info c) ph (own_of s')]> (sy_cpus sy)) s'.

Section machine.
Context (polls : nat).

(** The step a processor's code is at, and where it goes on with the result. *)
Inductive at_step : stage -> forall {B}, M B -> (B -> stage) -> Prop :=
  | at_tables {B} (m : M B) k : at_step (Tables (PStep m k)) m (fun b => Tables (k b))
  | at_starting {B} (m : M B) k : at_step (Starting (PStep m k)) m (fun b => Starting (k b))
  | at_reporting {B} (m : M B) k : at_step (Reporting (PStep m k)) m (fun b => Reporting (k b))
  (** IRETQ loads the code segment again. *)
  | at_return ph : at_step (Returning ph) (far_return 0x08) (fun _ => ph).

(** Processor [i] goes on with its own code.  The boot processor lets the others go, in
    any order and at any time: its sleeps between two of them wait for no processor.
    The processor with the local APIC number 0 returns from the trampoline at once, and
    is not let go here. *)
Inductive own_step (sy : system) (i : nat) : system -> Prop :=
  | own_enter c :
      sy_cpus sy !! i = Some c -> cpu_stage c = Waiting -> si_lapic_id (cpu_info c) <> 0 ->
      own_step sy i (moved sy i c (Tables ap_tables_p) (on (cpu_own c) (sy_shared sy)))
  | own_start c :
      sy_cpus sy !! i = Some c -> cpu_stage c = Tables (PRet tt) ->
      own_step sy i (moved sy i c (Starting (init_apic_ap_p polls)) (on (cpu_own c) (sy_shared sy)))
  | own_ready c :
      sy_cpus sy !! i = Some c -> cpu_stage c = Starting (PRet tt) ->
      own_step sy i (moved sy i c (Reporting (ap_report_p (cpu_info c)))
        (on (cpu_own c) (sy_shared sy)))
  | own_run c B (m : M B) k b s' :
      sy_cpus sy !! i = Some c -> at_step (cpu_stage c) m k ->
      m (on (cpu_own c) (sy_shared sy)) = Done b s' -> own_step sy i (moved sy i c (k b) s')
  | own_halt c B (m : M B) k s' :
      sy_cpus sy !! i = Some c -> cpu_stage c = Reporting (PStep m k) ->
      m (on (cpu_own c) (sy_shared sy)) = Halted s' -> own_step sy i (moved sy i c Idling s')
  | own_fault c B (m : M B) k f s' :
      sy_cpus sy !! i = Some c -> at_step (cpu_stage c) m k ->
      m (on (cpu_own c) (sy_shared sy)) = Fault f s' -> own_step sy i (moved sy i c (Faulted f) s').

(** Processor [i] takes an interrupt: it loads the code segment of the gate, 0x08 in
    all of them, from the shared table, and runs the handler. *)
Inductive irq_step (sy : system) (i : nat) : system -> Prop :=
  | irq_taken c q s1 s' :
      sy_cpus sy !! i = Some c -> interruptible_stage (cpu_stage c) ->
      load_selector 0x08 is_code64 ACCESSED (on (cpu_own c) (sy_shared sy)) = Done tt s1 ->
      idle_step s1 q s' -> irq_step sy i (moved sy i c (Returning (cpu_stage c)) s')
  | irq_fault c f s' :
      sy_cpus sy !! i = Some c -> interruptible_stage (cpu_stage c) ->
      load_selector 0x08 is_code64 ACCESSED (on (cpu_own c) (sy_shared sy)) = Fault f s' ->
      irq_step sy i (moved sy i c (Faulted f) s').

(** A step of the machine: one of a processor's code, or an interrupt it takes. *)
Definition sys_step (sy sy' : system) : Prop := exists i, own_step sy i sy' \/ irq_step sy i sy'.

Inductive sys_reach (sy : system) : system -> Prop :=
  | reach_refl : sys_reach sy sy
  | reach_step sy1 sy2 : sys_reach sy sy1 -> sys_step sy1 sy2 -> sys_reach sy sy2.
End machine.

(** ** The program is the code *)

Lemma pmt_loop_p_same polls : forall count target current s,
  denote (pmt_loop_p polls count target current) s = pmt_loop polls count target current s.
Proof.
  induction polls as [|polls IH]; intros count target current s; cbn [pmt_loop_p pmt_loop];
    case_match; try done.
  do 3 (rewrite denote_act_bind; apply bind_ext; [done|]; intros ? ?). apply IH.
Qed.

#[export] Hint Resolve pmt_loop_p_same : same.

Lemma pmt_delay_p_same polls us s : denote (pmt_delay_p polls us) s = pmt_delay polls us s.
Proof. unfold pmt_delay_p, pmt_delay. same_steps. Qed.

#[export] Hint Resolve pmt_delay_p_same : same.

Lemma calibrate_timer_p_same polls madt s :
  denote (calibrate_timer_p polls madt) s = calibrate_timer polls madt s.
Proof. unfold calibrate_timer_p, calibrate_timer. same_steps. Qed.

#[export] Hint Resolve calibrate_timer_p_same : same.

Lemma init_apic_ap_p_same polls s : denote (init_apic_ap_p polls) s = init_apic_ap polls s.
Proof. unfold init_apic_ap_p, init_apic_ap. same_steps. Qed.

#[export] Hint Resolve init_apic_ap_p_same : same.

(** The three parts are the trampoline. *)
Lemma ap_trampoline_parts polls info s :
  si_lapic_id info <> 0 ->
  ap_trampoline polls info s =
    (denote ap_tables_p ;; denote (init_apic_ap_p polls) ;; denote (ap_report_p info)) s.
Proof.
  intros Hid. rewrite ap_trampoline_tables by done. apply bind_ext; [done|].
  intros [] s1. apply bind_ext; [by rewrite init_apic_ap_p_same|]. intros [] s2.
  symmetry. unfold ap_report_p. same_steps.
Qed.

(** ** The state, as put together *)

Section parts.
Context (s0 : kstate) (base port : Z) (polls n : nat).

(** What processors change of the shared state while others run. *)
Record rest := Rest { r_gdt : gdt_globals; r_ticks : Z; r_keys : Z }.

Definition put (l : cpu_local) (x : rest) : kstate :=
  let hw := Hardware (hw_ram_size (k_hw s0)) (hw_direct_map (k_hw s0)) (lo_dev l) (hw_irq (k_hw s0)) in
  KState (k_ram s0) (lo_trace l) hw (k_boot s0) (k_link s0) (k_pmm s0) (k_vmm s0) (r_gdt x)
    (k_idt s0) (k_acpi s0) (with_ticks (r_ticks x) (k_apic s0)) (r_keys x)
    (state_single_processor s0).

(** The same for the processor that writes the descriptor table. *)
Definition put_table (o : cpu_local * gdt_globals) (x : Z * Z) : kstate :=
  put o.1 (Rest o.2 x.1 x.2).

Definition does (es : list event) (l : cpu_local) : cpu_local := Local (lo_dev l) (lo_trace l ++ es).

Lemma done_inj {A} (a a' : A) s s' : Done a s = Done a' s' -> s = s'.
Proof. by intros [=]. Qed.

Lemma own_put l x : own_of (put l x) = l.
Proof. by destruct l. Qed.

Lemma put_inj l l' x : put l x = put l' x -> l = l'.
Proof. intros E. by rewrite <- (own_put l x), E, own_put. Qed.

Lemma emits_put es l x : emits es (put l x) = put (does es l) x.
Proof. done. Qed.

(** *** Confined code *)

#[local] Hint Constants Opaque : typeclass_instances.

#[local] Instance confined_emit e : Confined put (emit e).
Proof using Type. by apply (confined_modify _ _ (does [e])). Qed.
#[local] Instance confined_request r ev : Confined put (request r ev).
Proof using Type.
  intros l. set (v := lo_dev l (lo_trace l) r).
  by exists (PDone v (does [ev v] l)).
Qed.
#[local] Instance confined_log_panic {A} msg : Confined put (@log_panic A msg).
Proof using Type. intros l. eexists (PHalted (does _ l)). intros x. by rewrite log_panic_halts. Qed.
#[local] Instance confined_acpi_get {A} (f : acpi_globals -> A) : Confined put (acpi_get f).
Proof using Type. by apply (confined_gets _ _ (fun _ => f (k_acpi s0))). Qed.
#[local] Instance confined_hhdm : Confined put (gets (fun s => hhdmoffset (k_vmm s))).
Proof using Type. by apply (confined_gets _ _ (fun _ => hhdmoffset (k_vmm s0))). Qed.
#[local] Instance confined_lapic_addr : Confined put (apic_get lapic_addr).
Proof using Type. by apply (confined_gets _ _ (fun _ => lapic_addr (k_apic s0))). Qed.
#[local] Instance confined_apic_read a r : Confined put (apic_read a r).
Proof using Type. unfold apic_read. apply _. Qed.
#[local] Instance confined_apic_write a r v : Confined put (apic_write a r v).
Proof using Type. unfold apic_write. apply _. Qed.
#[local] Instance confined_inl p : Confined put (inl p).
Proof using Type. unfold inl. apply _. Qed.
#[local] Instance confined_load8 va : Confined put (load8 va).
Proof using Type.
  intros l. unfold load8. destruct (resolve s0 va) as [pa|] eqn:E.
  - exists (PDone (byte_val (ram_get (k_ram s0) pa)) l). intros x.
    change (resolve (put l x) va) with (resolve s0 va). by rewrite E.
  - exists (PFault (PageFault va) l). intros x.
    change (resolve (put l x) va) with (resolve s0 va). by rewrite E.
Qed.

#[local] Instance confined_load_bytes k : forall va, Confined put (load_bytes va k).
Proof using Type. induction k as [|k IH]; intros va; cbn [load_bytes]; apply _. Qed.
#[local] Instance confined_load32 va : Confined put (load32 va).
Proof using Type. unfold load32. apply _. Qed.

Lemma confined_pmt_loop k : forall count target current,
  confined_prog put (pmt_loop_p k count target current).
Proof using Type.
  induction k as [|k IH]; intros count target current; cbn [pmt_loop_p]; case_match; try done.
  - apply confined_prog_act, _.
  - do 3 (apply confined_prog_step; [apply _|]; intros ?). apply IH.
Qed.

Lemma confined_pmt_delay us : confined_prog put (pmt_delay_p polls us).
Proof using Type.
  unfold pmt_delay_p. do 2 (apply confined_prog_step; [apply _|]; intros ?).
  apply confined_prog_step; [case_match; apply _|]; intros ?.
  do 2 (apply confined_prog_step; [apply _|]; intros ?). apply confined_pmt_loop.
Qed.

(** *** The local APIC's start *)

Context (Hlapic : lapic_address (k_apic s0) = base).
Context (Hbase : holds s0 (madt (k_acpi s0) ⊕ madt_lapicaddr) 4 base).

(** The boot processor has set [lapic_address] to what every other one sets it to. *)
Lemma set_lapic_same l x :
  set_apic (with_lapic_address base (k_apic (put l x))) (put l x) = put l x.
Proof using Hlapic.
  assert (with_lapic_address base (with_ticks (r_ticks x) (k_apic s0)) =
    with_ticks (r_ticks x) (k_apic s0)) as E by (rewrite <- Hlapic; by destruct (k_apic s0)).
  cbn [k_apic put]. by rewrite E.
Qed.

Lemma set_lapic_put l x : apic_set (with_lapic_address base) (put l x) = Done tt (put l x).
Proof using Hlapic. unfold apic_set, modify. by rewrite set_lapic_same. Qed.

Lemma holds_put va k v l x : holds s0 va k v -> holds (put l x) va k v.
Proof using Type. done. Qed.

Lemma confined_calibrate : confined_prog put (calibrate_timer_p polls (madt (k_acpi s0))).
Proof using Hlapic Hbase.
  intros l. exists (PDone base l). split; [intros x; by apply load32_holds|].
  intros l1. exists (PDone tt l1). split; [intros x; by apply set_lapic_put|].
  do 2 (apply confined_prog_step; [apply _|]; intros ?).
  apply confined_prog_bind; [apply confined_pmt_delay|]. intros ?.
  do 4 (apply confined_prog_step; [apply _|]; intros ?). apply confined_prog_act, _.
Qed.

Lemma confined_init_apic_ap : confined_prog put (init_apic_ap_p polls).
Proof using Hlapic Hbase.
  unfold init_apic_ap_p. do 3 (apply confined_prog_step; [apply _|]; intros ?).
  intros l. exists (PDone (madt (k_acpi s0)) l). split; [done|]. apply confined_calibrate.
Qed.

(** *** The tables *)

#[local] Instance confined_emit_t e : Confined put_table (emit e).
Proof using Type. by apply (confined_modify _ _ (fun o => (does [e] o.1, o.2))). Qed.
#[local] Instance confined_asm_t i : Confined put_table (asm i).
Proof using Type. unfold asm. apply _. Qed.
#[local] Instance confined_gdt_set f : Confined put_table (gdt_set f).
Proof using Type. by apply (confined_modify _ _ (fun o => (o.1, f o.2))). Qed.
#[local] Instance confined_get_gdt : Confined put_table (gets k_gdt).
Proof using Type. by apply (confined_gets _ _ snd). Qed.
#[local] Instance confined_get_link : Confined put_table (gets k_link).
Proof using Type. by apply (confined_gets _ _ (fun _ => k_link s0)). Qed.
#[local] Instance confined_get_idt : Confined put_table (gets (fun s => idtpr (k_idt s))).
Proof using Type. by apply (confined_gets _ _ (fun _ => idtpr (k_idt s0))). Qed.
#[local] Instance confined_vmm_get {A} (f : vmm_globals -> A) : Confined put_table (vmm_get f).
Proof using Type. by apply (confined_gets _ _ (fun _ => f (k_vmm s0))). Qed.
#[local] Instance confined_gdt_store num f : Confined put_table (gdt_store num f).
Proof using Type. unfold gdt_store. apply _. Qed.
#[local] Instance confined_load_checked sel check mark : Confined put_table (load_checked sel check mark).
Proof using Type.
  unfold load_checked. apply confined_bind; [apply _|intros g].
  apply confined_bind; [apply _|intros d]. case_match; apply _.
Qed.
#[local] Instance confined_load_selector sel ok mark : Confined put_table (load_selector sel ok mark).
Proof using Type. unfold load_selector. apply _. Qed.
#[local] Instance confined_far_return sel : Confined put_table (far_return sel).
Proof using Type. unfold far_return. apply _. Qed.
#[local] Instance confined_set_ctx p : Confined put_table (vmm_set_ctx p).
Proof using Type. unfold vmm_set_ctx. apply _. Qed.

(** Step by step through a program. *)
Ltac confined_steps :=
  repeat lazymatch goal with
    | |- confined_prog _ (act _ ≫= _) => apply confined_prog_step; [apply _|]; intros ?
    | |- confined_prog _ (act _) => apply confined_prog_act, _
    end.

Lemma confined_gdt_set_entry num base' limit access granularity :
  confined_prog put_table (gdt_set_entry_p num base' limit access granularity).
Proof using Type. unfold gdt_set_entry_p. confined_steps. Qed.

Lemma confined_gdt_init : confined_prog put_table gdt_init_p.
Proof using Type.
  unfold gdt_init_p. do 3 (apply confined_prog_step; [apply _|]; intros ?).
  do 6 (apply confined_prog_bind; [apply confined_gdt_set_entry|]; intros ?).
  apply confined_prog_step; [apply _|]. intros ?.
  apply confined_prog_bind; [unfold s_setgdt_p|intros ?; unfold s_settss_p]; confined_steps.
Qed.

Lemma confined_ap_tables : confined_prog put_table ap_tables_p.
Proof using Type.
  unfold ap_tables_p. apply confined_prog_step; [apply _|]. intros ?.
  apply confined_prog_bind; [apply confined_gdt_init|]. intros ?. confined_steps.
Qed.

Context (Hgdt : k_gdt s0 = gdt_final (k_link s0)).

Lemma ap_tables_alone l x :
  denote ap_tables_p (put_table (l, gdt_final (k_link s0)) x) =
    Done tt (put_table (does (ap_enter s0) l, gdt_final (k_link s0)) x).
Proof using Type. rewrite ap_tables_done by reflexivity. reflexivity. Qed.

(** *** The local APIC alone *)

Context (Htimer : timer_at s0 port) (Hpolls : (n < polls)%nat).

(** Having done [l], the processor starts its local APIC and its timer, and has done
    [l']; the others do not matter. *)
Definition timer_started (l l' : cpu_local) : Prop :=
  (lo_dev l' = lo_dev l /\ testing (lo_trace l') = testing (lo_trace l)) /\
  forall x, denote (init_apic_ap_p polls) (put l x) = Done tt (put l' x).

Lemma init_apic_alone l :
  timer_runs (k_hw (put l (Rest (k_gdt s0) 0 0))) port n -> exists l', timer_started l l'.
Proof using Hlapic Hbase Htimer Hpolls.
  intros Hruns. set (x0 := Rest (k_gdt s0) 0 0) in *.
  destruct (init_apic_ap_done (put l x0) base port n polls) as (sp & ts & cur & Hc & Hts & E);
    [done|by destruct Htimer; split|done|done|].
  rewrite set_lapic_same, emits_put, <- init_apic_ap_p_same in E.
  destruct (confined_denote put _ confined_init_apic_ap l) as [r Hr].
  pose proof (Hr x0) as Hr0. rewrite E in Hr0.
  set (es := apic_ap_start (hhdmoffset (k_vmm s0)) (lapic_addr (k_apic s0)) base sp ts cur).
  destruct r as [[] l'|l'|f l'|]; try done.
  assert (put l' x0 = put (does es l) x0) as ->%put_inj by (symmetry; exact (done_inj _ _ _ _ Hr0)).
  exists (does es l). split; [split; [done|]|exact Hr].
  change (testing (lo_trace l ++ es) = testing (lo_trace l)). rewrite testing_app.
  unfold es, apic_ap_start, calibration. rewrite !foldl_app, (test_readings _ port ts Hts). reflexivity.
Qed.
End parts.
