(* ===== verification/ProcStart.v ===== *)
(** What the processors' start comes to, whatever order they take their steps in:
    the invariant of the state machine of Processors.v, that every way through it
    ends, and how the kernel has to be scheduled for no processor to fault. *)

From Stdlib Require Import Inclusion Inverse_Image.
From S2P Require Import Prelude Limine Types Machine Memory Sample CString Video Printf Log.
From S2P Require Import AcpiTables Gdt Interleave Confined Apic Ps2 Idt Acpi ApicInit Vmm Smp.
From S2P Require Import Trampoline Allocator Idle Processors.

(** ** What the processors need *)

(** The kernel as the boot processor leaves it, its own timer calibrated. *)
Record start_ok (s : kstate) (base port : Z) (polls n : nat) : Prop := {
  so_gdt : k_gdt s = gdt_final (k_link s);
  so_lapic : lapic_address (k_apic s) = base;
  so_base : holds s (madt (k_acpi s) ⊕ madt_lapicaddr) 4 base;
  so_timer : timer_at s port;
  so_polls : (n < polls)%nat;
  so_ticks : 0 <= apic_timer_ticks (k_apic s) < 2 ^ 64;
  so_keys : key_state_ok (keyboard_state s);
}.

(** A processor that waits to be started, not the boot processor, or one that idles:
    its timer runs, and a keyboard it
    serves sends only codes the table covers. *)
Record cpu_ok (s : kstate) (port : Z) (n : nat) (c : cpu) : Prop := {
  co_timer : timer_runs (k_hw (on (cpu_own c) s)) port n;
  co_tabled : keyboard_tabled (k_hw (on (cpu_own c) s));
  co_testing : testing (lo_trace (cpu_own c)) = false;
  co_stage : cpu_stage c = Waiting \/ cpu_stage c = Idling;
  co_other : cpu_stage c = Waiting -> si_lapic_id (cpu_info c) <> 0;
}.

(** ** Reference *)

(** The events of a processor once its timer runs: its report, the halt, and the
    interrupts it serves. *)
Definition tail_event (s : kstate) (e : event) : Prop :=
  console_event e \/ e = EvAsm Sti \/ e = EvAsm Hlt \/ e = eoi_event s \/ exists v, e = EvInb 0x60 v.

(** From [l] to [l'] a processor has done exactly what the code does when no other
    processor runs, up to its running timer, and gone on from there. *)
Definition ran_alone (s : kstate) (polls : nat) (l l' : cpu_local) : Prop :=
  exists l1 es,
    (denote ap_tables_p ;; init_apic_ap polls) (on l s) = Done tt (on l1 s) /\
    Forall (tail_event s) es /\ lo_dev l' = lo_dev l /\ lo_trace l' = lo_trace l1 ++ es.

(** The shared state but for the descriptor table, the ticks and the keyboard. *)
Definition shared_like (s s' : kstate) (g : gdt_globals) : Prop :=
  exists t k, forall l, on l s' =
    on l (set_gdt g (set_keyboard_state k (set_apic (with_ticks t (k_apic s)) s))).

(** The ways a processor stops: on an interrupt's gate or on the return from its
    handler, on the return to its code segment while it loads its tables, and on its
    TSS. *)
Definition stop_fault (f : fault) : Prop :=
  f = GeneralProtection 0x08 \/ f = GeneralProtection 0 \/ f = GeneralProtection 0x28.

(** Past its start, if it does not stop before. *)
Fixpoint timer_runs_in (ph : stage) : Prop :=
  match ph with
  | Reporting _ | Idling => True
  | Returning ph => timer_runs_in ph
  | _ => False
  end.

Definition ended (c : cpu) : Prop := cpu_stage c = Idling \/ exists f, cpu_stage c = Faulted f.

Definition table_free (sy : system) : Prop :=
  forall j c, sy_cpus sy !! j = Some c -> ~ in_tables c.

(** A calm schedule: a processor is let go, takes an interrupt or returns from one
    only while no processor is in the descriptor table. *)
Definition loads_table (ph : stage) : Prop :=
  match ph with Waiting | Returning _ => True | _ => False end.

Definition calm_step (polls : nat) (sy sy' : system) : Prop :=
  exists i c, sy_cpus sy !! i = Some c /\
    ((own_step polls sy i sy' /\ (loads_table (cpu_stage c) -> table_free sy)) \/
     (irq_step sy i sy' /\ table_free sy)).

Inductive calm_reach (polls : nat) (sy : system) : system -> Prop :=
  | calm_refl : calm_reach polls sy sy
  | calm_next sy1 sy2 : calm_reach polls sy sy1 -> calm_step polls sy1 sy2 -> calm_reach polls sy sy2.

(** ** Lemmas *)

#[export] Instance in_tables_dec c : Decision (in_tables c).
Proof. unfold in_tables. destruct (cpu_stage c); apply _. Defined.

#[export] Instance idling_dec c : Decision (cpu_stage c = Idling).
Proof. destruct (cpu_stage c); first [by left|by right]. Defined.

#[export] Instance loads_table_dec ph : Decision (loads_table ph).
Proof. unfold loads_table. destruct ph; apply _. Defined.

Section start.
Context (s0 : kstate) (base port : Z) (polls n : nat).
Context (Hok : start_ok s0 base port polls n).

(** *** Interrupts *)

Definition rest_ok (x : rest) : Prop := 0 <= r_ticks x < 2 ^ 64 /\ key_state_ok (r_keys x).

Lemma tail_key v : tail_event s0 (EvInb 0x60 v).
Proof. unfold tail_event. do 4 right. by exists v. Qed.

Lemma tail_eoi : tail_event s0 (eoi_event s0).
Proof. unfold tail_event. do 3 right. by left. Qed.

Lemma key_events_tail st sc : Forall (tail_event s0) (key_events st sc).
Proof. unfold key_events. case_match; constructor; [by left|constructor]. Qed.

Lemma irq_put l x q s' :
  rest_ok x -> keyboard_tabled (k_hw (on l s0)) -> testing (lo_trace l) = false ->
  idle_step (put s0 l x) q s' ->
  exists es x', Forall (tail_event s0) es /\ s' = put s0 (does es l) x' /\
    rest_ok x' /\ r_gdt x' = r_gdt x.
Proof.
  intros [Ht Hk] Htab Hte Hq. apply idle_step_done in Hq as ->; [|by split].
  destruct q.
  - exists [eoi_event s0], (Rest (r_gdt x) (u64 (r_ticks x + 1)) (r_keys x)).
    split; [by constructor; [apply tail_eoi|]|]. split; [done|].
    split; [|done]. split; [apply u64_range|done].
  - set (sc := key_code (put s0 l x)).
    exists (EvInb 0x60 sc :: key_events (r_keys x) sc ++ [eoi_event s0]),
      (Rest (r_gdt x) (r_ticks x) (next_key_state (r_keys x) sc)).
    split; [|split; [done|split; [split; [done|by apply next_key_state_ok]|done]]].
    constructor; [apply tail_key|]. apply Forall_app. split; [apply key_events_tail|].
    constructor; [apply tail_eoi|constructor].
Qed.

(** *** The report *)

Fixpoint reports (p : prog unit) : Prop :=
  match p with
  | PRet _ => False
  | PStep m k => forall l, exists es, Forall (tail_event s0) es /\
      ((exists b, (forall x, m (put s0 l x) = Done b (put s0 (does es l) x)) /\ reports (k b)) \/
       forall x, m (put s0 l x) = Halted (put s0 (does es l) x))
  end.

Lemma reports_ap_report info : reports (ap_report_p info).
Proof.
  intros l. exists [EvAsm Sti]. split; [repeat constructor; by right; left|].
  left. exists tt. split; [done|]. intros l1.
  destruct (printf_typed_done "smp: cpu {d} started {n}" [VInt (si_processor_id info)] eq_refl)
    as (es & Hes & E).
  exists es. split; [eapply Forall_impl; [exact Hes|]; by left|].
  left. exists 0. split; [intros x; by rewrite E|]. intros l2.
  exists [EvAsm Hlt]. split; [repeat constructor; by right; right; left|by right].
Qed.

Lemma does_app es es' l : does es' (does es l) = does (es ++ es') l.
Proof. unfold does. cbn. by rewrite <- app_assoc. Qed.

(** *** The invariant *)

(** The processor has done [l] so far, [l0] when it was let go. *)
Definition tail_of (l l' : cpu_local) : Prop := exists es, Forall (tail_event s0) es /\ l' = does es l.

Fixpoint stage_inv (c0 : cpu) (ph : stage) (l : cpu_local) : Prop :=
  let l0 := cpu_own c0 in
  match ph with
  | Waiting => cpu_stage c0 = Waiting /\ l = l0
  | Tables p => cpu_stage c0 = Waiting /\
      walks s0 p (fun _ es => does es l = does (ap_enter s0) l0)
  | Starting p => cpu_stage c0 = Waiting /\ confined_prog (put s0) p /\
      exists l', timer_started s0 polls (does (ap_enter s0) l0) l' /\
        forall x, denote p (put s0 l x) = Done tt (put s0 l' x)
  | Reporting p => cpu_stage c0 = Waiting /\ reports p /\
      exists l', timer_started s0 polls (does (ap_enter s0) l0) l' /\ tail_of l' l
  | Idling =>
      (cpu_stage c0 = Waiting /\
       exists l', timer_started s0 polls (does (ap_enter s0) l0) l' /\ tail_of l' l) \/
      (cpu_stage c0 = Idling /\ tail_of l0 l)
  | Returning ph => interruptible_stage ph /\ stage_inv c0 ph l
  | Faulted f => stop_fault f
  end.

Definition cpu_inv (c0 c : cpu) : Prop :=
  cpu_info c = cpu_info c0 /\ stage_inv c0 (cpu_stage c) (cpu_own c).

(** What processors may have changed of the shared state. *)
Definition rest_of (s : kstate) : rest :=
  Rest (k_gdt s) (apic_timer_ticks (k_apic s)) (keyboard_state s).

Record sys_inv (cpus : list cpu) (sy : system) : Prop := {
  sy_like : exists l, sy_shared sy = put s0 l (rest_of (sy_shared sy));
  sy_rest : rest_ok (rest_of (sy_shared sy));
  sy_table : gdt_settled (k_link s0) (k_gdt (sy_shared sy));
  sy_each : Forall2 cpu_inv cpus (sy_cpus sy);
}.

Lemma rest_put l x : rest_of (put s0 l x) = x.
Proof using Type. by destruct x. Qed.

(** What a processor's step has to keep; the others keep to themselves. *)
Lemma inv_moved cpus sy i c0 c ph l' x' :
  sys_inv cpus sy -> cpus !! i = Some c0 -> sy_cpus sy !! i = Some c -> rest_ok x' ->
  gdt_settled (k_link s0) (r_gdt x') -> stage_inv c0 ph l' ->
  sys_inv cpus (moved sy i c ph (put s0 l' x')).
Proof using Type.
  intros [_ _ _ Heach] Hc0 Hc Hx' Hg Hinv.
  destruct (Forall2_lookup_lr _ _ _ _ _ _ Heach Hc0 Hc) as [Hinfo _].
  split; cbn [moved sy_shared sy_cpus].
  - exists l'. by rewrite rest_put.
  - by rewrite rest_put.
  - done.
  - rewrite own_put. rewrite <- (list_insert_id _ _ _ Hc0). by apply Forall2_insert.
Qed.

(** *** One step *)

(** The processor's own step, or its interrupt, on a settled table. *)
Lemma table_put (m : M unit) F l x :
  on_table (k_link s0) m F -> gdt_settled (k_link s0) (r_gdt x) ->
  (exists g', gdt_settled (k_link s0) g' /\
     m (put s0 l x) = Done tt (put s0 l (Rest g' (r_ticks x) (r_keys x)))) \/
  (exists f, F f /\ m (put s0 l x) = Fault f (put s0 l x)).
Proof using Type.
  intros Hm Hg. destruct (Hm (r_gdt x) Hg) as [(g' & Hg' & E)|(f & Hf & E)];
    [left; exists g'|right; exists f]; (split; [done|]); exact (E (put s0 l x)).
Qed.

Lemma walks_put {B} (m : M B) (k : B -> prog unit) Q l x :
  walks s0 (PStep m k) Q -> gdt_settled (k_link s0) (r_gdt x) ->
  match m (put s0 l x) with
  | Done b s' => exists g' es, gdt_settled (k_link s0) g' /\
      s' = put s0 (does es l) (Rest g' (r_ticks x) (r_keys x)) /\
      walks s0 (k b) (fun a es' => Q a (es ++ es'))
  | Fault f s' => table_fault f /\ s' = put s0 l x
  | _ => False
  end.
Proof using Type.
  intros Hw Hg. exact (Hw (r_gdt x) (put s0 l x) Hg (conj eq_refl (conj eq_refl eq_refl))).
Qed.

Lemma tail_of_app l l' es : tail_of l l' -> Forall (tail_event s0) es -> tail_of l (does es l').
Proof using Type.
  intros (es' & Hes' & ->) Hes. exists (es' ++ es). split; [by apply Forall_app|apply does_app].
Qed.

Lemma does_same es l l' : does es l = does es l' -> l = l'.
Proof using Type.
  destruct l, l'. intros [= -> E]. f_equal. by apply app_inv_tail in E.
Qed.

(** The stages that touch the table. *)
Definition touches (ph : stage) : Prop :=
  match ph with Tables _ | Returning _ => True | _ => False end.

(** What the step comes to, as far as the processor's own stage and events go. *)
Definition step_ok (c0 : cpu) (x : rest) (ph : stage) {B} (o : outcome B) (k : B -> stage) : Prop :=
  match o with
  | Done b s' => exists l' g', s' = put s0 l' (Rest g' (r_ticks x) (r_keys x)) /\
      gdt_settled (k_link s0) g' /\ stage_inv c0 (k b) l' /\ (touches ph \/ g' = r_gdt x)
  | Halted s' => exists l', s' = put s0 l' x /\ stage_inv c0 Idling l' /\ exists p, ph = Reporting p
  | Fault f s' => exists l', s' = put s0 l' x /\ stop_fault f /\ touches ph
  | OutOfFuel => False
  end.

Lemma step_keeps c0 x ph {B} (m : M B) k l :
  at_step ph m k -> stage_inv c0 ph l -> gdt_settled (k_link s0) (r_gdt x) ->
  step_ok c0 x ph (m (put s0 l x)) k.
Proof using Type.
  intros Hat Hinv Hg. destruct Hat as [B m k|B m k|B m k|ph].
  - destruct Hinv as [Hw Hp]. pose proof (walks_put m k _ l x Hp Hg) as Hm.
    destruct (m (put s0 l x)) as [b s'|s'|f s'|]; [|done| |done].
    + destruct Hm as (g' & es & Hg' & -> & Hk). exists (does es l), g'. do 2 (split; [done|]).
      split; [|by left]. split; [done|]. eapply walks_mono; [|exact Hk].
      intros _ es' <-. by rewrite does_app.
    + destruct Hm as [Hf ->]. exists l. split; [done|]. split; [|done].
      destruct Hf as [->| ->]; [by right; left|by right; right].
  - destruct Hinv as (Hw & Hp & l1 & Hl1 & Hr).
    destruct (confined_prog_next (put s0) m k l (PDone tt l1) Hp Hr) as (r & Hm & Hk). rewrite Hm.
    destruct r as [b l'|o|f o|]; [|by specialize (Hk (Rest (r_gdt x) 0 0))..].
    destruct Hk as [Hk Hd]. exists l', (r_gdt x). split; [by destruct x|]. split; [done|].
    split; [|by right]. split; [done|]. split; [done|]. by exists l1.
  - destruct Hinv as (Hw & Hp & l1 & Hl1 & Hl). destruct (Hp l) as (es & Hes & Hm).
    destruct Hm as [(b & Hm & Hk)|Hm]; rewrite Hm.
    + exists (does es l), (r_gdt x). split; [by destruct x|]. split; [done|]. split; [|by right].
      split; [done|]. split; [done|]. exists l1. split; [done|]. by apply tail_of_app.
    + exists (does es l). split; [done|]. split; [|by eexists]. left. split; [done|]. exists l1.
      split; [done|]. by apply tail_of_app.
  - destruct Hinv as [_ Hinv].
    destruct (table_put _ _ l x (return_on_table (k_link s0)) Hg) as [(g' & Hg' & E)|(f & <- & E)];
      rewrite E; [exists l, g'|exists l]; (split; [done|]); [|by split; [right; left|]].
    split; [done|]. split; [done|by left].
Qed.

Lemma tail_testing es : Forall (tail_event s0) es -> foldl test_step false es = false.
Proof using Type.
  induction 1 as [|e es He _ IH]; [done|].
  destruct He as [He|[->|[->|[->|[v ->]]]]]; [by destruct e|done..].
Qed.

(** What a processor that takes interrupts has of its own. *)
Lemma own_interruptible c0 ph l :
  testing (lo_trace (cpu_own c0)) = false -> interruptible_stage ph -> stage_inv c0 ph l ->
  lo_dev l = lo_dev (cpu_own c0) /\ testing (lo_trace l) = false.
Proof using Type.
  intros Hte Hst Hinv.
  assert (exists l1, (lo_dev l1 = lo_dev (cpu_own c0) /\ testing (lo_trace l1) = false) /\
    tail_of l1 l) as (l1 & [Hd Ht] & es & Hes & ->).
  { assert (forall l1, timer_started s0 polls (does (ap_enter s0) (cpu_own c0)) l1 ->
      lo_dev l1 = lo_dev (cpu_own c0) /\ testing (lo_trace l1) = false) as Hl.
    { intros l1 [[-> ->] _]. split; [done|].
      change (testing (lo_trace (cpu_own c0) ++ ap_enter s0) = false). by rewrite testing_app, Hte. }
    destruct ph; try done.
    - destruct Hinv as (_ & _ & l1 & H1 & H2). exists l1. split; [by apply Hl|done].
    - destruct Hinv as [(_ & l1 & H1 & H2)|[_ H2]]; [exists l1|by exists (cpu_own c0)].
      split; [by apply Hl|done]. }
  split; [exact Hd|]. change (testing (lo_trace l1 ++ es) = false).
  by rewrite testing_app, Ht, tail_testing.
Qed.

Lemma irq_keeps c0 x ph l q s' :
  cpu_ok s0 port n c0 -> interruptible_stage ph -> stage_inv c0 ph l -> rest_ok x ->
  idle_step (put s0 l x) q s' ->
  exists l' x', s' = put s0 l' x' /\ rest_ok x' /\ r_gdt x' = r_gdt x /\ stage_inv c0 (Returning ph) l'.
Proof using Type.
  intros [_ Htab Hte _ _] Hph Hinv Hx Hq.
  destruct (own_interruptible c0 ph l Hte Hph Hinv) as [Hdev Hte'].
  destruct (irq_put l x q s' Hx) as (es & x' & Hes & -> & Hx' & Hg); [|done|done|].
  { intros t Ht. specialize (Htab t Ht). cbn in *. by rewrite Hdev. }
  exists (does es l), x'. do 3 (split; [done|]). split; [done|].
  destruct ph; try done.
  - destruct Hinv as (Hw & Hp & l1 & Hl1 & Hl). split; [done|]. split; [done|].
    exists l1. split; [done|]. by apply tail_of_app.
  - destruct Hinv as [(Hw & l1 & Hl1 & Hl)|[Hw Hl]]; [left|right].
    + split; [done|]. exists l1. split; [done|]. by apply tail_of_app.
    + split; [done|]. by apply tail_of_app.
Qed.

(** From stage to stage. *)
Lemma enter_tables c0 l : stage_inv c0 Waiting l -> stage_inv c0 (Tables ap_tables_p) l.
Proof using Type.
  intros [Hw ->]. split; [done|]. eapply walks_mono; [|apply walks_ap_tables]. by intros _ es ->.
Qed.

Lemma leave_tables c0 l :
  cpu_ok s0 port n c0 -> stage_inv c0 (Tables (PRet tt)) l ->
  stage_inv c0 (Starting (init_apic_ap_p polls)) l.
Proof using Hok.
  intros [Hruns _ _ _ _] [Hw Hl]. destruct Hok as [_ Hla Hba Hti Hpo _ _].
  split; [done|]. split; [by apply (confined_init_apic_ap s0 base)|].
  assert (l = does (ap_enter s0) (cpu_own c0)) as -> by (rewrite <- Hl; unfold does; rewrite app_nil_r; by destruct l).
  destruct (init_apic_alone s0 base port polls n Hla Hba Hti Hpo (does (ap_enter s0) (cpu_own c0)))
    as [l' Hl']; [done|]. exists l'. split; [done|apply Hl'].
Qed.

Lemma leave_starting c0 l info :
  stage_inv c0 (Starting (PRet tt)) l -> stage_inv c0 (Reporting (ap_report_p info)) l.
Proof using Type.
  intros (Hw & _ & l' & Hl' & Hr). split; [done|]. split; [apply reports_ap_report|].
  exists l'. split; [done|]. specialize (Hr (Rest (k_gdt s0) 0 0)). cbn [denote] in Hr.
  apply done_inj, put_inj in Hr. exists []. split; [constructor|].
  rewrite Hr. unfold does. rewrite app_nil_r. by destruct l'.
Qed.

(** *** The machine *)

Context (cpus : list cpu) (Hcpus : Forall (cpu_ok s0 port n) cpus).

Lemma sees sy c : sys_inv cpus sy -> on (cpu_own c) (sy_shared sy) = put s0 (cpu_own c) (rest_of (sy_shared sy)).
Proof using Type. intros [(l & El) _ _ _]. by rewrite El at 1. Qed.

Lemma each sy i c :
  sys_inv cpus sy -> sy_cpus sy !! i = Some c ->
  exists c0, cpus !! i = Some c0 /\ cpu_ok s0 port n c0 /\ cpu_inv c0 c.
Proof using Hcpus.
  intros [_ _ _ Heach] Hc. destruct (Forall2_lookup_r _ _ _ _ _ Heach Hc) as (c0 & Hc0 & Hinv).
  exists c0. split; [done|]. split; [|done]. by apply (proj1 (Forall_lookup _ _) Hcpus i).
Qed.

(** The outcome of a processor's step. *)
Lemma step_of sy i c {B} (m : M B) k :
  sys_inv cpus sy -> sy_cpus sy !! i = Some c -> at_step (cpu_stage c) m k ->
  exists c0, cpus !! i = Some c0 /\
    step_ok c0 (rest_of (sy_shared sy)) (cpu_stage c) (m (on (cpu_own c) (sy_shared sy))) k.
Proof using Hcpus.
  intros Hs Hc Hat. destruct (each sy i c Hs Hc) as (c0 & Hc0 & _ & _ & Hinv). exists c0.
  split; [done|]. rewrite (sees sy) by done.
  by apply (step_keeps c0 _ (cpu_stage c)); [..|apply (sy_table _ _ Hs)].
Qed.

(** A processor goes on where it is. *)
Lemma inv_stage sy i c ph :
  sys_inv cpus sy -> sy_cpus sy !! i = Some c ->
  (forall c0, cpu_ok s0 port n c0 -> stage_inv c0 (cpu_stage c) (cpu_own c) -> stage_inv c0 ph (cpu_own c)) ->
  sys_inv cpus (moved sy i c ph (on (cpu_own c) (sy_shared sy))).
Proof using Hcpus.
  intros Hs Hc Hph. destruct (each sy i c Hs Hc) as (c0 & Hc0 & Hok0 & _ & Hinv).
  rewrite (sees sy) by done. apply (inv_moved cpus sy i c0); [done..|apply Hs|apply Hs|by apply Hph].
Qed.

Lemma inv_own sy i sy' : sys_inv cpus sy -> own_step polls sy i sy' -> sys_inv cpus sy'.
Proof using Hok Hcpus.
  intros Hs [c Hc Hph _|c Hc Hph|c Hc Hph|c B m k b s' Hc Hat E|c B m k s' Hc Hph E|c B m k f s' Hc Hat E].
  - apply inv_stage; [done..|]. intros c0 _. rewrite Hph. apply enter_tables.
  - apply inv_stage; [done..|]. intros c0 H0. rewrite Hph. by apply leave_tables.
  - apply inv_stage; [done..|]. intros c0 _. rewrite Hph. apply leave_starting.
  - destruct (step_of sy i c m k Hs Hc Hat) as (c0 & Hc0 & H). rewrite E in H.
    destruct H as (l' & g' & -> & Hg & Hinv & _). apply (inv_moved cpus sy i c0); try done. apply Hs.
  - assert (at_step (cpu_stage c) m (fun b => Reporting (k b))) as Hat by (rewrite Hph; constructor).
    destruct (step_of sy i c m _ Hs Hc Hat) as (c0 & Hc0 & H). rewrite E in H.
    destruct H as (l' & -> & Hinv & _). apply (inv_moved cpus sy i c0); try done; apply Hs.
  - destruct (step_of sy i c m k Hs Hc Hat) as (c0 & Hc0 & H). rewrite E in H.
    destruct H as (l' & -> & Hf & _). apply (inv_moved cpus sy i c0); try done; apply Hs.
Qed.

Lemma inv_irq sy i sy' : sys_inv cpus sy -> irq_step sy i sy' -> sys_inv cpus sy'.
Proof using Hcpus.
  intros Hs H. assert (exists c, sy_cpus sy !! i = Some c) as [c0' Hlk] by (destruct H; eauto).
  destruct H as [c q s1 s' Hc Hph E Hq|c f s' Hc Hph E].
  all: destruct (each sy i c Hs Hc) as (c0 & Hc0 & Hok0 & _ & Hinv).
  all: rewrite (sees sy) in E by done; set (x := rest_of (sy_shared sy)) in *.
  all: destruct (table_put _ _ (cpu_own c) x (interrupt_on_table (k_link s0)) (sy_table _ _ Hs))
    as [(g' & Hg' & E')|(f' & Hf & E')]; rewrite E' in E; try done.
  - injection E as <-.
    destruct (irq_keeps c0 (Rest g' (r_ticks x) (r_keys x)) (cpu_stage c) (cpu_own c) q s' Hok0 Hph Hinv)
      as (l' & x' & -> & Hx' & Hg & Hinv'); [apply Hs|done|].
    apply (inv_moved cpus sy i c0); try done. by rewrite Hg.
  - injection E as <- <-. apply (inv_moved cpus sy i c0); try done; [apply Hs|apply Hs|]. subst f'. by left.
Qed.

Lemma inv_step sy sy' : sys_inv cpus sy -> sys_step polls sy sy' -> sys_inv cpus sy'.
Proof using Hok Hcpus. intros Hs [i [H|H]]; [by eapply inv_own|by eapply inv_irq]. Qed.

Lemma inv_reach sy sy' : sys_inv cpus sy -> sys_reach polls sy sy' -> sys_inv cpus sy'.
Proof using Hok Hcpus. intros Hs. induction 1 as [|sy1 sy2 _ H1 H2]; [done|]. by eapply inv_step. Qed.

Lemma inv_start : sys_inv cpus (System cpus s0).
Proof using Hok Hcpus.
  destruct Hok as [Hgdt _ _ _ _ Ht Hk]. split.
  - exists (own_of s0). unfold put, own_of. cbn [sy_shared lo_dev lo_trace rest_of r_gdt r_ticks r_keys].
    destruct s0 as [? ? [] ? ? ? ? ? ? ? [] ? ?]. reflexivity.
  - by split.
  - cbn [sy_shared]. rewrite Hgdt. apply gdt_settled_final.
  - apply Forall_Forall2_diag. eapply Forall_impl; [exact Hcpus|].
    intros c [_ _ _ [Hph|Hph] _]; split; try done; unfold cpu_inv; rewrite Hph; [done|]. right. split; [done|].
    exists []. split; [constructor|]. unfold does. rewrite app_nil_r. by destruct (cpu_own c).
Qed.
End start.

(** *** The end of the start *)

(** Where a processor's own code takes it next. *)
Definition stage_step (polls : nat) (info : limine_smp_info) (ph ph' : stage) : Prop :=
  match ph with
  | Waiting => ph' = Tables ap_tables_p
  | Tables (PRet _) => ph' = Starting (init_apic_ap_p polls)
  | Tables (PStep m k) => exists b, ph' = Tables (k b)
  | Starting (PRet _) => ph' = Reporting (ap_report_p info)
  | Starting (PStep m k) => exists b, ph' = Starting (k b)
  | Reporting (PRet _) => False
  | Reporting (PStep m k) => ph' = Idling \/ exists b, ph' = Reporting (k b)
  | Returning ph => ph' = ph
  | Idling | Faulted _ => False
  end.

Definition is_faulted (ph : stage) : Prop := exists f, ph = Faulted f.

Definition cpu_after (polls : nat) (c' c : cpu) : Prop :=
  cpu_info c' = cpu_info c /\
  (stage_step polls (cpu_info c) (cpu_stage c) (cpu_stage c') \/
   (is_faulted (cpu_stage c') /\ ~ is_faulted (cpu_stage c))).

Section ends.
Context (polls : nat).

Lemma faulted_acc info f l : Acc (cpu_after polls) (Cpu info (Faulted f) l).
Proof. constructor. intros c' [_ [[]|[_ H]]]. destruct H. by exists f. Qed.

(** Every next stage has an end, so this one has. *)
Lemma stage_acc info ph l :
  (forall ph' l', stage_step polls info ph ph' -> Acc (cpu_after polls) (Cpu info ph' l')) ->
  Acc (cpu_after polls) (Cpu info ph l).
Proof.
  intros H. constructor. intros [info' ph' l'] [E [Hs|[[f Hf] _]]]; cbn in *; subst; [by apply H|apply faulted_acc].
Qed.

Lemma idling_acc info l : Acc (cpu_after polls) (Cpu info Idling l).
Proof. by apply stage_acc. Qed.

Lemma reporting_acc info p : forall l, Acc (cpu_after polls) (Cpu info (Reporting p) l).
Proof.
  induction p as [u|B m k IH]; intros l; apply stage_acc; intros ph' l' H; [done|].
  destruct H as [->|[b ->]]; [apply idling_acc|apply IH].
Qed.

Lemma starting_acc info p : forall l, Acc (cpu_after polls) (Cpu info (Starting p) l).
Proof.
  induction p as [u|B m k IH]; intros l; apply stage_acc; intros ph' l' H.
  - cbn in H. subst ph'. apply reporting_acc.
  - destruct H as [b ->]. apply IH.
Qed.

Lemma tables_acc info p : forall l, Acc (cpu_after polls) (Cpu info (Tables p) l).
Proof.
  induction p as [u|B m k IH]; intros l; apply stage_acc; intros ph' l' H.
  - cbn in H. subst ph'. apply starting_acc.
  - destruct H as [b ->]. apply IH.
Qed.

Lemma cpu_after_wf : well_founded (cpu_after polls).
Proof.
  intros [info ph l]. revert l. induction ph as [|p|p|p| |ph IH|f]; intros l;
    [|apply tables_acc|apply starting_acc|apply reporting_acc|apply idling_acc| |apply faulted_acc].
  - apply stage_acc. intros ph' l' ->. apply tables_acc.
  - apply stage_acc. intros ph' l' ->. apply IH.
Qed.

Lemma at_step_next info ph {B} (m : M B) k :
  at_step ph m k -> forall b, stage_step polls info ph (k b).
Proof. intros []; cbn; eauto. Qed.

Lemma at_step_live ph {B} (m : M B) k : at_step ph m k -> ~ is_faulted ph.
Proof. by intros [] [f]. Qed.

Lemma at_step_reporting ph {B} (m : M B) k p :
  at_step ph m k -> ph = Reporting p -> exists k', ph = Reporting (PStep m k').
Proof. intros []; try done. by eexists. Qed.

Lemma own_step_after sy i sy' :
  own_step polls sy i sy' -> one_after (cpu_after polls) (sy_cpus sy') (sy_cpus sy).
Proof.
  intros [c Hc Hph _|c Hc Hph|c Hc Hph|c B m k b s' Hc Hat _|c B m k s' Hc Hph _|c B m k f s' Hc Hat _];
    (eapply one_after_at; [exact Hc|]); (split; [done|]); cbn [cpu_stage cpu_info]; rewrite ?Hph.
  - by left.
  - by left.
  - by left.
  - left. by apply (at_step_next _ _ m).
  - left. by left.
  - right. split; [by exists f|]. by apply (at_step_live _ m k).
Qed.

(** Left to themselves, the processors come to an end in every order of steps. *)
Lemma own_step_ends sy : Acc (fun sy2 sy1 => exists i, own_step polls sy1 i sy2) sy.
Proof.
  apply (Acc_incl _ _ (fun sy2 sy1 => one_after (cpu_after polls) (sy_cpus sy2) (sy_cpus sy1))).
  - intros sy2 sy1 [i H]. by eapply own_step_after.
  - apply (Acc_inverse_image _ _ (one_after (cpu_after polls)) sy_cpus), one_after_wf, cpu_after_wf.
Qed.
End ends.

Section progress.
Context (s0 : kstate) (base port : Z) (polls n : nat) (cpus : list cpu).
Context (Hok : start_ok s0 base port polls n) (Hcpus : Forall (cpu_ok s0 port n) cpus).

(** A processor that has not come to its end can go on, whatever the others do. *)
Lemma goes_on sy i c :
  sys_inv s0 polls cpus sy -> sy_cpus sy !! i = Some c -> ended c \/ exists sy', own_step polls sy i sy'.
Proof using Hcpus.
  intros Hs Hc. destruct (each s0 port polls n cpus Hcpus sy i c Hs Hc) as (c0 & Hc0 & Hok0 & Hinfo & Hinv).
  assert (forall B (m : M B) k, at_step (cpu_stage c) m k -> exists sy', own_step polls sy i sy') as Hgo.
  { intros B m k Hat. destruct (step_of s0 port polls n cpus Hcpus sy i c m k Hs Hc Hat) as (c1 & _ & H).
    destruct (m (on (cpu_own c) (sy_shared sy))) as [b s'|s'|f s'|] eqn:E; [| | |done].
    - eexists. by eapply own_run.
    - destruct H as (_ & _ & _ & p & Ep). destruct (at_step_reporting _ m k p Hat Ep) as (k' & Hph).
      eexists. by eapply own_halt.
    - eexists. by eapply own_fault. }
  destruct (cpu_stage c) as [|p|p|p| |ph|f] eqn:Hph; [right|right|right|right|left|right|left].
  - eexists. apply own_enter; [done|done|]. rewrite Hinfo. apply Hok0, Hinv.
  - destruct p as [[]|B m k]; [eexists; by eapply own_start|]. by eapply Hgo; constructor.
  - destruct p as [[]|B m k]; [eexists; by eapply own_ready|]. by eapply Hgo; constructor.
  - destruct p as [u|B m k]; [by destruct Hinv as (_ & [] & _)|]. by eapply Hgo; constructor.
  - by left.
  - by eapply Hgo; constructor.
  - right. by exists f.
Qed.

(** *** Calm schedules *)

(** The processor, alone from here with the table [g], leaves it whole. *)
Definition leaves_whole (l : cpu_local) (g : gdt_globals) (p : prog unit) : Prop :=
  confined_prog (put_table s0) p /\
  exists l', forall y, denote p (put_table s0 (l, g) y) =
    Done tt (put_table s0 (l', gdt_final (k_link s0)) y).

(** No processor has stopped; one at most is in the table, which it will leave whole
    if nobody comes in between; and the table is whole when nobody is in it. *)
Record calm_inv (sy : system) : Prop := {
  ca_inv : sys_inv s0 polls cpus sy;
  ca_fine : forall i c, sy_cpus sy !! i = Some c -> ~ is_faulted (cpu_stage c);
  ca_one : forall i j c c', sy_cpus sy !! i = Some c -> sy_cpus sy !! j = Some c' ->
    in_tables c -> in_tables c' -> i = j;
  ca_whole : table_free sy -> k_gdt (sy_shared sy) = gdt_final (k_link s0);
  ca_leaves : forall i c p, sy_cpus sy !! i = Some c -> cpu_stage c = Tables p ->
    leaves_whole (cpu_own c) (k_gdt (sy_shared sy)) p;
}.

Definition tables_stage (ph : stage) : Prop := match ph with Tables _ => True | _ => False end.

(** What a processor's step has to keep of it. *)
Lemma calm_moved sy i c ph s' :
  calm_inv sy -> sy_cpus sy !! i = Some c -> sys_inv s0 polls cpus (moved sy i c ph s') ->
  ~ is_faulted ph -> (tables_stage ph -> in_tables c \/ table_free sy) ->
  (forall p, ph = Tables p -> leaves_whole (own_of s') (k_gdt s') p) ->
  (in_tables c \/ k_gdt s' = k_gdt (sy_shared sy)) ->
  (~ tables_stage ph -> in_tables c -> k_gdt s' = gdt_final (k_link s0)) ->
  calm_inv (moved sy i c ph s').
Proof using Type.
  intros [_ Hfine Hone Hwhole Hleaves] Hc Hinv Hf Hin Hexact Hg Hout.
  pose proof (lookup_lt_Some _ _ _ Hc) as Hlt. set (c' := Cpu (cpu_info c) ph (own_of s')).
  assert (forall j cj, sy_cpus (moved sy i c ph s') !! j = Some cj ->
    (j = i /\ cj = c') \/ (j <> i /\ sy_cpus sy !! j = Some cj)) as Hat.
  { intros j cj Hj. cbn [moved sy_cpus] in Hj. destruct (decide (j = i)) as [->|Hne]; [left|right].
    - rewrite list_lookup_insert_eq in Hj by done. by injection Hj as <-.
    - by rewrite list_lookup_insert_ne in Hj. }
  split; [done| | | |].
  - intros j cj Hj. destruct (Hat j cj Hj) as [[_ ->]|[_ Hj']]; [done|by eapply Hfine].
  - intros j k cj ck Hj Hk Hcj Hck.
    destruct (Hat j cj Hj) as [[-> ->]|[Hnj Hj']], (Hat k ck Hk) as [[-> ->]|[Hnk Hk']]; [done|..].
    + destruct (Hin Hcj) as [Hi|Hfr]; [by apply (Hone i k c ck)|by destruct (Hfr k ck Hk')].
    + destruct (Hin Hck) as [Hi|Hfr]; [by apply (Hone j i cj c)|by destruct (Hfr j cj Hj')].
    + by apply (Hone j k cj ck).
  - intros Hfr. cbn [moved sy_shared].
    assert (~ tables_stage ph) as Hph
      by (apply (Hfr i c'); cbn [moved sy_cpus]; by apply list_lookup_insert_eq).
    destruct (decide (in_tables c)) as [Hi|Hi]; [by apply Hout|].
    destruct Hg as [Hg| ->]; [done|]. apply Hwhole. intros j cj Hj.
    destruct (decide (j = i)) as [->|Hne]; [rewrite Hc in Hj; by injection Hj as <-|].
    apply (Hfr j). cbn [moved sy_cpus]. by rewrite list_lookup_insert_ne.
  - intros j cj p Hj Hp. cbn [moved sy_shared]. destruct (Hat j cj Hj) as [[-> ->]|[Hne Hj']]; [by apply Hexact|].
    destruct Hg as [Hg| ->]; [|by eapply Hleaves].
    exfalso. apply Hne, (Hone j i cj c); [done|done| |done]. unfold in_tables. by rewrite Hp.
Qed.

(** Loading the kernel's code segment from the whole table. *)
Lemma whole_loads s :
  k_gdt s = gdt_final (k_link s0) ->
  load_selector 0x08 is_code64 ACCESSED s = Done tt s /\ far_return 0x08 s = Done tt s.
Proof using Type.
  intros Hg. assert (set_gdt (k_gdt s) s = s) as Es by apply set_gdt_id. rewrite Hg in Es.
  rewrite <- Es. unfold load_selector, far_return, gdt_final.
  by rewrite !(load_checked_at 0x08 _ _ (encoded 0 0xFFFFF 0x9B 0xA)).
Qed.

Lemma on_gdt l s : k_gdt (on l s) = k_gdt s.
Proof using Type. done. Qed.

(** The next step of the processor in the table. *)
Lemma whole_step l g y {B} (m : M B) (k : B -> prog unit) :
  leaves_whole l g (PStep m k) ->
  exists b l' g', m (put_table s0 (l, g) y) = Done b (put_table s0 (l', g') y) /\ leaves_whole l' g' (k b).
Proof using Type.
  intros [Hp [l1 Hr]].
  destruct (confined_prog_next (put_table s0) m k (l, g) (PDone tt (l1, gdt_final (k_link s0))) Hp Hr)
    as (r & Hm & Hk).
  destruct r as [b [l' g']|o|f o|]; [|by specialize (Hk (0, 0))..].
  destruct Hk as [Hk Hd]. exists b, l', g'. split; [apply (Hm y)|]. split; [done|]. by exists l1.
Qed.

Lemma calm_run sy i c {B} (m : M B) k b s' :
  calm_inv sy -> sy_cpus sy !! i = Some c -> at_step (cpu_stage c) m k ->
  m (on (cpu_own c) (sy_shared sy)) = Done b s' -> (loads_table (cpu_stage c) -> table_free sy) ->
  sys_inv s0 polls cpus (moved sy i c (k b) s') -> calm_inv (moved sy i c (k b) s').
Proof using Hcpus.
  intros Hca Hc Hat E Hfree Hinv. pose proof (ca_inv _ Hca) as Hs.
  destruct (step_of s0 port polls n cpus Hcpus sy i c m k Hs Hc Hat) as (c0 & _ & H). rewrite E in H.
  destruct H as (l2 & g2 & Es & _ & Hst & Hto).
  remember (cpu_stage c) as ph eqn:Hph. destruct Hat as [B m k|B m k|B m k|ph].
  - destruct (whole_step (cpu_own c) (k_gdt (sy_shared sy))
      (apic_timer_ticks (k_apic (sy_shared sy)), keyboard_state (sy_shared sy)) m k) as (b' & l' & g' & Em & Hl).
    { by apply (ca_leaves _ Hca i c). }
    rewrite (sees s0 polls cpus sy) in E by done. pose proof (eq_trans (eq_sym Em) E) as E'. injection E' as <- <-.
    assert (in_tables c) as Hin by (unfold in_tables; by rewrite <- Hph).
    apply calm_moved; try done; [by intros [f]|by left| |by left].
    intros p [= <-]. unfold put_table. by rewrite own_put.
  - destruct Hto as [[]| ->]. subst s'. apply calm_moved; try done; [by intros [f]|by right|].
    intros _. unfold in_tables. by rewrite <- Hph.
  - destruct Hto as [[]| ->]. subst s'. apply calm_moved; try done; [by intros [f]|by right|].
    intros _. unfold in_tables. by rewrite <- Hph.
  - rewrite (proj2 (whole_loads (on (cpu_own c) (sy_shared sy)) (ca_whole _ Hca (Hfree I)))) in E.
    injection E as <- <-.
    destruct (each s0 port polls n cpus Hcpus sy i c Hs Hc) as (c1 & _ & _ & _ & Hr).
    rewrite <- Hph in Hr. destruct Hr as [Hi _].
    apply calm_moved; try done; [by intros [f ->]|by destruct ph|by intros p ->|by right|].
    intros _. unfold in_tables. by rewrite <- Hph.
Qed.

Lemma calm_no_fault sy i c {B} (m : M B) k f s' :
  calm_inv sy -> sy_cpus sy !! i = Some c -> at_step (cpu_stage c) m k ->
  (loads_table (cpu_stage c) -> table_free sy) ->
  m (on (cpu_own c) (sy_shared sy)) = Fault f s' -> False.
Proof using Hcpus.
  intros Hca Hc Hat Hfree E. pose proof (ca_inv _ Hca) as Hs.
  destruct (step_of s0 port polls n cpus Hcpus sy i c m k Hs Hc Hat) as (c0 & _ & H). rewrite E in H.
  destruct H as (_ & _ & _ & Hto).
  remember (cpu_stage c) as ph eqn:Hph. destruct Hat as [B m k|B m k|B m k|ph]; [|by destruct Hto..|].
  - destruct (whole_step (cpu_own c) (k_gdt (sy_shared sy))
      (apic_timer_ticks (k_apic (sy_shared sy)), keyboard_state (sy_shared sy)) m k) as (b' & l' & g' & Em & _).
    { by apply (ca_leaves _ Hca i c). }
    rewrite (sees s0 polls cpus sy) in E by done. by pose proof (eq_trans (eq_sym Em) E).
  - by rewrite (proj2 (whole_loads (on (cpu_own c) (sy_shared sy)) (ca_whole _ Hca (Hfree I)))) in E.
Qed.

Lemma calm_own sy i c sy' :
  calm_inv sy -> sy_cpus sy !! i = Some c -> own_step polls sy i sy' ->
  (loads_table (cpu_stage c) -> table_free sy) -> calm_inv sy'.
Proof using Hok Hcpus.
  intros Hca Hc0 Hstep Hfree. pose proof (ca_inv _ Hca) as Hs.
  pose proof (inv_own s0 base port polls n Hok cpus Hcpus sy i sy' Hs Hstep) as Hinv.
  destruct Hstep as [c1 Hc Hph _|c1 Hc Hph|c1 Hc Hph|c1 B m k b s' Hc Hat E|c1 B m k s' Hc Hph E
    |c1 B m k f s' Hc Hat E]; rewrite Hc0 in Hc; injection Hc as <-.
  - assert (table_free sy) as Hf by (apply Hfree; by rewrite Hph).
    apply calm_moved; try done; [by intros [f]|by right| |by right].
    intros p [= <-]. cbn [on k_gdt]. rewrite (ca_whole _ Hca Hf).
    split; [apply confined_ap_tables|]. eexists. intros y. apply ap_tables_alone.
  - apply calm_moved; try done; [by intros [f]|by right|]. intros _ _.
    destruct (ca_leaves _ Hca i c _ Hc0 Hph) as [_ [l' Hd]]. specialize (Hd (0, 0)).
    apply done_inj in Hd. exact (f_equal k_gdt Hd).
  - apply calm_moved; try done; [by intros [f]|by right|]. intros _. unfold in_tables. by rewrite Hph.
  - by apply calm_run with (m := m).
  - assert (at_step (cpu_stage c) m (fun b => Reporting (k b))) as Hat by (rewrite Hph; constructor).
    destruct (step_of s0 port polls n cpus Hcpus sy i c m _ Hs Hc0 Hat) as (c2 & _ & H). rewrite E in H.
    destruct H as (l' & -> & _). apply calm_moved; try done; [by intros [f]|by right|].
    intros _. unfold in_tables. by rewrite Hph.
  - exfalso. by eapply (calm_no_fault sy i c m k).
Qed.

Lemma calm_irq sy i sy' :
  calm_inv sy -> table_free sy -> irq_step sy i sy' -> calm_inv sy'.
Proof using Hok Hcpus.
  intros Hca Hfree Hstep. pose proof (ca_inv _ Hca) as Hs.
  pose proof (inv_irq s0 port polls n cpus Hcpus sy i sy' Hs Hstep) as Hinv.
  assert (forall c, load_selector 0x08 is_code64 ACCESSED (on (cpu_own c) (sy_shared sy)) =
    Done tt (on (cpu_own c) (sy_shared sy))) as Hload
    by (intros c; exact (proj1 (whole_loads (on (cpu_own c) (sy_shared sy)) (ca_whole _ Hca Hfree)))).
  destruct Hstep as [c q s1 s' Hc Hph E Hq|c f s' Hc Hph E]; rewrite Hload in E; [|done].
  injection E as <-.
  destruct (each s0 port polls n cpus Hcpus sy i c Hs Hc) as (c0 & Hc0 & Hok0 & _ & Hst).
  rewrite (sees s0 polls cpus sy) in Hq by done.
  destruct (irq_keeps s0 port polls n c0 (rest_of (sy_shared sy)) (cpu_stage c) (cpu_own c) q s' Hok0 Hph Hst
    (sy_rest _ _ _ _ Hs) Hq) as (l' & x' & -> & _ & Hg & _).
  apply calm_moved; try done; [by intros [f]|by right|].
  intros _ Hin. exfalso. unfold in_tables in Hin. unfold interruptible_stage in Hph. by destruct (cpu_stage c).
Qed.

Lemma calm_keeps sy sy' : calm_inv sy -> calm_step polls sy sy' -> calm_inv sy'.
Proof using Hok Hcpus.
  intros Hca (i & c & Hc & [[H Hf]|[H Hf]]); [by apply (calm_own sy i c)|by apply (calm_irq sy i)].
Qed.

Lemma calm_reached sy sy' : calm_inv sy -> calm_reach polls sy sy' -> calm_inv sy'.
Proof using Hok Hcpus. intros Hs. induction 1 as [|sy1 sy2 _ H1 H2]; [done|]. by eapply calm_keeps. Qed.

Lemma calm_start : calm_inv (System cpus s0).
Proof using Hok Hcpus.
  assert (forall i c, cpus !! i = Some c -> cpu_stage c = Waiting \/ cpu_stage c = Idling) as Hst
    by (intros i c Hc; apply (co_stage _ _ _ _ (proj1 (Forall_lookup _ _) Hcpus i c Hc))).
  split; cbn [sy_cpus sy_shared].
  - by apply (inv_start s0 base port polls n).
  - intros i c Hc [f Hf]. destruct (Hst i c Hc); congruence.
  - intros i j c c' Hc _ Hin. exfalso. revert Hin. unfold in_tables. by destruct (Hst i c Hc) as [->| ->].
  - intros _. apply Hok.
  - intros i c p Hc Hp. destruct (Hst i c Hc); congruence.
Qed.

Lemma table_free_dec sy :
  table_free sy \/ exists i c, sy_cpus sy !! i = Some c /\ in_tables c.
Proof using Type.
  destruct (decide (Exists in_tables (sy_cpus sy))) as [H|H]; [right|left].
  - apply Exists_exists in H as (c & Hc & Hin). apply list_elem_of_lookup in Hc as [i Hi]. by exists i, c.
  - intros j c Hc Hin. apply H, Exists_exists. exists c. split; [|done].
    by apply list_elem_of_lookup_2 with j.
Qed.

Lemma all_or_one sy :
  Forall (fun c => cpu_stage c = Idling) (sy_cpus sy) \/
  exists i c, sy_cpus sy !! i = Some c /\ cpu_stage c <> Idling.
Proof using Type.
  induction (sy_cpus sy) as [|c cs IH]; [by left|]. destruct (decide (cpu_stage c = Idling)) as [H|H].
  - destruct IH as [IH|(i & c' & Hc & H')]; [left; by constructor|right; by exists (S i), c'].
  - right. by exists 0%nat, c.
Qed.

(** On a calm schedule some processor goes on, unless all idle: the one in the table
    if there is one, else anyone. *)
Lemma calm_progress sy :
  calm_inv sy ->
  Forall (fun c => cpu_stage c = Idling) (sy_cpus sy) \/
  exists i sy', own_step polls sy i sy' /\ calm_step polls sy sy'.
Proof using Hcpus.
  intros Hca. pose proof (ca_inv _ Hca) as Hs.
  assert (forall i c, sy_cpus sy !! i = Some c -> cpu_stage c <> Idling ->
    (loads_table (cpu_stage c) -> table_free sy) ->
    exists i sy', own_step polls sy i sy' /\ calm_step polls sy sy') as Hgo.
  { intros i c Hc Hi Hf. destruct (goes_on sy i c Hs Hc) as [[H|H]|[sy' H]]; [done| |].
    - by destruct (ca_fine _ Hca i c Hc).
    - exists i, sy'. split; [done|]. exists i, c. split; [done|]. by left. }
  destruct (table_free_dec sy) as [Hf|(i & c & Hc & Hin)].
  - destruct (all_or_one sy) as [|(i & c & Hc & Hi)]; [by left|right]. by apply (Hgo i c).
  - right. unfold in_tables in Hin. apply (Hgo i c); [done|..]; by destruct (cpu_stage c).
Qed.

Lemma calm_trans sy1 sy2 sy3 :
  calm_reach polls sy1 sy2 -> calm_reach polls sy2 sy3 -> calm_reach polls sy1 sy3.
Proof using Type. intros H. induction 1 as [|sy4 sy5 _ IH Hs]; [done|]. by eapply calm_next. Qed.

(** So a calm run can always be completed. *)
Lemma calm_runs_out sy :
  calm_inv sy ->
  exists sy', calm_reach polls sy sy' /\ Forall (fun c => cpu_stage c = Idling) (sy_cpus sy').
Proof using Hok Hcpus.
  induction (own_step_ends polls sy) as [sy _ IH]. intros Hs.
  destruct (calm_progress sy Hs) as [Hall|(i & sy1 & H1 & Hc1)]; [exists sy; split; [constructor|done]|].
  destruct (IH sy1) as (sy2 & H2 & Hall); [by exists i|by eapply calm_keeps|]. exists sy2. split; [|done].
  apply (calm_trans sy sy1); [|done]. eapply calm_next; [constructor|done].
Qed.

Lemma calm_is_reach sy sy' : calm_reach polls sy sy' -> sys_reach polls sy sy'.
Proof using Type.
  induction 1 as [|sy1 sy2 _ IH (i & c & _ & H)]; [constructor|]. eapply reach_step; [exact IH|].
  exists i. destruct H as [[H _]|[H _]]; [by left|by right].
Qed.
End progress.

(** ** Properties *)

Lemma put_on s l :
  put s l (Rest (k_gdt s) (apic_timer_ticks (k_apic s)) (keyboard_state s)) = on l s.
Proof. destruct s as [? ? [] ? ? ? ? ? ? ? [] ? ?]. reflexivity. Qed.

Lemma inv_ran_alone s base port polls n c0 ph l :
  start_ok s base port polls n -> cpu_stage c0 = Waiting -> timer_runs_in ph ->
  stage_inv s polls c0 ph l -> ran_alone s polls (cpu_own c0) l.
Proof.
  intros [Hgdt _ _ _ _ _ _] Hw Hi Hinv.
  assert (exists l', timer_started s polls (does (ap_enter s) (cpu_own c0)) l' /\
    tail_of s l' l) as (l' & [Hdev Hl'] & es & Hes & ->).
  { induction ph as [|p|p|p| |ph IH|f]; try done; [apply Hinv| |by apply IH; [|apply Hinv]].
    destruct Hinv as [[_ H]|[H _]]; [exact H|congruence]. }
  exists l', es. split; [|by split; [|split; [apply Hdev|]]]. rewrite <- !put_on, Hgdt.
  etransitivity; [apply (bind_done _ _ _ _ _ (ap_tables_alone s (cpu_own c0)
    (apic_timer_ticks (k_apic s), keyboard_state s)))|].
  rewrite <- init_apic_ap_p_same. apply Hl'.
Qed.

(** C28: In whatever order the processors are let go, take their steps and their
    interrupts, any number of them in the descriptor table at once: the shared memory
    and the globals are those the boot processor left, but for the ticks, the
    keyboard's state and the descriptor table, whose descriptors keep their bases,
    limits and privileges; a processor stops only with a general protection fault on
    its code segment (at an interrupt's gate, with the error code 0x08, or at the
    return from it or from [s_setgdt], with 0) or on its TSS; and one that comes to
    run its timer has done what [ap_trampoline] does to that point when no other
    processor runs, then only reported, halted and served interrupts.  The keyboard
    sends only codes its table covers ([cpu_ok]). *)
Theorem processors_safe s base port polls n cpus sy
    (Hok : start_ok s base port polls n) (Hcpus : Forall (cpu_ok s port n) cpus)
    (Hr : sys_reach polls (System cpus s) sy) :
  (exists g, shared_like s (sy_shared sy) g /\ reads_settled (k_link s) g) /\
  (forall i c f, sy_cpus sy !! i = Some c -> cpu_stage c = Faulted f -> stop_fault f) /\
  Forall2 (fun c0 c => cpu_stage c0 = Waiting -> timer_runs_in (cpu_stage c) ->
    ran_alone s polls (cpu_own c0) (cpu_own c)) cpus (sy_cpus sy).
Proof.
  pose proof (inv_reach s base port polls n Hok cpus Hcpus _ _
    (inv_start s base port polls n Hok cpus Hcpus) Hr) as Hs.
  split; [|split].
  - exists (k_gdt (sy_shared sy)). split; [|apply gdt_settled_reads, Hs].
    exists (apic_timer_ticks (k_apic (sy_shared sy))), (keyboard_state (sy_shared sy)). intros l'.
    destruct (sy_like _ _ _ _ Hs) as [l El]. by rewrite El at 1.
  - intros i c f Hc Hf. destruct (each s port polls n cpus Hcpus sy i c Hs Hc) as (c0 & _ & _ & _ & Hinv).
    by rewrite Hf in Hinv.
  - eapply Forall2_impl; [apply Hs|]. cbn beta. intros c0 c [_ Hinv] Hw Hi.
    by apply (inv_ran_alone s base port polls n c0 (cpu_stage c)).
Qed.

(** C29: The start of the processors comes to an end: their own steps do not go on for
    ever, in whatever order they are taken and whatever interrupts came before, and a
    processor that neither idles nor has faulted can always take its next step.  On a
    calm schedule (a processor is let go, takes an interrupt or returns from one only
    while no processor is in the descriptor table: what the sleeps of [smp_init] make
    likely, but no code makes sure) none faults, the table is whole whenever no
    processor is in it, and the run can be completed with all of them idling.
    The keyboard sends only codes its table covers ([cpu_ok]). *)
Theorem processors_idle s base port polls n cpus sy
    (Hok : start_ok s base port polls n) (Hcpus : Forall (cpu_ok s port n) cpus)
    (Hr : sys_reach polls (System cpus s) sy) :
  Acc (fun sy2 sy1 => exists i, own_step polls sy1 i sy2) sy /\
  (forall i c, sy_cpus sy !! i = Some c -> ended c \/ exists sy', own_step polls sy i sy') /\
  (calm_reach polls (System cpus s) sy ->
     (forall i c, sy_cpus sy !! i = Some c -> ~ is_faulted (cpu_stage c)) /\
     (table_free sy -> k_gdt (sy_shared sy) = gdt_final (k_link s)) /\
     exists sy', calm_reach polls sy sy' /\ Forall (fun c => cpu_stage c = Idling) (sy_cpus sy')).
Proof.
  pose proof (inv_reach s base port polls n Hok cpus Hcpus _ _
    (inv_start s base port polls n Hok cpus Hcpus) Hr) as Hs.
  split; [apply own_step_ends|]. split; [intros i c; by apply (goes_on s port polls n cpus Hcpus)|].
  intros Hc. pose proof (calm_reached s base port polls n cpus Hok Hcpus _ _
    (calm_start s base port polls n cpus Hok Hcpus) Hc) as Hca.
  split; [apply Hca|]. split; [apply Hca|]. by apply (calm_runs_out s base port polls n cpus Hok Hcpus).
Qed.

(** *** Witnesses *)

Definition sample_start : kstate :=
  set_apic (with_lapic_address 0xfee00000 (k_apic sample_ap)) sample_ap.

Definition sample_local : cpu_local := Local sample_devices [].

(** The boot processor, which idles, and two to start. *)
Definition sample_processors : list cpu :=
  [Cpu (SmpInfo 0 0 0) Idling sample_local; Cpu (SmpInfo 1 1 0) Waiting sample_local;
   Cpu (SmpInfo 2 2 0) Waiting sample_local].

Lemma sample_start_ok : start_ok sample_start 0xfee00000 0x608 3 2.
Proof. split; [done|done|identity_holds|split; identity_holds|lia|by vm_compute|by left]. Qed.

Lemma sample_processors_ok : Forall (cpu_ok sample_start 0x608 2) sample_processors.
Proof.
  assert (forall info st, st = Waiting \/ st = Idling -> (st = Waiting -> si_lapic_id info <> 0) ->
    cpu_ok sample_start 0x608 2 (Cpu info st sample_local)) as H.
  { intros info st Hst Hid. split; [by apply sample_devices_run| |done|done|done].
    intros t Ht. cbn. by rewrite Ht. }
  unfold sample_processors. repeat constructor; apply H; (by left) || (by right) || done.
Qed.

(** Two processors let go, the second while the first is in the table. *)
Lemma sample_reach :
  exists sy c1 c2, sys_reach 3 (System sample_processors sample_start) sy /\
    sy_cpus sy !! 1%nat = Some c1 /\ in_tables c1 /\ sy_cpus sy !! 2%nat = Some c2 /\ in_tables c2.
Proof.
  eexists _, _, _. split.
  - eapply reach_step; [eapply reach_step; [apply reach_refl|]|].
    + exists 1%nat. left. by eapply own_enter.
    + exists 2%nat. left. by eapply own_enter.
  - by cbn.
Qed.

Lemma sample_finish :
  exists sy, calm_reach 3 (System sample_processors sample_start) sy /\
    Forall (fun c => cpu_stage c = Idling) (sy_cpus sy).
Proof.
  apply (calm_runs_out sample_start 0xfee00000 0x608 3 2 sample_processors sample_start_ok sample_processors_ok).
  apply (calm_start sample_start 0xfee00000 0x608 3 2 sample_processors sample_start_ok sample_processors_ok).
Qed.

(** The first processor at the end of a calm run, and the table with two in it. *)
Lemma processors_safe_witness :
  (exists sy c, sys_reach 3 (System sample_processors sample_start) sy /\ sy_cpus sy !! 1%nat = Some c /\
     ran_alone sample_start 3 sample_local (cpu_own c)) /\
  (exists sy g, sys_reach 3 (System sample_processors sample_start) sy /\
     shared_like sample_start (sy_shared sy) g /\ reads_settled sample_link g).
Proof.
  split.
  - destruct sample_finish as (sy & Hr & Hall).
    destruct (processors_safe sample_start 0xfee00000 0x608 3 2 sample_processors sy
      sample_start_ok sample_processors_ok (calm_is_reach _ _ _ Hr)) as (_ & _ & Heach).
    destruct (Forall2_lookup_l _ _ _ 1%nat (Cpu (SmpInfo 1 1 0) Waiting sample_local) Heach eq_refl)
      as (c & Hc & Hrun).
    exists sy, c. split; [by apply calm_is_reach|]. split; [exact Hc|]. apply Hrun; [done|].
    by rewrite (proj1 (Forall_lookup _ _) Hall 1%nat c Hc).
  - destruct sample_reach as (sy & c1 & c2 & Hr & _).
    destruct (processors_safe sample_start 0xfee00000 0x608 3 2 sample_processors sy
      sample_start_ok sample_processors_ok Hr) as ((g & Hg) & _). exists sy, g. exact (conj Hr Hg).
Defined.

Lemma processors_idle_witness :
  (exists sy sy', sys_reach 3 (System sample_processors sample_start) sy /\ own_step 3 sy 2%nat sy') /\
  (exists sy', calm_reach 3 (System sample_processors sample_start) sy' /\
     Forall (fun c => cpu_stage c = Idling) (sy_cpus sy')).
Proof.
  split.
  - destruct sample_reach as (sy & c1 & c2 & Hr & _ & _ & Hc2 & Hin).
    destruct (processors_idle sample_start 0xfee00000 0x608 3 2 sample_processors sy
      sample_start_ok sample_processors_ok Hr) as (_ & Hgo & _).
    destruct (Hgo 2%nat c2 Hc2) as [[H|[f H]]|[sy' H]]; [by unfold in_tables in Hin; rewrite H in Hin..|]. by exists sy, sy'.
  - apply (processors_idle sample_start 0xfee00000 0x608 3 2 sample_processors _
      sample_start_ok sample_processors_ok (reach_refl 3 _)). constructor.
Defined.
