(* ===== verification/Interrupts.v ===== *)
(** Interrupts while the kernel works.  From [init_acpi] on the timer and the
    keyboard interrupt whatever runs: first of all [vmm_init].  The handlers change
    the trace, the tick count and the keyboard's state; the memory manager looks at
    none of them, so it does not notice. *)

From S2P Require Import Prelude Limine Types Machine Memory Sample CString Video Printf Log.
From S2P Require Import Allocator Macros PageTable Pmm Vmm VmmInit Apic Ps2 Idt Acpi ApicInit Smp.
From S2P Require Import Kern Boot Idle.

(** ** States that differ in what the handlers change *)

Definition silent (s : kstate) : kstate :=
  set_trace [] (set_keyboard_state 0 (set_apic (with_ticks 0 (k_apic s)) s)).

Definition quiet (s s' : kstate) : Prop := silent s = silent s'.

#[global] Instance quiet_equivalence : Equivalence quiet.
Proof. split; [done| |]; unfold quiet; [by intros s s' ->|by intros s s' s'' -> ->]. Qed.

#[global] Instance k_ram_proper : Proper (quiet ==> eq) k_ram.
Proof. intros s s' E. by apply (f_equal k_ram) in E. Qed.
#[global] Instance k_hw_proper : Proper (quiet ==> eq) k_hw.
Proof. intros s s' E. by apply (f_equal k_hw) in E. Qed.
#[global] Instance k_pmm_proper : Proper (quiet ==> eq) k_pmm.
Proof. intros s s' E. by apply (f_equal k_pmm) in E. Qed.
#[global] Instance k_boot_proper : Proper (quiet ==> eq) k_boot.
Proof. intros s s' E. by apply (f_equal k_boot) in E. Qed.
#[global] Instance k_link_proper : Proper (quiet ==> eq) k_link.
Proof. intros s s' E. by apply (f_equal k_link) in E. Qed.
#[global] Instance k_vmm_proper : Proper (quiet ==> eq) k_vmm.
Proof. intros s s' E. by apply (f_equal k_vmm) in E. Qed.

(** Outcomes alike but for that. *)
Definition same_outcome {A} (o o' : outcome A) : Prop :=
  match o, o' with
  | Done a s, Done a' s' => a = a' /\ quiet s s'
  | Halted s, Halted s' => quiet s s'
  | Fault f s, Fault f' s' => f = f' /\ quiet s s'
  | OutOfFuel, OutOfFuel => True
  | _, _ => False
  end.

#[global] Instance same_outcome_trans {A} : Transitive (@same_outcome A).
Proof.
  intros [a s|s|f s|] [a' s'|s'|f' s'|] [a'' s''|s''|f'' s''|]; cbn; try done.
  - intros [-> H] [-> H']. split; [done|]. by rewrite H.
  - intros H H'. by rewrite H.
  - intros [-> H] [-> H']. split; [done|]. by rewrite H.
Qed.

(** ** Code that does not look at it *)

(** The commands a trace gives the keyboard's controller. *)
Definition commands (t : list event) : list (Z * Z) :=
  omap (fun e => match e with EvOutb p v => Some (p, v) | _ => None end) t.

(** A clock told by the trace.  The timer's handler writes to a device once, the end
    of interrupt; the keyboard's reads a port and writes once: the writes less the port
    reads are the timer's interrupts served, as long as the kernel does neither on its
    own.  The clock keeps its reading at each start of a processor. *)
Definition clock_step (c : Z * list Z) (e : event) : Z * list Z :=
  match e with
  | EvMmioWrite _ _ _ => (c.1 + 1, c.2)
  | EvInb _ _ => (c.1 - 1, c.2)
  | EvSmpGoto _ _ => (c.1, c.2 ++ [c.1])
  | _ => c
  end.

Definition clock (t : list event) : Z * list Z := foldl clock_step (0, []) t.

Definition later (n : Z) (c : Z * list Z) : Z * list Z := (c.1 + n, c.2).

(** What the handlers keep, the devices they do it with, the processors the kernel
    has started and when, and how far it is with the keyboard's controller. *)
Definition counted : Type :=
  hardware * Z * Z * list (Z * Z) * bool * list (Z * Z) * (Z * list Z).

Definition counts (s : kstate) : counted :=
  (k_hw s, apic_timer_ticks (k_apic s), keyboard_state s, started (k_trace s),
   testing (k_trace s), commands (k_trace s), clock (k_trace s)).

Definition leaves {A} (c : counted) (o : outcome A) : Prop :=
  match o with
  | Done _ s | Halted s | Fault _ s => counts s = c
  | OutOfFuel => True
  end.

(** Code that neither looks at what the handlers change nor changes it itself,
    but for the events of its own that it adds to the trace. *)
Class Insensitive {A} (m : M A) : Prop := {
  insensitive : Proper (quiet ==> same_outcome) m;
  leaves_counts s : leaves (counts s) (m s);
}.

#[global] Hint Mode Insensitive ! ! : typeclass_instances.
(** Code is told apart by the names of its functions. *)
#[local] Hint Constants Opaque : typeclass_instances.

#[global] Instance insensitive_ret {A} (a : A) : Insensitive (mret a).
Proof. split; [by intros s s' E|done]. Qed.

#[global] Instance insensitive_bind {A B} (m : M A) (f : A -> M B) :
  Insensitive m -> (forall a, Insensitive (f a)) -> Insensitive (m ≫= f).
Proof.
  intros [Hm Lm] Hf. split.
  - intros s s' E. specialize (Hm s s' E). unfold mbind, M_bind.
    destruct (m s) as [a s1|s1|e s1|], (m s') as [a' s1'|s1'|e' s1'|]; cbn in Hm; try done.
    destruct Hm as [-> E1]. by apply Hf.
  - intros s. specialize (Lm s). unfold mbind, M_bind.
    destruct (m s) as [a s1|s1|e s1|]; try done. cbn in Lm. rewrite <- Lm. apply Hf.
Qed.

#[global] Instance insensitive_throw {A} e : Insensitive (@throw A e).
Proof. split; [by intros s s' E|done]. Qed.
#[global] Instance insensitive_halt {A} : Insensitive (@halt A).
Proof. split; [by intros s s' E|done]. Qed.
#[global] Instance insensitive_fuel {A} : Insensitive (@out_of_fuel A).
Proof. split; [by intros s s' E|done]. Qed.

Lemma insensitive_gets {A} (f : kstate -> A) : (forall s, f s = f (silent s)) -> Insensitive (gets f).
Proof. intros Hf. split; [|done]. intros s s' E. split; [|done]. by rewrite (Hf s), (Hf s'), E. Qed.

Lemma insensitive_modify (f : kstate -> kstate) :
  (forall s, silent (f s) = silent (f (silent s))) -> (forall s, counts (f s) = counts s) ->
  Insensitive (modify f).
Proof.
  intros Hf Hc. split; [|by intros s; apply Hc].
  intros s s' E. split; [done|]. unfold quiet in *. by rewrite Hf, E, <- Hf.
Qed.

#[global] Instance insensitive_deref {A} (o : option A) : Insensitive (deref o).
Proof. destruct o; [exact (insensitive_ret _)|exact (insensitive_throw _)]. Qed.

#[global] Instance insensitive_index {A} (l : list A) i : Insensitive (index l i).
Proof. unfold index. case_match; [exact (insensitive_ret _)|exact (insensitive_throw _)]. Qed.

#[global] Instance insensitive_for_ret_fuel {A} fuel hi step (body : Z -> M (option A)) :
  (forall i, Insensitive (body i)) -> forall i, Insensitive (for_ret_fuel fuel hi step i body).
Proof.
  intros Hb. induction fuel as [|fuel IH]; intros i; cbn [for_ret_fuel];
    (case_match; [|exact (insensitive_ret _)]); [exact insensitive_fuel|].
  refine (insensitive_bind _ _ _ _). intros [a|]; [exact (insensitive_ret _)|apply IH].
Qed.

#[global] Instance insensitive_for_down n (body : Z -> M unit) :
  (forall i, Insensitive (body i)) -> Insensitive (for_down n body).
Proof. intros Hb. induction n as [|n IH]; cbn [for_down]; apply _. Qed.

#[global] Hint Extern 1 (Insensitive (gets _)) =>
  (apply insensitive_gets; intros ?; reflexivity) : typeclass_instances.
#[global] Hint Extern 1 (Insensitive (modify _)) =>
  (apply insensitive_modify; intros ?; reflexivity) : typeclass_instances.
(** A match on values of the code. *)
#[global] Hint Extern 5 (Insensitive (match ?x with _ => _ end)) =>
  (destruct x) : typeclass_instances.

Lemma commands_app t t' : commands (t ++ t') = commands t ++ commands t'.
Proof. apply omap_app. Qed.

Lemma clock_app t t' : clock (t ++ t') = foldl clock_step (clock t) t'.
Proof. apply foldl_app. Qed.

Lemma insensitive_emit e :
  started [e] = [] -> (forall b, test_step b e = b) -> commands [e] = [] ->
  (forall c, clock_step c e = c) -> Insensitive (emit e).
Proof.
  intros He Hte Hc Hcl. apply insensitive_modify; [done|]. intros s. unfold counts.
  change (k_trace (set_trace (k_trace s ++ [e]) s)) with (k_trace s ++ [e]).
  rewrite started_app, He, commands_app, Hc, !app_nil_r, testing_app, clock_app. cbn [foldl].
  by rewrite Hte, Hcl.
Qed.
#[global] Hint Extern 1 (Insensitive (emit _)) =>
  (apply insensitive_emit; [reflexivity|intros ?; reflexivity|reflexivity|intros ?; reflexivity])
  : typeclass_instances.
#[global] Instance insensitive_asm i : Insensitive (asm i).
Proof. unfold asm. apply _. Qed.

#[global] Instance insensitive_for_ lo hi step body :
  (forall i, Insensitive (body i)) -> Insensitive (for_ lo hi step body).
Proof. intros Hb. unfold for_, for_ret. apply _. Qed.
#[global] Instance insensitive_for_ret {R} lo hi step (body : Z -> M (option R)) :
  (forall i, Insensitive (body i)) -> Insensitive (for_ret lo hi step body).
Proof. intros Hb. unfold for_ret. apply _. Qed.

#[global] Instance resolve_proper : Proper (quiet ==> eq ==> eq) resolve.
Proof. intros s s' E va _ <-. unfold resolve. by rewrite (k_hw_proper _ _ E). Qed.

#[global] Instance set_ram_proper : Proper (eq ==> quiet ==> quiet) set_ram.
Proof. intros r _ <- s s' E. exact (f_equal (set_ram r) E). Qed.

#[global] Instance insensitive_load8 va : Insensitive (load8 va).
Proof.
  split; [intros s s' E|intros s]; unfold load8; [|by case_match].
  rewrite (resolve_proper _ _ E va va eq_refl), (k_ram_proper _ _ E). by case_match.
Qed.
#[global] Instance insensitive_store8 va v : Insensitive (store8 va v).
Proof.
  split; [intros s s' E|intros s]; unfold store8; [|by case_match].
  rewrite (resolve_proper _ _ E va va eq_refl), (k_ram_proper _ _ E).
  case_match; [|done]. split; [done|]. exact (set_ram_proper _ _ eq_refl _ _ E).
Qed.

#[global] Instance insensitive_load_bytes n : forall va, Insensitive (load_bytes va n).
Proof. induction n as [|n IH]; intros va; cbn [load_bytes]; apply _. Qed.
#[global] Instance insensitive_store_bytes bs : forall va, Insensitive (store_bytes va bs).
Proof. induction bs as [|b bs IH]; intros va; cbn [store_bytes]; apply _. Qed.
#[global] Instance insensitive_load64 va : Insensitive (load64 va).
Proof. unfold load64. apply _. Qed.
#[global] Instance insensitive_store64 va v : Insensitive (store64 va v).
Proof. unfold store64. apply _. Qed.
#[global] Instance insensitive_shl_int x n : Insensitive (shl_int x n).
Proof. unfold shl_int. apply _. Qed.
#[global] Instance insensitive_memset p c n : Insensitive (memset p c n).
Proof. unfold memset. apply _. Qed.

(** *** video.c, printf.c, log.c *)

#[global] Instance insensitive_print_char c : Insensitive (print_char c).
Proof. unfold print_char, flanterm_write. apply _. Qed.
#[global] Instance insensitive_print_str str : Insensitive (print_str str).
Proof. unfold print_str, flanterm_write. apply _. Qed.
#[global] Instance insensitive_arr_set arr j v : Insensitive (arr_set arr j v).
Proof. unfold arr_set. apply _. Qed.
#[global] Instance insensitive_arr_get arr i : Insensitive (arr_get arr i).
Proof. unfold arr_get. apply _. Qed.
#[global] Instance insensitive_collect_digits base limit fuel : forall num arr j count,
  Insensitive (collect_digits base limit fuel num arr j count).
Proof. induction fuel as [|fuel IH]; intros num arr j count; cbn [collect_digits]; apply _. Qed.
#[global] Instance insensitive_print_int_digit d : Insensitive (print_int_digit d).
Proof. unfold print_int_digit. repeat case_match; apply _. Qed.
#[global] Instance insensitive_print_hex_digit d : Insensitive (print_hex_digit d).
Proof. unfold print_hex_digit. repeat case_match; apply _. Qed.
#[global] Instance insensitive_print_int n : Insensitive (print_int n).
Proof. unfold print_int. apply _. Qed.
#[global] Instance insensitive_print_hex n : Insensitive (print_hex n).
Proof. unfold print_hex. apply _. Qed.
#[global] Instance insensitive_va_arg_str args : Insensitive (va_arg_str args).
Proof. unfold va_arg_str. repeat case_match; apply _. Qed.
#[global] Instance insensitive_va_arg_int args : Insensitive (va_arg_int args).
Proof. unfold va_arg_int. repeat case_match; apply _. Qed.
#[global] Instance insensitive_printf_step c st args : Insensitive (printf_step c st args).
Proof. unfold printf_step. repeat case_match; apply _. Qed.
#[global] Instance insensitive_printf_loop cs : forall st args, Insensitive (printf_loop cs st args).
Proof. induction cs as [|c cs IH]; intros st args; cbn [printf_loop]; apply _. Qed.
#[global] Instance insensitive_printf f args : Insensitive (printf f args).
Proof. unfold printf. apply _. Qed.
#[global] Instance insensitive_log_info msg : Insensitive (log_info msg).
Proof. unfold log_info. apply _. Qed.
#[global] Instance insensitive_log_success msg : Insensitive (log_success msg).
Proof. unfold log_success. apply _. Qed.
#[global] Instance insensitive_log_panic {A} msg : Insensitive (@log_panic A msg).
Proof. unfold log_panic, hang. apply _. Qed.

(** *** pmm.c, vmm.c *)

#[global] Instance insensitive_bitmap_at i : Insensitive (bitmap_at i).
Proof. unfold bitmap_at, pmm_get. apply _. Qed.
#[global] Instance insensitive_mmap_set b : Insensitive (mmap_set b).
Proof. unfold mmap_set. apply _. Qed.
#[global] Instance insensitive_mmap_unset b : Insensitive (mmap_unset b).
Proof. unfold mmap_unset. apply _. Qed.
#[global] Instance insensitive_find_free_block : Insensitive find_free_block.
Proof. unfold find_free_block, pmm_get. apply _. Qed.
#[global] Instance insensitive_pmm_alloc_block : Insensitive pmm_alloc_block.
Proof. unfold pmm_alloc_block. apply _. Qed.
#[global] Instance insensitive_pmm_free_block a : Insensitive (pmm_free_block a).
Proof. unfold pmm_free_block. apply _. Qed.

Section vmm.
Context (alloc : M Z) (free : Z -> M unit).
Context `{Halloc : !Insensitive alloc, Hfree : !forall a, Insensitive (free a)}.

#[global] Instance insensitive_get_lower_table p i : Insensitive (get_lower_table alloc p i).
Proof using Halloc. unfold get_lower_table, vmm_get. apply _. Qed.
#[global] Instance insensitive_get_pt p va : Insensitive (get_pt alloc p va).
Proof using Halloc. unfold get_pt. apply _. Qed.
#[global] Instance insensitive_vmm_map_page p va pa fl : Insensitive (vmm_map_page alloc p va pa fl).
Proof using Halloc. unfold vmm_map_page. apply _. Qed.
#[global] Instance insensitive_vmm_free_page p va : Insensitive (vmm_free_page alloc free p va).
Proof using Halloc Hfree. unfold vmm_free_page. apply _. Qed.
#[global] Instance insensitive_map_loop lo hi va pa fl : Insensitive (map_loop alloc lo hi va pa fl).
Proof using Halloc. unfold map_loop, vmm_get. apply _. Qed.
#[global] Instance insensitive_map_kernel ka a b fl : Insensitive (map_kernel alloc ka a b fl).
Proof using Halloc. unfold map_kernel. apply _. Qed.
#[global] Instance insensitive_map_entry off e : Insensitive (map_entry alloc off e).
Proof using Halloc. unfold map_entry. apply _. Qed.
#[global] Instance insensitive_vmm_init_root : Insensitive (vmm_init_root alloc).
Proof using Halloc. unfold vmm_init_root, vmm_set. apply _. Qed.
#[global] Instance insensitive_vmm_init_map ka : Insensitive (vmm_init_map alloc ka).
Proof using Halloc. unfold vmm_init_map, vmm_get. apply _. Qed.
#[global] Instance insensitive_vmm_set_ctx p : Insensitive (vmm_set_ctx p).
Proof using Type. unfold vmm_set_ctx, vmm_get. apply _. Qed.
#[global] Instance insensitive_vmm_init : Insensitive (vmm_init alloc).
Proof using Halloc. unfold vmm_init, vmm_get. apply _. Qed.
End vmm.

(** ** Interrupted executions

    An interrupt may come before a piece of code runs, and wherever the code can be
    cut in two: between the two, and again inside each of them. *)
Inductive interrupted : forall {A}, M A -> list irq -> kstate -> outcome A -> Prop :=
  | int_run {A} (m : M A) s : interrupted m [] s (m s)
  | int_irq {A} (m : M A) s q qs s1 o :
      idle_step s q s1 -> interrupted m qs s1 o -> interrupted m (q :: qs) s o
  | int_bind {A B} (m : M B) (k : B -> M A) s qs b s1 qs' o :
      Insensitive m -> (forall b, Insensitive (k b)) ->
      interrupted m qs s (Done b s1) -> interrupted (k b) qs' s1 o ->
      interrupted (m ≫= k) (qs ++ qs') s o
  | int_halt {A B} (m : M B) (k : B -> M A) qs s s1 :
      Insensitive m -> interrupted m qs s (Halted s1) -> interrupted (m ≫= k) qs s (Halted s1)
  | int_fault {A B} (m : M B) (k : B -> M A) qs s f s1 :
      Insensitive m -> interrupted m qs s (Fault f s1) -> interrupted (m ≫= k) qs s (Fault f s1)
  | int_ext {A} (m m' : M A) qs s o :
      (forall s, m s = m' s) -> interrupted m' qs s o -> interrupted m qs s o.

Lemma ready_counts kb s s' : counts s' = counts s -> ready kb s -> ready kb s'.
Proof. intros [= Hh Ht Hk _ Hte _ _] []. split; by rewrite ?Hh, ?Ht, ?Hk, ?Hte. Qed.

Lemma started_irq q s : started (k_trace (irq_done q s)) = started (k_trace s).
Proof.
  destruct q; cbn [irq_done ticked key_pressed k_trace emits set_trace].
  - by rewrite started_app, app_nil_r.
  - rewrite started_app. unfold key_events. by case_match; rewrite app_nil_r.
Qed.

Lemma commands_irq q s : commands (k_trace (irq_done q s)) = commands (k_trace s).
Proof.
  destruct q; cbn [irq_done ticked key_pressed k_trace emits set_trace].
  - by rewrite commands_app, app_nil_r.
  - rewrite commands_app. unfold key_events. by case_match; rewrite app_nil_r.
Qed.

Lemma clock_key_events c st sc : foldl clock_step c (key_events st sc) = c.
Proof. unfold key_events. by case_match. Qed.

(** The clock counts the timer's interrupts, and not the keyboard's. *)
Lemma clock_irq q s :
  clock (k_trace (irq_done q s)) = later (Z.of_nat (timers [q])) (clock (k_trace s)).
Proof.
  destruct q; cbn [irq_done ticked key_pressed k_trace emits set_trace]; rewrite clock_app; [done|].
  cbn [foldl app]. rewrite foldl_app, clock_key_events. change (Z.of_nat (timers [Keyboard])) with 0.
  change (k_trace (set_keyboard_state _ s)) with (k_trace s). generalize (clock (k_trace s)). intros c.
  unfold later, eoi_event. cbn [clock_step fst snd foldl]. f_equal. lia.
Qed.

Lemma later_later n m c : later n (later m c) = later (m + n) c.
Proof. unfold later. cbn. f_equal. lia. Qed.

Lemma later_0 c : later 0 c = c.
Proof. destruct c. unfold later. cbn. f_equal. lia. Qed.

Lemma timers_app qs qs' : timers (qs ++ qs') = (timers qs + timers qs')%nat.
Proof. unfold timers. by rewrite filter_app, length_app. Qed.

Section interrupted.
(** Whether the keyboard interrupts, too. *)
Context (kb : bool).

(** From [s] to [s'] the interrupts [qs] have come: one tick per timer interrupt, on
    the count and on the clock, no processor started, and the keyboard's controller left to what it is at. *)
Record ticked_by (s : kstate) (qs : list irq) (s' : kstate) : Prop := {
  tb_ok : ready kb s';
  tb_ticks : apic_timer_ticks (k_apic s') = u64 (apic_timer_ticks (k_apic s) + Z.of_nat (timers qs));
  tb_started : started (k_trace s') = started (k_trace s);
  tb_testing : testing (k_trace s') = testing (k_trace s);
  tb_commands : commands (k_trace s') = commands (k_trace s);
  tb_clock : clock (k_trace s') = later (Z.of_nat (timers qs)) (clock (k_trace s));
}.

Lemma ready_irq q s : ready kb s -> ready kb (irq_done q s).
Proof.
  intros [Hk Ht Htab Hte]. split; [|destruct q; [apply u64_range|done]|by destruct q|].
  - destruct q; [done|by apply next_key_state_ok].
  - intros E. by apply testing_irq, Hte.
Qed.

(** An interrupt changes nothing the code looks at. *)
Lemma idle_step_quiet s q s' :
  ready kb s -> allowed kb q -> idle_step s q s' -> quiet s s' /\ ticked_by s [q] s'.
Proof.
  intros Hs Ha ->%(step_done kb); [|done..]. split; [by destruct q|].
  split; [by apply ready_irq| |apply started_irq| |apply commands_irq|apply clock_irq].
  - destruct q; [done|]. cbn. rewrite Z.add_0_r, u64_small; [done|apply Hs].
  - destruct q.
    + change (testing (k_trace s ++ [eoi_event s]) = testing (k_trace s)). by rewrite testing_app.
    + pose proof (rd_testing _ _ Hs (Ha eq_refl)) as Hte. by rewrite testing_irq.
Qed.

(** The state of an outcome follows from [s] by the interrupts. *)
Definition shows {A} (s : kstate) (qs : list irq) (o : outcome A) : Prop :=
  match o with
  | Done _ s' | Halted s' | Fault _ s' => ticked_by s qs s'
  | OutOfFuel => True
  end.

Lemma ticked_by_counts s s' : ready kb s -> counts s' = counts s -> ticked_by s [] s'.
Proof.
  intros Hs Hc. pose proof (rd_ticks _ _ Hs). pose proof (ready_counts _ _ _ Hc Hs).
  injection Hc as _ Ht _ Hst Hte Hc Hcl. split; [done| |done..|].
  - rewrite Ht, Z.add_0_r, u64_small; lia.
  - by rewrite Hcl, later_0.
Qed.

Lemma shows_leaves {A} s (o : outcome A) : ready kb s -> leaves (counts s) o -> shows s [] o.
Proof. intros Hs. destruct o; cbn; try done; by apply ticked_by_counts. Qed.

Lemma ticked_by_app s qs s1 qs' s' :
  ticked_by s qs s1 -> ticked_by s1 qs' s' -> ticked_by s (qs ++ qs') s'.
Proof.
  intros [_ Ht Hst ? ? Hcl] [Hs Ht' Hst' ? ? Hcl']. split; [done| |congruence..|].
  - rewrite Ht', Ht, timers_app, Nat2Z.inj_add, u64_add_l. f_equal. lia.
  - by rewrite Hcl', Hcl, later_later, timers_app, Nat2Z.inj_add.
Qed.

Lemma shows_app {A} s qs s1 qs' (o : outcome A) :
  ticked_by s qs s1 -> shows s1 qs' o -> shows s (qs ++ qs') o.
Proof. intros Ht. destruct o; cbn; try done; by apply ticked_by_app. Qed.

(** Interrupted anywhere, insensitive code does the same, and no tick is lost. *)
Lemma interrupted_same {A} (m : M A) qs s o :
  interrupted m qs s o -> Insensitive m -> ready kb s -> Forall (allowed kb) qs ->
  same_outcome (m s) o /\ shows s qs o.
Proof.
  induction 1 as [A m s|A m s q qs s1 o Hq _ IH|A B m k s qs b s1 qs' o Hm Hk _ IH1 _ IH2
    |A B m k qs s s1 Hm _ IH|A B m k qs s f s1 Hm _ IH|A m m' qs s o Hext _ IH]; intros Hmk Hs Ha.
  - split; [by apply insensitive|by apply shows_leaves, leaves_counts].
  - apply Forall_cons in Ha as [Ha Ha'].
    destruct (idle_step_quiet s q s1 Hs Ha Hq) as [Hqt Ht].
    destruct (IH Hmk (tb_ok _ _ _ Ht) Ha') as [Hsame Hsh]. split; [|by apply (shows_app s [q] s1)].
    transitivity (m s1); [by apply insensitive|done].
  - apply Forall_app in Ha as [Ha Ha']. destruct (IH1 Hm Hs Ha) as [Hsame Ht].
    destruct (IH2 (Hk b) (tb_ok _ _ _ Ht) Ha') as [Hsame' Hsh]. split; [|by apply (shows_app s qs s1)].
    destruct (m s) as [b' s2|s2|f s2|] eqn:E; cbn in Hsame; try done.
    destruct Hsame as [-> Hqt]. rewrite (bind_done _ _ _ _ _ E).
    transitivity (k b s1); [by apply Hk|done].
  - destruct (IH Hm Hs Ha) as [Hsame Hsh]. split; [|done].
    destruct (m s) as [b' s2|s2|f s2|] eqn:E; cbn in Hsame; try done.
    by rewrite (bind_halted _ _ _ _ E).
  - destruct (IH Hm Hs Ha) as [Hsame Hsh]. split; [|done].
    destruct (m s) as [b' s2|s2|f' s2|] eqn:E; cbn in Hsame; try done.
    by rewrite (bind_fault _ _ _ _ _ E).
  - rewrite Hext. apply IH; [|done..]. split.
    + intros s1 s2 Hq. rewrite <- !Hext. by apply Hmk.
    + intros s1. rewrite <- Hext. apply Hmk.
Qed.
End interrupted.

Lemma all_allowed qs : Forall (allowed true) qs.
Proof. by apply Forall_true. Qed.

(** Spelled out: any interrupted run, against the run that is left alone. *)
Definition unaffected {A} (m : M A) (s : kstate) : Prop :=
  forall qs o, interrupted m qs s o -> same_outcome (m s) o /\ shows true s qs o.

Lemma unaffected_insensitive {A} (m : M A) s : Insensitive m -> idle_ok s -> unaffected m s.
Proof.
  intros Hm Hs qs o Hi. apply interrupted_same; [done..|by apply idle_ready|apply all_allowed].
Qed.

Lemma vmm_inv_quiet s s' U n T root :
  quiet s s' -> vmm_inv s U n T root -> vmm_inv s' U n T root.
Proof.
  intros Hq. apply vmm_inv_frame; symmetry;
    [by apply k_hw_proper|by apply k_pmm_proper|by apply k_vmm_proper|by apply k_ram_proper].
Qed.

Lemma irq_run {A} (m : M A) q s o qs :
  idle_ok s -> interrupted m qs (irq_done q s) o -> interrupted m (q :: qs) s o.
Proof. intros Hs. apply int_irq. by apply idle_step_done. Qed.

(** Any interrupts can come first. *)
Lemma interrupted_run {A} (m : M A) qs : forall s, idle_ok s -> exists o, interrupted m qs s o.
Proof.
  induction qs as [|q qs IH]; intros s Hs; [by eexists; apply int_run|].
  assert (idle_step s q (irq_done q s)) as Hq by (by apply idle_step_done).
  destruct (IH (irq_done q s)) as [o Ho]; [by apply idle_ready, ready_irq, idle_ready|].
  exists o. by apply irq_run.
Qed.

(** Interrupts before the code, between its two parts, and after those. *)
Lemma interrupted_cut {A B} (m : M B) (k : B -> M A) qs qs' s b s1 :
  Insensitive m -> (forall b, Insensitive (k b)) -> idle_ok s -> m s = Done b s1 ->
  exists o, interrupted (m ≫= k) (qs ++ qs') s o.
Proof.
  intros Hm Hk Hs E. destruct (interrupted_run m qs s Hs) as [o Ho].
  destruct (unaffected_insensitive m s Hm Hs qs o Ho) as [Hsame Hsh]. rewrite E in Hsame.
  destruct o as [b' s2|s2|f s2|]; try done. destruct Hsame as [<- _].
  destruct (interrupted_run (k b) qs' s2) as [o' Ho']; [apply idle_ready, Hsh|]. exists o'. by eapply int_bind.
Qed.

Lemma bind_runs {A B} (m : M A) (k : A -> M B) s b s' :
  (m ≫= k) s = Done b s' -> exists a s1, m s = Done a s1.
Proof. unfold mbind, M_bind. destruct (m s); try done. eauto. Qed.

(** The machine of the examples takes interrupts. *)
Lemma big_idle : idle_ok big_state.
Proof. by split; [left|..]. Qed.

(** A run of [vmm_init] interrupted before the root is there, and after. *)
Lemma vmm_init_cut s s' qs qs' :
  idle_ok s -> vmm_init pmm_alloc_block s = Done tt s' ->
  exists o, interrupted (vmm_init pmm_alloc_block) (qs ++ qs') s o.
Proof.
  intros Hs E. destruct (bind_runs _ _ _ _ _ E) as (ka & s1 & E1).
  refine (interrupted_cut _ _ _ _ _ _ _ _ _ Hs E1).
  intros b. cbn beta. unfold vmm_get. apply _.
Qed.

(** ** Properties *)

(** C11: the memory manager can be interrupted anywhere.  Whatever timer and keyboard
    interrupts come during a call of the allocator or of the page tables' code, and
    wherever they cut it, the call does what it does when left alone: the same
    result, or the same panic or fault, the same memory and globals; and every
    timer interrupt has counted its tick.  The keyboard sends only codes its table
    covers ([idle_ok]). *)
Theorem memory_manager_interrupted (s : kstate) (Hs : idle_ok s) :
  unaffected pmm_alloc_block s /\ (forall addr, unaffected (pmm_free_block addr) s) /\
  (forall pml4 va pa flags, unaffected (vmm_map_page pmm_alloc_block pml4 va pa flags) s) /\
  (forall pml4 va, unaffected (vmm_free_page pmm_alloc_block pmm_free_block pml4 va) s) /\
  (forall pml4, unaffected (vmm_set_ctx pml4) s) /\
  unaffected (vmm_init pmm_alloc_block) s.
Proof. split_and!; intros; by apply unaffected_insensitive; [apply _|]. Qed.

Lemma memory_manager_interrupted_witness :
  let s := big_state in
  (exists o, interrupted pmm_alloc_block [Timer; Keyboard; Timer] s o) /\
  unaffected pmm_alloc_block s /\ (forall addr, unaffected (pmm_free_block addr) s) /\
  (forall pml4 va pa flags, unaffected (vmm_map_page pmm_alloc_block pml4 va pa flags) s) /\
  (forall pml4 va, unaffected (vmm_free_page pmm_alloc_block pmm_free_block pml4 va) s) /\
  (forall pml4, unaffected (vmm_set_ctx pml4) s) /\
  unaffected (vmm_init pmm_alloc_block) s.
Proof.
  split; [apply interrupted_run, big_idle|exact (memory_manager_interrupted big_state big_idle)].
Defined.

(** [vmm_init] is interrupted as soon as [init_acpi] has programmed the timer
    and the keyboard.  Given enough blocks, it returns whatever interrupts come and
    wherever they cut it, with the tables well formed and every address translated
    as the regions of the memory map and the image say; every timer interrupt has
    counted its tick, and the kernel can take the next interrupt. *)
Theorem vmm_init_interrupted (s : kstate) (U : gset Z) (n : nat)
    (ka : limine_kernel_address_response) (mm : limine_memmap_response)
    (qs : list irq) (o : outcome unit)
    (Hpre : vmm_init_pre s ka mm) (Hba : ba_inv s U n)
    (Hn : cost (vmm_regions s ka mm) < Z.of_nat n) (Hs : idle_ok s)
    (Hint : interrupted (vmm_init pmm_alloc_block) qs s o) :
  exists root s', o = Done tt s' /\ ~ (root ∈ U) /\
    (exists U' n' T, vmm_inv s' U' n' T root) /\
    (forall va, translate s' root va = address_space (vmm_regions s ka mm) va) /\
    ticked_by true s qs s'.
Proof.
  destruct (vmm_init_done s U n ka mm Hpre Hba Hn) as (root & s1 & E & HU & [_ Hinv Ht]).
  destruct (unaffected_insensitive _ s _ Hs qs o Hint) as [Hsame Hsh]. rewrite E in Hsame.
  destruct o as [[] s'|s'|f s'|]; try done. destruct Hsame as [_ Hq].
  exists root, s'. split_and!; try done.
  - destruct Hinv as (U' & n' & T & Hinv). exists U', n', T. by apply (vmm_inv_quiet s1).
  - intros va. rewrite <- Ht. unfold translate. by rewrite (k_ram_proper _ _ Hq).
Qed.

Lemma vmm_init_interrupted_witness :
  exists o root s', interrupted (vmm_init pmm_alloc_block)
      ([Timer; Keyboard; Keyboard] ++ [Timer; Timer]) big_state o /\
    o = Done tt s' /\ ~ (root ∈ (∅ : gset Z)) /\
    (exists U' n' T, vmm_inv s' U' n' T root) /\
    (forall va, translate s' root va = address_space (vmm_regions big_state big_ka big_memmap) va) /\
    ticked_by true big_state ([Timer; Keyboard; Keyboard] ++ [Timer; Timer]) s'.
Proof.
  destruct (vmm_init_done big_state ∅ (Z.to_nat 16382) big_ka big_memmap
    big_init_pre big_holds big_cost) as (root0 & s0 & E & _).
  destruct (vmm_init_cut _ _ [Timer; Keyboard; Keyboard] [Timer; Timer] big_idle E) as [o Ho].
  destruct (vmm_init_interrupted big_state ∅ (Z.to_nat 16382) big_ka big_memmap _ o
    big_init_pre big_holds big_cost big_idle Ho) as (root & s' & H).
  exists o, root, s'. exact (conj Ho H).
Defined.
