(* ===== verification/Preempt.v ===== *)
(** Interrupts while a program runs that does look at what the handlers change: a
    program cut into steps ([prog]), with interrupts between the steps, and inside
    those that do not look. *)

From S2P Require Import Prelude Limine Types Machine Memory Sample CString Video Printf Log.
From S2P Require Import Allocator Interleave Apic Ps2 Idt Smp Idle Interrupts.

(** ** Runs *)

(** A run that has stopped, as a run with another result. *)
Definition stopped {A B} (o : outcome B) : option (outcome A) :=
  match o with
  | Done _ _ => None
  | Halted s => Some (Halted s)
  | Fault f s => Some (Fault f s)
  | OutOfFuel => Some OutOfFuel
  end.

(** One step: left alone, or cut by interrupts where that makes no difference to it. *)
Definition step_run {A} (m : M A) (qs : list irq) (s : kstate) (o : outcome A) : Prop :=
  (qs = [] /\ o = m s) \/ (Insensitive m /\ interrupted m qs s o).

(** A run of a program with the interrupts [qs]: some come, it takes a step, and so
    on; the last come after its end. *)
Fixpoint irun {A} (p : prog A) (qs : list irq) (s : kstate) (o : outcome A) : Prop :=
  match p with
  | PRet a => exists s', idle_run s qs s' /\ o = Done a s'
  | PStep m k => exists qs1 s1 qs2 ob qs3,
      qs = qs1 ++ qs2 ++ qs3 /\ idle_run s qs1 s1 /\ step_run m qs2 s1 ob /\
      match ob with
      | Done b s2 => irun (k b) qs3 s2 o
      | _ => qs3 = [] /\ stopped ob = Some o
      end
  end.

(** ** Lemmas *)

Lemma idle_run_quiet kb s qs s' :
  idle_run s qs s' -> ready kb s -> Forall (allowed kb) qs -> quiet s s' /\ ticked_by kb s qs s'.
Proof.
  induction 1 as [s|s q s1 qs s' Hq _ IH]; intros Hs Ha; [split; [done|by apply ticked_by_counts]|].
  apply Forall_cons in Ha as [Ha Ha'].
  destruct (idle_step_quiet kb s q s1 Hs Ha Hq) as [Hqt Ht].
  destruct (IH (tb_ok _ _ _ _ Ht) Ha') as [Hqt' Ht']. split; [by transitivity s1|].
  by apply (ticked_by_app kb s [q] s1).
Qed.

(** A run of a sequence is a run of the first part, and of the second if it gets
    there. *)
Lemma irun_bind {A B} (p : prog A) (f : A -> prog B) : forall qs s o,
  irun (p ≫= f) qs s o ->
  (exists qs1 a s1 qs2, qs = qs1 ++ qs2 /\ irun p qs1 s (Done a s1) /\ irun (f a) qs2 s1 o) \/
  (exists o', irun p qs s o' /\ stopped o' = Some o).
Proof.
  induction p as [a|C m k IH]; intros qs s o H.
  - left. exists [], a, s, qs. split; [done|]. split; [exists s; by split; [constructor|]|done].
  - destruct H as (qs1 & s1 & qs2 & ob & qs3 & -> & Hi & Hm & H).
    destruct ob as [b s2|s2|f' s2|]; [|right..].
    + destruct (IH b _ _ _ H) as [(qs4 & a & s4 & qs5 & -> & H4 & H5)|(o' & H4 & H5)].
      * left. exists (qs1 ++ qs2 ++ qs4), a, s4, qs5. rewrite <- !app_assoc. split; [done|].
        split; [|done]. by exists qs1, s1, qs2, (Done b s2), qs4.
      * right. exists o'. split; [|done]. by exists qs1, s1, qs2, (Done b s2), qs3.
    + destruct H as [-> Ho]. exists (Halted s2). split; [|done].
      by exists qs1, s1, qs2, (Halted s2), [].
    + destruct H as [-> Ho]. exists (Fault f' s2). split; [|done].
      by exists qs1, s1, qs2, (Fault f' s2), [].
    + destruct H as [-> Ho]. exists OutOfFuel. split; [|done].
      by exists qs1, s1, qs2, OutOfFuel, [].
Qed.

(** ** Reasoning about runs *)

Section runs.
(** At most [N] ticks come, and keys only if [kb]; the clock is followed if [clk]. *)
Context (kb clk : bool) (N : Z).

(** [s] is [base] but for [t] ticks, keys, events, and the processors [cpus]
    started, each after so many ticks; the keyboard's controller is where it is in
    [base], and the count has room for all the ticks. *)
Record since (base : kstate) (t : Z) (cpus : list (Z * Z * Z)) (s : kstate) : Prop := {
  si_quiet : quiet base s;
  si_ok : ready kb s;
  si_t : 0 <= t <= N;
  si_room : 0 <= apic_timer_ticks (k_apic base) /\ apic_timer_ticks (k_apic base) + N < 2 ^ 31;
  si_ticks : apic_timer_ticks (k_apic s) = apic_timer_ticks (k_apic base) + t;
  si_started : started (k_trace s) = started (k_trace base) ++ cpus.*1;
  si_testing : testing (k_trace s) = testing (k_trace base);
  si_commands : commands (k_trace s) = commands (k_trace base);
  si_clock : clk = true -> let c := clock (k_trace base) in
    clock (k_trace s) = (c.1 + t, c.2 ++ (Z.add c.1 <$> cpus.*2));
}.

(** Every run of [p] from [s], after [t] ticks, ends as [Q] or [H] say after
    however many, or is given up by a loop that waits. *)
Definition iwp {A} (p : prog A) (Q : Z -> A -> kstate -> Prop) (H : Z -> kstate -> Prop)
    (t : Z) (s : kstate) : Prop :=
  forall qs o, irun p qs s o -> Forall (allowed kb) qs -> t + Z.of_nat (timers qs) <= N ->
    match o with
    | Done a s' => Q (t + Z.of_nat (timers qs)) a s'
    | Halted s' => H (t + Z.of_nat (timers qs)) s'
    | Fault _ _ => False
    | OutOfFuel => True
    end.

Lemma since_ticked base t cpus s1 s2 qs :
  since base t cpus s1 -> quiet s1 s2 -> ticked_by kb s1 qs s2 ->
  t + Z.of_nat (timers qs) <= N -> since base (t + Z.of_nat (timers qs)) cpus s2.
Proof.
  intros [Hq Hs Ht Hr Htk Hst ? ? Hcl] Hq' [Hs' Ht' Hst' ? ? Hcl'] HtN.
  split; [by transitivity s1|done|lia|done| |congruence..|].
  - rewrite Ht', Htk, u64_small; lia.
  - intros E. specialize (Hcl E). cbn zeta in *. rewrite Hcl', Hcl. unfold later. cbn. f_equal. lia.
Qed.

Lemma iwp_ret {A} (a : A) Q H base t cpus s :
  since base t cpus s -> (forall t' s', t <= t' -> since base t' cpus s' -> Q t' a s') ->
  iwp (PRet a) Q H t s.
Proof.
  intros Hs HQ qs o (s' & Hi & ->) Ha Hn. apply HQ; [lia|].
  destruct (idle_run_quiet kb _ _ _ Hi (si_ok _ _ _ _ Hs) Ha). by apply (since_ticked _ _ _ s).
Qed.

(** A step that is cut goes on from a state like the one it would have left. *)
Lemma step_run_shows {B} (m : M B) qs s o :
  ready kb s -> Forall (allowed kb) qs -> step_run m qs s o ->
  match m s with
  | Done b s1 => exists s2, o = Done b s2 /\ quiet s1 s2 /\ (ready kb s1 -> ticked_by kb s1 qs s2)
  | Halted s1 => exists s2, o = Halted s2 /\ quiet s1 s2 /\ (ready kb s1 -> ticked_by kb s1 qs s2)
  | Fault f s1 => exists s2, o = Fault f s2
  | OutOfFuel => o = OutOfFuel
  end.
Proof.
  intros Hs Ha [[-> ->]|[Hm Hi]].
  - destruct (m s) as [b s1|s1|f s1|]; [exists s1..|done]; try done;
      (split; [done|]; split; [done|]); intros Hs1; by apply ticked_by_counts.
  - destruct (interrupted_same kb m qs s o Hi Hm Hs Ha) as [Hsame Hsh].
    pose proof (leaves_counts (m := m) s) as Hl.
    destruct (m s) as [b s1|s1|f s1|], o as [b' s2|s2|f' s2|]; try done; cbn in Hsame, Hsh, Hl;
      [destruct Hsame as [-> Hq]|rename Hsame into Hq|destruct Hsame as [-> Hq]].
    all: exists s2; try done; (split; [done|]; split; [done|]); intros _.
    all: destruct Hsh as [Hok Ht Hst]; injection Hl as _ Ht1 _ Hst1 ? ? ?; split; congruence.
Qed.

Lemma iwp_step {A B} (m : M B) (k : B -> prog A) Q H base t cpus s :
  since base t cpus s ->
  (forall t' s', t <= t' -> since base t' cpus s' ->
     wp m (fun b s1 => exists base' cpus', since base' t' cpus' s1 /\
             forall t2 s2, t' <= t2 -> since base' t2 cpus' s2 -> iwp (k b) Q H t2 s2)
       (fun s1 => exists base' cpus', since base' t' cpus' s1 /\
             forall t2 s2, t' <= t2 -> since base' t2 cpus' s2 -> H t2 s2) s') ->
  iwp (PStep m k) Q H t s.
Proof.
  intros Hs Hm qs o (qs1 & s1 & qs2 & ob & qs3 & -> & Hi & Hr & Ho) Ha Hn.
  rewrite !timers_app, !Nat2Z.inj_add in *. rewrite !Forall_app in Ha. destruct Ha as (Ha1 & Ha2 & Ha3).
  destruct (idle_run_quiet kb _ _ _ Hi (si_ok _ _ _ _ Hs) Ha1) as [Hq1 Ht1].
  assert (since base (t + Z.of_nat (timers qs1)) cpus s1) as Hs1
    by (apply (since_ticked _ _ _ s); [done..|lia]).
  specialize (Hm (t + Z.of_nat (timers qs1)) s1 ltac:(lia) Hs1). unfold wp in Hm.
  pose proof (step_run_shows m qs2 s1 ob (si_ok _ _ _ _ Hs1) Ha2 Hr) as Hsh.
  destruct (m s1) as [b s1'|s1'|f s1'|]; try done.
  - destruct Hsh as (s2 & -> & Hq2 & Ht2), Hm as (base' & cpus' & Hs1' & Hk).
    specialize (Ht2 (si_ok _ _ _ _ Hs1')).
    assert (since base' (t + Z.of_nat (timers qs1) + Z.of_nat (timers qs2)) cpus' s2) as Hs2
      by (apply (since_ticked _ _ _ s1'); [done..|lia]).
    specialize (Hk (t + Z.of_nat (timers qs1) + Z.of_nat (timers qs2)) s2 ltac:(lia) Hs2 qs3 o Ho
      Ha3 ltac:(lia)). by rewrite <- !Z.add_assoc in Hk.
  - destruct Hsh as (s2 & -> & Hq2 & Ht2), Hm as (base' & cpus' & Hs1' & Hk), Ho as [-> [= <-]].
    specialize (Ht2 (si_ok _ _ _ _ Hs1')).
    assert (since base' (t + Z.of_nat (timers qs1) + Z.of_nat (timers qs2)) cpus' s2) as Hs2
      by (apply (since_ticked _ _ _ s1'); [done..|lia]).
    specialize (Hk (t + Z.of_nat (timers qs1) + Z.of_nat (timers qs2)) s2 ltac:(lia) Hs2). cbn. by rewrite Z.add_0_r, Z.add_assoc.
Qed.

(** A loop that has waited long enough for the model gives up. *)
Lemma iwp_give_up {A B} (k : B -> prog A) Q H base t cpus s :
  since base t cpus s -> iwp (PStep out_of_fuel k) Q H t s.
Proof.
  intros Hs qs o (qs1 & s1 & qs2 & ob & qs3 & -> & Hi & Hr & Ho) Ha Hn.
  rewrite !Forall_app in Ha. destruct Ha as (Ha1 & Ha2 & _).
  destruct (idle_run_quiet kb _ _ _ Hi (si_ok _ _ _ _ Hs) Ha1) as [_ Ht1].
  pose proof (step_run_shows _ qs2 s1 ob (tb_ok _ _ _ _ Ht1) Ha2 Hr) as ->. cbn in Ho.
  by destruct Ho as [_ [= <-]].
Qed.

Lemma iwp_bind {A B} (p : prog A) (f : A -> prog B) Q H t s :
  iwp p (fun t' a s' => iwp (f a) Q H t' s') H t s -> iwp (p ≫= f) Q H t s.
Proof.
  intros Hp qs o Hr Ha Hn. destruct (irun_bind p f qs s o Hr) as
    [(qs1 & a & s1 & qs2 & -> & H1 & H2)|(o' & H1 & Ho)].
  - rewrite timers_app, Nat2Z.inj_add in *. apply Forall_app in Ha as [Ha1 Ha2].
    specialize (Hp qs1 _ H1 Ha1 ltac:(lia) qs2 o H2 Ha2 ltac:(lia)). by rewrite <- Z.add_assoc in Hp.
  - specialize (Hp qs o' H1 Ha Hn). destruct o'; cbn in Ho; [done|by injection Ho as <-..].
Qed.

Lemma iwp_mono {A} (p : prog A) (Q Q' : Z -> A -> kstate -> Prop) (H : Z -> kstate -> Prop) t s :
  iwp p Q H t s -> (forall t' a s', t <= t' -> Q t' a s' -> Q' t' a s') -> iwp p Q' H t s.
Proof.
  intros Hp HQ qs o Hr Ha Hn. specialize (Hp qs o Hr Ha Hn).
  destruct o; try done. apply HQ; [lia|done].
Qed.

Lemma iwp_act {A} (m : M A) Q H base t cpus s :
  since base t cpus s ->
  (forall t' s', t <= t' -> since base t' cpus s' ->
     wp m (fun a s1 => exists base' cpus', since base' t' cpus' s1 /\
             forall t2 s2, t' <= t2 -> since base' t2 cpus' s2 -> Q t2 a s2)
       (fun s1 => exists base' cpus', since base' t' cpus' s1 /\
             forall t2 s2, t' <= t2 -> since base' t2 cpus' s2 -> H t2 s2) s') ->
  iwp (act m) Q H t s.
Proof.
  intros Hs Hm. apply (iwp_step _ _ _ _ base t cpus s Hs). intros t' s' Ht Hs'.
  eapply wp_mono; [by apply Hm| |done]. intros a s1 (base' & cpus' & Hs1 & HQ).
  exists base', cpus'. split; [done|]. intros t2 s2 Ht2 Hs2. apply (iwp_ret _ _ _ base' t2 cpus' s2 Hs2).
  intros t3 s3 Ht3 Hs3. apply HQ; [lia|done].
Qed.

Lemma since_quiet_emits base t cpus s es :
  since base t cpus s -> started es = [] -> (forall b, foldl test_step b es = b) ->
  commands es = [] -> (clk = true -> forall c, foldl clock_step c es = c) -> since base t cpus (emits es s).
Proof.
  intros [Hq [Hk Ht Htab Hte] HtN Hr Htk Hst Htb Hcb Hcl] Hes Htes Hces Hcles.
  split; try done; [split; try done|..]; cbn.
  - rewrite testing_app, Htes. exact Hte.
  - by rewrite started_app, Hes, app_nil_r.
  - by rewrite testing_app, Htes.
  - by rewrite commands_app, Hces, app_nil_r.
  - intros E. by rewrite clock_app, Hcles, Hcl.
Qed.

Lemma clock_console c es : console_only es -> foldl clock_step c es = c.
Proof. induction 1 as [|e es He _ IH]; [done|]. destruct e; done. Qed.

Lemma commands_console es : console_only es -> commands es = [].
Proof. induction 1 as [|e es He _ IH]; [done|]. by destruct e. Qed.

Lemma since_console base t cpus s es :
  since base t cpus s -> console_only es -> since base t cpus (emits es s).
Proof.
  intros Hs Hes. apply since_quiet_emits;
    [done|by apply started_console|intros b; by apply test_console|by apply commands_console
    |intros _ c; by apply clock_console].
Qed.

(** Steps that leave the state alone, and steps that only print. *)
Lemma iwp_look {A} (m : M A) (Q : Z -> A -> kstate -> Prop) H base t cpus s :
  since base t cpus s ->
  (forall t' s', t <= t' -> since base t' cpus s' ->
     wp m (fun a s1 => s1 = s' /\ forall t2 s2, t' <= t2 -> since base t2 cpus s2 -> Q t2 a s2) never s') ->
  iwp (act m) Q H t s.
Proof.
  intros Hs Hm. apply (iwp_act m _ _ base t cpus s Hs). intros t' s' Ht Hs'.
  eapply wp_mono; [by apply Hm| |done]. intros a s1 [-> HQ]. by exists base, cpus.
Qed.

Lemma iwp_printf fmt args (Q : Z -> Z -> kstate -> Prop) H base t cpus s :
  since base t cpus s -> signature fmt = arg_kind <$> args ->
  (forall t' s', t <= t' -> since base t' cpus s' -> Q t' 0 s') ->
  iwp (act (printf fmt args)) Q H t s.
Proof.
  intros Hs Hsig HQ. apply (iwp_act _ _ _ base t cpus s Hs). intros t' s' Ht Hs'.
  apply wp_printf_typed; [done|]. intros es Hes. exists base, cpus.
  split; [by apply since_console|]. intros t2 s2 Ht2. apply HQ. lia.
Qed.
End runs.

(** ** Runs that exist *)

Lemma irun_irqs {A} (p : prog A) s qs s1 qs' o :
  idle_run s qs s1 -> irun p qs' s1 o -> irun p (qs ++ qs') s o.
Proof.
  intros Hi. destruct p as [a|B m k]; cbn.
  - intros (s' & Hi' & ->). exists s'. split; [by eapply idle_run_app|done].
  - intros (qs1 & s2 & qs2 & ob & qs3 & -> & Hi' & H). exists (qs ++ qs1), s2, qs2, ob, qs3.
    rewrite <- app_assoc. split; [done|]. split; [by eapply idle_run_app|done].
Qed.

Lemma irun_then {A B} (p : prog A) (f : A -> prog B) a o qs' s1 : forall qs s,
  irun p qs s (Done a s1) -> irun (f a) qs' s1 o -> irun (p ≫= f) (qs ++ qs') s o.
Proof.
  induction p as [a'|C m k IH]; intros qs s Hp Hf.
  - destruct Hp as (s' & Hi & [= <- <-]). by eapply (irun_irqs (f a)).
  - destruct Hp as (qs1 & s2 & qs2 & ob & qs3 & -> & Hi & Hm & Hk).
    destruct ob as [b s3|s3|f' s3|]; try (by destruct Hk as [_ Hk]).
    exists qs1, s2, qs2, (Done b s3), (qs3 ++ qs'). rewrite <- !app_assoc.
    do 3 (split; [done|]). by apply IH.
Qed.

(** There is a run of [p] from [s], after [t] ticks, that ends as [Q] says. *)
Definition ewp {A} (p : prog A) (Q : Z -> A -> kstate -> Prop) (t : Z) (s : kstate) : Prop :=
  exists qs a s', irun p qs s (Done a s') /\ Q (t + Z.of_nat (timers qs)) a s'.

Lemma ewp_ret {A} (a : A) (Q : Z -> A -> kstate -> Prop) t s : Q t a s -> ewp (PRet a) Q t s.
Proof.
  intros HQ. exists [], a, s. cbn. rewrite Z.add_0_r. split; [|done].
  exists s. split; [constructor|done].
Qed.

Lemma ewp_bind {A B} (p : prog A) (f : A -> prog B) Q t s :
  ewp p (fun t' a s' => ewp (f a) Q t' s') t s -> ewp (p ≫= f) Q t s.
Proof.
  intros (qs & a & s1 & Hp & qs' & b & s2 & Hf & HQ). exists (qs ++ qs'), b, s2.
  split; [by eapply irun_then|]. by rewrite timers_app, Nat2Z.inj_add, Z.add_assoc.
Qed.

Lemma ewp_act {A} (m : M A) (Q : Z -> A -> kstate -> Prop) t s :
  wp m (Q t) never s -> ewp (act m) Q t s.
Proof.
  intros Hm. apply wp_inv_done in Hm as (a & s' & E & HQ). exists [], a, s'.
  cbn. rewrite Z.add_0_r. split; [|done].
  exists [], s, [], (Done a s'), []. split; [done|]. split; [constructor|].
  split; [by left|]. exists s'. split; [constructor|done].
Qed.

Lemma ewp_irq {A} (p : prog A) Q q t s :
  idle_ok s -> ewp p Q (t + Z.of_nat (timers [q])) (irq_done q s) -> ewp p Q t s.
Proof.
  intros Hs (qs & a & s' & Hp & HQ). exists (q :: qs), a, s'. split.
  - apply (irun_irqs p s [q] (irq_done q s)); [|done].
    econstructor; [by apply idle_step_done|constructor].
  - change (q :: qs) with ([q] ++ qs). by rewrite timers_app, Nat2Z.inj_add, Z.add_assoc.
Qed.

Lemma ewp_mono {A} (p : prog A) (Q Q' : Z -> A -> kstate -> Prop) t s :
  ewp p Q t s -> (forall t' a s', Q t' a s' -> Q' t' a s') -> ewp p Q' t s.
Proof. intros (qs & a & s' & Hp & HQ) H. exists qs, a, s'. auto. Qed.

(** There is a run of [p] from [s] that halts, after [N] ticks at most. *)
Definition halts {A} (N : Z) (p : prog A) (t : Z) (s : kstate) : Prop :=
  exists qs s', irun p qs s (Halted s') /\ t + Z.of_nat (timers qs) <= N.

Lemma halts_bind {A B} N (p : prog A) (f : A -> prog B) t s :
  ewp p (fun t' a s' => halts N (f a) t' s') t s -> halts N (p ≫= f) t s.
Proof.
  intros (qs & a & s1 & Hp & qs' & s2 & Hf & Ht). exists (qs ++ qs'), s2.
  split; [by eapply irun_then|]. rewrite timers_app. lia.
Qed.

Lemma halts_act {A} N (m : M A) t s s' : m s = Halted s' -> t <= N -> halts N (act m) t s.
Proof.
  intros E Ht. exists [], s'. split; [|cbn; lia].
  exists [], s, [], (Halted s'), []. split; [done|]. split; [constructor|].
  split; [by left|done].
Qed.
