(* ===== verification/AcpiIrq.v ===== *)
(** The end of [init_acpi] with interrupts.  [init_apic] lets them in before it starts
    the keyboard's controller: the timer interrupts while it does, and the keyboard once
    the redirection entry of its pin is written. *)

From S2P Require Import Prelude Limine Types Machine Memory Sample CString Video Printf Log.
From S2P Require Import Allocator Interleave AcpiTables Apic Ps2 Idt Acpi ApicInit Smp Kern Boot Idle.
From S2P Require Import Interrupts Preempt.

(** ** Code: [ps2_init] and [ps2_int_init] step by step *)

Fixpoint ps2_clear_p (polls : nat) (j : Z) : prog Z :=
  if j =? 0 then mret j
  else
    match polls with
    | O => act out_of_fuel
    | S polls =>
        act (inb PS2_DATA_PORT) ;;
        st ← act (inb PS2_STATUS_REG);
        ps2_clear_p polls (Z.land (Z.shiftr st 1) 1)
    end.

Definition ps2_init_p (polls : nat) : prog unit :=
  act (outb PS2_COMMAND_REG 0xAD) ;;
  act (outb PS2_COMMAND_REG 0xA7) ;;
  j ← ps2_clear_p polls 1;
  act (printf "ps2: starting PS/2 controller test{n}" []) ;;
  act (outb PS2_COMMAND_REG 0xAA) ;;
  data ← act (inb PS2_DATA_PORT);
  act (if data =? 0x55 then
     printf "ps2: PS/2 controller test passed{n}" [] ;; mret tt
   else if data =? 0xFC then
     log_err "PS/2 controller test failed" ;;
     printf "ps2: test failed, the PS/2 keyboard might not work.{n}" [] ;; mret tt
   else
     printf "ps2: unexpected reply for test: '0x{x}'{n}" [VInt data] ;; mret tt) ;;
  act (printf "ps2: assuming US QWERTY layout, scan code 1. other layouts not supported{n}" []) ;;
  ps2_clear_p polls j ;;
  act (outb PS2_COMMAND_REG 0xAE).

Definition ioapic_write_p (ioapicaddr reg value : Z) : prog unit :=
  act (emit (EvMmioWrite 32 ioapicaddr (Z.land (u8 reg) 0xFF))) ;;
  act (emit (EvMmioWrite 32 (ioapicaddr ⊕ 16) (u32 value))).

Definition ioapic_configure_entry_p (addr reg val : Z) : prog unit :=
  ioapic_write_p addr (IOAPICREDTBL_REG (u8 reg)) (u32 val) ;;
  ioapic_write_p addr (IOAPICREDTBL_REG (u8 reg) + 1) (u32 (Z.shiftr val 32)).

(** Up to where the keyboard's pin gets its vector; the result is the I/O APIC and the
    pin. *)
Definition keyboard_off_p (polls : nat) : prog (Z * Z) :=
  act (log_info "Initalizing PS/2 keyboard") ;;
  gsi ← act (find_gsi 1);
  ps2_init_p polls ;;
  io ← act (apic_get ioapic_address);
  ioapic_configure_entry_p io gsi (Z.shiftl 0 16) ;;
  mret (io, gsi).

Definition keyboard_on_p (io gsi : Z) : prog unit :=
  ioapic_configure_entry_p io gsi 33 ;;
  act (printf "ps2: configured IOAPIC redirection entry{n}" []) ;;
  act (log_success "PS/2 keyboard initalized") ;;
  act (log_success "IOAPIC initalized").

(** ** The program is the code *)

Lemma ps2_clear_p_same polls : forall j s, denote (ps2_clear_p polls j) s = ps2_clear polls j s.
Proof.
  induction polls as [|polls IH]; intros j s; cbn [ps2_clear_p ps2_clear]; case_match; try done.
  do 2 (rewrite denote_act_bind; apply bind_ext; [done|]; intros ? ?). apply IH.
Qed.

#[export] Hint Resolve ps2_clear_p_same : same.

Lemma ps2_init_p_same polls s : denote (ps2_init_p polls) s = ps2_init polls s.
Proof. unfold ps2_init_p, ps2_init. same_steps. Qed.

#[export] Hint Resolve ps2_init_p_same : same.

Lemma ioapic_configure_entry_p_same addr reg val s :
  denote (ioapic_configure_entry_p addr reg val) s = ioapic_configure_entry addr reg val s.
Proof.
  unfold ioapic_configure_entry_p, ioapic_configure_entry. rewrite denote_bind.
  apply bind_ext; [|intros ? ?]; unfold ioapic_write_p, ioapic_write; same_steps.
Qed.

#[export] Hint Resolve ioapic_configure_entry_p_same : same.

Lemma keyboard_same polls s :
  denote (x ← keyboard_off_p polls; keyboard_on_p x.1 x.2) s =
    (ps2_int_init polls ;; log_success "IOAPIC initalized") s.
Proof.
  unfold keyboard_off_p, ps2_int_init.
  do 5 (rewrite denote_bind_bind, bind_assoc; apply bind_ext;
    [by rewrite ?denote_act, ?ps2_init_p_same, ?ioapic_configure_entry_p_same|]; intros ? ?).
  change (mret ?x ≫= ?f) with (f x). unfold keyboard_on_p. cbn [fst snd].
  rewrite denote_bind, ?bind_assoc. apply bind_ext; [apply ioapic_configure_entry_p_same|]. intros ? ?.
  rewrite denote_act_bind, ?bind_assoc. apply bind_ext; [done|]. intros ? ?.
  same_steps.
Qed.

(** ** Reference *)

(** From [keyboard_off_p] on, with the keyboard silent until its pin has a vector: the
    interrupts [qs] come while its controller is started, [qs'] after that. *)
Definition keyboard_run {A} (polls : nat) (rest : prog A) (qs qs' : list irq)
    (s : kstate) (o : outcome A) : Prop :=
  Forall (eq Timer) qs /\ exists o1, irun (keyboard_off_p polls) qs s o1 /\
    match o1 with
    | Done x s1 => irun (keyboard_on_p x.1 x.2 ;; rest) qs' s1 o
    | _ => qs' = [] /\ stopped o1 = Some o
    end.

(** The commands of the controller's start-up. *)
Definition start_commands : list (Z * Z) := [(0x64, 0xAD); (0x64, 0xA7); (0x64, 0xAA); (0x64, 0xAE)].

(** Events of the kernel's own, with the commands [cs]. *)
Record does_commands (cs : list (Z * Z)) (es : list event) : Prop := {
  dc_commands : commands es = cs;
  dc_started : started es = [];
}.

(** ** Lemmas *)

#[local] Hint Constants Opaque : typeclass_instances.

(** An interrupt can come inside these. *)
#[global] Instance insensitive_load32 va : Insensitive (load32 va).
Proof. unfold load32. apply _. Qed.
#[global] Instance insensitive_find_gsi pin : Insensitive (find_gsi pin).
Proof. unfold find_gsi, apic_get. apply _. Qed.

(** Code that only prints. *)
Definition prints {A} (m : M A) (a : A) : Prop :=
  forall s, exists es, console_only es /\ m s = Done a (emits es s).

Lemma prints_printf fmt args : signature fmt = arg_kind <$> args -> prints (printf fmt args) 0.
Proof. intros H s. destruct (printf_typed_done fmt args H) as (es & Hes & E). exists es. auto. Qed.

Lemma prints_log_info msg : prints (log_info msg) tt.
Proof. intros s. eexists. split; [|apply log_info_done]. apply log_line_console. Qed.

Lemma prints_log_success msg : prints (log_success msg) tt.
Proof. intros s. eexists. split; [|apply log_success_done]. apply log_line_console. Qed.

Lemma quiet_emits es s : quiet (emits es s) s.
Proof. done. Qed.

Lemma pins_known_quiet s s' rs : quiet s s' -> pins_known s rs -> pins_known s' rs.
Proof.
  intros Hq [H1 H2 H3 H4]. split; [|done| |done].
  - rewrite <- H1. symmetry. exact (f_equal (fun s => ics_array (k_apic s)) Hq).
  - intros cr Hcr. apply (rec_fields_frame s); [symmetry; by apply k_hw_proper|
      symmetry; by apply k_ram_proper|by apply H3].
Qed.

Lemma does_nil es : does_commands [] es <-> commands es = [] /\ started es = [].
Proof. split; [by intros []|by intros [? ?]]. Qed.

Lemma does_commands_app cs cs' es es' :
  does_commands cs es -> does_commands cs' es' -> does_commands (cs ++ cs') (es ++ es').
Proof.
  intros [H1 H2] [H3 H4]. split; [by rewrite commands_app, H1, H3|by rewrite started_app, H2, H4].
Qed.

Section masked.
Context (N : Z).

(** The same as in [base], seen from another state. *)
Lemma since_rebase kb b b' t cpus s :
  since kb false N b t cpus s -> quiet b' b ->
  apic_timer_ticks (k_apic b') = apic_timer_ticks (k_apic b) ->
  started (k_trace b') = started (k_trace b) -> testing (k_trace b') = testing (k_trace b) ->
  commands (k_trace b') = commands (k_trace b) -> since kb false N b' t cpus s.
Proof.
  intros [Hq Hok Ht Hr Htk Hst Hte Hcm _] Hq' Et Est Ete Ecm.
  split; rewrite ?Et, ?Est, ?Ete, ?Ecm; try done. unfold quiet in *. congruence.
Qed.

Lemma masked_emits b t s es :
  since false false N b t [] s -> started es = [] -> since false false N (emits es b) t [] (emits es s).
Proof.
  intros [Hq [Hk Htk _ _] Ht Hr Etk Hst Hte Hcm _] Hes. split; try done; cbn.
  - by rewrite !started_app, Hes, !app_nil_r, Hst, app_nil_r.
  - by rewrite !testing_app, Hte.
  - by rewrite !commands_app, Hcm.
Qed.

(** The keyboard's pin is let in. *)
Lemma unmask b t s :
  since false false N b t [] s -> keyboard_tabled (k_hw b) -> testing (k_trace b) = false ->
  since true false N b t [] s.
Proof.
  intros [Hq [Hk Htk _ _] Ht Hr Etk Hst Hte Hcm _] Htab Hb. split; try done. split; try done.
  - intros _. by rewrite <- (k_hw_proper _ _ Hq).
  - intros _. by rewrite Hte.
Qed.

(** *** The controller *)

Lemma iwp_outb p v (Q : Z -> unit -> kstate -> Prop) H b t s :
  since false false N b t [] s ->
  (forall t' s', t <= t' -> since false false N (emits [EvOutb (u16 p) (u8 v)] b) t' [] s' -> Q t' tt s') ->
  iwp false N (act (outb p v)) Q H t s.
Proof.
  intros Hs HQ. apply (iwp_act false false N _ _ _ b t [] s Hs). intros t' s' Ht Hs'. apply wp_emit.
  eexists _, []. split; [exact (masked_emits _ _ _ [EvOutb (u16 p) (u8 v)] Hs' eq_refl)|].
  intros t2 s2 Ht2. apply HQ. lia.
Qed.

Lemma iwp_inb p (Q : Z -> Z -> kstate -> Prop) H b t s :
  since false false N b t [] s ->
  (forall v t' s', t <= t' -> since false false N (emits [EvInb (u16 p) v] b) t' [] s' -> Q t' v s') ->
  iwp false N (act (inb p)) Q H t s.
Proof.
  intros Hs HQ. apply (iwp_act false false N _ _ _ b t [] s Hs). intros t' s' Ht Hs'.
  eapply wp_done; [apply inb_done|]. set (v := u8 _).
  eexists _, []. split; [exact (masked_emits _ _ _ [EvInb (u16 p) v] Hs' eq_refl)|].
  intros t2 s2 Ht2. apply HQ. lia.
Qed.

Lemma iwp_console {A} kb (m : M A) a (Q : Z -> A -> kstate -> Prop) H b t cpus s :
  since kb false N b t cpus s -> prints m a ->
  (forall t' s', t <= t' -> since kb false N b t' cpus s' -> Q t' a s') -> iwp kb N (act m) Q H t s.
Proof.
  intros Hs Hm HQ. apply (iwp_act kb false N _ _ _ b t cpus s Hs). intros t' s' Ht Hs'.
  destruct (Hm s') as (es & Hes & E). eapply wp_done; [exact E|]. exists b, cpus.
  split; [by apply since_console|]. intros t2 s2 Ht2. apply HQ. lia.
Qed.

Lemma iwp_ps2_clear H polls : forall j b t s,
  since false false N b t [] s -> testing (k_trace b) = false ->
  iwp false N (ps2_clear_p polls j) (fun t' _ s' => exists es, does_commands [] es /\
    testing (k_trace b ++ es) = false /\ since false false N (emits es b) t' [] s') H t s.
Proof.
  induction polls as [|polls IH]; intros j b t s Hs Hte; cbn [ps2_clear_p]; destruct (j =? 0).
  2: by eapply iwp_give_up.
  1,2: eapply iwp_ret; [done|]; intros t1 s1 _ Hs1; exists []; rewrite app_nil_r, emits_nil; done.
  eapply iwp_bind, iwp_inb; [done|]. intros v t1 s1 _ Hs1.
  eapply iwp_bind, iwp_inb; [done|]. intros w t2 s2 _ Hs2. rewrite emits_app in Hs2.
  set (e1 := [EvInb (u16 PS2_DATA_PORT) v] ++ [EvInb (u16 PS2_STATUS_REG) w]) in *.
  eapply iwp_mono; [apply (IH _ (emits e1 b)); [exact Hs2|]|].
  - change (testing (k_trace b ++ e1) = false). by rewrite testing_app, Hte.
  - intros t3 j' s3 _ (es & Hes & Hte3 & Hs3). rewrite emits_app in Hs3. exists (e1 ++ es).
    split; [by apply (does_commands_app [] [])|]. split; [|done].
    by rewrite app_assoc.
Qed.

(** The exchange with the controller so far: the kernel's own events [es] since [b]. *)
Definition exchanged (b : kstate) (cs : list (Z * Z)) (t : Z) (s : kstate) : Prop :=
  exists es, does_commands cs es /\ testing (k_trace b ++ es) = false /\
    since false false N (emits es b) t [] s.

Lemma exchanged_clear H polls j b cs t s :
  exchanged b cs t s -> iwp false N (ps2_clear_p polls j) (fun t' _ s' => exchanged b cs t' s') H t s.
Proof.
  intros (es & Hes & Hte & Hs). eapply iwp_mono; [by apply (iwp_ps2_clear H polls j (emits es b))|].
  intros t' _ s' _ (es' & Hes' & Hte' & Hs'). exists (es ++ es'). rewrite emits_app in Hs'.
  split; [|split; [by rewrite app_assoc|done]]. rewrite <- (app_nil_r cs). by apply does_commands_app.
Qed.

Lemma exchanged_outb p v (Q : Z -> unit -> kstate -> Prop) H b cs t s :
  exchanged b cs t s -> test_step false (EvOutb (u16 p) (u8 v)) = false ->
  (forall t' s', t <= t' -> exchanged b (cs ++ [(u16 p, u8 v)]) t' s' -> Q t' tt s') ->
  iwp false N (act (outb p v)) Q H t s.
Proof.
  intros (es & Hes & Hte & Hs) Hv HQ. eapply iwp_outb; [done|]. intros t' s' Ht Hs'. apply HQ; [done|].
  rewrite emits_app in Hs'. exists (es ++ [EvOutb (u16 p) (u8 v)]). split; [by apply does_commands_app|].
  split; [|done]. by rewrite app_assoc, testing_app, Hte.
Qed.

Lemma exchanged_console {A} (m : M A) a (Q : Z -> A -> kstate -> Prop) H b cs t s :
  exchanged b cs t s -> prints m a ->
  (forall t' s', t <= t' -> exchanged b cs t' s' -> Q t' a s') -> iwp false N (act m) Q H t s.
Proof.
  intros (es & Hes & Hte & Hs) Hm HQ. eapply iwp_console; [done|done|].
  intros t' s' Ht Hs'. apply HQ; [done|]. by exists es.
Qed.

Lemma iwp_ps2_init H polls b cs t s :
  exchanged b cs t s ->
  iwp false N (ps2_init_p polls) (fun t' _ s' => exchanged b (cs ++ start_commands) t' s') H t s.
Proof.
  intros Hs. unfold ps2_init_p.
  eapply iwp_bind, exchanged_outb; [exact Hs|done|]. intros t1 s1 _ Hs1.
  eapply iwp_bind, exchanged_outb; [exact Hs1|done|]. intros t2 s2 _ Hs2.
  eapply iwp_bind, iwp_mono; [by eapply exchanged_clear|]. intros t3 j s3 _ Hs3.
  eapply iwp_bind, exchanged_console; [exact Hs3|by apply prints_printf|]. intros t4 s4 _ Hs4.
  destruct Hs4 as (es & Hes & Hte & Hs4).
  eapply iwp_bind, iwp_outb; [done|]. intros t5 s5 _ Hs5.
  eapply iwp_bind, iwp_inb; [done|]. intros data t6 s6 _ Hs6. rewrite !emits_app in Hs6.
  set (cs' := ((cs ++ [_]) ++ [_])) in Hes.
  assert (exchanged b (cs' ++ [(0x64, 0xAA)]) t6 s6) as Hs7.
  { eexists. split; [|split; [|exact Hs6]].
    - rewrite <- ?app_assoc. apply does_commands_app; [done|by split].
    - rewrite ?app_assoc, testing_app. reflexivity. }
  eapply iwp_bind, exchanged_console; [exact Hs7|intros ?; apply test_report_done|].
  intros t8 s8 _ Hs8.
  eapply iwp_bind, exchanged_console; [exact Hs8|by apply prints_printf|]. intros t9 s9 _ Hs9.
  eapply iwp_bind, iwp_mono; [by eapply exchanged_clear|]. intros t10 j' s10 _ Hs10.
  eapply exchanged_outb; [exact Hs10|done|]. intros t11 s11 _ Hs11.
  unfold start_commands. unfold cs' in Hs11. by rewrite <- !app_assoc in Hs11.
Qed.

(** *** The pin *)

Lemma iwp_aside kb e (Q : Z -> unit -> kstate -> Prop) H b t cpus s :
  started [e] = [] -> (forall b, test_step b e = b) -> commands [e] = [] -> since kb false N b t cpus s ->
  (forall t' s', t <= t' -> since kb false N b t' cpus s' -> Q t' tt s') -> iwp kb N (act (emit e)) Q H t s.
Proof.
  intros H1 H2 H3 Hs HQ. apply (iwp_act kb false N _ _ _ b t cpus s Hs). intros t' s' Ht Hs'. apply wp_emit.
  exists b, cpus. split; [by apply (since_quiet_emits _ _ _ _ _ _ _ [e])|]. intros t2 s2 Ht2. apply HQ. lia.
Qed.

Lemma iwp_entry kb io i v (Q : Z -> unit -> kstate -> Prop) H b t cpus s :
  since kb false N b t cpus s ->
  (forall t' s', t <= t' -> since kb false N b t' cpus s' -> Q t' tt s') ->
  iwp kb N (ioapic_configure_entry_p io i v) Q H t s.
Proof.
  intros Hs HQ. unfold ioapic_configure_entry_p, ioapic_write_p.
  eapply iwp_bind, iwp_bind, iwp_aside; [done..|exact Hs|]. intros t1 s1 Ht1 Hs1.
  eapply iwp_aside; [done..|exact Hs1|]. intros t2 s2 Ht2 Hs2.
  eapply iwp_bind, iwp_aside; [done..|exact Hs2|]. intros t3 s3 Ht3 Hs3.
  eapply iwp_aside; [done..|exact Hs3|]. intros t4 s4 Ht4 Hs4. apply HQ; [lia|done].
Qed.

Lemma iwp_find_gsi kb rs pin (Q : Z -> Z -> kstate -> Prop) H b t cpus s :
  pins_known b rs -> since kb false N b t cpus s ->
  (forall t' s', t <= t' -> since kb false N b t' cpus s' -> Q t' (default pin (first_override pin rs)) s') ->
  iwp kb N (act (find_gsi pin)) Q H t s.
Proof.
  intros Hb Hs HQ. apply (iwp_act kb false N _ _ _ b t cpus s Hs). intros t' s' Ht Hs'.
  destruct (pins_known_quiet b s' rs (si_quiet _ _ _ _ _ _ _ Hs') Hb) as [H1 H2 H3 _].
  destruct (find_gsi_done s' rs pin H1 H2 H3) as (es & Hes & E). eapply wp_done; [exact E|].
  exists b, cpus. split; [by apply since_console|]. intros t2 s2 Ht2. apply HQ. lia.
Qed.

Lemma iwp_keyboard_off H polls rs b t s :
  pins_known b rs -> testing (k_trace b) = false -> since false false N b t [] s ->
  iwp false N (keyboard_off_p polls) (fun t' x s' =>
    x = (ioapic_address (k_apic b), default 1 (first_override 1 rs)) /\
    exchanged b start_commands t' s') H t s.
Proof.
  intros Hb Hte Hs. unfold keyboard_off_p.
  eapply iwp_bind, iwp_console; [exact Hs|apply prints_log_info|]. intros t1 s1 _ Hs1.
  eapply iwp_bind, (iwp_find_gsi false rs 1); [exact Hb|exact Hs1|]. intros t2 s2 _ Hs2.
  assert (exchanged b [] t2 s2) as Hx
    by (exists []; rewrite app_nil_r, emits_nil; done).
  eapply iwp_bind, iwp_mono; [by apply (iwp_ps2_init _ polls b [])|].
  intros t3 [] s3 _ (es & Hes & Hte3 & Hs3).
  eapply iwp_bind, iwp_look; [exact Hs3|]. intros t4 s4 _ Hs4. apply wp_gets. split; [done|].
  intros t5 s5 _ Hs5.
  assert (ioapic_address (k_apic s4) = ioapic_address (k_apic b)) as ->
    by (symmetry; exact (f_equal (fun s => ioapic_address (k_apic s)) (si_quiet _ _ _ _ _ _ _ Hs4))).
  eapply iwp_bind, iwp_entry; [exact Hs5|]. intros t6 s6 _ Hs6.
  eapply iwp_ret; [exact Hs6|]. intros t7 s7 _ Hs7. split; [done|]. by exists es.
Qed.

Lemma iwp_keyboard_on H io gsi b t s :
  since true false N b t [] s ->
  iwp true N (keyboard_on_p io gsi) (fun t' _ s' => since true false N b t' [] s') H t s.
Proof.
  intros Hs. unfold keyboard_on_p.
  eapply iwp_bind, iwp_entry; [exact Hs|]. intros t1 s1 _ Hs1.
  eapply iwp_bind, iwp_console; [exact Hs1|by apply prints_printf|]. intros t2 s2 _ Hs2.
  eapply iwp_bind, iwp_console; [exact Hs2|apply prints_log_success|]. intros t3 s3 _ Hs3.
  eapply iwp_console; [exact Hs3|apply prints_log_success|]. done.
Qed.
End masked.

(** *** The two together *)

Lemma timers_allowed qs : Forall (eq Timer) qs -> Forall (allowed false) qs.
Proof. intros H. eapply Forall_impl; [exact H|]. by intros q <- [=]. Qed.

Section keyboard.
Context {A : Type} (polls : nat) (rest : prog A) (rs : list (Z * madt_rec)) (b : kstate).
Context (Hb : pins_known b rs) (Hte : testing (k_trace b) = false) (Htab : keyboard_tabled (k_hw b)).

(** What every run comes to, given what [rest] does after the controller is started. *)
Lemma keyboard_run_all N (Q : Z -> A -> kstate -> Prop) (H : Z -> kstate -> Prop) qs qs' s o :
  since false false N b 0 [] s -> keyboard_run polls rest qs qs' s o -> Z.of_nat (timers (qs ++ qs')) <= N ->
  (forall t es s', does_commands start_commands es -> testing (k_trace b ++ es) = false ->
     since true false N (emits es b) t [] s' -> iwp true N rest Q H t s') ->
  match o with
  | Done a s' => Q (Z.of_nat (timers (qs ++ qs'))) a s'
  | Halted s' => H (Z.of_nat (timers (qs ++ qs'))) s'
  | Fault _ _ => False
  | OutOfFuel => True
  end.
Proof using Hb Hte Htab.
  intros Hs (Hqs & o1 & H1 & H2) HN Hrest. rewrite timers_app, Nat2Z.inj_add in *.
  pose proof (iwp_keyboard_off N (fun _ _ => False) polls rs b 0 s Hb Hte Hs qs o1 H1
    (timers_allowed qs Hqs) ltac:(lia)) as Hw.
  destruct o1 as [x s1|s1|f s1|]; [|done..|by destruct H2 as [_ [= <-]]].
  destruct Hw as (-> & es & Hes & Hte1 & Hs1). cbn [fst snd] in H2.
  assert (iwp true N (keyboard_on_p (ioapic_address (k_apic b)) (default 1 (first_override 1 rs)) ;; rest)
    Q H (0 + Z.of_nat (timers qs)) s1) as Hw.
  { eapply iwp_bind, iwp_mono; [apply (iwp_keyboard_on N H _ _ (emits es b))|].
    - apply unmask; [exact Hs1|exact Htab|exact Hte1].
    - intros t' [] s' _ Hs'. by apply (Hrest t' es). }
  exact (Hw qs' o H2 (all_allowed qs') ltac:(lia)).
Qed.
End keyboard.

(** *** Left alone *)

Lemma commands_device t : commands t = commands (device t).
Proof.
  induction t as [|e t IH]; [done|]. unfold commands, device in *. by destruct e; cbn; rewrite IH.
Qed.

Lemma drain_aside ds : commands (ds ≫= drain) = [] /\ started (ds ≫= drain) = [].
Proof. by induction ds. Qed.

(** What the keyboard's part of [init_acpi] does when no interrupt comes. *)
Lemma controller_does ds data io gsi es :
  device es = controller_start ds data ++ entry_writes io gsi 0 ++ entry_writes io gsi 33 ->
  does_commands start_commands es /\ forall b, foldl test_step b es = false.
Proof.
  intros Hd. destruct (drain_aside ds) as [H1 H2]. split; [split|].
  - rewrite commands_device, Hd. unfold controller_start. by rewrite !commands_app, H1.
  - rewrite <- started_device, Hd. unfold controller_start. by rewrite !started_app, H2.
  - intros b. rewrite test_device, Hd. unfold controller_start. by rewrite !foldl_app.
Qed.

Lemma since_alone kb N b es e3 t s ds data io gsi :
  testing (k_trace b) = false ->
  device e3 = controller_start ds data ++ entry_writes io gsi 0 ++ entry_writes io gsi 33 ->
  does_commands start_commands es -> testing (k_trace b ++ es) = false ->
  since kb false N (emits es b) t [] s -> since kb false N (emits e3 b) t [] s.
Proof.
  intros Hb Hd [Hc Hst] Hte Hs. destruct (controller_does _ _ _ _ _ Hd) as [[Hc3 Hst3] Hte3].
  apply (since_rebase N kb (emits es b)); try done;
    change (k_trace (emits es b)) with (k_trace b ++ es);
    change (k_trace (emits e3 b)) with (k_trace b ++ e3).
  - by rewrite !started_app, Hst, Hst3.
  - by rewrite Hte, testing_app, Hte3.
  - by rewrite !commands_app, Hc, Hc3.
Qed.

Lemma irun_alone {A} (p : prog A) : forall s a s',
  denote p s = Done a s' -> irun p [] s (Done a s').
Proof.
  induction p as [a|C m k IH]; intros s a' s' E.
  - injection E as -> ->. exists s'. split; [constructor|done].
  - cbn [denote] in E. destruct (bind_runs m _ s a' s' E) as (c & s1 & E1).
    rewrite (bind_done _ _ _ _ _ E1) in E. exists [], s, [], (Done c s1), [].
    split; [done|]. split; [constructor|]. split; [by left|]. by apply IH.
Qed.

(** Without interrupts until the pin has its vector, and none for a while after. *)
Lemma keyboard_run_some {A} polls (rest : prog A) s s3 qs' o :
  (ps2_int_init polls ;; log_success "IOAPIC initalized") s = Done tt s3 ->
  irun rest qs' s3 o -> keyboard_run polls rest [] qs' s o.
Proof.
  intros E Hrest. rewrite <- keyboard_same, denote_bind in E.
  destruct (bind_runs _ _ _ _ _ E) as (x & s1 & E1). rewrite (bind_done _ _ _ _ _ E1) in E.
  split; [done|]. exists (Done x s1). split; [by apply irun_alone|].
  apply (irun_then _ _ tt _ qs' s3 [] s1); [by apply irun_alone|done].
Qed.
