(* ===== verification/SmpIrq.v ===== *)
(** [smp_init] with interrupts.  Its sleeps read the count the timer's handler
    writes; cut into steps, it is interrupted anywhere, and still sends the
    processors off one by one, two ticks apart. *)

From S2P Require Import Prelude Limine Types Machine Memory Sample CString Video Printf Log.
From S2P Require Import Allocator Interleave Apic Ps2 Idt Smp Kern Idle Interrupts Preempt.

(** ** Code: [smp_init] step by step *)

Fixpoint for_p_fuel (fuel : nat) (hi step i : Z) (body : Z -> prog unit) : prog unit :=
  if i <? hi then
    match fuel with
    | O => act out_of_fuel
    | S fuel => body i ;; for_p_fuel fuel hi step (i ⊕ step) body
    end
  else mret tt.

Definition for_p (lo hi step : Z) (body : Z -> prog unit) : prog unit :=
  for_p_fuel (iterations lo hi step) hi step lo body.

Fixpoint apic_sleep_loop_p (fuel : nat) (curcnt ms : Z) : prog unit :=
  ticks ← act (apic_get apic_timer_ticks);
  if ticks ⊖ u64 curcnt <? u64 ms then
    match fuel with
    | O => act out_of_fuel
    | S fuel =>
        act (asm Nop) ;;
        act timer_interrupts ;;
        apic_sleep_loop_p fuel curcnt ms
    end
  else mret tt.

Definition apic_sleep_p (polls : nat) (ms : Z) : prog unit :=
  ticks ← act (apic_get apic_timer_ticks);
  apic_sleep_loop_p polls (s32 ticks) ms.

Definition smp_init_p (polls : nat) : prog unit :=
  response ← act (gets (fun s => smp_request_response (k_boot s)));
  r ← act (match response with
           | None => log_panic "SMP request unfulfilled"
           | Some r => mret r
           end);
  if sr_cpu_count r =? 1 then
    act (printf "smp: single core processor, skipping smp initalization{n}" []) ;;
    act (modify (set_state_single_processor true))
  else
    act (printf "smp: cpu count: {dn}" [VInt (sr_cpu_count r)]) ;;
    for_p 0 (sr_cpu_count r) 1 (fun i =>
      apic_sleep_p polls 2 ;;
      act (printf "smp: starting cpu {dn}" [VInt i]) ;;
      info ← act (index (sr_cpus r) i);
      target ← act (gets (fun s => ap_trampoline_addr (k_link s)));
      act (emit (EvSmpGoto (si_processor_id info) target))) ;;
    act (printf "smp: CPUs started{n}" []) ;;
    mret tt.

(** ** The program is the code *)

Lemma apic_sleep_loop_p_same fuel : forall curcnt ms s,
  denote (apic_sleep_loop_p fuel curcnt ms) s = apic_sleep_loop fuel curcnt ms s.
Proof.
  induction fuel as [|fuel IH]; intros curcnt ms s; cbn [apic_sleep_loop_p apic_sleep_loop];
    rewrite denote_act_bind; (apply bind_ext; [done|]); intros ticks s1; case_match; try done.
  rewrite denote_act_bind. apply bind_ext; [done|]. intros [] s2.
  rewrite denote_act_bind. apply bind_ext; [done|]. intros [] s3. apply IH.
Qed.

Lemma apic_sleep_p_same polls ms s : denote (apic_sleep_p polls ms) s = apic_sleep polls ms s.
Proof.
  unfold apic_sleep_p, apic_sleep. rewrite denote_act_bind.
  apply bind_ext; [done|]. intros ticks s1. apply apic_sleep_loop_p_same.
Qed.

Lemma for_p_same hi (body : Z -> prog unit) (body' : Z -> M unit) :
  (forall i s, denote (body i) s = body' i s) ->
  forall lo step s, denote (for_p lo hi step body) s = for_ lo hi step body' s.
Proof.
  intros Hb lo step s. unfold for_p, for_, for_ret.
  generalize (iterations lo hi step) as fuel. intros fuel. revert lo s.
  induction fuel as [|fuel IH]; intros lo s; cbn [for_p_fuel for_ret_fuel]; case_match; try done.
  rewrite denote_bind, !bind_assoc. apply bind_ext; [apply Hb|]. intros [] s1.
  etransitivity; [apply IH|]. done.
Qed.

#[export] Hint Resolve apic_sleep_p_same : same.

Lemma smp_init_p_same polls s : denote (smp_init_p polls) s = smp_init polls s.
Proof.
  unfold smp_init_p, smp_init.
  do 2 (rewrite denote_act_bind; apply bind_ext; [done|]; intros ? ?).
  case_match.
  - same_steps.
  - rewrite denote_act_bind. apply bind_ext; [done|]. intros ? ?.
    rewrite denote_bind. apply bind_ext; [|intros ? ?; same_steps].
    apply for_p_same. intros i s2. same_steps.
Qed.

#[export] Hint Resolve smp_init_p_same : same.

(** ** Runs with interrupts *)

(** Times two ticks apart at least, from [t0] on. *)
Fixpoint spaced (t0 : Z) (ts : list Z) : Prop :=
  match ts with
  | [] => True
  | t :: ts => t0 + 2 <= t /\ spaced t ts
  end.

Lemma spaced_snoc t0 ts t : spaced t0 ts -> default t0 (last ts) + 2 <= t -> spaced t0 (ts ++ [t]).
Proof.
  revert t0. induction ts as [|t1 ts IH]; intros t0 Hs Ht; [done|]. destruct Hs as [H1 Hs].
  split; [done|]. apply IH; [done|]. rewrite last_cons in Ht. by destruct (last ts).
Qed.

Lemma spaced_last t0 ts :
  spaced t0 ts -> t0 + 2 * Z.of_nat (length ts) <= default t0 (last ts).
Proof.
  revert t0. induction ts as [|t1 ts IH]; intros t0 Hs; [cbn; lia|]. destruct Hs as [H1 Hs].
  specialize (IH t1 Hs). rewrite last_cons. cbn [length]. destruct (last ts); cbn in *; lia.
Qed.

Lemma spaced_le t0 ts : spaced t0 ts -> Forall (fun t => t <= default t0 (last ts)) ts.
Proof.
  revert t0. induction ts as [|t1 ts IH]; intros t0 Hs; [constructor|]. destruct Hs as [H1 Hs].
  pose proof (spaced_last t1 ts Hs). specialize (IH t1 Hs). rewrite last_cons.
  constructor; [destruct (last ts); cbn in *; lia|].
  eapply Forall_impl; [exact IH|]. intros t. by destruct (last ts).
Qed.

Section smp.
Context (clk : bool) (N : Z).

(** The hardware's interrupts come by the schedule, not by the polls. *)
Context (base : kstate) (Hirq : forall t, hw_irq (k_hw base) t = 0%nat).

Lemma since_irq t cpus s : since true clk N base t cpus s -> forall t', hw_irq (k_hw s) t' = 0%nat.
Proof using Hirq. intros Hs t'. by rewrite <- (k_hw_proper _ _ (si_quiet _ _ _ _ _ _ _ Hs)). Qed.

Lemma timer_interrupts_none s : (forall t, hw_irq (k_hw s) t = 0%nat) -> timer_interrupts s = Done tt s.
Proof. intros H. unfold timer_interrupts, mbind, M_bind, gets. by rewrite H. Qed.

(** The difference the loop tests. *)
Lemma waited c t t0 : 0 <= c -> 0 <= t0 <= t -> c + t < 2 ^ 31 ->
  ((c + t) ⊖ u64 (s32 (c + t0)) <? u64 2) = (t - t0 <? 2).
Proof.
  intros Hc Ht H. rewrite (s32_small (c + t0)), (u64_small (c + t0)), (u64_small 2) by lia.
  rewrite u64_small by lia. f_equal. lia.
Qed.

Lemma iwp_sleep_loop H cpus t0 fuel : forall t s,
  0 <= t0 <= t -> since true clk N base t cpus s ->
  iwp true N (apic_sleep_loop_p fuel (s32 (apic_timer_ticks (k_apic base) + t0)) 2)
    (fun t' _ s' => t0 + 2 <= t' /\ since true clk N base t' cpus s') H t s.
Proof using Hirq.
  induction fuel as [|fuel IH]; intros t s Ht Hs; cbn [apic_sleep_loop_p]; apply iwp_bind;
    apply (iwp_look _ _ _ _ _ _ _ t cpus s Hs); intros t1 s1 Ht1 Hs1; apply wp_gets;
    (split; [done|]); intros t2 s2 Ht2 Hs2;
    pose proof (si_t _ _ _ _ _ _ _ Hs1); pose proof (si_room _ _ _ _ _ _ _ Hs1);
    rewrite (si_ticks _ _ _ _ _ _ _ Hs1), waited by lia; destruct (Z.ltb_spec (t1 - t0) 2).
  1: by eapply iwp_give_up.
  1,3: eapply iwp_ret; [done|]; intros t3 s3 Ht3 Hs3; split; [lia|done].
  apply iwp_bind, (iwp_act true clk N _ _ _ base t2 cpus s2 Hs2). intros t3 s3 Ht3 Hs3. apply wp_emit.
  exists base, cpus. split; [by apply (since_quiet_emits true clk N base t3 cpus s3 [EvAsm Nop])|]. intros t4 s4 Ht4 Hs4.
  apply iwp_bind, (iwp_look _ _ _ _ _ _ _ t4 cpus s4 Hs4). intros t5 s5 Ht5 Hs5.
  eapply wp_done; [by eapply timer_interrupts_none, since_irq|].
  split; [done|]. intros t6 s6 Ht6 Hs6. apply IH; [lia|done].
Qed.

(** A sleep of 2 ms lets two ticks pass. *)
Lemma iwp_sleep H cpus polls t s :
  since true clk N base t cpus s ->
  iwp true N (apic_sleep_p polls 2) (fun t' _ s' => t + 2 <= t' /\ since true clk N base t' cpus s') H t s.
Proof using Hirq.
  intros Hs. apply iwp_bind, (iwp_look _ _ _ _ _ _ _ t cpus s Hs). intros t1 s1 Ht1 Hs1. apply wp_gets.
  split; [done|]. intros t2 s2 Ht2 Hs2. rewrite (si_ticks _ _ _ _ _ _ _ Hs1).
  pose proof (si_t _ _ _ _ _ _ _ Hs1).
  eapply iwp_mono; [apply (iwp_sleep_loop _ cpus t1); [lia|done]|].
  intros t3 _ s3 Ht3 [Ht3' Hs3]. split; [lia|done].
Qed.

Lemma iwp_for_p (I : Z -> Z -> kstate -> Prop) hi body Q H fuel : forall i t s,
  0 <= i <= hi -> hi < 2 ^ 63 -> hi - i <= Z.of_nat fuel -> I i t s ->
  (forall i t s, 0 <= i < hi -> I i t s -> iwp true N (body i) (fun t' _ s' => I (i + 1) t' s') H t s) ->
  (forall t s, I hi t s -> iwp true N (mret tt : prog unit) Q H t s) ->
  iwp true N (for_p_fuel fuel hi 1 i body) Q H t s.
Proof using Type.
  induction fuel as [|fuel IH]; intros i t s Hi Hhi Hf HI Hb HQ; cbn [for_p_fuel];
    destruct (Z.ltb_spec i hi); try lia.
  1,3: apply HQ; by replace hi with i by lia.
  apply iwp_bind. eapply iwp_mono; [apply Hb; [lia|done]|]. intros t1 [] s1 Ht1 HI1.
  rewrite u64_small by lia. apply IH; try done; lia.
Qed.

(** *** Runs that get through *)

Lemma since_irq_done t cpus s q :
  since true clk N base t cpus s -> t + Z.of_nat (timers [q]) <= N ->
  since true clk N base (t + Z.of_nat (timers [q])) cpus (irq_done q s).
Proof using Type.
  intros Hs Ht. destruct (idle_step_quiet true s q (irq_done q s)) as [Hq Htk];
    [apply Hs|done|apply (step_done true); [apply Hs|done..]|].
  by apply (since_ticked true clk N base t cpus s).
Qed.

Lemma ewp_look {A} (m : M A) (Q : Z -> A -> kstate -> Prop) t s :
  wp m (fun a s1 => s1 = s /\ Q t a s) never s -> ewp (act m) Q t s.
Proof using Type.
  intros Hm. apply ewp_act. eapply wp_mono; [exact Hm| |done]. by intros a s1 [-> HQ].
Qed.

Lemma ewp_printf fmt args (Q : Z -> Z -> kstate -> Prop) t cpus s :
  since true clk N base t cpus s -> signature fmt = arg_kind <$> args ->
  (forall s', since true clk N base t cpus s' -> Q t 0 s') -> ewp (act (printf fmt args)) Q t s.
Proof using Type.
  intros Hs Hsig HQ. apply ewp_act, wp_printf_typed; [done|]. intros es Hes.
  by apply HQ, since_console.
Qed.

Lemma ewp_sleep_loop cpus t0 fuel : forall t s,
  0 <= t0 <= t -> t <= t0 + 2 <= N -> t0 + 2 - t <= Z.of_nat fuel -> since true clk N base t cpus s ->
  ewp (apic_sleep_loop_p fuel (s32 (apic_timer_ticks (k_apic base) + t0)) 2)
    (fun t' _ s' => t' = t0 + 2 /\ since true clk N base t' cpus s') t s.
Proof using Hirq.
  induction fuel as [|fuel IH]; intros t s Ht HtN Hf Hs; cbn [apic_sleep_loop_p];
    apply ewp_bind, ewp_look, wp_gets; (split; [done|]);
    pose proof (si_room _ _ _ _ _ _ _ Hs);
    rewrite (si_ticks _ _ _ _ _ _ _ Hs), waited by lia; destruct (Z.ltb_spec (t - t0) 2); try lia.
  1,3: apply ewp_ret; by replace (t0 + 2) with t by lia.
  assert (since true clk N base t cpus (emits [EvAsm Nop] s)) as Hs1 by (by apply since_quiet_emits).
  apply ewp_bind, ewp_act, wp_emit. change (set_trace _ s) with (emits [EvAsm Nop] s).
  apply (ewp_irq _ _ Timer); [apply idle_ready, Hs1|].
  pose proof (since_irq_done t cpus _ Timer Hs1) as Hs2.
  change (Z.of_nat (timers [Timer])) with 1 in *. specialize (Hs2 ltac:(lia)).
  apply ewp_bind, ewp_look. eapply wp_done; [by eapply timer_interrupts_none, since_irq|].
  split; [done|]. apply IH; try done; lia.
Qed.

Lemma ewp_sleep cpus polls t s :
  since true clk N base t cpus s -> t + 2 <= N -> (2 <= polls)%nat ->
  ewp (apic_sleep_p polls 2) (fun t' _ s' => t' = t + 2 /\ since true clk N base t' cpus s') t s.
Proof using Hirq.
  intros Hs Ht Hp. pose proof (si_t _ _ _ _ _ _ _ Hs).
  apply ewp_bind, ewp_look, wp_gets. split; [done|].
  rewrite (si_ticks _ _ _ _ _ _ _ Hs). apply ewp_sleep_loop; try done; lia.
Qed.

Lemma ewp_for_p (I : Z -> Z -> kstate -> Prop) hi body Q fuel : forall i t s,
  0 <= i <= hi -> hi < 2 ^ 63 -> hi - i <= Z.of_nat fuel -> I i t s ->
  (forall i t s, 0 <= i < hi -> I i t s -> ewp (body i) (fun t' _ s' => I (i + 1) t' s') t s) ->
  (forall t s, I hi t s -> ewp (mret tt : prog unit) Q t s) ->
  ewp (for_p_fuel fuel hi 1 i body) Q t s.
Proof using Type.
  induction fuel as [|fuel IH]; intros i t s Hi Hhi Hf HI Hb HQ; cbn [for_p_fuel];
    destruct (Z.ltb_spec i hi); try lia.
  1,3: apply HQ; by replace hi with i by lia.
  apply ewp_bind. eapply ewp_mono; [apply Hb; [lia|done]|]. intros t1 [] s1 HI1.
  rewrite u64_small by lia. apply IH; try done; lia.
Qed.

(** *** [smp_init] *)

Lemma since_started t cpus s cpu target :
  since true clk N base t cpus s ->
  since true clk N base t (cpus ++ [((cpu, target), t)]) (emits [EvSmpGoto cpu target] s).
Proof using Type.
  intros [Hq [Hk Ht Htab Hte] HtN Hr Htk Hst Htb Hcb Hcl].
  split; try done; [split; try done|..]; cbn.
  - rewrite testing_app. exact Hte.
  - by rewrite started_app, Hst, fmap_app, <- app_assoc.
  - by rewrite testing_app.
  - by rewrite commands_app, app_nil_r.
  - intros E. specialize (Hcl E). cbn zeta in *. rewrite clock_app, Hcl, !fmap_app. cbn.
    by rewrite <- app_assoc.
Qed.

(** The state the first [i] processors are started in, at the times [ts]. *)
Definition starting (r : limine_smp_response) (t0 i t : Z) (s : kstate) : Prop :=
  exists ts, length ts = Z.to_nat i /\ spaced t0 ts /\ default t0 (last ts) <= t /\
    since true clk N base t (zip (goto base <$> take (Z.to_nat i) (sr_cpus r)) ts) s.

Lemma starting_next r t0 i t s cpu ts :
  0 <= i -> sr_cpus r !! Z.to_nat i = Some cpu -> length ts = Z.to_nat i -> spaced t0 ts ->
  since true clk N base t (zip (goto base <$> take (Z.to_nat i) (sr_cpus r)) ts) s ->
  default t0 (last ts) + 2 <= t ->
  starting r t0 (i + 1) t (emits [EvSmpGoto (si_processor_id cpu) (ap_trampoline_addr (k_link s))] s).
Proof using Type.
  intros Hi Hc Hl Hsp Hs Ht. exists (ts ++ [t]). pose proof (lookup_lt_Some _ _ _ Hc).
  replace (Z.to_nat (i + 1)) with (S (Z.to_nat i)) by lia.
  split; [rewrite length_app; cbn; lia|]. split; [by apply spaced_snoc|].
  split; [by rewrite last_snoc|].
  rewrite (take_S_r _ _ cpu), fmap_app, zip_with_app by (done || rewrite length_fmap, length_take; lia).
  change (goto base <$> [cpu]) with [(si_processor_id cpu, ap_trampoline_addr (k_link base))].
  rewrite (k_link_proper _ _ (si_quiet _ _ _ _ _ _ _ Hs)). by apply since_started.
Qed.

(** What [smp_init] leaves: [base], with the flag of a single processor set if it
    is, and the processors started otherwise. *)
Definition smp_ready (r : limine_smp_response) (t0 t : Z) (s : kstate) : Prop :=
  if sr_cpu_count r =? 1
  then since true clk N (set_state_single_processor true base) t [] s
  else exists ts, length ts = length (sr_cpus r) /\ spaced t0 ts /\ default t0 (last ts) <= t /\
    since true clk N base t (zip (goto base <$> sr_cpus r) ts) s.

Context (r : limine_smp_response).
Context (Hr : smp_request_response (k_boot base) = Some r).
Context (Hcount : sr_cpu_count r = Z.of_nat (length (sr_cpus r))).
Context (Hsmall : sr_cpu_count r < 2 ^ 63).

Lemma since_single t s :
  since true clk N base t [] s ->
  since true clk N (set_state_single_processor true base) t [] (set_state_single_processor true s).
Proof using Type.
  intros [Hq [Hk Ht Htab Hte] HtN Hroom Htk Hst Htb Hcb Hcl]. split; try done.
  exact (f_equal (set_state_single_processor true) Hq).
Qed.

Lemma iwp_start_cpu H t0 polls i t s :
  0 <= i < sr_cpu_count r -> starting r t0 i t s ->
  iwp true N (apic_sleep_p polls 2 ;;
      act (printf "smp: starting cpu {dn}" [VInt i]) ;;
      info ← act (index (sr_cpus r) i);
      target ← act (gets (fun s => ap_trampoline_addr (k_link s)));
      act (emit (EvSmpGoto (si_processor_id info) target)))
    (fun t' _ s' => starting r t0 (i + 1) t' s') H t s.
Proof using Hirq Hcount.
  intros Hi (ts & Hl & Hsp & Ht & Hs). destruct (lookup_lt_is_Some_2 (sr_cpus r) (Z.to_nat i)) as [cpu Hc]; [lia|].
  apply iwp_bind. eapply iwp_mono; [by apply iwp_sleep|]. intros t1 [] s1 _ [Ht1 Hs1].
  eapply iwp_bind, iwp_printf; [done|done|]. intros t2 s2 Ht2 Hs2.
  eapply iwp_bind, iwp_look; [done|]. intros t3 s3 Ht3 Hs3.
  apply (wp_index _ _ cpu); [lia|done|]. split; [done|]. intros t4 s4 Ht4 Hs4.
  eapply iwp_bind, iwp_look; [done|]. intros t5 s5 Ht5 Hs5.
  apply wp_gets. split; [done|]. intros t6 s6 Ht6 Hs6.
  apply (iwp_act true clk N _ _ _ base t6 _ s6 Hs6). intros t7 s7 Ht7 Hs7. apply wp_emit.
  rewrite (eq_sym (k_link_proper _ _ (si_quiet _ _ _ _ _ _ _ Hs5))).
  rewrite (k_link_proper _ _ (si_quiet _ _ _ _ _ _ _ Hs7)).
  destruct (starting_next r t0 i t7 s7 cpu ts) as (ts8 & Hl8 & Hsp8 & Ht8 & Hs8); [lia|done..|lia|].
  eexists base, _. split; [exact Hs8|]. intros t9 s9 Ht9 Hs9. exists ts8. do 2 (split; [done|]).
  split; [lia|done].
Qed.

Lemma iwp_smp_init H polls t s :
  since true clk N base t [] s ->
  iwp true N (smp_init_p polls) (fun t' _ s' => smp_ready r t t' s') H t s.
Proof using All.
  intros Hs. unfold smp_init_p, smp_ready.
  eapply iwp_bind, iwp_look; [done|]. intros t1 s1 Ht1 Hs1. apply wp_gets.
  split; [done|]. intros t2 s2 Ht2 Hs2.
  rewrite <- (k_boot_proper _ _ (si_quiet _ _ _ _ _ _ _ Hs1)), Hr.
  eapply iwp_bind, iwp_look; [done|]. intros t3 s3 Ht3 Hs3. apply wp_ret.
  split; [done|]. intros t4 s4 Ht4 Hs4. destruct (Z.eqb_spec (sr_cpu_count r) 1) as [H1|H1].
  - eapply iwp_bind, iwp_printf; [done|done|]. intros t5 s5 Ht5 Hs5.
    apply (iwp_act true clk N _ _ _ base t5 [] s5 Hs5). intros t6 s6 Ht6 Hs6. apply wp_modify.
    eexists _, []. split; [by apply since_single|]. done.
  - eapply iwp_bind, iwp_printf; [done|done|]. intros t5 s5 Ht5 Hs5.
    apply iwp_bind. apply (iwp_for_p (starting r t)); try lia.
    + unfold iterations. rewrite Z.div_1_r. lia.
    + exists []. split; [done|]. split; [done|]. split; [cbn; lia|done].
    + intros i t6 s6 Hi Hst. by apply iwp_start_cpu.
    + intros t6 s6 (ts & Hl & Hsp & Ht6 & Hs6). eapply iwp_ret; [done|]. intros t7 s7 Ht7 Hs7.
      eapply iwp_bind, iwp_printf; [done|done|]. intros t8 s8 Ht8 Hs8.
      eapply iwp_ret; [done|]. intros t9 s9 Ht9 Hs9. exists ts.
      split; [lia|]. split; [done|]. split; [lia|]. rewrite take_ge in Hs9 by lia. done.
Qed.

Lemma ewp_start_cpu t0 polls i t s :
  0 <= i < sr_cpu_count r -> (2 <= polls)%nat -> t0 + 2 * sr_cpu_count r <= N ->
  starting r t0 i t s /\ t = t0 + 2 * i ->
  ewp (apic_sleep_p polls 2 ;;
      act (printf "smp: starting cpu {dn}" [VInt i]) ;;
      info ← act (index (sr_cpus r) i);
      target ← act (gets (fun s => ap_trampoline_addr (k_link s)));
      act (emit (EvSmpGoto (si_processor_id info) target)))
    (fun t' _ s' => starting r t0 (i + 1) t' s' /\ t' = t0 + 2 * (i + 1)) t s.
Proof using Hirq Hcount.
  intros Hi Hp HtN [(ts & Hl & Hsp & Ht & Hs) Et]. destruct (lookup_lt_is_Some_2 (sr_cpus r) (Z.to_nat i)) as [cpu Hc]; [lia|].
  apply ewp_bind. eapply ewp_mono; [apply ewp_sleep; [done|lia|done]|]. intros t1 [] s1 [-> Hs1].
  eapply ewp_bind, ewp_printf; [done|done|]. intros s2 Hs2.
  apply ewp_bind, ewp_look, (wp_index _ _ cpu); [lia|done|]. split; [done|].
  apply ewp_bind, ewp_look, wp_gets. split; [done|]. apply ewp_act, wp_emit.
  split; [|lia]. apply (starting_next _ _ _ _ _ _ ts); [lia|done..|lia].
Qed.

Lemma ewp_smp_init polls t s :
  since true clk N base t [] s -> (2 <= polls)%nat -> t + 2 * sr_cpu_count r <= N ->
  ewp (smp_init_p polls) (fun t' _ s' => smp_ready r t t' s') t s.
Proof using All.
  intros Hs Hp HtN. unfold smp_init_p, smp_ready.
  apply ewp_bind, ewp_look, wp_gets. split; [done|].
  rewrite <- (k_boot_proper _ _ (si_quiet _ _ _ _ _ _ _ Hs)), Hr.
  apply ewp_bind, ewp_look, wp_ret. split; [done|]. destruct (Z.eqb_spec (sr_cpu_count r) 1) as [H1|H1].
  - eapply ewp_bind, ewp_printf; [done|done|]. intros s1 Hs1.
    apply ewp_act, wp_modify. by apply since_single.
  - eapply ewp_bind, ewp_printf; [done|done|]. intros s1 Hs1.
    apply ewp_bind, (ewp_for_p (fun i t' s' => starting r t i t' s' /\ t' = t + 2 * i)); try lia.
    + unfold iterations. rewrite Z.div_1_r. lia.
    + split; [|lia]. exists []. split; [done|]. split; [done|]. split; [cbn; lia|done].
    + intros i t2 s2 Hi Hst. by apply ewp_start_cpu.
    + intros t2 s2 [(ts & Hl & Hsp & Hle & Hs2) Ht2]. rewrite take_ge in Hs2 by lia. apply ewp_ret.
      eapply ewp_bind, ewp_printf; [done|done|]. intros s3 Hs3. apply ewp_ret. exists ts.
      split; [lia|]. by do 2 (split; [done|]).
Qed.
End smp.

(** ** What a run leaves *)

(** [smp_init] has run from [s] to [s'], interrupted by [qs].  The processors are
    started in the bootloader's order, none on a single processor, which sets its flag;
    [ts] are the times of the starts, in timer interrupts served since [s], and each is
    two at least after the one before, the first two after [s]; memory and the rest are
    as they were. *)
Record smp_started (s : kstate) (r : limine_smp_response) (qs : list irq) (s' : kstate) : Prop := {
  st_quiet : quiet (if sr_cpu_count r =? 1 then set_state_single_processor true s else s) s';
  st_ok : idle_ok s';
  st_ticks : apic_timer_ticks (k_apic s') = apic_timer_ticks (k_apic s) + Z.of_nat (timers qs);
  st_started : started (k_trace s') =
    started (k_trace s) ++ (if sr_cpu_count r =? 1 then [] else goto s <$> sr_cpus r);
  st_spaced : exists ts, length ts = (if sr_cpu_count r =? 1 then 0%nat else length (sr_cpus r)) /\
    spaced 0 ts /\ Forall (fun t => t <= Z.of_nat (timers qs)) ts /\
    clock (k_trace s') = ((clock (k_trace s)).1 + Z.of_nat (timers qs),
      (clock (k_trace s)).2 ++ (Z.add (clock (k_trace s)).1 <$> ts));
}.

Lemma zip_fst {A B} (l : list A) (k : list B) : length l = length k -> (zip l k).*1 = l.
Proof. revert k. induction l as [|a l IH]; intros [|b k] [=]; cbn; [done|]. by rewrite IH. Qed.

Lemma zip_snd {A B} (l : list A) (k : list B) : length l = length k -> (zip l k).*2 = k.
Proof. revert k. induction l as [|a l IH]; intros [|b k] [=]; cbn; [done|]. by rewrite IH. Qed.

Lemma smp_ready_started N s r qs s' :
  smp_ready true N s r 0 (Z.of_nat (timers qs)) s' -> smp_started s r qs s'.
Proof.
  unfold smp_ready. intros H. destruct (Z.eqb_spec (sr_cpu_count r) 1) as [H1|H1].
  - destruct H as [Hq Hok _ _ Htk Hst _ _ Hcl]. split; rewrite ?H1; try done; [by apply idle_ready|].
    exists []. split; [done|]. split; [done|]. split; [constructor|]. by apply Hcl.
  - rewrite <- Z.eqb_neq in H1. destruct H as (ts & Hl & Hsp & Hle & [Hq Hok _ _ Htk Hst _ _ Hcl]).
    rewrite zip_fst in Hst by (by rewrite length_fmap). rewrite zip_snd in Hcl by (by rewrite length_fmap).
    split; rewrite ?H1; try done; [by apply idle_ready|].
    exists ts. split; [done|]. split; [done|]. split; [|by apply Hcl].
    eapply Forall_impl; [by apply (spaced_le 0)|]. cbn beta. lia.
Qed.

Lemma since_refl clk N s :
  idle_ok s -> 0 <= N -> apic_timer_ticks (k_apic s) + N < 2 ^ 31 -> since true clk N s 0 [] s.
Proof.
  intros Hs HN Ht. pose proof (io_ticks _ Hs).
  split; try done; try lia; [by apply idle_ready|by rewrite app_nil_r|].
  intros _. cbn. rewrite Z.add_0_r, app_nil_r. by destruct (clock (k_trace s)).
Qed.

(** ** Properties *)

(** C26: [smp_init] is interrupted anywhere.  Its program of steps is the function;
    every run of it, with whatever timer and keyboard interrupts between the steps
    and inside its printing, either waits for longer than the model follows or
    returns with the processors started in the bootloader's order, each after two
    more ticks than the one before, the first two ticks after the call, by the timer
    interrupts acknowledged in between; and given the ticks there is a run that
    returns.  The tick count stays below 2^31, and the keyboard sends only codes its
    table covers ([idle_ok]). *)
Theorem smp_init_interrupted (s : kstate) (r : limine_smp_response) (polls : nat)
    (Hs : idle_ok s) (Hirq : forall t, hw_irq (k_hw s) t = 0%nat)
    (Hr : smp_request_response (k_boot s) = Some r)
    (Hcount : sr_cpu_count r = Z.of_nat (length (sr_cpus r)))
    (Hsmall : sr_cpu_count r < 2 ^ 29) (Hticks : apic_timer_ticks (k_apic s) < 2 ^ 30) :
  (forall s0, denote (smp_init_p polls) s0 = smp_init polls s0) /\
  (forall qs o, irun (smp_init_p polls) qs s o ->
     apic_timer_ticks (k_apic s) + Z.of_nat (timers qs) < 2 ^ 31 ->
     o = OutOfFuel \/ exists s', o = Done tt s' /\ smp_started s r qs s') /\
  ((2 <= polls)%nat -> exists qs s', irun (smp_init_p polls) qs s (Done tt s') /\
     smp_started s r qs s').
Proof.
  split; [apply smp_init_p_same|]. split.
  - intros qs o Hrun Ht.
    pose proof (iwp_smp_init true (Z.of_nat (timers qs)) s Hirq r Hr Hcount ltac:(lia)
      (fun _ _ => False) polls 0 s (since_refl true (Z.of_nat (timers qs)) s Hs ltac:(lia) Ht) qs o Hrun (all_allowed qs) ltac:(lia)) as Hw.
    destruct o as [[] s'|s'|f s'|]; try done; [|by left]. right. exists s'. split; [done|].
    by eapply smp_ready_started.
  - intros Hp.
    destruct (ewp_smp_init true (2 * sr_cpu_count r) s Hirq r Hr Hcount ltac:(lia) polls 0 s
      (since_refl true (2 * sr_cpu_count r) s Hs ltac:(lia) ltac:(lia)) Hp ltac:(lia)) as (qs & [] & s' & Hrun & Hw).
    exists qs, s'. split; [done|]. by eapply smp_ready_started.
Qed.

(** Two processors, and no interrupt of the hardware's own. *)
Definition sample_cpus : kstate :=
  start_state ∅ (Hardware 0x10000 0xffff800000000000 (fun _ _ => 0) (fun _ => 0%nat))
    (BootInfo None None None None None (Some sample_smp)) sample_link.

Lemma smp_init_interrupted_witness :
  (forall s0, denote (smp_init_p 2) s0 = smp_init 2 s0) /\
  (forall qs o, irun (smp_init_p 2) qs sample_cpus o ->
     apic_timer_ticks (k_apic sample_cpus) + Z.of_nat (timers qs) < 2 ^ 31 ->
     o = OutOfFuel \/ exists s', o = Done tt s' /\ smp_started sample_cpus sample_smp qs s') /\
  ((2 <= 2)%nat -> exists qs s', irun (smp_init_p 2) qs sample_cpus (Done tt s') /\
     smp_started sample_cpus sample_smp qs s').
Proof.
  apply (smp_init_interrupted sample_cpus sample_smp 2); try done. by split; [left|..].
Defined.
