(* ===== verification/BootIrq.v ===== *)
(** A boot with interrupts.  [init_acpi] lets them in, so all of [_start] from there on
    is interrupted: the keyboard's controller is started and the page tables are built
    while ticks and keys come in, and the processors are started and the idle loop
    reached all the same. *)

From S2P Require Import Prelude Limine Types Machine Memory Sample CString Video Printf Log.
From S2P Require Import Allocator Pmm PmmInit Vmm VmmInit Gdt AcpiTables Interleave Apic Ps2 Idt Acpi ApicInit.
From S2P Require Import Smp Kern Boot Idle Interrupts Preempt AcpiIrq SmpIrq.

(** ** [_start] in four: up to the sti of [init_apic], the keyboard's controller
    (AcpiIrq.v), the paging, the processors *)

(** Not all of it is protected by the interrupt flag: [idt_load] sets the flag, and
    [pmm_init] and the search for the tables run with it set, up to the cli of
    [init_apic].  No device that interrupts has been programmed by then. *)
Definition up_to_sti (polls : nat) : M unit :=
  start_tables ;;
  log_info "Loading PMM..." ;;
  pmm_init ;;
  log_success "PMM loaded!" ;;
  log_info "Initalizing ACPI and APIC..." ;;
  m ← init_acpi_tables;
  init_apic_off polls m.

Definition paging : M unit :=
  log_info "Loading VMM..." ;;
  vmm_init pmm_alloc_block ;;
  log_success "VMM loaded!" ;;
  log_info "Starting CPUs...".

Definition from_smp_p (polls : nat) : prog unit :=
  smp_init_p polls ;;
  act (printf "Done!{n}" []) ;;
  act (printf "Hi!{n}" []) ;;
  act hcf.

(** What follows the keyboard's part: the paging, which is one step as far as what it looks at
    goes, and the rest. *)
Definition after_acpi (polls : nat) : prog unit := act paging ;; from_smp_p polls.

(** ** Reference *)

(** A machine that boots ([bootable] without its part on the processors), whose
    interrupts come at any time and not only while the kernel polls. *)
Record bootable_irq (s : kstate) (c : boot_config) (polls : nat) : Prop := {
  bi_fresh : fresh s;
  bi_apic : k_apic s = apic_globals_init;
  bi_memory : memory_ok s c;
  bi_devices : devices_ok s c polls;
  bi_paging : paging_ok s c;
  bi_response : smp_request_response (k_boot s) = Some (bc_smp c);
  bi_count : sr_cpu_count (bc_smp c) = Z.of_nat (length (sr_cpus (bc_smp c)));
  bi_small : sr_cpu_count (bc_smp c) < 2 ^ 29;
  bi_irq : keyboard_state s = NORMAL_STATE /\ keyboard_tabled (k_hw s) /\
    forall t, hw_irq (k_hw s) t = 0%nat;
}.

(** The kernel at its idle loop after [n] ticks, with its page tables in place and,
    since [s1], the processors started in the bootloader's order and the keyboard's
    controller given the commands of its start-up. *)
Record up (s : kstate) (c : boot_config) (s1 : kstate) (root n : Z) (s' : kstate) : Prop := {
  up_idle : idle_ok s';
  up_inv : exists U n T, vmm_inv s' U n T root;
  up_translate : forall va, translate s' root va = address_space (boot_regions s c) va;
  up_ticks : apic_timer_ticks (k_apic s') = n;
  up_started : started (k_trace s') = started (k_trace s1) ++
    (if sr_cpu_count (bc_smp c) =? 1 then [] else goto s <$> sr_cpus (bc_smp c));
  up_commands : commands (k_trace s') = commands (k_trace s1) ++ start_commands;
}.

(** The interrupt flag after a trace; the bootloader hands over with it clear. *)
Definition interrupts_on (t : list event) : bool :=
  foldl (fun b i => match i with Cli => false | Sti => true | _ => b end) false (instrs t).

(** Whether the kernel has programmed any memory-mapped device, as it has to for the
    I/O APIC to let the keyboard's interrupts through and the local APIC the timer's:
    the bootloader hands over with the pins of both interrupt controllers masked. *)
Definition programmed (t : list event) : Prop := exists w a v, EvMmioWrite w a v ∈ t.

(** ** Lemmas *)

(** *** Before the sti *)

Lemma interrupts_on_device t : interrupts_on t = interrupts_on (device t).
Proof. unfold interrupts_on. by rewrite instrs_device. Qed.

Lemma programmed_device t : programmed t -> programmed (device t).
Proof.
  intros (w & a & v & H). exists w, a, v. unfold device. apply list_elem_of_omap. by eexists (EvMmioWrite w a v).
Qed.

Lemma device_prefix t t' : t `prefix_of` t' -> device t `prefix_of` device t'.
Proof. intros [k ->]. exists (device k). apply device_app. Qed.

Lemma prefix_app_cases {A} (l a b : list A) :
  l `prefix_of` a ++ b -> l `prefix_of` a \/ exists l', l = a ++ l' /\ l' `prefix_of` b.
Proof.
  revert l. induction a as [|x a IH]; intros l Hl; [right; by exists l|].
  destruct l as [|y l]; [left; apply prefix_nil|]. cbn in Hl.
  pose proof (prefix_cons_inv_1 _ _ _ _ Hl) as ->. apply prefix_cons_inv_2 in Hl.
  destruct (IH l Hl) as [H|(l' & -> & H)]; [left; by apply prefix_cons|right; by exists l'].
Qed.

(** With nothing programmed before a cli and the flag clear from there to the end, no
    interrupt comes before the end. *)
Lemma silent_till_end a mid t :
  ~ programmed a -> instrs mid = [] -> t `prefix_of` a ++ [EvAsm Cli] ++ mid ++ [EvAsm Sti] ->
  interrupts_on t = true -> programmed t -> t = a ++ [EvAsm Cli] ++ mid ++ [EvAsm Sti].
Proof.
  intros Ha Hmid Ht Hon Hp. destruct (prefix_app_cases _ _ _ Ht) as [[k ->]|(t1 & -> & Ht1)].
  { exfalso. apply Ha. destruct Hp as (w & x & v & H). exists w, x, v. apply elem_of_app. by left. }
  f_equal. destruct t1 as [|e t1].
  { exfalso. rewrite app_nil_r in Hp. by apply Ha. }
  cbn [app] in *. pose proof (prefix_cons_inv_1 _ _ _ _ Ht1) as ->. apply prefix_cons_inv_2 in Ht1. f_equal.
  destruct (prefix_app_cases _ _ _ Ht1) as [[k ->]|(t2 & -> & Ht2)].
  - exfalso. rewrite instrs_app in Hmid. apply app_nil in Hmid as [Hmid _]. revert Hon.
    unfold interrupts_on. change (EvAsm Cli :: t1) with ([EvAsm Cli] ++ t1).
    by rewrite !instrs_app, Hmid, !foldl_app.
  - destruct t2 as [|e2 t2].
    + exfalso. revert Hon. unfold interrupts_on. rewrite app_nil_r.
      change (EvAsm Cli :: mid) with ([EvAsm Cli] ++ mid). by rewrite !instrs_app, Hmid, !foldl_app.
    + pose proof (prefix_cons_inv_1 _ _ _ _ Ht2) as ->. apply prefix_cons_inv_2 in Ht2.
      by apply prefix_nil_inv in Ht2 as ->.
Qed.

(** [up_to_sti] ends with the sti. *)
Definition ends_with_sti {A} (m : M A) : Prop :=
  forall s a s', m s = Done a s' -> exists t, k_trace s' = t ++ [EvAsm Sti].

Lemma ends_bind {A B} (m : M A) (f : A -> M B) :
  (forall a, ends_with_sti (f a)) -> ends_with_sti (m ≫= f).
Proof.
  intros Hf s b s' E. destruct (bind_runs _ _ _ _ _ E) as (a & s1 & E1).
  rewrite (bind_done _ _ _ _ _ E1) in E. by apply (Hf a s1 b s').
Qed.

Lemma ends_sti : ends_with_sti (asm Sti).
Proof. intros s a s' [= _ <-]. by eexists. Qed.

Lemma up_to_sti_ends polls : ends_with_sti (up_to_sti polls).
Proof.
  unfold up_to_sti, init_apic_off. repeat (apply ends_bind; intros ?). apply ends_sti.
Qed.

Lemma tables_not_programmed lk : ~ programmed (EvAsm <$> tables_loaded lk).
Proof. intros (w & a & v & H). apply list_elem_of_fmap in H as (i & [=] & _). Qed.

Lemma no_interrupt_yet s1 lk ev mid t :
  (exists t, k_trace s1 = t ++ [EvAsm Sti]) -> device (k_trace s1) = (EvAsm <$> tables_loaded lk) ++ ev ->
  ev = [EvAsm Cli] ++ mid ++ [EvAsm Sti] -> instrs mid = [] ->
  t `prefix_of` k_trace s1 -> interrupts_on t = true -> programmed t -> t = k_trace s1.
Proof.
  intros [t1 Et1] Hd -> Hmid Ht Hon Hp. pose proof (device_prefix _ _ Ht) as Hdt. rewrite Hd in Hdt.
  apply silent_till_end in Hdt; [|apply tables_not_programmed|done|by rewrite <- interrupts_on_device
    |by apply programmed_device].
  rewrite <- Hd, Et1, device_app in Hdt. rewrite Et1 in Ht |- *.
  destruct (prefix_app_cases _ _ _ Ht) as [Ht1|(k & -> & Hk)].
  - exfalso. apply device_prefix in Ht1. apply prefix_length in Ht1. rewrite Hdt, length_app in Ht1.
    change (length (device [EvAsm Sti])) with 1%nat in Ht1. lia.
  - f_equal. destruct k as [|e k].
    + exfalso. rewrite app_nil_r in Hdt. apply (f_equal length) in Hdt. rewrite length_app in Hdt.
      change (length (device [EvAsm Sti])) with 1%nat in Hdt. lia.
    + pose proof (prefix_cons_inv_1 _ _ _ _ Hk) as ->. apply prefix_cons_inv_2 in Hk.
      by apply prefix_nil_inv in Hk as ->.
Qed.

(** *** The four parts *)

Lemma start_cut polls s :
  _start polls s =
    (up_to_sti polls ;; x ← denote (keyboard_off_p polls);
     denote (keyboard_on_p x.1 x.2 ;; after_acpi polls)) s.
Proof.
  transitivity ((up_to_sti polls ;; (ps2_int_init polls ;; log_success "IOAPIC initalized") ;;
    paging ;; smp_init polls ;; printf "Done!{n}" [] ;; printf "Hi!{n}" [] ;; hcf) s).
  - unfold _start, start_services, up_to_sti, paging, init_acpi, init_apic.
    repeat (rewrite ?bind_assoc; apply bind_ext; [done|]; intros ? ?; cbn beta).
    reflexivity.
  - apply bind_ext; [done|]. intros [] s1.
    transitivity ((denote (x ← keyboard_off_p polls; keyboard_on_p x.1 x.2) ;;
      denote (after_acpi polls)) s1).
    + apply bind_ext; [symmetry; apply keyboard_same|]. intros [] s2. symmetry.
      unfold after_acpi, from_smp_p. same_steps.
    + rewrite <- denote_bind_bind. symmetry. apply denote_bind.
Qed.

#[local] Hint Constants Opaque : typeclass_instances.
#[global] Instance insensitive_paging : Insensitive paging.
Proof. unfold paging. apply _. Qed.

Lemma up_to_sti_done s c polls :
  bootable_irq s c polls ->
  exists s1 s2 s3 ev, up_to_sti polls s = Done tt s1 /\ memory_ready s c s2 /\
    pins_known s1 (bc_records c) /\ testing (k_trace s1) = false /\
    (exists io sp ts cur, Forall (timer_reading (bc_port c)) ts /\
       device (k_trace s1) = (EvAsm <$> tables_loaded (k_link s)) ++
         apic_off 0 (bc_lapic c) io (bc_version c) sp ts cur) /\
    (ps2_int_init polls ;; log_success "IOAPIC initalized") s1 = Done tt s3 /\
    apic_events c ev /\ devices_ready s c ev s2 s3 /\
    exists es3 ds data io gsi, s3 = emits es3 s1 /\
      device es3 = controller_start ds data ++ entry_writes io gsi 0 ++ entry_writes io gsi 33.
Proof.
  intros [Hf Hap Hm Hd _ _ _ _ _].
  enough (wp (up_to_sti polls) (fun _ s1 => exists s2 s3 ev, memory_ready s c s2 /\
    pins_known s1 (bc_records c) /\ testing (k_trace s1) = false /\
    (exists io sp ts cur, Forall (timer_reading (bc_port c)) ts /\
       device (k_trace s1) = (EvAsm <$> tables_loaded (k_link s)) ++
         apic_off 0 (bc_lapic c) io (bc_version c) sp ts cur) /\
    (ps2_int_init polls ;; log_success "IOAPIC initalized") s1 = Done tt s3 /\
    apic_events c ev /\ devices_ready s c ev s2 s3 /\
    exists es3 ds data io gsi, s3 = emits es3 s1 /\
      device es3 = controller_start ds data ++ entry_writes io gsi 0 ++ entry_writes io gsi 33)
    never s) as Hw.
  { apply wp_inv_done in Hw as ([] & s1 & E & s2 & s3 & ev & H). by exists s1, s2, s3, ev. }
  unfold up_to_sti. apply wp_bind.
  eapply wp_mono; [by apply wp_start_tables|intros [] s1 H1|done].
  boot_log. wp_step. apply (wp_pmm_init_boot s c); try done; [apply log_line_console|]. intros s2 H2.
  do 2 boot_log. rewrite emits_app.
  match goal with |- wp _ _ _ (emits ?es _) => destruct (init_acpi_boot s c polls s2 es)
    as (s1' & s3 & ev & E & H); [done..|by apply console_only_app; apply log_line_console|] end.
  eapply wp_done; [exact E|]. exists s2, s3, ev. split; [done|]. by rewrite <- (m2_device _ _ _ H2).
Qed.

Lemma paging_done s c s2 ev s3 :
  memory_ok s c -> paging_ok s c -> memory_ready s c s2 -> devices_ready s c ev s2 s3 ->
  exists root k s4 es, paging s3 = Done tt (emits es s4) /\ paging_ready s c root k s3 s4.
Proof.
  intros Hm Hp H2 H3.
  enough (wp paging (fun _ s' => exists root k s4 es, s' = emits es s4 /\
    paging_ready s c root k s3 s4) never s3) as Hw.
  { apply wp_inv_done in Hw as ([] & s' & E & root & k & s4 & es & -> & H). by exists root, k, s4, es. }
  unfold paging. boot_log. wp_step.
  apply (wp_vmm_init_boot s c s2 ev); [done..|apply log_line_console|].
  intros root k s4 H4. do 2 boot_log. rewrite emits_app. eexists root, k, s4, _. exact (conj eq_refl H4).
Qed.


Lemma acpi_idle s c polls s2 ev s3 :
  bootable_irq s c polls -> apic_events c ev -> devices_ready s c ev s2 s3 ->
  idle_ok s3 /\ apic_timer_ticks (k_apic s3) = 0.
Proof.
  intros Hb Hev [[Hhw _ _ Hkb] _ _ _ Hap Hdev]. destruct (bi_irq _ _ _ Hb) as (Hkey & Htab & _).
  assert (apic_timer_ticks (k_apic s3) = 0) as Ht by (by rewrite Hap; cbn; rewrite (bi_apic _ _ _ Hb)).
  split; [|done]. split; [rewrite Hkb, Hkey; by left|rewrite Ht; lia|by rewrite Hhw|].
  rewrite testing_device, Hdev, testing_app. by apply (test_apic_events _ c).
Qed.

(** The paging, after whatever interrupts, leaves what it leaves without. *)
Lemma paging_since N s3 s4 t s' :
  paging s3 = Done tt s4 -> since true false N s3 t [] s' ->
  exists s1, paging s' = Done tt s1 /\ since true false N s4 t [] s1.
Proof.
  intros E [Hq Hok Ht Hr Htk Hst Htb Hcb _].
  pose proof (insensitive (m := paging) s3 s' Hq) as Hsame. rewrite E in Hsame.
  pose proof (leaves_counts (m := paging) s3) as H3. rewrite E in H3.
  pose proof (leaves_counts (m := paging) s') as H'.
  destruct (paging s') as [[] s1|s1|f s1|]; try done. destruct Hsame as [_ Hq1].
  cbn in H3, H'. exists s1. split; [done|].
  pose proof (ready_counts true _ _ H' Hok). injection H3 as _ Ht3 _ Hst3 Htb3 Hcb3 _. injection H' as _ Ht' _ Hst' Htb' Hcb' _.
  split; try done; rewrite ?Ht3; try done; congruence.
Qed.

Lemma paging_step {B} N s3 s4 (k : unit -> prog B) Q H t s :
  paging s3 = Done tt s4 -> since true false N s3 t [] s ->
  (forall t' s', t <= t' -> since true false N s4 t' [] s' -> iwp true N (k tt) Q H t' s') ->
  iwp true N (act paging ≫= k) Q H t s.
Proof.
  intros E Hs Hk. apply iwp_bind, (iwp_act true false N _ _ _ s3 t [] s Hs). intros t1 s1 Ht1 Hs1.
  destruct (paging_since N s3 s4 t1 s1 E Hs1) as (s2 & E2 & Hs2).
  eapply wp_done; [exact E2|]. exists s4, []. split; [done|]. intros t3 s5 Ht3 Hs3.
  apply Hk; [lia|done].
Qed.

(** The processor halts, and takes interrupts. *)
Lemma iwp_hcf N base cpus (Q : Z -> unit -> kstate -> Prop) H t s :
  since true false N base t cpus s -> (forall t' s', since true false N base t' cpus s' -> H t' s') ->
  iwp true N (act hcf) Q H t s.
Proof.
  intros Hs HH. apply (iwp_act true false N _ _ _ base t cpus s Hs). intros t1 s1 Ht1 Hs1.
  unfold wp, hcf. rewrite idle_halts. exists base, cpus.
  split; [by apply since_quiet_emits|]. intros t2 s2 _. apply HH.
Qed.

(** *** The processors and the idle loop *)

(** The state the processors are started from, as [smp_init] leaves it. *)
Definition flagged (r : limine_smp_response) (s : kstate) : kstate :=
  if sr_cpu_count r =? 1 then set_state_single_processor true s else s.

Definition sent (r : limine_smp_response) (s : kstate) : list (Z * Z) :=
  if sr_cpu_count r =? 1 then [] else goto s <$> sr_cpus r.

Lemma smp_ready_since N base r t0 t s :
  smp_ready false N base r t0 t s ->
  exists cpus, cpus.*1 = sent r base /\ since true false N (flagged r base) t cpus s.
Proof.
  unfold smp_ready, flagged, sent. case_match; [by exists []|].
  intros (ts & Hl & _ & _ & Hs). eexists. split; [|exact Hs]. apply zip_fst. by rewrite length_fmap.
Qed.

Section boot.
Context (s : kstate) (c : boot_config) (polls : nat) (Hb : bootable_irq s c polls).
Context (s3 s4 : kstate) (root : Z) (k : nat) (es : list event).
Context (Hs3 : idle_ok s3) (Ht3 : apic_timer_ticks (k_apic s3) = 0).
Context (E4 : paging s3 = Done tt (emits es s4)).
Context (H4 : paging_ready s c root k s3 s4).
Context (N : Z) (HN : 0 <= N < 2 ^ 31).
(** [s1] is where [init_apic] lets the interrupts in. *)
Context (s1 : kstate) (Hst1 : started (k_trace s3) = started (k_trace s1)).
Context (Hcm1 : commands (k_trace s3) = commands (k_trace s1) ++ start_commands).

Lemma up_since t cpus s' :
  cpus.*1 = sent (bc_smp c) (emits es s4) ->
  since true false N (flagged (bc_smp c) (emits es s4)) t cpus s' ->
  apic_timer_ticks (k_apic s4) = 0 -> started (k_trace (emits es s4)) = started (k_trace s3) ->
  commands (k_trace (emits es s4)) = commands (k_trace s3) ->
  up s c s1 root t s'.
Proof using H4 Hst1 Hcm1.
  intros Hcpus [Hq Hok _ _ Htk Hst _ Hcm _] Ht4 Hst4 Hcm4. rewrite Hcpus in Hst. destruct H4 as [[_ _ Hlk _] _ _ (U & n & T & Hinv) Htr _].
  assert (quiet s4 s' \/ quiet (set_state_single_processor true s4) s') as Hq'
    by (unfold flagged in Hq; case_match; [right|left]; exact Hq).
  assert (k_ram s' = k_ram s4 /\ k_hw s' = k_hw s4 /\ k_pmm s' = k_pmm s4 /\ k_vmm s' = k_vmm s4)
    as (Hr & Hh & Hp & Hv)
    by (destruct Hq' as [Hq'|Hq']; rewrite <- (k_ram_proper _ _ Hq'), <- (k_hw_proper _ _ Hq'),
          <- (k_pmm_proper _ _ Hq'), <- (k_vmm_proper _ _ Hq'); done).
  split; [by apply idle_ready| | | | |].
  - exists U, n, T. by apply (vmm_inv_frame s4).
  - intros va. rewrite <- Htr. unfold translate. by rewrite Hr.
  - rewrite Htk. unfold flagged. case_match; cbn; lia.
  - rewrite Hst. unfold flagged, sent, goto. cbn [k_link emits set_trace]. rewrite Hlk.
    rewrite <- Hst1, <- Hst4. by case_match.
  - rewrite Hcm, <- Hcm1, <- Hcm4. unfold flagged. by case_match.
Qed.

Lemma paged_counts :
  apic_timer_ticks (k_apic s4) = 0 /\ started (k_trace (emits es s4)) = started (k_trace s3) /\
  commands (k_trace (emits es s4)) = commands (k_trace s3).
Proof using Ht3 E4.
  pose proof (leaves_counts (m := paging) s3) as Hl. rewrite E4 in Hl.
  injection Hl as _ Ht _ Hst _ Hcm _. by split; [rewrite <- Ht3|].
Qed.

Lemma started_from :
  (forall t, hw_irq (k_hw (emits es s4)) t = 0%nat) /\
  smp_request_response (k_boot (emits es s4)) = Some (bc_smp c).
Proof using Hb H4.
  destruct H4 as [[Hhw Hbo _ _] _ _ _ _ _], Hb as [_ _ _ _ _ Hr _ _ (_ & _ & Hirq)].
  cbn. rewrite Hhw, Hbo. by split.
Qed.

Lemma after_acpi_iwp t0 s0 :
  since true false N s3 t0 [] s0 ->
  iwp true N (after_acpi polls) (fun _ _ _ => False) (fun t s' => up s c s1 root t s') t0 s0.
Proof using All.
  intros Hs0. destruct paged_counts as (Ht4 & Hst4 & Hcm4), started_from as [Hirq Hr].
  apply (paging_step N s3 (emits es s4)); [done|exact Hs0|].
  intros t1 s5 _ Hs5. apply iwp_bind.
  eapply iwp_mono; [apply (iwp_smp_init false N (emits es s4) Hirq (bc_smp c) Hr);
    [apply Hb|pose proof (bi_small _ _ _ Hb); lia|done]|].
  intros t2 [] s6 _ (cpus & Hcpus & Hs6)%smp_ready_since.
  eapply iwp_bind, iwp_printf; [done|done|]. intros t3' s7 _ Hs7.
  eapply iwp_bind, iwp_printf; [done|done|]. intros t4' s8 _ Hs8.
  eapply iwp_hcf; [done|]. intros t5 s9 Hs9. by apply (up_since t5 cpus).
Qed.

Lemma after_acpi_halts :
  (2 <= polls)%nat -> 2 * sr_cpu_count (bc_smp c) <= N -> halts N (after_acpi polls) 0 s3.
Proof using Hb Hs3 Ht3 E4 H4 HN.
  intros Hp Hn. destruct started_from as [Hirq Hr].
  assert (since true false N s3 0 [] s3) as Hs by (apply since_refl; [done|lia..]).
  destruct (paging_since N s3 (emits es s4) 0 s3 E4 Hs) as (s5 & E5 & Hs5).
  apply halts_bind, ewp_act. eapply wp_done; [exact E5|]. apply halts_bind.
  eapply ewp_mono; [apply (ewp_smp_init false N (emits es s4) Hirq (bc_smp c) Hr);
    [apply Hb|pose proof (bi_small _ _ _ Hb); lia|done|done|lia]|].
  intros t2 [] s6 (cpus & Hcpus & Hs6)%smp_ready_since.
  eapply halts_bind, ewp_printf; [done|done|]. intros s7 Hs7.
  eapply halts_bind, ewp_printf; [done|done|]. intros s8 Hs8.
  eapply halts_act; [apply idle_halts|]. pose proof (si_t _ _ _ _ _ _ _ Hs8). lia.
Qed.
End boot.

(** The state in which [init_apic] lets the interrupts in. *)
Lemma let_in N s1 s3 e3 ds data io gsi :
  s3 = emits e3 s1 ->
  device e3 = controller_start ds data ++ entry_writes io gsi 0 ++ entry_writes io gsi 33 ->
  idle_ok s3 -> apic_timer_ticks (k_apic s3) = 0 -> 0 <= N < 2 ^ 31 ->
  started (k_trace s3) = started (k_trace s1) /\
  commands (k_trace s3) = commands (k_trace s1) ++ start_commands /\
  keyboard_tabled (k_hw s1) /\ since false false N s1 0 [] s1.
Proof.
  intros -> Hd [Hk Ht Htab _] H0 HN. destruct (controller_does _ _ _ _ _ Hd) as [[Hc Hst] _].
  change (k_trace (emits e3 s1)) with (k_trace s1 ++ e3).
  rewrite started_app, commands_app, Hc, Hst, app_nil_r. do 3 (split; [done|]).
  change (apic_timer_ticks (k_apic s1) = 0) in H0. split; try done; try lia.
  by rewrite app_nil_r.
Qed.

(** What the boot comes to from the sti on. *)
Lemma boot_reaches s c polls :
  bootable_irq s c polls ->
  exists s1 root, up_to_sti polls s = Done tt s1 /\
    (exists io sp ts cur, Forall (timer_reading (bc_port c)) ts /\
       device (k_trace s1) = (EvAsm <$> tables_loaded (k_link s)) ++
         apic_off 0 (bc_lapic c) io (bc_version c) sp ts cur) /\
    (forall qs qs' o, keyboard_run polls (after_acpi polls) qs qs' s1 o ->
       Z.of_nat (timers (qs ++ qs')) < 2 ^ 31 ->
       o = OutOfFuel \/
       exists s', o = Halted s' /\ up s c s1 root (Z.of_nat (timers (qs ++ qs'))) s') /\
    ((2 <= polls)%nat -> exists qs qs' s',
       keyboard_run polls (after_acpi polls) qs qs' s1 (Halted s') /\
       up s c s1 root (Z.of_nat (timers (qs ++ qs'))) s').
Proof.
  intros Hb.
  destruct (up_to_sti_done s c polls Hb) as (s1 & s2 & s3 & ev & E1 & H2 & Hpins & Hte1 & Hd1 & E3 &
    Hev & H3 & e3 & ds & data & io & gsi & Es3 & Hd3).
  destruct (acpi_idle s c polls s2 ev s3 Hb Hev H3) as [Hs3 Ht3].
  destruct (paging_done s c s2 ev s3 (bi_memory _ _ _ Hb) (bi_paging _ _ _ Hb) H2 H3)
    as (root & k & s4 & es & E4 & H4).
  assert (forall qs qs' o, keyboard_run polls (after_acpi polls) qs qs' s1 o ->
    Z.of_nat (timers (qs ++ qs')) < 2 ^ 31 -> o = OutOfFuel \/
    exists s', o = Halted s' /\ up s c s1 root (Z.of_nat (timers (qs ++ qs'))) s') as Hall.
  { intros qs qs' o Hrun Hqs. set (N := Z.of_nat (timers (qs ++ qs'))) in *.
    destruct (let_in N s1 s3 e3 ds data io gsi Es3 Hd3 Hs3 Ht3 ltac:(lia)) as (Hst1 & Hcm1 & Htab & Hs1).
    pose proof (keyboard_run_all polls (after_acpi polls) (bc_records c) s1 Hpins Hte1 Htab N
      (fun _ _ _ => False) (fun t s' => up s c s1 root t s') qs qs' s1 o Hs1 Hrun ltac:(lia)) as Hw.
    assert (match o with Halted s' => up s c s1 root N s' | OutOfFuel => True | _ => False end) as Ho.
    { destruct o; apply Hw; intros t e s' He Hte Hs'.
      all: apply (after_acpi_iwp s c polls Hb s3 s4 root k es Hs3 Ht3 E4 H4 N ltac:(lia) s1 Hst1 Hcm1).
      all: rewrite Es3; by apply (since_alone true N s1 e e3 t s' ds data io gsi). }
    destruct o as [[] s'|s'|f s'|]; try done; [|by left]. right. by exists s'. }
  exists s1, root. do 3 (split; [done|]). intros Hp.
  pose proof (bi_small _ _ _ Hb). pose proof (bi_count _ _ _ Hb).
  destruct (after_acpi_halts s c polls Hb s3 s4 root k es Hs3 Ht3 E4 H4
    (2 * sr_cpu_count (bc_smp c)) ltac:(lia) Hp ltac:(lia)) as (qs & s' & Hrun & Hqs).
  pose proof (keyboard_run_some polls _ s1 s3 qs _ E3 Hrun) as Hk.
  exists [], qs, s'. split; [done|].
  destruct (Hall [] qs _ Hk ltac:(change ([] ++ qs) with qs; lia)) as [|(s5 & [= <-] & Hup)]; done.
Qed.

(** ** Properties *)

(** C3: a boot with interrupts.  [_start] is what it does up to the sti of
    [init_apic], the program of the keyboard's part, and [after_acpi].  Up to that sti
    nothing can interrupt it: the interrupt flag is set from [idt_load] to the cli of
    [init_apic], but no source raises an interrupt before the kernel has programmed a
    device ([Hraises]; the bootloader hands over with the pins of the interrupt
    controllers masked), and the flag is clear from there on.  After it, however the
    timer's interrupts come while the keyboard's controller is started (the keyboard's
    own pin has no vector yet), and the timer's and the keyboard's after that, between
    the steps and inside the set-up of the page tables, the kernel either waits for
    longer than the model follows or reaches the idle loop: ready for interrupts, the
    address space the one of an undisturbed boot, the controller given its commands,
    the processors started in order, every tick counted.  Given the ticks the sleeps
    wait for, there is a run that gets there.  The keyboard sends only codes its table
    covers ([bootable_irq]), and less than 2^31 ticks come. *)
Theorem boot_interrupted (s : kstate) (c : boot_config) (polls : nat)
    (raises : list event -> irq -> Prop)
    (Hb : bootable_irq s c polls) (Hraises : forall t q, raises t q -> programmed t) :
  (forall s0, _start polls s0 = (up_to_sti polls ;; x ← denote (keyboard_off_p polls);
     denote (keyboard_on_p x.1 x.2 ;; after_acpi polls)) s0) /\
  exists s1 root, up_to_sti polls s = Done tt s1 /\
    (forall t q, t `prefix_of` k_trace s1 -> interrupts_on t = true -> raises t q -> t = k_trace s1) /\
    (forall qs qs' o, keyboard_run polls (after_acpi polls) qs qs' s1 o ->
       Z.of_nat (timers (qs ++ qs')) < 2 ^ 31 ->
       o = OutOfFuel \/
       exists s', o = Halted s' /\ up s c s1 root (Z.of_nat (timers (qs ++ qs'))) s') /\
    ((2 <= polls)%nat -> exists qs qs' s',
       keyboard_run polls (after_acpi polls) qs qs' s1 (Halted s') /\
       up s c s1 root (Z.of_nat (timers (qs ++ qs'))) s').
Proof.
  split; [apply start_cut|].
  destruct (boot_reaches s c polls Hb) as (s1 & root & E1 & (io & sp & ts & cur & Hts & Hd) & Hall & Hrun).
  exists s1, root. split; [done|]. split; [|by split].
  destruct (apic_off_between 0 (bc_lapic c) io (bc_version c) sp ts cur _ Hts) as (mid & Em & Hmid).
  intros t q Ht Hon Hr. eapply no_interrupt_yet; [by eapply up_to_sti_ends|done..|by eapply Hraises].
Qed.

Lemma boot_irq_bootable :
  bootable_irq (boot_state_with (fun _ => 0%nat)) sample_config 23.
Proof.
  split; [|done|apply boot_memory_ok|apply boot_devices_ok|apply boot_paging_ok|done..|].
  - split_and!; try done. by eexists _, _.
  - split_and!; try done. intros t Ht. cbn. by rewrite Ht.
Qed.

(** A timer that interrupts once its initial count is written. *)
Definition sample_raises (t : list event) (q : irq) : Prop :=
  q = Timer /\ exists v, EvMmioWrite 32 (0xfee00000 ⊕ LAPIC_INITCNT_REG) v ∈ t.

Lemma boot_interrupted_witness :
  let s := boot_state_with (fun _ => 0%nat) in
  exists s1 root, up_to_sti 23 s = Done tt s1 /\
    (forall t, t `prefix_of` k_trace s1 -> interrupts_on t = true -> sample_raises t Timer ->
       t = k_trace s1) /\
    exists qs qs' s',
      keyboard_run 23 (after_acpi 23) qs qs' s1 (Halted s') /\
      up s sample_config s1 root (Z.of_nat (timers (qs ++ qs'))) s'.
Proof.
  destruct (boot_interrupted (boot_state_with (fun _ => 0%nat)) sample_config 23 sample_raises boot_irq_bootable)
    as (_ & s1 & root & E1 & Hoff & _ & Hrun); [by intros t q [_ [v H]]; eexists _, _, v|].
  exists s1, root. split; [exact E1|]. split; [by intros t; apply (Hoff t Timer)|]. apply Hrun. lia.
Defined.
